(* ===== verification/_CoqProject ===== *)
-Q . S2P
Prelude.v
Text.v
TextFacts.v
Models.v
Utils.v
UtilsProps.v
ConfigProps.v
Logging.v
CircuitBreaker.v
Http.v
Metrics.v
MetricsProps.v
Cache.v
CacheProps.v
CacheInterface.v
Redis.v
AsyncHttpClient.v
Backendify.v
QueryProps.v
BackendifyProps.v
CompletionProps.v
ServiceProps.v
History.v
HttpServerSession.v
SessionProps.v
BeastHttpServer.v
ServerProps.v
System.v
SystemProps.v
Main.v
MainProps.v
ShutdownProps.v
Examples.v
SystemExamples.v
HttplibText.v
HttplibTextProps.v
Regex.v
RegexProps.v
HttplibUrl.v
HttplibRangeProps.v
HttplibStream.v
HttplibStreamProps.v
HttplibContent.v
HttplibMultipart.v
HttplibMultipartProps.v
HttplibTermination.v
HttplibContentProps.v
HttplibMessage.v
HttplibServer.v
HttplibServerProps.v
HttplibSafety.v
HttplibSocket.v
HttplibSocketProps.v
HttplibConnect.v
HttplibConnectProps.v
HttplibClient.v
HttplibClientSend.v
HttplibClientMethods.v
HttplibClientSafety.v
HttplibClientReads.v
HttplibClientProps.v
HttplibThreadPool.v
HttplibThreadPoolProps.v
HttplibListen.v
HttplibListenProps.v
BackendApi.v
BackendApiProps.v
BackendClientProps.v
