(* ===== verification/Prelude.v ===== *)
(** * Backendify: a verification development (root file)

    The repository holds an HTTP facade (src/src/) that answers
    [GET /company?id=..&country_iso=..] from a cache or by a call of the
    country's backend, and a stand-in backend (src/BackendServers/) built on
    the header-only library httplib.h. This library is a shallow embedding of
    both: every method is a Rocq function that can be evaluated, and the
    theorems are about those functions. The names of definitions are those of
    the code.

    ** How the code is rendered

    - [outcome] (this file) is the result of code that may throw an exception
      ([Throw]) or run into undefined behaviour ([UB]); [M S A] is a computation
      over the state [S] with such a result, whose state survives an exception.
    - Integers are [Z], with [wrap64], [to_u64], [int32] and the like where the
      machine width matters. A [std::string] is a [string] of 8-bit characters.
    - A map or set of the code is a [gmap] or [gset]; a [std::multimap] is a
      list in the order of its iteration; a linked list with iterators is a
      list of nodes with identities (Cache.v).
    - Asynchronous code is a state machine. What has been started is a part of
      the state ([pending], [reading], [writing], [posted] and so on), an event
      is the completion of one of these with any error code, and a step runs
      its handler. Handlers are atomic: sessions and calls run on strands, and
      shared objects (cache, breaker, metrics queue) lock a mutex in every
      method.
    - Clock readings, the network, files, the environment and the libraries are
      parameters: [Beast] (header strings, keep-alive rule), [JsonApi]
      (nlohmann::json), [Hiredis] and [RedisServer], [Env] and [ServerEnv]
      (configuration and clocks), [UDPSender.network], and for httplib
      [Platform] (file system, order of hash tables, random boundary), [os]
      (the system calls on a socket), [network] (resolver, connections) and
      [net] (the sockets a client gets and what the peers send).
      Examples.v and the Props files make them concrete for the witnesses.

    ** The files of the facade

    - Text, TextFacts: the parts of the C++ library the program parses with
      (character classes, [stoi], string streams, [get_time]) and lemmas.
    - Models: src/src/models/ and config/AppConfig.hpp. Utils: utils/Utils.hpp.
      UtilsProps: printed integers are read back, [timegm] is the calendar, the
      time-stamp comparison on canonical stamps, its overflow. ConfigProps:
      [match_url] is the regular expression, what [parseUrl] accepts, the
      well-formedness of a loaded configuration.
    - Logging: interfaces/ILogger.hpp, logging/, and the ownership of the
      singletons. Metrics, MetricsProps: metrics/ and third_party/UDPSender.hpp;
      the batching thread sends what was queued, in order.
    - CircuitBreaker: core/CircuitBreaker; a backend is blocked exactly during
      the cool-down of its last trip.
    - Cache, CacheProps: cache/InMemoryCache; the three containers refine one
      recency-ordered list, no iterator is ever invalid, the size bound, the
      soundness of [get]. CacheInterface: the interface as a class and the
      contract its clients use, with the in-memory instance. Redis:
      cache/RedisCache, which has the contract too, and a round trip.
    - Http: the messages and error codes the core shares. AsyncHttpClient:
      core/AsyncHttpClientSession.hpp; a call completes once, ends, and its
      timer never ends it.
    - Backendify: core/Backendify. QueryProps: the query parser and the cache
      key. BackendifyProps: [company_verdict] is the decision table of a
      request, which [processCompanyRequest] refines. CompletionProps: what is
      answered and cached for each answer of a backend. ServiceProps: the
      breaker across two requests. History: runs of the service, with any
      interleaving of requests, completions and shutdown; a request is answered
      at most once, the cache returns only what was answered before.
    - HttpServerSession, SessionProps: core/HttpServerSession; one activity at
      a time, a queue of at most one response. BeastHttpServer, ServerProps:
      core/BeastHttpServer with its sessions; the set of active sessions is
      exact, one accept is under way.
    - System, SystemProps: the server, its sessions and the service together;
      a session waits exactly for the calls under way for it, no wait is stuck
      unless an exception has lost the answer, and then it has no end.
    - Main, MainProps, ShutdownProps: src/src/main.cpp, its choice of
      implementations, its end (who holds the logger, and how often it is
      deleted), and the signal handler over the server and the service. Examples, SystemExamples: instances of the parameters and the
      witnesses.

    A request enters by [HttpServerSession.handle_request], which calls
    [Backendify.processCompanyRequest]; that starts an
    [AsyncHttpClientSession], whose completion runs
    [Backendify.on_backend_response], which gives the answer to the session's
    [send_response]. On its own, the session model takes the service's answer as
    an event ([Respond]) and the service model takes the callback as a
    parameter; System puts the one in the place of the other.

    ** The files of httplib and the stand-in backend

    - HttplibText (field syntax, encodings, paths, splitting), HttplibUrl
      (query strings, dispositions, byte ranges), HttplibStream (reading lines,
      headers and bodies, writing), HttplibContent (the connection written to,
      content providers and the three loops that call them), HttplibMultipart
      (the form-data parser and the serializer), HttplibMessage (requests,
      responses, route matchers), HttplibServer (settings, routes, content
      readers, file serving, ranges, responses, hooks, the connection loop),
      HttplibThreadPool (the task queue and its workers) and HttplibListen
      (bind, the accept loop, [stop]) model the server of
      BackendServers/httplib.h. Regex models the part of [<regex>] the routes
      use. HttplibSocket (system calls, [SocketStream], [BufferStream], the
      wait of a kept connection, [mmap]) and HttplibConnect ([create_socket],
      [create_client_socket], [create_server_socket]) model its sockets;
      HttplibClient ([ClientImpl]: settings, requests, results, the patterns
      for URLs), HttplibClientSend (a request from [send] to its response, with
      the socket and the redirects) and HttplibClientMethods ([Get] to
      [Options], forms) its client.
    - HttplibTextProps: [split] and [is_valid_path] against references.
      RegexProps: what the routes match. HttplibRangeProps: the ranges let
      through are safe to cut, the announced length is the length sent, and
      the header round trip. HttplibStreamProps: [getline] on the plain text,
      and header blocks and query parameters are read back. HttplibTermination:
      the reading loops and the form-data parser end by themselves: whatever
      the rounds beyond a bound were to do ([rounds] of this file), their
      results are those of the model.
      HttplibMultipartProps: the parser reads what the serializer writes.
      HttplibContentProps: what a provider sends in chunks is read back.
      HttplibServerProps: when a provider's content makes the same response as
      a body in memory, and what it makes otherwise; files are served from
      below the mount points; three concrete failures. HttplibSafety: a logic for computations that return,
      and with it that a server whose handlers keep to it ([server_ok])
      processes any connection to its end.
      HttplibThreadPoolProps, HttplibListenProps: jobs are begun in order, none
      is forgotten and no worker sleeps for ever; every accepted connection is
      closed once, and [stop] ends the loop, also out of [accept] (its
      [shutdown_socket] makes the call fail). The steps that may be counted on
      are those that are [due]: a spurious wake-up is not, nor a further call
      of [stop], nor a connection.
    - HttplibSocketProps: a [SocketStream] is a [stream] to whatever program
      reads from it and a [wire] to [write_data]; no wait is longer than its
      time-outs. HttplibConnectProps: no descriptor is lost while addresses are
      tried. HttplibClientReads: a [Get] reads the response a server prints.
      HttplibClientSafety: a request has no undefined behaviour if its callbacks
      have none. HttplibClientProps: a client loses no socket, whatever the
      network does and however often it is redirected; five concrete failures.
    - BackendApi, BackendApiProps: BackendServers/BackendApi.cpp; from the bytes
      of a GET request to the bytes of the response, and no bytes a client can
      send end the server. BackendClientProps: a client of httplib gets from it
      what the handler of the path has set.

    A worker of the pool runs [process_server_socket] on a connection the
    accept loop has queued; [process_request] reads a request, [routing] finds
    its handler, and [write_response_core] answers. The pool takes a job as
    opaque: what it does to the connection is the server's model. A client's
    [send] takes a socket, or keeps the one it has, and [process_socket] makes
    a stream on it; [handle_request] writes the request, reads the response and
    follows a redirect, which sends again, on this client or on a new one. The
    server and the client models read from a [stream], which
    [socket_reads_as_stream] relates to the [SocketStream] of the code; the
    sockets a client gets are those [create_client_socket] returns.

    ** Fuel

    Recursion that is not structural takes fuel. [evictLoop] has one round per
    list node and one more, and [cache_refines_lru] holds for it. The reading
    loops have one round per byte left in the stream ([stream_fuel]), the
    form-data parser two per byte of its buffer. Each loop is a definition of
    one round, with the rounds that follow as an argument ([X_round rec]), and
    the fixpoint over it; HttplibTermination proves that the fuel is never
    spent, for any [rec]. A loop that calls a content provider asks
    [is_shutting_down] once per round and has one round per answer left; for a
    client, where that is always false, there are as many answers as of
    [wait_writable], which end the loop. Interim responses are skipped with the
    fuel of the stream ([skip_continue_rounds]). [send_n] recurs on the
    redirects that are left, 20 by default, as the code does. [write_all] has a
    round for every answer of [send] and one more ([write_data_prefix]), and
    [keep_alive_loop] one for every reading of the server's socket. The other
    loops of the Httplib files have the length of their string, of which every
    round takes a character; [hex_loop] has one round per digit. [drive] in
    AsyncHttpClient is a schedule, four completions long, which is proved to be
    enough.

    ** Not modelled

    - httplib's TLS, digest authentication and compression, which are compiled
      only with macros this build does not set; the class [Client], whose
      methods forward to [ClientImpl]; the Windows branches; the system calls
      themselves, and the printing of socket addresses, which are what a
      connection is said to have. A client stores its time-outs, which act in
      the environment. src/src/third_party/httplib.h is the same file again.
    - third_party/json.hpp, Boost, hiredis and <regex> beyond Regex.v:
      libraries; a Redis server is whatever satisfies [RedisServer].
    - Short writes: on a [wire] a send takes all of its bytes until the
      connection breaks. [SocketStream.write_data] has the loop of the code.
    - Data races: a backend's completion calls [send_response] of a session from
      the call's strand, without a lock, and the signal handler stops sessions
      and cancels calls from its own thread; the models take every handler as
      one step. System does not count the I/O threads that exceptions end.
      Memory exhaustion is left out.
    - What Utils prints to the console, the Windows branches, tests and build
      files. *)

From stdpp Require Export base gmap sets list strings pretty.
From Stdlib Require Export ZArith Lia.

#[global] Open Scope Z_scope.
#[global] Set Default Proof Using "Type".

(** ** Record updates

    [x <| field := v |>] and [x <| field ::= f |>] for a record type with an
    [Eta] instance (its eta expansion, from which a field's setter is
    abstracted). *)

Class Eta (R : Type) := eta : R -> R.
#[global] Typeclasses Opaque Eta.
Class Setter {R E : Type} (proj : R -> E) := update_field : (E -> E) -> R -> R.
#[global] Typeclasses Opaque Setter.
Arguments update_field {R E} proj {_} f r /.

Ltac solve_setter :=
  match goal with
  | |- @Setter ?R ?E ?proj =>
      let i := constr:(_ : Eta R) in
      let e := eval hnf in i in
      lazymatch e with context [proj] => idtac end;
      lazymatch eval pattern proj in e with
      | ?f _ =>
          let u := eval cbv beta in (fun upd : E -> E => f (fun r : R => upd (proj r))) in
          exact u
      end
  end.

#[export] Hint Extern 1 (Setter _) => solve_setter : typeclass_instances.

Declare Scope backendify_scope.
Delimit Scope backendify_scope with bfy.

Notation "x <| proj := v |>" := (update_field proj (fun _ => v) x)
  (at level 1, left associativity, v at level 99, format "x <| proj  :=  v |>")
  : backendify_scope.
Notation "x <| proj ::= f |>" := (update_field proj f x)
  (at level 1, left associativity, f at level 99, format "x <| proj  ::=  f |>")
  : backendify_scope.

#[global] Open Scope backendify_scope.

(** ** Machine integers

    A C++ integer is a [Z]; the conversions and the signed overflow of the
    target (gcc on x86-64, two's complement) are written out. *)

Definition wrap32 (z : Z) : Z := (z + 2^31) mod 2^32 - 2^31.
Definition wrap64 (z : Z) : Z := (z + 2^63) mod 2^64 - 2^63.
Definition to_u16 (z : Z) : Z := z mod 2^16.
Definition to_u32 (z : Z) : Z := z mod 2^32.
Definition to_u64 (z : Z) : Z := z mod 2^64.

Definition int32 (z : Z) : Prop := - 2^31 <= z < 2^31.
#[export] Instance int32_dec z : Decision (int32 z).
Proof. unfold int32. apply _. Defined.

Definition int64 (z : Z) : Prop := - 2^63 <= z < 2^63.

Lemma wrap32_id z : int32 z -> wrap32 z = z.
Proof. unfold wrap32, int32. intros H. rewrite Z.mod_small; lia. Qed.

Lemma wrap64_id z : int64 z -> wrap64 z = z.
Proof. unfold wrap64, int64. intros H. rewrite Z.mod_small; lia. Qed.

Lemma wrap32_range z : int32 (wrap32 z).
Proof. unfold wrap32, int32. pose proof (Z.mod_pos_bound (z + 2^31) (2^32)). lia. Qed.

Lemma to_u32_id z : 0 <= z < 2^32 -> to_u32 z = z.
Proof. apply Z.mod_small. Qed.

Lemma to_u64_id z : 0 <= z < 2^64 -> to_u64 z = z.
Proof. apply Z.mod_small. Qed.

(** ** Failing computations

    The standard exceptions the program throws or catches, and the result of
    a computation: a value, a thrown exception, or undefined behaviour (an
    invalid iterator, [front()] of an empty deque), which no [catch] sees. *)

Inductive exn_kind :=
  | RuntimeError
  | InvalidArgument
  | OutOfRange
  | JsonParseError
  | JsonTypeError
  | OtherStdException.

Record exn := Exn { exn_type : exn_kind; what : string }.

Inductive outcome (A : Type) :=
  | Ret (a : A)
  | Throw (e : exn)
  | UB.
Arguments Ret {A} a.
Arguments Throw {A} e.
Arguments UB {A}.

#[export] Instance exn_kind_eq_dec : EqDecision exn_kind.
Proof. solve_decision. Defined.
#[export] Instance exn_eq_dec : EqDecision exn.
Proof. solve_decision. Defined.

#[export] Instance outcome_ret : MRet outcome := fun A a => Ret a.
#[export] Instance outcome_bind : MBind outcome := fun A B f m =>
  match m with
  | Ret a => f a
  | Throw e => Throw e
  | UB => UB
  end.

(** A stateful computation: a thrown exception keeps the effects that came
    before it, as C++ does. *)
Definition M (W A : Type) : Type := W -> outcome A * W.

#[export] Instance M_ret W : MRet (M W) := fun A a w => (Ret a, w).
#[export] Instance M_bind W : MBind (M W) := fun A B f m w =>
  match m w with
  | (Ret a, w') => f a w'
  | (Throw e, w') => (Throw e, w')
  | (UB, w') => (UB, w')
  end.

Definition throw {W A} (e : exn) : M W A := fun w => (Throw e, w).
Definition get_state {W} : M W W := fun w => (Ret w, w).
Definition modify {W} (f : W -> W) : M W unit := fun w => (Ret tt, f w).
Definition lift {W A} (o : outcome A) : M W A := fun w => (o, w).

(** [try { m } catch (e) { h e }]: undefined behaviour is not caught. *)
Definition try_catch {W A} (m : M W A) (h : exn -> M W A) : M W A := fun w =>
  match m w with
  | (Throw e, w') => h e w'
  | r => r
  end.

(** A local variable of a function body, beside the state: it keeps the value
    it had when an exception is thrown. *)
Definition get_local {S W} : M (S * W) S := λ w, (Ret w.1, w).
Definition set_local {S W} (s : S) : M (S * W) unit := λ w, (Ret tt, (s, w.2)).
Definition update_local {S W} (f : S -> S) : M (S * W) unit := λ w, (Ret tt, (f w.1, w.2)).

Definition global {S W A} (m : M W A) : M (S * W) A := λ w,
  let '(r, w') := m w.2 in (r, (w.1, w')).

(** Runs [m] with the local variable initialised to [s]; the result is its
    final value. *)
Definition with_local {S W A} (s : S) (m : M (S * W) A) : M W S := λ w,
  match m (s, w) with
  | (Ret _, (s', w')) => (Ret s', w')
  | (Throw e, (_, w')) => (Throw e, w')
  | (UB, (_, w')) => (UB, w')
  end.

Lemma M_bind_ret {W A B} (m : M W A) (f : A -> M W B) (w w' : W) a :
  m w = (Ret a, w') -> (m ≫= f) w = f a w'.
Proof. unfold mbind, M_bind. by intros ->. Qed.

Lemma M_bind_throw {W A B} (m : M W A) (f : A -> M W B) (w w' : W) e :
  m w = (Throw e, w') -> (m ≫= f) w = (Throw e, w').
Proof. unfold mbind, M_bind. by intros ->. Qed.

(** ** Loops

    [rounds k loop rec]: [k] rounds of a loop, and then [rec]. A loop that ends
    by itself within [k] rounds gives the same result whatever [rec] is, and
    one that goes on gives what [rec] gives. *)

Fixpoint rounds {X} (k : nat) (loop : X -> X) (rec : X) : X :=
  match k with
  | O => rec
  | S k => loop (rounds k loop rec)
  end.

(** ** What a computation leaves alone

    [keeps R m]: whatever [m] returns or throws, the state before and the
    state after are related by [R]. The lemmas are the hints of [keeps]; the
    tactic [keeps] walks through the code of [m]. *)

Definition keeps {W A} (R : W -> W -> Prop) (m : M W A) : Prop := ∀ w, R w (m w).2.

Definition keeps_local {S W A} (R : W -> W -> Prop) (m : M (S * W) A) : Prop :=
  ∀ w, R w.2 (m w).2.2.

Create HintDb keeps.

Section Keeps.
#[local] Set Default Proof Using "Type*".
Context {W : Type} (R : W -> W -> Prop) `{!PreOrder R}.

Lemma keeps_ret {A} (a : A) : keeps R (mret a).
Proof. intros w. cbn. reflexivity. Qed.

Lemma keeps_throw {A} e : keeps R (throw (A := A) e).
Proof. intros w. cbn. reflexivity. Qed.

Lemma keeps_lift {A} (o : outcome A) : keeps R (lift o).
Proof. intros w. cbn. reflexivity. Qed.

Lemma keeps_get_state : keeps R get_state.
Proof. intros w. cbn. reflexivity. Qed.

Lemma keeps_modify f : (∀ w, R w (f w)) -> keeps R (modify f).
Proof. intros Hf w. apply Hf. Qed.

Lemma keeps_bind {A B} (m : M W A) (f : A -> M W B) :
  keeps R m -> (∀ a, keeps R (f a)) -> keeps R (m ≫= f).
Proof.
  intros Hm Hf w. unfold mbind, M_bind. specialize (Hm w).
  destruct (m w) as [[a|e|] w']; [|done..]. etrans; [exact Hm|apply Hf].
Qed.

Lemma keeps_try_catch {A} (m : M W A) h :
  keeps R m -> (∀ e, keeps R (h e)) -> keeps R (try_catch m h).
Proof.
  intros Hm Hh w. unfold try_catch. specialize (Hm w).
  destruct (m w) as [[a|e|] w']; [done| |done]. etrans; [exact Hm|apply Hh].
Qed.

Lemma keeps_with_local {S A} (s : S) (m : M (S * W) A) :
  keeps_local R m -> keeps R (with_local s m).
Proof.
  intros Hm w. unfold with_local. specialize (Hm (s, w)).
  by destruct (m (s, w)) as [[a|e|] [s' w']].
Qed.

Lemma keeps_local_ret {S A} (a : A) : keeps_local (S := S) R (mret a).
Proof. intros w. cbn. reflexivity. Qed.

Lemma keeps_local_lift {S A} (o : outcome A) : keeps_local (S := S) R (lift o).
Proof. intros w. cbn. reflexivity. Qed.

Lemma keeps_local_get {S} : keeps_local (S := S) R get_local.
Proof. intros w. cbn. reflexivity. Qed.

Lemma keeps_local_set {S} (s : S) : keeps_local R (set_local s).
Proof. intros w. cbn. reflexivity. Qed.

Lemma keeps_local_update {S} (f : S -> S) : keeps_local R (update_local f).
Proof. intros w. cbn. reflexivity. Qed.

Lemma keeps_local_global {S A} (m : M W A) : keeps R m -> keeps_local (S := S) R (global m).
Proof. intros Hm [s w]. unfold global. cbn. specialize (Hm w). by destruct (m w). Qed.

Lemma keeps_local_bind {S A B} (m : M (S * W) A) (f : A -> M (S * W) B) :
  keeps_local R m -> (∀ a, keeps_local R (f a)) -> keeps_local R (m ≫= f).
Proof.
  intros Hm Hf w. unfold mbind, M_bind. specialize (Hm w).
  destruct (m w) as [[a|e|] w']; [|done..]. etrans; [exact Hm|apply Hf].
Qed.

Lemma keeps_local_try_catch {S A} (m : M (S * W) A) h :
  keeps_local R m -> (∀ e, keeps_local R (h e)) -> keeps_local R (try_catch m h).
Proof.
  intros Hm Hh w. unfold try_catch. specialize (Hm w).
  destruct (m w) as [[a|e|] w']; [done| |done]. etrans; [exact Hm|apply Hh].
Qed.

End Keeps.

#[export] Hint Resolve keeps_ret keeps_throw keeps_lift keeps_get_state keeps_modify keeps_bind
  keeps_try_catch keeps_with_local keeps_local_ret keeps_local_lift keeps_local_get
  keeps_local_set keeps_local_update keeps_local_global keeps_local_bind
  keeps_local_try_catch : keeps.

(** Branches are split by hand: a hint cannot see through a [match]. *)
Ltac keeps :=
  repeat first
    [ progress intros
    | done
    | match goal with |- PreOrder _ => apply _ end
    | match goal with
      | |- keeps _ (match ?x with _ => _ end) => destruct x
      | |- keeps_local _ (match ?x with _ => _ end) => destruct x
      end
    | progress auto 2 with keeps
    | eapply keeps_bind | eapply keeps_local_bind
    | eapply keeps_local_global | eapply keeps_try_catch | eapply keeps_local_try_catch
    | eapply keeps_with_local | eapply keeps_modify ].

(** ** Lists *)

Lemma list_filter_ext_in {A} (P Q : A -> Prop) `{∀ x, Decision (P x), ∀ x, Decision (Q x)} (l : list A) :
  (∀ x, x ∈ l → P x ↔ Q x) → filter P l = filter Q l.
Proof.
  induction l as [|x l IH]; intros Hl; [done|]. rewrite !filter_cons.
  assert (Hx : P x ↔ Q x) by (apply Hl; left).
  rewrite IH by (intros y Hy; apply Hl; by right).
  repeat case_decide; tauto.
Qed.

Lemma list_filter_all {A} (P : A -> Prop) `{∀ x, Decision (P x)} (l : list A) :
  (∀ x, x ∈ l → P x) → filter P l = l.
Proof.
  induction l as [|x l IH]; intros Hl; [done|]. rewrite filter_cons_True by (apply Hl; left).
  f_equal. apply IH. intros y Hy. apply Hl. by right.
Qed.

Lemma list_filter_filter_and {A} (P Q : A -> Prop) `{∀ x, Decision (P x), ∀ x, Decision (Q x)} (l : list A) :
  filter P (filter Q l) = filter (λ x, P x ∧ Q x) l.
Proof. apply list_filter_filter. Qed.

Lemma NoDup_filter {A} (P : A -> Prop) `{∀ x, Decision (P x)} {B} (f : A -> B) (l : list A) :
  NoDup (f <$> l) → NoDup (f <$> filter P l).
Proof.
  induction l as [|x l IH]; [done|]. rewrite filter_cons, fmap_cons, NoDup_cons.
  intros [Hx Hl]. case_decide; [|by apply IH]. rewrite fmap_cons, NoDup_cons.
  split; [|by apply IH]. intros Hin. apply Hx. apply list_elem_of_fmap in Hin as [y [-> Hy]].
  apply list_elem_of_fmap. exists y. split; [done|]. apply list_elem_of_filter in Hy. tauto.
Qed.

(** ** Automation *)

(** [lia] after turning divisions and remainders into their equations. *)
Ltac dlia := Z.to_euclidean_division_equations; lia.

(** Splits every decision in the goal, closing the impossible cases. *)
Ltac decide_cases := repeat (case_decide; try lia; try done).
