(* ===== verification/Text.v ===== *)
(** * Byte strings and the parts of the C++ standard library the program parses with

    A [std::string] is a [string]: a sequence of 8-bit characters. The file
    models character classification in the "C" locale, searching and cutting
    strings, [std::stoi], input string streams with their [eofbit] and
    [failbit], and [std::get_time] (libstdc++), and proves the facts about
    them that the components share. *)

From Stdlib Require Export Ascii.
From stdpp Require Import sorting.
From S2P Require Import Prelude.

#[global] Arguments String.append !_ _ : simpl nomatch.

(** ** Characters ("C" locale) *)

Definition code (c : ascii) : Z := Z.of_N (Ascii.N_of_ascii c).
Definition chr (z : Z) : ascii := Ascii.ascii_of_N (Z.to_N (z mod 256)).

Definition in_range (lo hi c : ascii) : bool :=
  bool_decide (code lo <= code c) && bool_decide (code c <= code hi).

Definition isdigit (c : ascii) : bool := in_range "0" "9" c.
Definition isupper (c : ascii) : bool := in_range "A" "Z" c.
Definition islower (c : ascii) : bool := in_range "a" "z" c.
Definition isalpha (c : ascii) : bool := isupper c || islower c.
(** space, \t, \n, \v, \f, \r *)
Definition isspace (c : ascii) : bool :=
  bool_decide (code c = 32) || (bool_decide (9 <= code c) && bool_decide (code c <= 13)).
Definition toupper (c : ascii) : ascii := if islower c then chr (code c - 32) else c.
Definition tolower (c : ascii) : ascii := if isupper c then chr (code c + 32) else c.

Definition digit_value (c : ascii) : Z := code c - code "0".

(** The value of a digit in base 16. *)
Definition hex_value (c : ascii) : option Z :=
  if isdigit c then Some (digit_value c)
  else if in_range "a" "f" c then Some (code c - code "a" + 10)
  else if in_range "A" "F" c then Some (code c - code "A" + 10)
  else None.

Definition newline : ascii := "010".
Definition nl : string := String newline EmptyString.

(** A string between double quotes. *)
Definition quoted (s : string) : string := String "034" (s +:+ String "034" EmptyString).

(** ** Strings *)

Fixpoint map_string (f : ascii -> ascii) (s : string) : string :=
  match s with
  | EmptyString => EmptyString
  | String c s => String (f c) (map_string f s)
  end.

Fixpoint all_of (f : ascii -> bool) (s : string) : bool :=
  match s with
  | EmptyString => true
  | String c s => f c && all_of f s
  end.

(** [s.find(c)]: the first position, or [npos]. *)
Fixpoint find (c : ascii) (s : string) : option nat :=
  match s with
  | EmptyString => None
  | String c' s => if decide (c' = c) then Some O else S <$> find c s
  end.

(** [s.substr(0, n)] and [s.substr(n)] *)
Fixpoint prefix_of (n : nat) (s : string) : string :=
  match n, s with
  | S n, String c s => String c (prefix_of n s)
  | _, _ => EmptyString
  end.
Fixpoint suffix_from (n : nat) (s : string) : string :=
  match n, s with
  | S n, String _ s => suffix_from n s
  | _, _ => s
  end.

(** [s.rfind(p, 0) == 0] *)
Fixpoint starts_with (p s : string) : bool :=
  match p, s with
  | EmptyString, _ => true
  | String c p, String c' s => bool_decide (c = c') && starts_with p s
  | _, _ => false
  end.

Fixpoint drop_while (f : ascii -> bool) (s : string) : string :=
  match s with
  | String c s' => if f c then drop_while f s' else s
  | EmptyString => EmptyString
  end.

Fixpoint take_while (f : ascii -> bool) (s : string) : string :=
  match s with
  | String c s => if f c then String c (take_while f s) else EmptyString
  | EmptyString => EmptyString
  end.

(** What [c_str()] hands to a C function: the bytes before the first NUL. *)
Definition c_str (s : string) : string := take_while (λ c, negb (bool_decide (code c = 0))) s.

(** [std::getline] until it fails: a last line without newline counts. *)
Fixpoint lines (s : string) : list string :=
  match s with
  | EmptyString => []
  | String c s =>
      if decide (c = newline) then EmptyString :: lines s
      else match lines s with
           | [] => [String c EmptyString]
           | l :: ls => String c l :: ls
           end
  end.

(** [std::string]'s order: lexicographic on unsigned bytes. *)
Fixpoint string_leb (a b : string) : bool :=
  match a, b with
  | EmptyString, _ => true
  | String _ _, EmptyString => false
  | String c a, String d b => if decide (c = d) then string_leb a b else bool_decide (code c < code d)
  end.

(** The entries of a [std::map] in its iteration order. *)
Definition key_le {A} (x y : string * A) : Prop := Is_true (string_leb x.1 y.1).
#[export] Instance key_le_dec {A} : RelDecision (@key_le A).
Proof. intros x y. unfold key_le. apply _. Defined.
Definition map_entries {A} (m : gmap string A) : list (string * A) :=
  merge_sort key_le (map_to_list m).

(** ** Decimal numbers *)

(** The digits at the front of [s], added to [acc], and how many they are. *)
Fixpoint scan_digits (s : string) (acc : Z) : Z * nat * string :=
  match s with
  | String c s' =>
      if isdigit c then
        let '(v, n, rest) := scan_digits s' (acc * 10 + digit_value c) in (v, S n, rest)
      else (acc, O, s)
  | EmptyString => (acc, O, EmptyString)
  end.

Definition scan_sign (s : string) : Z * nat * string :=
  match s with
  | String "-" s => (-1, 1%nat, s)
  | String "+" s => (1, 1%nat, s)
  | _ => (1, O, s)
  end.

(** [std::stoi(s, &pos)]: the value and [pos]. *)
Definition stoi (s : string) : outcome (Z * nat) :=
  let s1 := drop_while isspace s in
  let '(sign, n1, s2) := scan_sign s1 in
  let '(v, n2, _) := scan_digits s2 0 in
  if decide (n2 = O) then Throw (Exn InvalidArgument "stoi")
  else if decide (int32 (sign * v)) then
    Ret (sign * v, (String.length s - String.length s1 + n1 + n2)%nat)
  else Throw (Exn OutOfRange "stoi").

(** [std::to_string] of an integer. *)
Definition to_string (z : Z) : string := pretty z.

(** ** Input string streams *)

Record istream := { buf : string; eofbit : bool; failbit : bool }.

Definition istringstream (s : string) : istream :=
  {| buf := s; eofbit := false; failbit := false |}.

Definition good (ss : istream) : bool := negb (eofbit ss) && negb (failbit ss).

(** [ss.clear()] *)
Definition clear_state (ss : istream) : istream := istringstream (buf ss).

Definition set_fail (ss : istream) : istream :=
  {| buf := buf ss; eofbit := eofbit ss; failbit := true |}.

(** The sentry of a formatted extraction: skip white space; end of file or a
    stream that is not good fails. *)
Definition sentry (ss : istream) : bool * istream :=
  if good ss then
    match drop_while isspace (buf ss) with
    | EmptyString => (false, {| buf := EmptyString; eofbit := true; failbit := true |})
    | s => (true, istringstream s)
    end
  else (false, set_fail ss).

(** [ss.peek()]: [None] is [EOF]. *)
Definition peek (ss : istream) : option ascii * istream :=
  if good ss then
    match buf ss with
    | String c _ => (Some c, ss)
    | EmptyString => (None, {| buf := EmptyString; eofbit := true; failbit := false |})
    end
  else (None, set_fail ss).

(** [ss >> c]: [c] keeps its value [c0] when the extraction fails. *)
Definition extract_char (c0 : ascii) (ss : istream) : ascii * istream :=
  match sentry ss with
  | (true, {| buf := String c s |}) => (c, istringstream s)
  | (_, ss) => (c0, ss)
  end.

(** [ss >> i] for an [int] in base 10; only the stream is of interest. *)
Definition extract_int (ss : istream) : istream :=
  match sentry ss with
  | (true, ss) =>
      let '(sign, _, s1) := scan_sign (buf ss) in
      let '(v, n, rest) := scan_digits s1 0 in
      {| buf := rest; eofbit := bool_decide (rest = EmptyString);
         failbit := bool_decide (n = O) || negb (bool_decide (int32 (sign * v))) |}
  | (false, ss) => ss
  end.

(** [ss >> w] for a [std::string]. *)
Definition extract_word (ss : istream) : string * istream :=
  match sentry ss with
  | (true, ss) =>
      let rest := drop_while (λ c, negb (isspace c)) (buf ss) in
      (take_while (λ c, negb (isspace c)) (buf ss),
       {| buf := rest; eofbit := bool_decide (rest = EmptyString); failbit := false |})
  | (false, ss) => (EmptyString, ss)
  end.

Fixpoint scan_hex (s : string) (acc : Z) : Z * nat :=
  match s with
  | String c s =>
      match hex_value c with
      | Some d => let '(v, n) := scan_hex s (acc * 16 + d) in (v, S n)
      | None => (acc, O)
      end
  | EmptyString => (acc, O)
  end.

(** [ss >> std::hex >> i]: a sign and a [0x] prefix are accepted. *)
Definition extract_hex (ss : istream) : option Z :=
  match sentry ss with
  | (true, ss) =>
      let '(sign, _, s1) := scan_sign (buf ss) in
      let s2 := match s1 with
                | String "0" (String "x" s) | String "0" (String "X" s) => s
                | _ => s1
                end in
      let '(v, n) := scan_hex s2 0 in
      if decide (n = O ∨ ¬ int32 (sign * v)) then None else Some (sign * v)
  | (false, _) => None
  end.

(** ** [std::get_time] *)

(** The broken-down time: [tm_year] counts from 1900, [tm_mon] from 0. *)
Record tm := {
  tm_year : Z; tm_mon : Z; tm_mday : Z; tm_hour : Z; tm_min : Z; tm_sec : Z }.

Definition tm_zero : tm :=
  {| tm_year := 0; tm_mon := 0; tm_mday := 0; tm_hour := 0; tm_min := 0; tm_sec := 0 |}.

(** At most [len] digits, stopping before one that passes [max]; the number of
    digits taken, the value and what is left. *)
Fixpoint scan_num (len : nat) (max acc : Z) (s : string) : nat * Z * string :=
  match len, s with
  | S len, String c s' =>
      if isdigit c then
        let v := acc * 10 + digit_value c in
        if decide (v > max) then (O, v, s)
        else let '(n, v, rest) := scan_num len max v s' in (S n, v, rest)
      else (O, acc, s)
  | _, _ => (O, acc, s)
  end.

Definition extract_num (len : nat) (min max : Z) (s : string) : option (Z * string) :=
  let '(n, v, rest) := scan_num len max 0 s in
  if decide (n ≠ O ∧ min <= v <= max) then Some (v, rest) else None.

(** The conversions of the program's format. *)
Definition get_field (conv : ascii) (s : string) (t : tm) : option (tm * string) :=
  match conv with
  | "Y"%char => '(v, s) ← extract_num 4 0 9999 s;
      Some ({| tm_year := v - 1900; tm_mon := tm_mon t; tm_mday := tm_mday t;
               tm_hour := tm_hour t; tm_min := tm_min t; tm_sec := tm_sec t |}, s)
  | "m"%char => '(v, s) ← extract_num 2 1 12 s;
      Some ({| tm_year := tm_year t; tm_mon := v - 1; tm_mday := tm_mday t;
               tm_hour := tm_hour t; tm_min := tm_min t; tm_sec := tm_sec t |}, s)
  | "d"%char =>
      let s := match s with String c s' => if isspace c then s' else s | _ => s end in
      '(v, s) ← extract_num 2 1 31 s;
      Some ({| tm_year := tm_year t; tm_mon := tm_mon t; tm_mday := v;
               tm_hour := tm_hour t; tm_min := tm_min t; tm_sec := tm_sec t |}, s)
  | "H"%char => '(v, s) ← extract_num 2 0 23 s;
      Some ({| tm_year := tm_year t; tm_mon := tm_mon t; tm_mday := tm_mday t;
               tm_hour := v; tm_min := tm_min t; tm_sec := tm_sec t |}, s)
  | "M"%char => '(v, s) ← extract_num 2 0 59 s;
      Some ({| tm_year := tm_year t; tm_mon := tm_mon t; tm_mday := tm_mday t;
               tm_hour := tm_hour t; tm_min := v; tm_sec := tm_sec t |}, s)
  | "S"%char => '(v, s) ← extract_num 2 0 60 s;
      Some ({| tm_year := tm_year t; tm_mon := tm_mon t; tm_mday := tm_mday t;
               tm_hour := tm_hour t; tm_min := tm_min t; tm_sec := v |}, s)
  | _ => None
  end.

(** Literals match case-insensitively; input that ends before the format fails. *)
Fixpoint time_get (fmt s : string) (t : tm) : option (tm * string) :=
  match fmt with
  | EmptyString => Some (t, s)
  | String "%" (String conv fmt) =>
      match s with
      | EmptyString => None
      | _ => '(t, s) ← get_field conv s t; time_get fmt s t
      end
  | String f fmt =>
      match s with
      | String c s => if decide (tolower c = tolower f) then time_get fmt s t else None
      | EmptyString => None
      end
  end.

(** [ss >> std::get_time(&tm, fmt)] for a format that ends in a conversion:
    reaching the end of the input sets [eofbit]. *)
Definition get_time (fmt : string) (ss : istream) : option tm * istream :=
  match sentry ss with
  | (true, ss) =>
      match time_get fmt (buf ss) tm_zero with
      | Some (t, rest) =>
          (Some t, {| buf := rest; eofbit := bool_decide (rest = EmptyString); failbit := false |})
      | None => (None, set_fail ss)
      end
  | (false, ss) => (None, ss)
  end.
