(* ===== verification/TextFacts.v ===== *)
(** * Facts about strings, numerals and formatted extraction

    Lemmas on Text.v that several files share: cutting and joining, the
    digits of a number, and the tactics that go through all characters. *)

From S2P Require Import Prelude Text.

(** ** Cutting and joining *)

Lemma string_app_assoc (a b c : string) : (a +:+ b) +:+ c = a +:+ (b +:+ c).
Proof. induction a as [|x a IH]; [done|]. cbn. by rewrite IH. Qed.

Lemma string_app_nil_r (a : string) : a +:+ "" = a.
Proof. induction a as [|x a IH]; [done|]. cbn. by rewrite IH. Qed.

Lemma string_app_cons x (a b : string) : String x a +:+ b = String x (a +:+ b).
Proof. done. Qed.

Lemma string_length_app (a b : string) :
  String.length (a +:+ b) = (String.length a + String.length b)%nat.
Proof. induction a as [|x a IH]; [done|]. cbn. by rewrite IH. Qed.

(** The text a parser stops at. *)
Definition stops (f : ascii -> bool) (s : string) : Prop :=
  match s with
  | EmptyString => True
  | String c _ => f c = false
  end.

Lemma take_drop_while f s : take_while f s +:+ drop_while f s = s.
Proof. induction s as [|c s IH]; [done|]. cbn. destruct (f c); [|done]. cbn. by rewrite IH. Qed.

Lemma all_take_while f s : all_of f (take_while f s) = true.
Proof. induction s as [|c s IH]; [done|]. cbn. destruct (f c) eqn:E; [|done]. cbn. by rewrite E, IH. Qed.

Lemma stops_drop_while f s : stops f (drop_while f s).
Proof. induction s as [|c s IH]; [done|]. cbn. by destruct (f c) eqn:E. Qed.

Lemma take_while_app f a b : all_of f a = true → stops f b → take_while f (a +:+ b) = a.
Proof.
  induction a as [|c a IH]; cbn.
  - intros _ Hb. destruct b as [|d b]; [done|]. cbn in *. by rewrite Hb.
  - intros [Hc Ha]%andb_prop Hb. rewrite Hc. by rewrite IH.
Qed.

Lemma take_while_all f s : all_of f s = true → take_while f s = s.
Proof. intros Hs. rewrite <- (string_app_nil_r s) at 1. by apply take_while_app. Qed.

Lemma drop_while_app f a b : all_of f a = true → stops f b → drop_while f (a +:+ b) = b.
Proof.
  induction a as [|c a IH]; cbn.
  - intros _ Hb. destruct b as [|d b]; [done|]. cbn in *. by rewrite Hb.
  - intros [Hc Ha]%andb_prop Hb. rewrite Hc. by rewrite IH.
Qed.

Lemma drop_while_stops f s : stops f s → drop_while f s = s.
Proof. destruct s as [|c s]; [done|]. cbn. by intros ->. Qed.

Lemma all_of_app f a b : all_of f (a +:+ b) = all_of f a && all_of f b.
Proof. induction a as [|c a IH]; [done|]. cbn. by rewrite IH, andb_assoc. Qed.

Lemma all_of_impl (f g : ascii -> bool) s :
  (∀ c, f c = true → g c = true) → all_of f s = true → all_of g s = true.
Proof.
  intros Hfg. induction s as [|c s IH]; [done|]. cbn.
  intros [Hc Hs]%andb_prop. by rewrite (Hfg _ Hc), IH.
Qed.

(** [find] returns the first occurrence. *)
Lemma find_app c a b :
  all_of (λ x, negb (bool_decide (x = c))) a = true →
  find c (a +:+ String c b) = Some (String.length a).
Proof.
  induction a as [|x a IH]; cbn; [by rewrite decide_True|].
  intros [Hx Ha]%andb_prop. rewrite decide_False by (by apply negb_true_iff, bool_decide_eq_false in Hx).
  by rewrite IH.
Qed.

Lemma find_None c s : find c s = None → all_of (λ x, negb (bool_decide (x = c))) s = true.
Proof.
  induction s as [|x s IH]; cbn; [done|]. case_decide; [done|]. intros Hf.
  rewrite bool_decide_eq_false_2 by done. apply IH. by destruct (find c s).
Qed.

Lemma find_app_not_None c a b : find c (a +:+ String c b) ≠ None.
Proof.
  induction a as [|x a IH]; cbn; case_decide; try done. by destruct (find c _).
Qed.

Lemma find_Some c s n :
  find c s = Some n →
  s = prefix_of n s +:+ String c (suffix_from (S n) s)
  ∧ all_of (λ x, negb (bool_decide (x = c))) (prefix_of n s) = true
  ∧ String.length (prefix_of n s) = n.
Proof.
  revert n. induction s as [|x s IH]; intros n; cbn; [done|]. case_decide as Hx.
  - intros [= <-]. by subst.
  - destruct (find c s) as [m|]; [|done]. intros [= <-].
    destruct (IH m eq_refl) as (Hs & Ha & Hl). cbn. rewrite bool_decide_eq_false_2 by done.
    rewrite Ha, Hl. cbn in Hs. by rewrite <- Hs.
Qed.

Lemma prefix_of_app a b : prefix_of (String.length a) (a +:+ b) = a.
Proof. induction a as [|x a IH]; [by destruct b|]. cbn. by rewrite IH. Qed.

Lemma prefix_suffix n s : prefix_of n s +:+ suffix_from n s = s.
Proof. revert s. induction n as [|n IH]; intros [|c s]; cbn; [done..|]. by rewrite IH. Qed.

Lemma prefix_of_le n s : (String.length (prefix_of n s) <= n)%nat.
Proof. revert s. induction n as [|n IH]; intros [|c s]; cbn; [lia..|]. specialize (IH s). lia. Qed.

Lemma suffix_from_app a b : suffix_from (String.length a) (a +:+ b) = b.
Proof. induction a as [|x a IH]; [by destruct b|]. done. Qed.

Lemma suffix_from_app_S a c b : suffix_from (S (String.length a)) (a +:+ String c b) = b.
Proof. induction a as [|x a IH]; [by destruct b|]. done. Qed.

Lemma starts_with_app p s : starts_with p (p +:+ s) = true.
Proof. induction p as [|c p IH]; [done|]. cbn. by rewrite bool_decide_eq_true_2, IH. Qed.

Lemma starts_with_true p s : starts_with p s = true → s = p +:+ suffix_from (String.length p) s.
Proof.
  revert s. induction p as [|c p IH]; intros s; cbn; [by destruct s|].
  destruct s as [|d s]; [done|]. intros [Hc%bool_decide_eq_true Hs]%andb_prop.
  subst. by rewrite <- (IH _ Hs).
Qed.

(** ** Characters, by enumeration *)

Lemma ascii_all (P : ascii -> bool) :
  forallb P (map (λ n, Ascii.ascii_of_nat n) (seq 0 256)) = true → ∀ c, P c = true.
Proof.
  rewrite forallb_forall. intros H c. apply H. apply in_map_iff.
  exists (Ascii.nat_of_ascii c). split; [apply Ascii.ascii_nat_embedding|].
  apply in_seq. pose proof (Ascii.nat_ascii_bounded c). lia.
Qed.

Ltac by_characters := apply ascii_all; vm_compute; reflexivity.

(** One class of characters within another. *)
Lemma ascii_impl (f g : ascii -> bool) :
  forallb (λ c, implb (f c) (g c)) (map (λ n, Ascii.ascii_of_nat n) (seq 0 256)) = true →
  ∀ c, f c = true → g c = true.
Proof.
  intros H c Hc. pose proof (ascii_all (λ c, implb (f c) (g c)) H c) as Hi.
  cbv beta in Hi. by rewrite Hc in Hi.
Qed.

Ltac by_classes := apply ascii_impl; vm_compute; reflexivity.

Lemma isdigit_not_space c : isdigit c = true → isspace c = false.
Proof.
  intros H. assert (Hc : implb (isdigit c) (negb (isspace c)) = true).
  { revert c H. intros c _. revert c. by_characters. }
  rewrite H in Hc. by destruct (isspace c).
Qed.

Lemma isdigit_not_sign c : isdigit c = true → c ≠ "-"%char ∧ c ≠ "+"%char.
Proof. intros H. split; intros ->; by vm_compute in H. Qed.

Lemma digit_value_range c : isdigit c = true → 0 <= digit_value c <= 9.
Proof.
  unfold isdigit, in_range, digit_value. intros [H1%bool_decide_eq_true H2%bool_decide_eq_true]%andb_prop.
  change (code "9") with 57 in H2. change (code "0") with 48 in *. lia.
Qed.

Definition digit_char (d : Z) : ascii := chr (code "0" + d).

Lemma digit_char_spec d : 0 <= d <= 9 →
  isdigit (digit_char d) = true ∧ digit_value (digit_char d) = d.
Proof.
  intros H. assert (Hd : d ∈ [0;1;2;3;4;5;6;7;8;9]).
  { rewrite !elem_of_cons. lia. }
  rewrite !elem_of_cons in Hd.
  destruct_or! Hd; subst; try (by split; vm_compute). by apply elem_of_nil in Hd.
Qed.

(** ** Numerals *)

Fixpoint digits_value (acc : Z) (ds : string) : Z :=
  match ds with
  | EmptyString => acc
  | String c ds => digits_value (acc * 10 + digit_value c) ds
  end.

Lemma digits_value_cons acc c ds :
  digits_value acc (String c ds) = digits_value (acc * 10 + digit_value c) ds.
Proof. done. Qed.

Lemma scan_digits_app ds rest acc :
  all_of isdigit ds = true → stops isdigit rest →
  scan_digits (ds +:+ rest) acc = (digits_value acc ds, String.length ds, rest).
Proof.
  revert acc. induction ds as [|c ds IH]; intros acc; cbn.
  - intros _ Hr. destruct rest as [|d rest]; [done|]. cbn in *. by rewrite Hr.
  - intros [Hc Hds]%andb_prop Hr. rewrite Hc. by rewrite IH.
Qed.

Lemma pretty_N_char_digit x : (x < 10)%N →
  isdigit (pretty_N_char x) = true ∧ digit_value (pretty_N_char x) = Z.of_N x.
Proof.
  intros H. assert (Hx : x ∈ [0;1;2;3;4;5;6;7;8;9]%N) by (rewrite !elem_of_cons; lia).
  rewrite !elem_of_cons in Hx.
  destruct_or! Hx; subst; try (by split; vm_compute). by apply elem_of_nil in Hx.
Qed.

Lemma pretty_N_go_spec x s :
  all_of isdigit s = true →
  all_of isdigit (pretty_N_go x s) = true
  ∧ digits_value 0 (pretty_N_go x s) = digits_value (Z.of_N x) s
  ∧ (String.length s <= String.length (pretty_N_go x s))%nat.
Proof.
  revert s. induction (N.lt_wf_0 x) as [x _ IH]; intros s Hs.
  assert (x = 0 ∨ 0 < x)%N as [->|Hx] by lia; [by rewrite pretty_N_go_0|].
  rewrite pretty_N_go_step by done.
  destruct (pretty_N_char_digit (x `mod` 10)) as [Hd Hv]; [by apply N.mod_lt|].
  destruct (IH (x `div` 10)%N) with (s := String (pretty_N_char (x `mod` 10)) s)
    as (H1 & H2 & H3); [by apply N.div_lt|by cbn; rewrite Hd|].
  split; [done|]. split; [|etrans; [|exact H3]; cbn; lia]. rewrite H2, digits_value_cons, Hv. f_equal.
  rewrite N2Z.inj_div, N2Z.inj_mod. change (Z.of_N 10) with 10.
  pose proof (Z.div_mod (Z.of_N x) 10). lia.
Qed.

Lemma pretty_N_spec (x : N) :
  all_of isdigit (pretty x) = true ∧ digits_value 0 (pretty x) = Z.of_N x ∧ pretty x ≠ "".
Proof.
  unfold pretty, pretty_N. case_decide as Hx; [by subst|].
  destruct (pretty_N_go_spec x "") as (H1 & H2 & _); [done|].
  split; [done|]. split; [done|]. rewrite pretty_N_go_step by lia.
  destruct (pretty_N_go_spec (x `div` 10) (String (pretty_N_char (x `mod` 10)) "")) as (_ & _ & H).
  { cbn. destruct (pretty_N_char_digit (x `mod` 10)) as [-> _]; [by apply N.mod_lt|done]. }
  intros He. rewrite He in H. cbn in H. lia.
Qed.

Lemma to_string_nonneg z : 0 <= z →
  all_of isdigit (to_string z) = true ∧ digits_value 0 (to_string z) = z ∧ to_string z ≠ "".
Proof.
  intros Hz. unfold to_string, pretty, pretty_Z. destruct z as [|p|p]; [done| |lia].
  apply (pretty_N_spec (N.pos p)).
Qed.

Lemma stops_first f ds rest : all_of (λ c, negb (f c)) ds = true → ds ≠ "" → stops f (ds +:+ rest).
Proof. destruct ds as [|c ds]; [done|]. cbn. intros [H _]%andb_prop _. by apply negb_true_iff. Qed.

Lemma digits_not_space ds : all_of isdigit ds = true → all_of (λ c, negb (isspace c)) ds = true.
Proof. apply all_of_impl. intros c Hc. by rewrite isdigit_not_space. Qed.

Lemma scan_sign_digits ds rest :
  all_of isdigit ds = true → ds ≠ "" → scan_sign (ds +:+ rest) = (1, O, ds +:+ rest).
Proof.
  destruct ds as [|c ds]; [done|]. cbn. intros [Hc _]%andb_prop _.
  destruct (isdigit_not_sign _ Hc) as [H1 H2].
  destruct c as [[] [] [] [] [] [] [] []]; try done.
Qed.

(** [stoi] reads back a run of digits, a minus sign in front included. *)
Lemma stoi_digits ds : all_of isdigit ds = true → ds ≠ "" →
  stoi ds = if decide (int32 (digits_value 0 ds)) then Ret (digits_value 0 ds, String.length ds)
            else Throw (Exn OutOfRange "stoi").
Proof.
  intros Hd Hne.
  assert (H1 : drop_while isspace ds = ds).
  { apply drop_while_stops. rewrite <- (string_app_nil_r ds).
    apply stops_first; [by apply digits_not_space|done]. }
  pose proof (scan_sign_digits ds "" Hd Hne) as H2. rewrite string_app_nil_r in H2.
  pose proof (scan_digits_app ds "" 0 Hd I) as H3. rewrite string_app_nil_r in H3.
  unfold stoi. rewrite H1, H2, H3, Z.mul_1_l, decide_False.
  - case_decide; [|done]. do 2 f_equal. lia.
  - by destruct ds.
Qed.

Lemma stoi_minus_digits ds : all_of isdigit ds = true → ds ≠ "" →
  stoi (String "-" ds) =
    if decide (int32 (- digits_value 0 ds)) then Ret (- digits_value 0 ds, S (String.length ds))
    else Throw (Exn OutOfRange "stoi").
Proof.
  intros Hd Hne.
  pose proof (scan_digits_app ds "" 0 Hd I) as H3. rewrite string_app_nil_r in H3.
  unfold stoi. change (drop_while isspace (String "-" ds)) with (String "-" ds).
  cbn [scan_sign]. rewrite H3, decide_False by (by destruct ds).
  replace (-1 * digits_value 0 ds) with (- digits_value 0 ds) by lia.
  case_decide; [|done]. do 2 f_equal. lia.
Qed.
