(* ===== verification/Models.v ===== *)
(** * The data the components share

    [BackendUrlInfo], [CompanyInfo] (src/models/), the log levels, the metric
    names, the time format and [AppConfig] with its defaults and its derived
    values (src/config/AppConfig.hpp). *)

From S2P Require Import Prelude Text.

(** ** src/models/BackendUrlInfo.hpp *)

Record BackendUrlInfo := {
  url : string;
  backend_host : string;
  backend_port : Z;
  is_https : bool
}.

(** [operator==] compares the URLs only. *)
Definition BackendUrlInfo_eqb (a b : BackendUrlInfo) : bool := bool_decide (url a = url b).

(** ** src/models/CompanyInfo.hpp *)

Record CompanyInfo := {
  id : string;
  name : string;
  version : Z;
  parse_success : bool;
  created_on : option string;
  closed_on : option string;
  tin : option string;
  dissolved_on : option string
}.

#[export] Instance CompanyInfo_eta : Eta CompanyInfo := λ i,
  {| id := id i; name := name i; version := version i; parse_success := parse_success i;
     created_on := created_on i; closed_on := closed_on i; tin := tin i;
     dissolved_on := dissolved_on i |}.

Definition CompanyInfo_default : CompanyInfo :=
  {| id := ""; name := ""; version := -1; parse_success := false;
     created_on := None; closed_on := None; tin := None; dissolved_on := None |}.

(** [std::boolalpha] *)
Definition boolalpha (b : bool) : string := if b then "true" else "false".

Definition optional_line (label : string) (o : option string) : string :=
  match o with
  | Some v => label +:+ v +:+ nl
  | None => ""
  end.

Definition CompanyInfo_to_string (c : CompanyInfo) : string :=
  "CompanyInfo {" +:+ nl +:+
  "  Id: " +:+ id c +:+ nl +:+
  "  Name: " +:+ name c +:+ nl +:+
  "  Version: " +:+ to_string (version c) +:+ nl +:+
  "  Parse Success: " +:+ boolalpha (parse_success c) +:+ nl +:+
  optional_line "  Created On: " (created_on c) +:+
  optional_line "  Closed On: " (closed_on c) +:+
  optional_line "  TIN: " (tin c) +:+
  optional_line "  Dissolved On: " (dissolved_on c) +:+
  "}".

(** ** src/config/AppConfig.hpp *)

Inductive LogLevel := DEBUG | INFO | WARN | CERROR | SETUP.

#[export] Instance LogLevel_eq_dec : EqDecision LogLevel.
Proof. solve_decision. Defined.

Definition LogLevel_to_int (l : LogLevel) : Z :=
  match l with DEBUG => 0 | INFO => 1 | WARN => 2 | CERROR => 3 | SETUP => 4 end.

Definition LOG_PREFIX (l : LogLevel) : string :=
  match l with
  | DEBUG => "[Debug] "
  | INFO => "[Info] "
  | WARN => "[Warning] "
  | CERROR => "[Error] "
  | SETUP => "[Setup] "
  end.

Module MetricsDefinitions.

Definition CODE_EXCEPTION : string := "metric.1".
Definition JSON_ERROR : string := "metric.2".
Definition CIRCUIT_BREAKER_LOGGED : string := "metric.3".
Definition REQUEST_TIMED_OUT : string := "metric.5".

End MetricsDefinitions.

Definition TIME_FORMAT : string := "%Y-%m-%dT%H:%M:%S".

Record AppConfig := {
  country_backend_map : gmap string BackendUrlInfo;
  use_redis : bool;
  redis_host : string;
  redis_port : Z;
  redis_ttl : Z;
  in_memory_cache_ttl : Z;
  in_memory_cache_max_size : Z;
  frontend_port : Z;
  number_of_threads_per_core : Z;
  num_io_threads : Z;
  max_response_queue_size : Z;
  queue_multiply_factor : Z;
  log_level : LogLevel;
  metrics_batch_size : Z;
  metrics_send_interval_in_millis : Z;
  server_sla_in_micros : Z;
  request_average_processing_time_in_micros : Z;
  drop_sla_timeout_requests : bool;
  backend_servers_circuit_breaker_cool_off_duration_in_millis : Z;
  connection_timeout_in_microseconds : Z;
  read_request_timeout_in_microseconds : Z
}.

(** [AppConfig::AppConfig()] *)
Definition AppConfig_default : AppConfig :=
  {| country_backend_map := ∅;
     server_sla_in_micros := 1000000;
     request_average_processing_time_in_micros := 1200;
     connection_timeout_in_microseconds := 25000;
     read_request_timeout_in_microseconds := 50000;
     backend_servers_circuit_breaker_cool_off_duration_in_millis := 10;
     number_of_threads_per_core := 2;
     drop_sla_timeout_requests := true;
     max_response_queue_size := 100000;
     num_io_threads := 2;
     queue_multiply_factor := 4;
     use_redis := true;
     frontend_port := 9000;
     redis_host := "localhost";
     redis_port := 6379;
     redis_ttl := 3600 * 24;
     in_memory_cache_ttl := 3600 * 24;
     in_memory_cache_max_size := 10000;
     log_level := CERROR;
     metrics_batch_size := 100;
     metrics_send_interval_in_millis := 1000 |}.

(** The assignments the configuration code makes, one field each. *)

#[export] Instance AppConfig_eta : Eta AppConfig := λ c,
  {| country_backend_map := country_backend_map c;
     use_redis := use_redis c;
     redis_host := redis_host c;
     redis_port := redis_port c;
     redis_ttl := redis_ttl c;
     in_memory_cache_ttl := in_memory_cache_ttl c;
     in_memory_cache_max_size := in_memory_cache_max_size c;
     frontend_port := frontend_port c;
     number_of_threads_per_core := number_of_threads_per_core c;
     num_io_threads := num_io_threads c;
     max_response_queue_size := max_response_queue_size c;
     queue_multiply_factor := queue_multiply_factor c;
     log_level := log_level c;
     metrics_batch_size := metrics_batch_size c;
     metrics_send_interval_in_millis := metrics_send_interval_in_millis c;
     server_sla_in_micros := server_sla_in_micros c;
     request_average_processing_time_in_micros := request_average_processing_time_in_micros c;
     drop_sla_timeout_requests := drop_sla_timeout_requests c;
     backend_servers_circuit_breaker_cool_off_duration_in_millis := backend_servers_circuit_breaker_cool_off_duration_in_millis c;
     connection_timeout_in_microseconds := connection_timeout_in_microseconds c;
     read_request_timeout_in_microseconds := read_request_timeout_in_microseconds c |}.

Definition set_country_backend_map (v : gmap string BackendUrlInfo) (c : AppConfig) : AppConfig :=
  c <| country_backend_map := v |>.

Definition set_use_redis (v : bool) (c : AppConfig) : AppConfig :=
  c <| use_redis := v |>.

Definition set_redis_host (v : string) (c : AppConfig) : AppConfig :=
  c <| redis_host := v |>.

Definition set_redis_port (v : Z) (c : AppConfig) : AppConfig :=
  c <| redis_port := v |>.

Definition set_redis_ttl (v : Z) (c : AppConfig) : AppConfig :=
  c <| redis_ttl := v |>.

Definition set_in_memory_cache_ttl (v : Z) (c : AppConfig) : AppConfig :=
  c <| in_memory_cache_ttl := v |>.

Definition set_in_memory_cache_max_size (v : Z) (c : AppConfig) : AppConfig :=
  c <| in_memory_cache_max_size := v |>.

Definition set_frontend_port (v : Z) (c : AppConfig) : AppConfig :=
  c <| frontend_port := v |>.

Definition set_log_level (v : LogLevel) (c : AppConfig) : AppConfig :=
  c <| log_level := v |>.

Definition set_metrics_batch_size (v : Z) (c : AppConfig) : AppConfig :=
  c <| metrics_batch_size := v |>.

Definition set_metrics_send_interval_in_millis (v : Z) (c : AppConfig) : AppConfig :=
  c <| metrics_send_interval_in_millis := v |>.

(** [updateDeductions]: [hardware_concurrency] is what
    [std::thread::hardware_concurrency()] returns (0 when unknown). The product
    is an [unsigned int]; storing it in the [int] field wraps. *)
Definition updateDeductions (hardware_concurrency : Z) (c : AppConfig) : AppConfig :=
  let n := to_u32 (hardware_concurrency * number_of_threads_per_core c) in
  let n := if decide (n = 0) then 2 else n in
  let per_thread :=
    server_sla_in_micros c `quot` request_average_processing_time_in_micros c in
  let q := wrap32 (to_u32 (to_u32 (n * per_thread) * queue_multiply_factor c)) in
  c <| num_io_threads := n |> <| max_response_queue_size := q |>.

Definition config_line (label v : string) : string := label +:+ v +:+ nl.

Definition backend_line (kv : string * BackendUrlInfo) : string :=
  kv.1 +:+ " : " +:+ url kv.2 +:+ nl.

Definition AppConfig_to_string (c : AppConfig) : string :=
  config_line "// --- Configuration Params Start --- //" "" +:+
  config_line "frontend_port: " (to_string (frontend_port c)) +:+
  config_line "number_of_threads_per_core: " (to_string (number_of_threads_per_core c)) +:+
  config_line "total num_io_threads: " (to_string (num_io_threads c)) +:+
  config_line "server_sla_in_micros: " (to_string (server_sla_in_micros c)) +:+
  config_line "request_average_processing_time_in_micros: "
    (to_string (request_average_processing_time_in_micros c)) +:+
  config_line "drop_sla_timeout_requests: " (boolalpha (drop_sla_timeout_requests c)) +:+
  config_line "max_response_queue_size: " (to_string (max_response_queue_size c)) +:+
  config_line "queue_multiply_factor: " (to_string (queue_multiply_factor c)) +:+
  config_line "// --- Cache Configuration --- //" "" +:+
  config_line "use_redis: " (boolalpha (use_redis c)) +:+
  config_line "redis_host: " (redis_host c) +:+
  config_line "redis_port: " (to_string (redis_port c)) +:+
  config_line "redis_ttl: " (to_string (redis_ttl c)) +:+
  config_line "in_memory_cache_ttl: " (to_string (in_memory_cache_ttl c)) +:+
  config_line "in_memory_cache_max_size: " (to_string (in_memory_cache_max_size c)) +:+
  config_line "// --- Logging & Metrics --- //" "" +:+
  config_line "log_level: " (to_string (LogLevel_to_int (log_level c))) +:+
  config_line "metrics_batch_size: " (to_string (metrics_batch_size c)) +:+
  config_line "metrics_send_interval_in_millis: "
    (to_string (metrics_send_interval_in_millis c)) +:+
  config_line "--- Backend Servers Network Configurations --- " "" +:+
  config_line "circuit_breaker_cool_off_duration_in_millis: "
    (to_string (backend_servers_circuit_breaker_cool_off_duration_in_millis c)) +:+
  config_line "connection_timeout_in_microseconds: "
    (to_string (connection_timeout_in_microseconds c)) +:+
  config_line "read_request_timeout_in_microseconds: "
    (to_string (read_request_timeout_in_microseconds c)) +:+
  config_line "--- Country_ISO : BackendServer endpoint URL map ---" "" +:+
  foldr (λ kv s, backend_line kv +:+ s)
    (config_line "// --- Configuration Params End --- //" "")
    (map_entries (country_backend_map c)).
