(* ===== verification/Utils.v ===== *)
(** * src/utils/Utils.hpp

    The static helpers of [Utils], one definition per method: log level and
    integer parsing, trimming, the command line, the configuration file and
    the country map, time stamps, backend URLs and percent-decoding. What is
    written to [cout] and [cerr] is left out. *)

From S2P Require Import Prelude Text Models.

Definition stringToLogLevel (level : string) : outcome LogLevel :=
  if decide (level = "DEBUG") then Ret DEBUG
  else if decide (level = "INFO") then Ret INFO
  else if decide (level = "WARNING") then Ret WARN
  else if decide (level = "CERROR") then Ret CERROR
  else Throw (Exn InvalidArgument ("Invalid log level: " +:+ level)).

(** Both exceptions of [stoi] are caught. *)
Definition stringToInt (str : string) : option Z :=
  match stoi str with
  | Ret (val, pos) => if decide (pos = String.length str) then Some val else None
  | _ => None
  end.

(** The characters of the literal [" \t\n\r"]. *)
Definition is_trimmed (c : ascii) : bool :=
  bool_decide (code c = 32) || bool_decide (code c = 9)
  || bool_decide (code c = 10) || bool_decide (code c = 13).

Fixpoint find_first_not_of (f : ascii -> bool) (s : string) : option nat :=
  match s with
  | EmptyString => None
  | String c s => if f c then S <$> find_first_not_of f s else Some O
  end.

Fixpoint find_last_not_of (f : ascii -> bool) (s : string) : option nat :=
  match s with
  | EmptyString => None
  | String c s =>
      match find_last_not_of f s with
      | Some n => Some (S n)
      | None => if f c then None else Some O
      end
  end.

Definition trim (str : string) : string :=
  match find_first_not_of is_trimmed str, find_last_not_of is_trimmed str with
  | Some first, Some last => prefix_of (last - first + 1) (suffix_from first str)
  | _, _ => str
  end.

Definition split_at (pos : nat) (s : string) : string * string :=
  (prefix_of pos s, suffix_from (S pos) s).

Fixpoint parseArguments_loop (args : list string) (argMap : gmap string string)
    : option (gmap string string) :=
  match args with
  | [] => Some argMap
  | arg :: args =>
      match find "=" arg with
      | Some (S _ as delimiterPos) =>
          let '(key, value) := split_at delimiterPos arg in
          parseArguments_loop args (<[key := value]> argMap)
      | _ => None
      end
  end.

Definition parseArguments (args : list string) : option (gmap string string) :=
  parseArguments_loop args ∅.

(** ** Backend URLs *)

Definition is_host_char (c : ascii) : bool :=
  negb (bool_decide (c = ":"%char) || bool_decide (c = "/"%char)
        || bool_decide (c = "?"%char) || bool_decide (c = "#"%char)).

(** [(?:[\/?#]|$)] as the rest of a full match. *)
Definition is_url_end (s : string) : bool :=
  match s with
  | EmptyString => true
  | String c EmptyString =>
      bool_decide (c = "/"%char) || bool_decide (c = "?"%char) || bool_decide (c = "#"%char)
  | _ => false
  end.

(** [std::regex_match(url, Constants::url_regex)]: the groups 1, 2 and 3. *)
Definition match_url (url : string) : option (string * string * option string) :=
  '(scheme, rest) ←
    (if starts_with "https://" url then Some ("https", suffix_from 8 url)
     else if starts_with "http://" url then Some ("http", suffix_from 7 url)
     else None);
  let host := take_while is_host_char rest in
  let after := drop_while is_host_char rest in
  if decide (host = "") then None
  else
    match after with
    | String ":" after' =>
        let digits := take_while isdigit after' in
        if decide (digits = "") then None
        else if is_url_end (drop_while isdigit after') then Some (scheme, host, Some digits)
        else None
    | _ => if is_url_end after then Some (scheme, host, None) else None
    end.

(** The three members [parseUrl] writes; [None] is [return false]. *)
Definition parseUrl (url_ : string) (urlInfo : BackendUrlInfo) : option BackendUrlInfo :=
  match match_url url_ with
  | None => None
  | Some (scheme, host, port_group) =>
      if decide (scheme = "https") then None
      else
        let is_https_ := bool_decide (scheme = "https") in
        port ← match port_group with
               | Some digits =>
                   match stoi digits with
                   | Ret (port, _) =>
                       if decide (port <= 0 ∨ port > 65535) then None else Some port
                   | _ => None
                   end
               | None => Some (if is_https_ then 443 else 80)
               end;
        Some {| url := url urlInfo; backend_host := host; backend_port := port;
                is_https := is_https_ |}
  end.

(** ** Configuration *)

Definition config_paths : list string :=
  ["backendify.config"; "../backendify.config"; "/app/backendify.config";
   "../../backendify.config"].

(** An integer setting: an invalid value leaves the configuration as it is. *)
Definition with_int (value : string) (f : Z -> AppConfig -> AppConfig) (config : AppConfig)
    : outcome AppConfig :=
  match stringToInt value with
  | Some val => Ret (f val config)
  | None => Ret config
  end.

Definition apply_setting (key value : string) (config : AppConfig) : outcome AppConfig :=
  if decide (key = "frontend_port") then with_int value set_frontend_port config
  else if decide (key = "redis_host") then Ret (set_redis_host value config)
  else if decide (key = "redis_port") then with_int value set_redis_port config
  else if decide (key = "log_level") then
    l ← stringToLogLevel value; Ret (set_log_level l config)
  else if decide (key = "redis_ttl") then
    with_int value (λ v, set_redis_ttl (wrap32 (v * 3600))) config
  else if decide (key = "metrics_batch_size") then
    with_int value set_metrics_batch_size config
  else if decide (key = "metrics_send_interval") then
    with_int value set_metrics_send_interval_in_millis config
  else if decide (key = "in_memory_cache_max_size") then
    with_int value set_in_memory_cache_max_size config
  else if decide (key = "in_memory_cache_ttl") then
    with_int value (λ v, set_in_memory_cache_ttl (wrap32 (v * 3600))) config
  else if decide (key = "use_redis") then
    with_int value (λ v, set_use_redis (bool_decide (v = 1))) config
  else Ret config.

Definition apply_line (line : string) (config : AppConfig) : outcome AppConfig :=
  let line := trim line in
  match line with
  | EmptyString | String "#" _ => Ret config
  | _ =>
      match find "=" line with
      | Some (S _ as delimiterPos) =>
          let '(key, value) := split_at delimiterPos line in
          apply_setting (trim key) (trim value) config
      | _ => Ret config
      end
  end.

Fixpoint apply_lines (ls : list string) (config : AppConfig) : outcome AppConfig :=
  match ls with
  | [] => Ret config
  | l :: ls => config ← apply_line l config; apply_lines ls config
  end.

(** The first path that opens is read, the others are not. *)
Fixpoint load_file (files : string -> option string) (paths : list string) (config : AppConfig)
    : outcome AppConfig :=
  match paths with
  | [] => Ret config
  | p :: paths =>
      match files p with
      | Some contents => apply_lines (lines contents) config
      | None => load_file files paths config
      end
  end.

Definition add_backend (config : AppConfig) (pair : string * string) : AppConfig :=
  let '(key, value) := pair in
  if decide (String.length key = 2%nat) then
    if all_of isalpha key then
      let country_iso := map_string toupper key in
      if starts_with "http://" value || starts_with "https://" value then
        let urlInfo := {| url := value; backend_host := ""; backend_port := 0;
                          is_https := false |} in
        match parseUrl value urlInfo with
        | Some urlInfo =>
            set_country_backend_map (<[country_iso := urlInfo]> (country_backend_map config))
              config
        | None => config
        end
      else config
    else config
  else config.

(** [files p] is the contents of the file [p] when it opens. *)
Definition loadConfiguration (files : string -> option string) (hardware_concurrency : Z)
    (startupArguments : gmap string string) : outcome AppConfig :=
  config ← load_file files config_paths AppConfig_default;
  let config := foldl add_backend config (map_entries startupArguments) in
  Ret (updateDeductions hardware_concurrency config).

(** ** Time stamps *)

Definition is_leap (y : Z) : bool :=
  bool_decide (y mod 4 = 0) && (negb (bool_decide (y mod 100 = 0)) || bool_decide (y mod 400 = 0)).

(** Days of the year before the month, in a common year. *)
Definition days_before_month (mon : Z) : Z :=
  nth (Z.to_nat mon) [0; 31; 59; 90; 120; 151; 181; 212; 243; 273; 304; 334] 0.

Definition tm_yday (t : tm) : Z :=
  days_before_month (tm_mon t)
  + (if is_leap (tm_year t + 1900) && bool_decide (2 <= tm_mon t) then 1 else 0)
  + tm_mday t - 1.

(** [timegm]: POSIX's seconds since the Epoch, on a 64-bit [time_t]. *)
Definition timegm (t : tm) : Z :=
  tm_sec t + tm_min t * 60 + tm_hour t * 3600 + tm_yday t * 86400
  + (tm_year t - 70) * 31536000 + ((tm_year t - 69) / 4) * 86400
  - ((tm_year t - 1) / 100) * 86400 + ((tm_year t + 299) / 400) * 86400.

(** The value and [errno], which was 0 before the call: the fields come from
    [get_time], so the result fits a 64-bit [time_t] and no error is set. *)
Definition timegm_custom (t : tm) : Z * Z := (timegm t, 0).

(** [system_clock::from_time_t]: seconds to the clock's 64-bit nanoseconds. *)
Definition from_time_t (t : Z) : Z := wrap64 (t * 10^9).

(** [while (ss.peek() >= '0' && ss.peek() <= '9') ss >> digit;] *)
Fixpoint skip_fraction (fuel : nat) (ss : istream) : istream :=
  match fuel with
  | O => ss
  | S fuel =>
      let '(c, ss) := peek ss in
      if match c with Some c => isdigit c | None => false end
      then skip_fraction fuel (extract_int ss)
      else ss
  end.

Definition fractional_seconds (ss : istream) : istream :=
  let '(c, ss) := peek ss in
  if decide (c = Some "."%char) then
    let '(_, ss) := extract_char "."%char ss in
    let ss := skip_fraction (S (String.length (buf ss))) ss in
    if failbit ss && negb (eofbit ss) then clear_state ss else ss
  else ss.

(** The comparison with the current time. [suffix0] is the indeterminate value
    of the local [char suffix], which is never initialised; [now_tp] is the
    reading of [system_clock::now()]. *)
Definition isUTCTimeInFuture (suffix0 : ascii) (now_tp : Z) (active_until_str : string)
    : outcome bool :=
  match get_time TIME_FORMAT (istringstream active_until_str) with
  | (None, _) =>
      Throw (Exn RuntimeError
        ("Failed to parse date/time part: '" +:+ active_until_str +:+ "'"))
  | (Some t, ss) =>
      let ss := fractional_seconds ss in
      let '(suffix, ss) := extract_char suffix0 ss in
      _ ← (if failbit ss || negb (bool_decide (suffix = "Z"%char)) then
             if eofbit ss && negb (bool_decide (suffix = "Z"%char)) && failbit ss then
               Throw (Exn RuntimeError
                 ("Timestamp missing required 'Z' (UTC indicator): '"
                  +:+ active_until_str +:+ "'"))
             else if negb (bool_decide (suffix = "Z"%char)) then
               Throw (Exn RuntimeError
                 ("Unsupported timestamp format or extra characters (expected 'Z'): '"
                  +:+ active_until_str +:+ "'"))
             else if failbit ss && negb (eofbit ss) then
               Throw (Exn RuntimeError
                 ("Failed reading character after time (expected 'Z'): '"
                  +:+ active_until_str +:+ "'"))
             else Ret tt
           else Ret tt);
      let '(remaining, ss) := extract_word ss in
      if negb (failbit ss) && negb (bool_decide (remaining = "")) then
        Throw (Exn RuntimeError
          ("Unexpected characters after 'Z': '" +:+ remaining +:+ "' in '"
           +:+ active_until_str +:+ "'"))
      else
        let '(active_until_time_t, errno) := timegm_custom t in
        if decide (active_until_time_t = -1 ∧ errno ≠ 0) then Ret false
        else if decide (active_until_time_t = -1 ∧ errno = 0) then
          Throw (Exn RuntimeError
            ("Failed to convert parsed UTC time to time_t (invalid input or missing timegm/mkgmtime?) for: '"
             +:+ active_until_str +:+ "'"))
        else
          let active_until_tp := from_time_t active_until_time_t in
          Ret (bool_decide (active_until_tp > now_tp))
  end.

(** ** Percent-decoding *)

(** [std::istringstream hex(str.substr(i + 1, 2)); hex >> std::hex >> value] *)
Definition hex_pair (a b : ascii) : option Z :=
  extract_hex (istringstream (String a (String b EmptyString))).

Fixpoint urlDecode (str : string) : string :=
  match str with
  | EmptyString => EmptyString
  | String c s =>
      if decide (c = "%"%char) then
        match s with
        | String a (String b rest) =>
            match hex_pair a b with
            | Some value => String (chr value) (urlDecode rest)
            | None => String "%" (urlDecode s)
            end
        | _ => String c (urlDecode s)
        end
      else if decide (c = "+"%char) then String " " (urlDecode s)
      else String c (urlDecode s)
  end.
