(* ===== verification/UtilsProps.v ===== *)
(** * What the helpers of [Utils] compute

    Integer parsing reads back what [std::to_string] prints; the time-stamp
    comparison agrees with the calendar on canonical RFC 3339 UTC stamps of the
    years 1678 to 2261 and overflows on later ones. *)

From S2P Require Import Prelude Text TextFacts Models Utils.

(** ** Integers *)

(** (roundtrip): [stringToInt] reads back every [int] that
    [std::to_string] prints. *)
Theorem stringToInt_to_string z : int32 z → stringToInt (to_string z) = Some z.
Proof.
  intros Hz. unfold stringToInt. destruct (decide (0 <= z)) as [Hp|Hn].
  - destruct (to_string_nonneg z Hp) as (H1 & H2 & H3).
    rewrite stoi_digits, H2, decide_True by done. by rewrite decide_True.
  - destruct z as [|p|p]; [lia..|]. change (to_string (Z.neg p)) with (String "-" (to_string (Z.pos p))).
    destruct (to_string_nonneg (Z.pos p)) as (H1 & H2 & H3); [lia|].
    rewrite stoi_minus_digits, H2, decide_True by done. by rewrite decide_True.
Qed.

Lemma stringToInt_to_string_witness : stringToInt (to_string (-17)) = Some (-17).
Proof. apply (stringToInt_to_string (-17)). vm_compute. split; congruence. Defined.

(** ** Fixed-width fields of a time stamp *)

Definition pad2 (n : Z) : string := String (digit_char (n / 10)) (String (digit_char (n mod 10)) "").
Definition pad4 (n : Z) : string := pad2 (n / 100) +:+ pad2 (n mod 100).

Lemma scan_num_step len max acc d s :
  0 <= d <= 9 → acc * 10 + d <= max →
  scan_num (S len) max acc (String (digit_char d) s)
  = let '(n, v, rest) := scan_num len max (acc * 10 + d) s in (S n, v, rest).
Proof.
  intros Hd Hm. destruct (digit_char_spec d Hd) as [H1 H2].
  cbn -[digit_char]. rewrite H1, H2, decide_False by lia. done.
Qed.

Lemma extract_num_pad2 lo hi n rest :
  0 <= n <= 99 → lo <= n <= hi → extract_num 2 lo hi (pad2 n +:+ rest) = Some (n, rest).
Proof.
  intros Hn Hb. unfold extract_num, pad2. cbn [String.append].
  rewrite scan_num_step by dlia. rewrite scan_num_step by dlia. cbn -[Z.div Z.modulo].
  rewrite decide_True by (split; [done|dlia]). do 2 f_equal. dlia.
Qed.

Lemma extract_num_pad4 n rest :
  0 <= n <= 9999 → extract_num 4 0 9999 (pad4 n +:+ rest) = Some (n, rest).
Proof.
  intros Hn. unfold extract_num, pad4, pad2. cbn [String.append].
  do 4 rewrite scan_num_step by dlia. cbn -[Z.div Z.modulo].
  rewrite decide_True by (split; [done|dlia]). do 2 f_equal. dlia.
Qed.

Record timestamp := {
  ts_year : Z; ts_month : Z; ts_day : Z; ts_hour : Z; ts_min : Z; ts_sec : Z }.

Definition ts_ok (t : timestamp) : Prop :=
  0 <= ts_year t <= 9999 ∧ 1 <= ts_month t <= 12 ∧ 1 <= ts_day t <= 31 ∧
  0 <= ts_hour t <= 23 ∧ 0 <= ts_min t <= 59 ∧ 0 <= ts_sec t <= 60.

#[export] Instance ts_ok_dec t : Decision (ts_ok t).
Proof. unfold ts_ok. apply _. Defined.

(** [YYYY-MM-DDTHH:MM:SS] *)
Definition print_ts (t : timestamp) : string :=
  pad4 (ts_year t) +:+ "-" +:+ pad2 (ts_month t) +:+ "-" +:+ pad2 (ts_day t) +:+ "T"
  +:+ pad2 (ts_hour t) +:+ ":" +:+ pad2 (ts_min t) +:+ ":" +:+ pad2 (ts_sec t).

Definition ts_tm (t : timestamp) : tm :=
  {| tm_year := ts_year t - 1900; tm_mon := ts_month t - 1; tm_mday := ts_day t;
     tm_hour := ts_hour t; tm_min := ts_min t; tm_sec := ts_sec t |}.

Lemma pad2_not_empty n rest : ∃ c s, pad2 n +:+ rest = String c s.
Proof. by eexists _, _. Qed.

Lemma time_get_field conv fmt n t t' s s' :
  s ≠ "" → get_field conv s t = Some (t', s') →
  n = time_get fmt s' t' → time_get (String "%" (String conv fmt)) s t = n.
Proof. intros Hs Hf ->. cbn. destruct s as [|c s]; [done|]. by rewrite Hf. Qed.

Lemma time_get_literal c fmt s t n :
  c ≠ "%"%char → n = time_get fmt s t → time_get (String c fmt) (String c s) t = n.
Proof.
  intros Hc ->. cbn. destruct c as [[] [] [] [] [] [] [] []]; try (by rewrite decide_True).
Qed.

Lemma get_field_day n rest t : 1 <= n <= 31 →
  get_field "d" (pad2 n +:+ rest) t
  = Some ({| tm_year := tm_year t; tm_mon := tm_mon t; tm_mday := n;
             tm_hour := tm_hour t; tm_min := tm_min t; tm_sec := tm_sec t |}, rest).
Proof.
  intros Hn. cbn [get_field]. pose proof (extract_num_pad2 1 31 n rest) as He.
  unfold pad2 in *. cbn [String.append] in *.
  destruct (digit_char_spec (n / 10)) as [Hd _]; [dlia|].
  rewrite isdigit_not_space by done. by rewrite He by lia.
Qed.

Lemma time_get_print t rest :
  ts_ok t → time_get TIME_FORMAT (print_ts t +:+ rest) tm_zero = Some (ts_tm t, rest).
Proof.
  intros (HY & Hm & Hd & HH & HM & HS).
  unfold TIME_FORMAT, print_ts. rewrite !string_app_assoc.
  eapply time_get_field; [done| |].
  { cbn [get_field]. by rewrite extract_num_pad4 by lia. }
  symmetry. apply time_get_literal; [done|]. symmetry.
  eapply time_get_field; [done| |].
  { cbn [get_field]. by rewrite extract_num_pad2 by lia. }
  symmetry. apply time_get_literal; [done|]. symmetry.
  eapply time_get_field; [done| |].
  { by rewrite get_field_day by lia. }
  symmetry. apply time_get_literal; [done|]. symmetry.
  eapply time_get_field; [done| |].
  { cbn [get_field]. by rewrite extract_num_pad2 by lia. }
  symmetry. apply time_get_literal; [done|]. symmetry.
  eapply time_get_field; [done| |].
  { cbn [get_field]. by rewrite extract_num_pad2 by lia. }
  symmetry. apply time_get_literal; [done|]. symmetry.
  eapply time_get_field; [done| |].
  { cbn [get_field]. by rewrite extract_num_pad2 by lia. }
  done.
Qed.

(** ** The calendar *)

(** Proleptic Gregorian dates: the length of a month, valid dates, the next day. *)
Definition month_length (y m : Z) : Z :=
  match m with
  | 2 => if is_leap y then 29 else 28
  | 4 | 6 | 9 | 11 => 30
  | _ => 31
  end.

Definition date_ok (y m d : Z) : Prop := 1 <= m <= 12 ∧ 1 <= d <= month_length y m.

Definition next_day (y m d : Z) : Z * Z * Z :=
  if decide (d < month_length y m) then (y, m, d + 1)
  else if decide (m < 12) then (y, m + 1, 1)
  else (y + 1, 1, 1).

Definition date_tm (y m d : Z) : tm :=
  {| tm_year := y - 1900; tm_mon := m - 1; tm_mday := d; tm_hour := 0; tm_min := 0; tm_sec := 0 |}.

Definition midnight (y m d : Z) : Z := timegm (date_tm y m d).

(** The number of leap years up to a year. *)
Definition leaps (y : Z) : Z := y / 4 - y / 100 + y / 400.

Lemma leaps_step y : leaps y - leaps (y - 1) = if is_leap y then 1 else 0.
Proof.
  unfold leaps, is_leap.
  destruct (decide (y mod 4 = 0)), (decide (y mod 100 = 0)), (decide (y mod 400 = 0));
    rewrite ?bool_decide_eq_true_2, ?bool_decide_eq_false_2 by done; cbn; dlia.
Qed.

Lemma midnight_eq y m d :
  midnight y m d = 86400 *
    (365 * (y - 1970) + leaps (y - 1) - 477
     + (days_before_month (m - 1)
        + (if is_leap y && bool_decide (2 <= m - 1) then 1 else 0) + d - 1)).
Proof.
  unfold midnight, timegm, tm_yday, leaps. cbn -[Z.div Z.mul days_before_month is_leap].
  replace (y - 1900 + 1900) with y by lia.
  replace ((y - 1900 - 69) / 4) with ((y - 1) / 4 - 492) by dlia.
  replace ((y - 1900 - 1) / 100) with ((y - 1) / 100 - 19) by dlia.
  replace ((y - 1900 + 299) / 400) with ((y - 1) / 400 - 4) by dlia.
  lia.
Qed.

Lemma month_cases (m : Z) : 1 <= m <= 12 → m ∈ [1;2;3;4;5;6;7;8;9;10;11;12].
Proof. intros H. rewrite !elem_of_cons. lia. Qed.

Lemma month_length_pos y m : 1 <= m <= 12 → 1 <= month_length y m.
Proof.
  intros Hm%month_cases. rewrite !elem_of_cons in Hm. unfold month_length.
  generalize (is_leap y). intros b.
  destruct_or! Hm; subst; try (by apply elem_of_nil in Hm); by destruct b.
Qed.

Lemma month_start_step y m : 1 <= m <= 11 →
  days_before_month m + (if is_leap y && bool_decide (2 <= m) then 1 else 0)
  = days_before_month (m - 1) + (if is_leap y && bool_decide (2 <= m - 1) then 1 else 0)
    + month_length y m.
Proof.
  intros Hm. assert (Hc : 1 <= m <= 12) by lia. apply month_cases in Hc.
  rewrite !elem_of_cons in Hc. unfold month_length. generalize (is_leap y). intros b.
  destruct_or! Hc; subst; try lia; try (by apply elem_of_nil in Hc); by destruct b.
Qed.

(** (functional): [timegm] is the calendar: it maps 1970-01-01 to 0, and from
    any valid date the next day of the proleptic Gregorian calendar is 86400
    seconds later; within a day the seconds add up. *)
Theorem timegm_calendar y m d :
  date_ok y m d →
  midnight 1970 1 1 = 0
  ∧ (let '(y', m', d') := next_day y m d in
     date_ok y' m' d' ∧ midnight y' m' d' = midnight y m d + 86400)
  ∧ ∀ h mi s, timegm {| tm_year := y - 1900; tm_mon := m - 1; tm_mday := d;
                        tm_hour := h; tm_min := mi; tm_sec := s |}
              = midnight y m d + 3600 * h + 60 * mi + s.
Proof.
  intros [Hm Hd]. split; [done|]. split.
  - unfold next_day. case_decide as H1; [|case_decide as H2].
    + split; [unfold date_ok; lia|]. rewrite !midnight_eq. lia.
    + split; [unfold date_ok; pose proof (month_length_pos y (m + 1)); lia|].
      rewrite !midnight_eq. pose proof (month_start_step y m) as Hs.
      replace (m + 1 - 1) with m by lia. lia.
    + assert (m = 12) as -> by lia. split; [unfold date_ok; by cbn|].
      rewrite !midnight_eq. pose proof (leaps_step y) as Hl. replace (y + 1 - 1) with y by lia.
      change (days_before_month (12 - 1)) with 334. change (days_before_month (1 - 1)) with 0.
      rewrite (bool_decide_eq_true_2 (2 <= 12 - 1)), (bool_decide_eq_false_2 (2 <= 1 - 1)) by lia.
      rewrite andb_false_r, andb_true_r. change (month_length y 12) with 31 in *.
      destruct (is_leap y); lia.
  - intros h mi s. unfold midnight, timegm, tm_yday, date_tm. cbn -[Z.div Z.mul]. lia.
Qed.

Lemma timegm_calendar_witness :
  midnight 1970 1 1 = 0
  ∧ (let '(y', m', d') := next_day 2024 2 29 in
     date_ok y' m' d' ∧ midnight y' m' d' = midnight 2024 2 29 + 86400)
  ∧ ∀ h mi s, timegm {| tm_year := 2024 - 1900; tm_mon := 2 - 1; tm_mday := 29;
                        tm_hour := h; tm_min := mi; tm_sec := s |}
              = midnight 2024 2 29 + 3600 * h + 60 * mi + s.
Proof. apply (timegm_calendar 2024 2 29). vm_compute. intuition congruence. Defined.

(** ** The comparison with the current time *)

(** The part between the seconds and the [Z]: nothing, or a dot and digits. *)
Definition fraction_ok (frac : string) : Prop :=
  frac = "" ∨ ∃ ds, frac = "." +:+ ds ∧ all_of isdigit ds = true.

Lemma print_ts_first t : ts_ok t → ∃ c s, print_ts t = String c s ∧ isspace c = false.
Proof.
  intros (HY & _). eexists _, _. split; [reflexivity|].
  apply isdigit_not_space. apply (digit_char_spec (ts_year t / 100 / 10)). dlia.
Qed.

Lemma get_time_print t rest :
  ts_ok t → rest ≠ "" →
  get_time TIME_FORMAT (istringstream (print_ts t +:+ rest)) = (Some (ts_tm t), istringstream rest).
Proof.
  intros Hok Hne. pose proof (time_get_print t rest Hok) as Ht.
  destruct (print_ts_first t Hok) as (c & s & Hs & Hc). rewrite Hs in *.
  unfold get_time, sentry. cbn [good istringstream eofbit failbit negb andb buf].
  cbn [String.append drop_while] in *. rewrite Hc. cbn [buf istringstream]. rewrite Ht.
  by rewrite bool_decide_eq_false_2 by done.
Qed.

Lemma peek_cons c s : peek (istringstream (String c s)) = (Some c, istringstream (String c s)).
Proof. done. Qed.

Lemma extract_int_digits ds rest :
  all_of isdigit ds = true → ds ≠ "" → stops isdigit rest → rest ≠ "" →
  ∃ b, extract_int (istringstream (ds +:+ rest)) = {| buf := rest; eofbit := false; failbit := b |}.
Proof.
  intros Hds Hne Hs Hr. unfold extract_int, sentry.
  cbn [good istringstream eofbit failbit negb andb buf].
  rewrite drop_while_stops by (apply stops_first; [by apply digits_not_space|done]).
  destruct ds as [|d ds]; [done|]. cbn [String.append]. cbn [buf istringstream].
  change (String d (ds +:+ rest)) with (String d ds +:+ rest).
  rewrite scan_sign_digits, scan_digits_app by done.
  rewrite (bool_decide_eq_false_2 (rest = "")) by done. eauto.
Qed.

(** Whatever the number of digits: an overflowing one is cleared. *)
Lemma skip_fraction_digits fuel ds :
  all_of isdigit ds = true →
  ∃ b, skip_fraction (S (S fuel)) (istringstream (ds +:+ "Z"))
    = {| buf := "Z"; eofbit := false; failbit := b |}.
Proof.
  intros Hds. destruct ds as [|d ds]; [by exists false|].
  destruct (extract_int_digits (String d ds) "Z" Hds) as [b Hb]; try done.
  cbn [skip_fraction]. cbn [String.append]. rewrite peek_cons.
  cbn [all_of] in Hds. apply andb_prop in Hds as [Hd _]. rewrite Hd.
  cbn [String.append] in Hb. rewrite Hb. exists b. by destruct b.
Qed.

Lemma fractional_seconds_skip frac :
  fraction_ok frac → fractional_seconds (istringstream (frac +:+ "Z")) = istringstream "Z".
Proof.
  intros [->|(ds & -> & Hds)]; [done|].
  unfold fractional_seconds. rewrite string_app_assoc, (string_app_cons "."), peek_cons.
  rewrite decide_True by done.
  change (extract_char "." (istringstream (String "." ("" +:+ ds +:+ "Z"))))
    with ("."%char, istringstream (ds +:+ "Z")). cbn [buf istringstream].
  rewrite string_length_app, Nat.add_comm.
  destruct (skip_fraction_digits (String.length ds) ds Hds) as [b Hb].
  cbn [String.length Nat.add]. rewrite Hb. by destruct b.
Qed.

(** C27 (functional): on a canonical RFC 3339 UTC time stamp, any fraction of a
    second included, the comparison is the one of the 64-bit nanosecond clock,
    whatever the uninitialised [suffix] holds; the one instant [timegm] maps to
    -1 is rejected. *)
Theorem isUTCTimeInFuture_canonical suffix0 now t frac :
  ts_ok t → fraction_ok frac →
  timegm (ts_tm t) ≠ -1 →
  isUTCTimeInFuture suffix0 now (print_ts t +:+ frac +:+ "Z")
  = Ret (bool_decide (wrap64 (timegm (ts_tm t) * 10^9) > now)).
Proof.
  intros Hok Hf Ht. unfold isUTCTimeInFuture.
  rewrite get_time_print by (try done; by destruct frac).
  rewrite fractional_seconds_skip by done. cbn -[timegm_custom].
  unfold timegm_custom. by rewrite !decide_False by tauto.
Qed.

Definition stamp_2030 : timestamp :=
  {| ts_year := 2030; ts_month := 1; ts_day := 2; ts_hour := 3; ts_min := 4; ts_sec := 5 |}.

Lemma isUTCTimeInFuture_canonical_witness :
  isUTCTimeInFuture "?" 0 "2030-01-02T03:04:05.123456789012Z" = Ret true.
Proof.
  refine (isUTCTimeInFuture_canonical "?" 0 stamp_2030 ".123456789012" _ _ _).
  - vm_compute. intuition congruence.
  - right. exists "123456789012". split; reflexivity.
  - vm_compute. congruence.
Defined.

Lemma year_bounds t : ts_ok t →
  let s := timegm (ts_tm t) in
  31536000 * (ts_year t - 1970) + 86400 * (leaps (ts_year t - 1) - 477) <= s
  ∧ s <= 31536000 * (ts_year t - 1970) + 86400 * (leaps (ts_year t - 1) - 477) + 86400 * 367.
Proof.
  intros (HY & Hm & Hd & HH & HM & HS).
  assert (Hs : timegm (ts_tm t) = midnight (ts_year t) (ts_month t) (ts_day t)
    + 3600 * ts_hour t + 60 * ts_min t + ts_sec t).
  { unfold midnight, timegm, tm_yday, date_tm, ts_tm. cbn -[Z.div Z.mul]. lia. }
  cbn zeta. rewrite Hs, midnight_eq.
  assert (Hb : 0 <= days_before_month (ts_month t - 1) <= 334).
  { apply month_cases in Hm. rewrite !elem_of_cons in Hm.
    destruct_or! Hm; try (rewrite Hm; vm_compute; intuition congruence). by apply elem_of_nil in Hm. }
  destruct (is_leap (ts_year t) && bool_decide (2 <= ts_month t - 1)); lia.
Qed.

(** (bounds): for the years 1678 to 2261 the nanosecond conversion does not
    overflow, so the comparison is the one of the instants themselves. *)
Theorem isUTCTimeInFuture_in_range suffix0 now t frac :
  ts_ok t → fraction_ok frac → 1678 <= ts_year t <= 2261 →
  timegm (ts_tm t) ≠ -1 →
  isUTCTimeInFuture suffix0 now (print_ts t +:+ frac +:+ "Z")
  = Ret (bool_decide (timegm (ts_tm t) * 10^9 > now)).
Proof.
  intros Hok Hf HY Ht.
  assert (Hc : isUTCTimeInFuture suffix0 now (print_ts t +:+ frac +:+ "Z")
    = Ret (bool_decide (wrap64 (timegm (ts_tm t) * 10^9) > now))).
  { unfold isUTCTimeInFuture. rewrite get_time_print by (try done; by destruct frac).
    rewrite fractional_seconds_skip by done. cbn -[timegm_custom].
    unfold timegm_custom. by rewrite !decide_False by tauto. }
  rewrite Hc. do 2 f_equal. rewrite wrap64_id; [done|].
  pose proof (year_bounds t Hok) as [Hlo Hhi].
  assert (Hl : leaps 1677 <= leaps (ts_year t - 1) <= leaps 2260).
  { unfold leaps. dlia. }
  change (leaps 1677) with 407 in Hl. change (leaps 2260) with 548 in Hl.
  unfold int64. lia.
Qed.

Lemma isUTCTimeInFuture_in_range_witness :
  isUTCTimeInFuture "?" (1735689600 * 10^9) "2030-01-02T03:04:05Z"
  = Ret (bool_decide (timegm (ts_tm stamp_2030) * 10^9 > 1735689600 * 10^9)).
Proof.
  refine (isUTCTimeInFuture_in_range "?" _ stamp_2030 "" _ _ _ _).
  - vm_compute. intuition congruence.
  - by left.
  - vm_compute. intuition congruence.
  - vm_compute. congruence.
Defined.

(** (bounds): a stamp past the clock's range overflows: "9999-12-31T23:59:59Z"
    is reported as past at any time after 1816. *)
Theorem isUTCTimeInFuture_overflow suffix0 now :
  - 4852116232933722624 <= now →
  isUTCTimeInFuture suffix0 now "9999-12-31T23:59:59Z" = Ret false.
Proof.
  intros Hnow.
  assert (Hc : isUTCTimeInFuture suffix0 now "9999-12-31T23:59:59Z"
    = Ret (bool_decide (-4852116232933722624 > now))) by reflexivity.
  rewrite Hc. by rewrite bool_decide_eq_false_2 by lia.
Qed.

Lemma isUTCTimeInFuture_overflow_witness :
  isUTCTimeInFuture "?" (1735689600 * 10^9) "9999-12-31T23:59:59Z" = Ret false.
Proof. apply (isUTCTimeInFuture_overflow "?" (1735689600 * 10^9)). lia. Defined.

(** (error): without the final [Z] the result depends on the indeterminate
    [char suffix]: an exception, unless the stack byte happens to be a [Z]. *)
Theorem isUTCTimeInFuture_missing_Z suffix0 now t :
  ts_ok t → timegm (ts_tm t) ≠ -1 →
  isUTCTimeInFuture suffix0 now (print_ts t)
  = if decide (suffix0 = "Z"%char)
    then Ret (bool_decide (wrap64 (timegm (ts_tm t) * 10^9) > now))
    else Throw (Exn RuntimeError
           ("Timestamp missing required 'Z' (UTC indicator): '" +:+ print_ts t +:+ "'")).
Proof.
  intros Hok Ht. pose proof (time_get_print t "" Hok) as Hg. rewrite string_app_nil_r in Hg.
  assert (Hss : get_time TIME_FORMAT (istringstream (print_ts t))
    = (Some (ts_tm t), {| buf := ""; eofbit := true; failbit := false |})).
  { destruct (print_ts_first t Hok) as (c & s & Hs & Hc). rewrite Hs in *.
    unfold get_time, sentry. cbn [good istringstream eofbit failbit negb andb buf drop_while].
    rewrite Hc. cbn [buf istringstream]. by rewrite Hg. }
  pose (ended := {| buf := ""; eofbit := true; failbit := true |}).
  unfold isUTCTimeInFuture. rewrite Hss.
  change (fractional_seconds _) with ended. change (extract_char suffix0 ended) with (suffix0, ended).
  change (extract_word ended) with ("", ended). unfold timegm_custom.
  cbn [ended failbit eofbit orb andb negb]. destruct (decide (suffix0 = "Z"%char)) as [HZ|HZ].
  - rewrite (bool_decide_eq_true_2 (suffix0 = "Z"%char)) by done. cbn [negb andb mbind outcome_bind].
    by rewrite !decide_False by tauto.
  - by rewrite (bool_decide_eq_false_2 (suffix0 = "Z"%char)) by done.
Qed.

Lemma isUTCTimeInFuture_missing_Z_witness :
  isUTCTimeInFuture "Z" 0 "2030-01-02T03:04:05" = Ret true.
Proof.
  refine (isUTCTimeInFuture_missing_Z "Z" 0 stamp_2030 _ _).
  - vm_compute. intuition congruence.
  - vm_compute. congruence.
Defined.
