(* ===== verification/ConfigProps.v ===== *)
(** * Backend URLs, percent-decoding and the loaded configuration

    [match_url] recognises the regular expression of AppConfig.hpp and nothing
    else; [parseUrl] accepts exactly the [http] URLs of that shape with a port
    in 1..65535; the configuration that [loadConfiguration] returns is well
    formed whatever the file and the arguments hold. *)

From S2P Require Import Prelude Text TextFacts Models Utils.

(** ** The regular expression *)

(** The last group of the regular expression: one of / ? # or nothing. *)
Definition url_tail (t : string) : Prop := t = "" ∨ t = "/" ∨ t = "?" ∨ t = "#".

(** [^(https?):\/\/([^:\/?#]+)(?::(\d+))?(?:[\/?#]|$)] as a relation between a
    full match and its groups 1, 2 and 3. *)
Inductive url_groups : string -> string -> string -> option string -> Prop :=
  | url_default_port scheme host tail :
      scheme = "http" ∨ scheme = "https" →
      host ≠ "" → all_of is_host_char host = true → url_tail tail →
      url_groups (scheme +:+ "://" +:+ host +:+ tail) scheme host None
  | url_with_port scheme host digits tail :
      scheme = "http" ∨ scheme = "https" →
      host ≠ "" → all_of is_host_char host = true →
      digits ≠ "" → all_of isdigit digits = true → url_tail tail →
      url_groups (scheme +:+ "://" +:+ host +:+ ":" +:+ digits +:+ tail) scheme host (Some digits).

Lemma is_url_end_iff t : is_url_end t = true ↔ url_tail t.
Proof.
  unfold url_tail. split.
  - destruct t as [|c [|d t]]; cbn; [by left| |done].
    intros [[H|H]%orb_prop|H]%orb_prop; apply bool_decide_eq_true in H; subst; auto.
  - by intros [->|[->|[->| ->]]].
Qed.

Lemma url_tail_stops_host t : url_tail t → stops is_host_char t.
Proof. by intros [->|[->|[->| ->]]]. Qed.

Lemma url_tail_stops_digit t : url_tail t → stops isdigit t.
Proof. by intros [->|[->|[->| ->]]]. Qed.

Lemma match_url_scheme scheme rest :
  scheme = "http" ∨ scheme = "https" →
  (if starts_with "https://" (scheme +:+ "://" +:+ rest)
   then Some ("https", suffix_from 8 (scheme +:+ "://" +:+ rest))
   else if starts_with "http://" (scheme +:+ "://" +:+ rest)
   then Some ("http", suffix_from 7 (scheme +:+ "://" +:+ rest))
   else None) = Some (scheme, rest).
Proof. by intros [->| ->]. Qed.

Lemma match_url_complete u scheme host port :
  url_groups u scheme host port → match_url u = Some (scheme, host, port).
Proof.
  intros [scheme' host' tail Hs Hne Hh Ht|scheme' host' digits tail Hs Hne Hh Hdne Hd Ht];
    unfold match_url; rewrite match_url_scheme by done; cbn -[is_url_end String.append].
  - rewrite take_while_app, drop_while_app by (try done; by apply url_tail_stops_host).
    rewrite decide_False by done.
    pose proof (proj2 (is_url_end_iff tail) Ht) as He.
    by destruct Ht as [->|[->|[->| ->]]].
  - change (":" +:+ digits +:+ tail) with (String ":" (digits +:+ tail)).
    rewrite take_while_app, drop_while_app by done.
    rewrite decide_False by done.
    rewrite take_while_app, drop_while_app by (try done; by apply url_tail_stops_digit).
    rewrite decide_False by done. by rewrite (proj2 (is_url_end_iff tail) Ht).
Qed.

Lemma match_url_rest scheme rest groups :
  scheme = "http" ∨ scheme = "https" →
  (let host := take_while is_host_char rest in
   let after := drop_while is_host_char rest in
   if decide (host = "") then None
   else match after with
        | String ":" after' =>
            let digits := take_while isdigit after' in
            if decide (digits = "") then None
            else if is_url_end (drop_while isdigit after') then Some (scheme, host, Some digits)
            else None
        | _ => if is_url_end after then Some (scheme, host, None) else None
        end) = Some groups →
  url_groups (scheme +:+ "://" +:+ rest) groups.1.1 groups.1.2 groups.2.
Proof.
  intros Hs. cbv zeta. case_decide as Hne; [done|].
  pose proof (take_drop_while is_host_char rest) as Hr.
  pose proof (all_take_while is_host_char rest) as Hh.
  set (after := drop_while is_host_char rest) in *. intros H.
  assert (Hcase : (∃ after', after = String ":" after' ∧
      (if decide (take_while isdigit after' = "") then None
       else if is_url_end (drop_while isdigit after')
       then Some (scheme, take_while is_host_char rest, Some (take_while isdigit after'))
       else None) = Some groups)
    ∨ (if is_url_end after then Some (scheme, take_while is_host_char rest, None) else None)
      = Some groups).
  { destruct after as [|c after']; [by right|].
    destruct c as [[] [] [] [] [] [] [] []]; try (by right). left. eauto. }
  clear H. destruct Hcase as [(after' & Ha & H)|H].
  - case_decide as Hd; [done|]. destruct (is_url_end _) eqn:He; [|done]. injection H as <-.
    rewrite <- Hr, Ha, <- (take_drop_while isdigit after') at 1.
    apply (url_with_port scheme); try done; [apply all_take_while|by apply is_url_end_iff].
  - destruct (is_url_end after) eqn:He; [|done]. injection H as <-. rewrite <- Hr at 1.
    apply (url_default_port scheme); try done. by apply is_url_end_iff.
Qed.

Lemma match_url_sound u scheme host port :
  match_url u = Some (scheme, host, port) → url_groups u scheme host port.
Proof.
  unfold match_url. destruct (starts_with "https://" u) eqn:E1.
  - apply starts_with_true in E1. intros H. apply match_url_rest in H; [|by right].
    rewrite E1. exact H.
  - destruct (starts_with "http://" u) eqn:E2; [|done].
    apply starts_with_true in E2. intros H. apply match_url_rest in H; [|by left].
    rewrite E2. exact H.
Qed.

(** (equivalence): the matcher is the regular expression of the source. *)
Theorem match_url_regex u scheme host port :
  match_url u = Some (scheme, host, port) ↔ url_groups u scheme host port.
Proof. split; [apply match_url_sound|apply match_url_complete]. Qed.

(** ** [parseUrl] *)

Definition port_of (port_group : option string) : Z :=
  match port_group with
  | Some digits => digits_value 0 digits
  | None => 80
  end.

Lemma digits_value_ge ds acc : all_of isdigit ds = true → 0 <= acc → acc <= digits_value acc ds.
Proof.
  revert acc. induction ds as [|c ds IH]; intros acc; cbn; [lia|].
  intros [Hc Hds]%andb_prop Hacc. pose proof (digit_value_range c Hc).
  etrans; [|apply IH; [done|lia]]. lia.
Qed.

(** (functional): [parseUrl] accepts a URL exactly when it matches with the
    scheme [http] and a port between 1 and 65535, by default 80, and then
    writes that host and port and [is_https = false]; [https] is rejected. *)
Theorem parseUrl_spec u info r :
  parseUrl u info = Some r ↔
  ∃ host port_group, url_groups u "http" host port_group
    ∧ 1 <= port_of port_group <= 65535
    ∧ r = {| url := url info; backend_host := host; backend_port := port_of port_group;
             is_https := false |}.
Proof.
  unfold parseUrl. split.
  - destruct (match_url u) as [[[scheme host] pg]|] eqn:Hm; [|done].
    apply match_url_sound in Hm. case_decide as Hs; [done|].
    assert (scheme = "http") as -> by (inversion Hm; naive_solver).
    intros H. exists host, pg. split; [done|]. destruct pg as [digits|].
    + inversion Hm as [|? ? ? ? ? ? ? Hdne Hd]; subst.
      rewrite stoi_digits in H by done. case_decide; [|done]. case_decide; [done|].
      injection H as <-. cbn [port_of]. split; [lia|done].
    + injection H as <-. done.
  - intros (host & pg & Hm & Hp & ->). rewrite (match_url_complete _ _ _ _ Hm).
    rewrite decide_False by done. destruct pg as [digits|].
    + inversion Hm as [|? ? ? ? ? ? ? Hdne Hd]; subst. cbn [port_of] in *.
      rewrite stoi_digits by done. rewrite decide_True by (unfold int32; lia).
      by rewrite decide_False by lia.
    + done.
Qed.

(** ** Percent-decoding *)

Definition hex_digit (d : Z) : ascii :=
  if decide (d < 10) then chr (code "0" + d) else chr (code "A" + (d - 10)).

(** RFC 3986 percent-encoding of every byte that is not a letter or a digit. *)
Fixpoint percent_encode (s : string) : string :=
  match s with
  | EmptyString => EmptyString
  | String c s =>
      if isalpha c || isdigit c then String c (percent_encode s)
      else String "%" (String (hex_digit (code c / 16)) (String (hex_digit (code c mod 16))
             (percent_encode s)))
  end.

Lemma hex_pair_digits c :
  (λ c, bool_decide (chr <$> hex_pair (hex_digit (code c / 16)) (hex_digit (code c mod 16)) = Some c)) c
  = true.
Proof. revert c. by_characters. Qed.

Lemma plain_char c :
  (λ c, implb (isalpha c || isdigit c)
      (negb (bool_decide (c = "%"%char)) && negb (bool_decide (c = "+"%char)))) c = true.
Proof. revert c. by_characters. Qed.

Lemma percent_roundtrip s : urlDecode (percent_encode s) = s.
Proof.
  induction s as [|c s IH]; [done|]. cbn [percent_encode].
  destruct (isalpha c || isdigit c) eqn:Hc.
  - pose proof (plain_char c) as Hp. cbv beta in Hp. rewrite Hc in Hp. cbn in Hp.
    apply andb_prop in Hp as [H1%negb_true_iff%bool_decide_eq_false
                              H2%negb_true_iff%bool_decide_eq_false].
    cbn. rewrite !decide_False by done. by rewrite IH.
  - cbn [urlDecode]. rewrite decide_True by done.
    pose proof (hex_pair_digits c) as Hp. cbv beta in Hp. apply bool_decide_eq_true in Hp.
    destruct (hex_pair _ _) as [v|]; [|done]. cbn in Hp. injection Hp as ->. by rewrite IH.
Qed.

(** (roundtrip): decoding inverts encoding for every byte string. *)
Theorem urlDecode_encode s : urlDecode (percent_encode s) = s.
Proof. apply percent_roundtrip. Qed.

(** ** The command line *)

(** (error): [parseArguments] fails exactly when some argument has no
    non-empty key before an equals sign. *)
Theorem parseArguments_fails args :
  parseArguments args = None ↔
  Exists (λ arg, find "=" arg = None ∨ find "=" arg = Some O) args.
Proof.
  unfold parseArguments. generalize (∅ : gmap string string).
  induction args as [|arg args IH]; intros m; cbn.
  - split; [done|]. intros H. inversion H.
  - rewrite Exists_cons. destruct (find "=" arg) as [[|n]|].
    + split; [|done]. intros _. left. by right.
    + rewrite IH. naive_solver.
    + split; [|done]. intros _. left. by left.
Qed.

(** ** The configuration *)

(** The settings that neither the file nor the command line can change. *)
Definition fixed_settings (c : AppConfig) : Prop :=
  server_sla_in_micros c = 1000000 ∧ request_average_processing_time_in_micros c = 1200 ∧
  number_of_threads_per_core c = 2 ∧ queue_multiply_factor c = 4 ∧
  drop_sla_timeout_requests c = true ∧
  backend_servers_circuit_breaker_cool_off_duration_in_millis c = 10 ∧
  connection_timeout_in_microseconds c = 25000 ∧ read_request_timeout_in_microseconds c = 50000.

Definition country_ok (k : string) (b : BackendUrlInfo) : Prop :=
  String.length k = 2%nat ∧ all_of isupper k = true ∧ is_https b = false ∧
  1 <= backend_port b <= 65535 ∧
  ∃ port_group, url_groups (url b) "http" (backend_host b) port_group
    ∧ backend_port b = port_of port_group.

Definition config_ok (c : AppConfig) : Prop :=
  fixed_settings c ∧ map_Forall country_ok (country_backend_map c).

Lemma config_ok_default : config_ok AppConfig_default.
Proof. split; [done|]. apply map_Forall_empty. Qed.

(** A setting either raises the log level's exception or keeps the invariant. *)
Definition setting_result (o : outcome AppConfig) : Prop :=
  match o with
  | Ret c => config_ok c
  | Throw e => exn_type e = InvalidArgument ∧ ∃ l, what e = "Invalid log level: " +:+ l
  | UB => False
  end.

Lemma with_int_ok value f c :
  (∀ v, config_ok (f v c)) → config_ok c → setting_result (with_int value f c).
Proof. intros Hf Hc. unfold with_int. by destruct (stringToInt value); cbn. Qed.

Lemma apply_setting_ok key value c : config_ok c → setting_result (apply_setting key value c).
Proof.
  intros Hc. unfold apply_setting.
  repeat (case_decide; [try (apply with_int_ok; [intros v|]; exact Hc); try exact Hc|]);
    [|exact Hc].
  unfold stringToLogLevel. repeat case_decide; try exact Hc. cbn. eauto.
Qed.

Lemma apply_line_ok l c : config_ok c → setting_result (apply_line l c).
Proof.
  intros Hc. unfold apply_line. destruct (trim l) as [|a s]; [done|].
  assert (H : setting_result
    (match find "=" (String a s) with
     | Some (S _ as delimiterPos) =>
         let '(key, value) := split_at delimiterPos (String a s) in
         apply_setting (trim key) (trim value) c
     | _ => Ret c end)).
  { destruct (find "=" (String a s)) as [[|n]|]; [done| |done]. by apply apply_setting_ok. }
  by destruct a as [[] [] [] [] [] [] [] []].
Qed.

Lemma apply_lines_ok ls c : config_ok c → setting_result (apply_lines ls c).
Proof.
  revert c. induction ls as [|l ls IH]; intros c Hc; [done|]. cbn.
  pose proof (apply_line_ok l c Hc) as H. destruct (apply_line l c); cbn in *; auto.
Qed.

Lemma load_file_ok files paths c : config_ok c → setting_result (load_file files paths c).
Proof.
  intros Hc. induction paths as [|p paths IH]; [done|]. cbn.
  destruct (files p); [by apply apply_lines_ok|done].
Qed.

Lemma isalpha_toupper c : (λ c, implb (isalpha c) (isupper (toupper c))) c = true.
Proof. revert c. by_characters. Qed.

Lemma all_isupper_toupper s : all_of isalpha s = true → all_of isupper (map_string toupper s) = true.
Proof.
  induction s as [|c s IH]; [done|]. cbn. intros [Hc Hs]%andb_prop. rewrite IH by done.
  pose proof (isalpha_toupper c) as H. cbv beta in H. rewrite Hc in H.
  change (isupper (toupper c) = true) in H. by rewrite H.
Qed.

Lemma length_map_string f s : String.length (map_string f s) = String.length s.
Proof. induction s as [|c s IH]; [done|]. cbn. by rewrite IH. Qed.

Lemma add_backend_ok c kv : config_ok c → config_ok (add_backend c kv).
Proof.
  intros [Hf Hm]. destruct kv as [key value]. unfold add_backend.
  case_decide as Hl; [|done]. destruct (all_of isalpha key) eqn:Ha; [|done].
  destruct (_ || _); [|done]. destruct (parseUrl _ _) as [r|] eqn:Hp; [|done].
  apply parseUrl_spec in Hp as (host & pg & Hg & Hport & ->).
  split; [exact Hf|]. apply map_Forall_insert_2; [|exact Hm].
  split; [by rewrite length_map_string|]. split; [by apply all_isupper_toupper|].
  cbn. eauto.
Qed.

(** C26 (invariant): [loadConfiguration] either reports the invalid log level of
    the file, and nothing else, or returns a configuration in which every
    country key is two upper-case letters, every backend is an http URL of the
    expected shape with its host and port, the non-configurable settings have
    their defaults and, with at most 65536 hardware threads, the response queue
    is bounded by 3332 responses per I/O thread, without overflow. *)
Theorem loadConfiguration_ok files hc args :
  match loadConfiguration files hc args with
  | Ret c =>
      config_ok c
      ∧ (0 <= hc <= 65536 →
         2 <= num_io_threads c ∧ max_response_queue_size c = 3332 * num_io_threads c)
  | Throw e => exn_type e = InvalidArgument ∧ ∃ l, what e = "Invalid log level: " +:+ l
  | UB => False
  end.
Proof.
  unfold loadConfiguration.
  pose proof (load_file_ok files config_paths _ config_ok_default) as H.
  destruct (load_file files config_paths AppConfig_default) as [c|e|]; [|done..].
  cbn [mbind outcome_bind setting_result] in *.
  assert (Hc : config_ok (foldl add_backend c (map_entries args))).
  { revert c H. induction (map_entries args) as [|kv kvs IH]; intros c H; [done|].
    apply IH. by apply add_backend_ok. }
  split; [exact Hc|]. intros Hhc. destruct Hc as [(H1 & H2 & H3 & H4 & _) _].
  unfold updateDeductions. cbn [num_io_threads max_response_queue_size update_field].
  rewrite H1, H2, H3, H4. change (1000000 `quot` 1200) with 833.
  rewrite (to_u32_id (hc * 2)) by lia.
  assert (Hn : 2 <= (if decide (hc * 2 = 0) then 2 else hc * 2) <= 131072) by (case_decide; lia).
  split; [lia|]. rewrite (to_u32_id (_ * 833)) by lia. rewrite to_u32_id by lia.
  rewrite wrap32_id by (unfold int32; lia). lia.
Qed.

(** (functional): two entries of the shipped backendify.config are not
    honoured: the documented log level SETUP aborts the start-up, and
    [metrics_send_interval_in_millis] is not a key the loader knows. *)
Theorem documented_settings_not_honoured value c :
  apply_setting "log_level" "SETUP" c
    = Throw (Exn InvalidArgument "Invalid log level: SETUP")
  ∧ apply_setting "metrics_send_interval_in_millis" value c = Ret c.
Proof. split; reflexivity. Qed.
