(* ===== verification/Logging.v ===== *)
(** * Loggers and the singletons (src/interfaces/ILogger.hpp, src/logging/)

    [ILogger] is the interface the components log through; [ConsoleLogger]
    filters by level and writes to standard output or error. [Singleton]
    models the ownership of the object behind [getInstance()]: reference
    counted control blocks over one raw pointer. *)

From S2P Require Import Prelude Text Models.

(** ** The interface

    The five logging methods differ in their level only. *)

Class ILogger (L : Type) := {
  log : LogLevel -> string -> L -> L;
  getLogLevel : L -> Z
}.

(** The messages a step gives its logger, in order. *)
Definition logs : Type := list (LogLevel * string).

Definition log_all {L} `{ILogger L} (ms : logs) (l : L) : L :=
  foldl (λ l m, log m.1 m.2 l) l ms.

(** ** ConsoleLogger *)

Module ConsoleLogger.

Inductive stream := cout | cerr.

#[global] Instance stream_eq_dec : EqDecision stream.
Proof. solve_decision. Defined.

Record t := { logLevel : LogLevel; written : list (stream * string) }.

Definition write (s : stream) (line : string) (l : t) : t :=
  {| logLevel := logLevel l; written := written l ++ [(s, line +:+ nl)] |}.

Definition enabled (level : LogLevel) (l : t) : bool :=
  bool_decide (LogLevel_to_int (logLevel l) <= LogLevel_to_int level).

Definition info (message : string) (l : t) : t :=
  if enabled INFO l then write cout (LOG_PREFIX INFO +:+ message) l else l.

Definition debug (message : string) (l : t) : t :=
  if enabled DEBUG l then write cout (LOG_PREFIX DEBUG +:+ message) l else l.

Definition warn (message : string) (l : t) : t :=
  if enabled WARN l then write cout (LOG_PREFIX WARN +:+ message) l else l.

Definition error (message : string) (l : t) : t :=
  if enabled CERROR l then write cerr (LOG_PREFIX CERROR +:+ message) l else l.

Definition setup (message : string) (l : t) : t :=
  write cout (LOG_PREFIX SETUP +:+ message) l.

Definition get_log_level (l : t) : Z := LogLevel_to_int (logLevel l).

#[global] Instance logger : ILogger t := {|
  log := λ level, match level with
                  | INFO => info
                  | DEBUG => debug
                  | WARN => warn
                  | CERROR => error
                  | SETUP => setup
                  end;
  getLogLevel := get_log_level
|}.

Definition level_stream (level : LogLevel) : stream :=
  match level with CERROR => cerr | _ => cout end.

End ConsoleLogger.

(** ** Singletons

    [instance] is a static [shared_ptr] created under [call_once]. [blocks]
    maps a control block to its use count; a block whose count drops to zero
    deletes the object, and deleting it twice is undefined behaviour. *)

Module Singleton.

Record t := { created : bool; alive : bool; blocks : gmap nat nat; next_block : nat }.

Definition initial : t := {| created := false; alive := false; blocks := ∅; next_block := 1 |}.

(** Block 0 is the one of the static [instance]. *)
Definition call_once (s : t) : t :=
  if created s then s
  else {| created := true; alive := true; blocks := <[0%nat := 1%nat]> (blocks s);
          next_block := next_block s |}.

(** [return std::shared_ptr<T>(instance.get());]: a new control block over the
    same raw pointer. *)
Definition getInstance_raw (s : t) : nat * t :=
  let s := call_once s in
  (next_block s,
   {| created := created s; alive := alive s; blocks := <[next_block s := 1%nat]> (blocks s);
      next_block := S (next_block s) |}).

Definition add_ref (b : nat) (s : t) : t :=
  {| created := created s; alive := alive s; blocks := alter S b (blocks s);
     next_block := next_block s |}.

(** [return instance;]: a copy shares the static pointer's block. *)
Definition getInstance_shared (s : t) : nat * t := (0%nat, add_ref 0 (call_once s)).

(** A [shared_ptr] of block [b] goes away. *)
Definition release (b : nat) (s : t) : outcome t :=
  match blocks s !! b with
  | Some 1%nat =>
      if alive s then
        Ret {| created := created s; alive := false; blocks := delete b (blocks s);
               next_block := next_block s |}
      else UB
  | Some (S n) =>
      Ret {| created := created s; alive := alive s; blocks := <[b := n]> (blocks s);
             next_block := next_block s |}
  | _ => UB
  end.

(** The destructor of the static [instance] at program exit. *)
Definition exit (s : t) : outcome t := if created s then release 0 s else Ret s.

End Singleton.

(** ** Properties *)

(** (functional): a message is written, once, with its level's prefix and to
    its level's stream, exactly when the level is at least the logger's;
    [setup] is always written. *)
Theorem console_logger_writes level message (l : ConsoleLogger.t) :
  ConsoleLogger.written (log level message l)
  = ConsoleLogger.written l ++
    (if decide (level = SETUP ∨ LogLevel_to_int (ConsoleLogger.logLevel l) <= LogLevel_to_int level)
     then [(ConsoleLogger.level_stream level, LOG_PREFIX level +:+ message +:+ nl)] else []).
Proof.
  assert (Hw : ∀ s p, ConsoleLogger.written (ConsoleLogger.write s (p +:+ message) l)
    = ConsoleLogger.written l ++ [(s, p +:+ message +:+ nl)]).
  { intros s p. unfold ConsoleLogger.write. cbn. do 3 f_equal.
    induction p as [|c p IH]; [done|]. cbn. by rewrite IH. }
  destruct level; cbn [log ConsoleLogger.logger];
    unfold ConsoleLogger.info, ConsoleLogger.debug, ConsoleLogger.warn, ConsoleLogger.error,
      ConsoleLogger.setup, ConsoleLogger.enabled;
    try case_bool_decide; case_decide; rewrite ?Hw, ?app_nil_r; naive_solver.
Qed.

(** (safety): the pointer [ConsoleLogger::getInstance] (and
    [StatsDClient::getInstance]) returns owns the object on its own: when it
    goes, the object is deleted under the static [instance], and the exit of
    the program deletes it again. *)
Theorem raw_singleton_double_delete :
  ∃ s1 s2, Singleton.getInstance_raw Singleton.initial = (1%nat, s1)
    ∧ Singleton.release 1 s1 = Ret s2
    ∧ Singleton.alive s2 = false ∧ Singleton.created s2 = true
    ∧ Singleton.exit s2 = UB.
Proof. eexists _, _. repeat split. Qed.

Lemma shared_refs_release n s :
  Singleton.alive s = true → Singleton.created s = true → Singleton.blocks s !! 0%nat = Some (S n) →
  ∃ s', Nat.iter n (λ o, s ← o; Singleton.release 0 s) (Ret s) = Ret s'
    ∧ Singleton.alive s' = true ∧ Singleton.created s' = true
    ∧ Singleton.blocks s' !! 0%nat = Some 1%nat.
Proof.
  revert s. induction n as [|n IH]; intros s Ha Hc Hb; [by exists s|].
  rewrite Nat.iter_succ_r.
  assert (Hr : Singleton.release 0 s = Ret {| Singleton.created := Singleton.created s;
    Singleton.alive := Singleton.alive s; Singleton.blocks := <[0%nat := S n]> (Singleton.blocks s);
    Singleton.next_block := Singleton.next_block s |}) by (unfold Singleton.release; by rewrite Hb).
  replace (Ret s ≫= _) with (Singleton.release 0 s) by done. rewrite Hr.
  apply IH; [done..|]. cbn. apply lookup_insert_eq.
Qed.

(** (safety): with the [DummyStatsDClient] accessor any number of pointers
    can be obtained and dropped, and the exit deletes the object once. *)
Theorem shared_singleton_safe n :
  let s := Nat.iter n (λ s, (Singleton.getInstance_shared s).2)
             (Singleton.call_once Singleton.initial) in
  ∃ s1 s2, Nat.iter n (λ o, s ← o; Singleton.release 0 s) (Ret s) = Ret s1
    ∧ Singleton.alive s1 = true ∧ Singleton.exit s1 = Ret s2 ∧ Singleton.alive s2 = false.
Proof.
  cbn zeta.
  assert (H : ∀ n s, s = Nat.iter n (λ s, (Singleton.getInstance_shared s).2)
      (Singleton.call_once Singleton.initial) →
    Singleton.alive s = true ∧ Singleton.created s = true ∧ Singleton.blocks s !! 0%nat = Some (S n)).
  { clear n. intros n. induction n as [|n IH]; intros s ->; [done|]. rewrite Nat.iter_succ.
    destruct (IH _ eq_refl) as (Ha & Hc & Hb).
    set (s := Nat.iter n _ _) in *. unfold Singleton.getInstance_shared, Singleton.call_once.
    rewrite Hc. cbn. by rewrite lookup_alter_eq, Hb. }
  destruct (H n _ eq_refl) as (Ha & Hc & Hb).
  destruct (shared_refs_release n _ Ha Hc Hb) as (s1 & Hr & Ha1 & Hc1 & Hb1).
  eexists s1, _. split; [exact Hr|]. split; [done|].
  unfold Singleton.exit, Singleton.release. by rewrite Hc1, Hb1, Ha1.
Qed.
