(* ===== verification/CircuitBreaker.v ===== *)
(** * CircuitBreaker (src/core/CircuitBreaker.{hpp,cpp})

    A map from a backend URL to the end of its cool-down. Both operations run
    under [mutex_], so each is one atomic step; a reading of
    [steady_clock::now()] is an argument, in nanoseconds. *)

From S2P Require Import Prelude Text Models Logging.

Module CircuitBreaker.

Record t := { tripped_backends_ : gmap string Z }.

(** The two pointers are checked; the flags say whether they are set. *)
Definition ctor (logger statsd_client : bool) : outcome t :=
  if negb logger then
    Throw (Exn InvalidArgument "Logger cannot be null for CircuitBreaker")
  else if negb statsd_client then
    Throw (Exn InvalidArgument "StatsDClient cannot be null for CircuitBreaker")
  else Ret {| tripped_backends_ := ∅ |}.

Definition isTripped (now : Z) (backendUrl : string) (b : t) : bool * logs :=
  match tripped_backends_ b !! backendUrl with
  | Some tripped =>
      if decide (tripped > now) then
        (true, [(Models.CERROR, "Circuit breaker tripped for backend: " +:+ backendUrl)])
      else (false, [])
  | None => (false, [])
  end.

(** A time point and milliseconds: 64-bit nanoseconds. *)
Definition after_millis (now ms : Z) : Z := wrap64 (now + wrap64 (ms * 10^6)).

Definition trip (now : Z) (backendUrl : string) (coolDownDuration : Z) (b : t) : t * logs :=
  ({| tripped_backends_ :=
        <[backendUrl := after_millis now coolDownDuration]> (tripped_backends_ b) |},
   [(Models.CERROR, "Tripping circuit breaker for backend: " +:+ backendUrl +:+ " for "
       +:+ to_string coolDownDuration +:+ "ms")]).

(** A call of [trip]: its time, its URL and its duration. *)
Definition trip_call : Type := Z * string * Z.

Definition run_trips (calls : list trip_call) (b : t) : t :=
  foldl (λ b '(now, url, ms), (trip now url ms b).1) b calls.

End CircuitBreaker.

(** ** Properties *)

Section Breaker.
Import CircuitBreaker.

(** The last trip of [url] in a history. *)
Definition last_trip (url : string) (calls : list trip_call) : option (Z * Z) :=
  last (omap (λ '(now, u, ms), if decide (u = url) then Some (now, ms) else None) calls).

Lemma run_trips_lookup url calls b :
  tripped_backends_ (run_trips calls b) !! url
  = match last_trip url calls with
    | Some (now, ms) => Some (after_millis now ms)
    | None => tripped_backends_ b !! url
    end.
Proof.
  unfold run_trips. induction calls as [|[[now u] ms] calls IH] using rev_ind; [done|].
  unfold last_trip in *. rewrite foldl_app, omap_app. cbn.
  case_decide as Hu; cbn.
  - subst u. by rewrite last_snoc, lookup_insert_eq.
  - by rewrite lookup_insert_ne, app_nil_r.
Qed.

Lemma after_millis_exact now ms :
  0 <= now < 2^62 → int32 ms → after_millis now ms = now + ms * 10^6.
Proof.
  unfold int32, after_millis. intros Hn Hm.
  rewrite (wrap64_id (ms * 10^6)); [rewrite wrap64_id; [done|]|]; unfold int64; lia.
Qed.

(** (functional): whatever sequence of trips came before, a backend counts
    as tripped exactly while its own last trip's cool-down has not elapsed:
    trips of other backends do not matter, a later trip replaces an earlier
    one, and a cool-down of zero or less never blocks. *)
Theorem breaker_window (calls : list trip_call) url now
    (Hcalls : Forall (λ '(t0, _, ms), 0 <= t0 < 2^62 ∧ int32 ms) calls) :
  (isTripped now url (run_trips calls {| tripped_backends_ := ∅ |})).1 = true
  ↔ ∃ t0 ms, last_trip url calls = Some (t0, ms) ∧ now < t0 + ms * 10^6.
Proof.
  unfold isTripped. rewrite run_trips_lookup.
  destruct (last_trip url calls) as [[t0 ms]|] eqn:Hl.
  - assert (∃ u, (t0, u, ms) ∈ calls) as [u Hin].
    { apply last_Some_elem_of, list_elem_of_omap in Hl as ([[t1 u] ms1] & Hin & Hx).
      exists u. case_decide; naive_solver. }
    rewrite Forall_forall in Hcalls. specialize (Hcalls _ Hin). cbn in Hcalls.
    rewrite after_millis_exact by tauto. case_decide; naive_solver lia.
  - cbn. rewrite lookup_empty. naive_solver.
Qed.

Lemma breaker_window_witness :
  (isTripped 5 "a" (run_trips [(3, "a", 1); (4, "b", 0)] {| tripped_backends_ := ∅ |})).1 = true.
Proof.
  apply breaker_window.
  - repeat constructor; unfold int32; lia.
  - exists 3, 1. split; [vm_compute; reflexivity|lia].
Defined.

End Breaker.
