(* ===== verification/Http.v ===== *)
(** * HTTP messages, error codes and JSON values

    What the core classes use of Boost.Beast, Boost.Asio and nlohmann::json.
    A message is the record of what the program sets on it. The behaviour of
    the libraries is a parameter: the classes [Beast] (strings of the library
    and the keep-alive rule) and [JsonApi] (the calls on [json] values). *)

From S2P Require Import Prelude Text Models.

(** ** Error codes *)

Inductive error_code :=
  | no_error                    (* a default-constructed [error_code] *)
  | end_of_stream
  | operation_aborted
  | connection_refused
  | timed_out
  | not_connected
  | invalid_argument
  | operation_not_supported
  | other_error (n : nat).

#[export] Instance error_code_eq_dec : EqDecision error_code.
Proof. solve_decision. Defined.

(** [error_code::operator bool] *)
Definition failed (ec : error_code) : bool := bool_decide (ec ≠ no_error).

(** ** Messages *)

(** [http::verb] *)
Inductive verb := verb_get | verb_head | verb_post | verb_put | verb_delete | verb_unknown.

#[export] Instance verb_eq_dec : EqDecision verb.
Proof. solve_decision. Defined.

Class Beast := {
  BOOST_BEAST_VERSION_STRING : string;
  (* [error_code::message()] *)
  message : error_code -> string;
  (* [keep_alive()] of a request with this version and these header fields *)
  request_keep_alive : Z -> list (string * string) -> bool;
  (* [keep_alive()] of a response with this version and no header fields *)
  response_keep_alive : Z -> bool
}.

(** A library to evaluate the definitions with. *)
Definition example_beast : Beast := {|
  BOOST_BEAST_VERSION_STRING := "Boost.Beast";
  message ec := if decide (ec = no_error) then "Success" else "error";
  request_keep_alive v fs := bool_decide (11 <= v ∧ ("Connection", "close") ∉ fs);
  response_keep_alive v := bool_decide (11 <= v)
|}.

Record request := Request {
  method : verb;
  target : string;
  req_version : Z;
  fields : list (string * string);
  req_body : string
}.

#[export] Instance request_eta : Eta request := λ r,
  Request (method r) (target r) (req_version r) (fields r) (req_body r).

(** A default-constructed request: version 11, no target, no fields. *)
Definition request_default : request := Request verb_unknown "" 11 [] "".

(** The source of a move: the start line's numbers are copied, the target,
    the fields and the body are moved out. *)
Definition moved_request (r : request) : request :=
  r <| target := "" |> <| fields := [] |> <| req_body := "" |>.

(** [payload] is the body [prepare_payload] last saw: the one the
    Content-Length field describes. *)
Record response := Response {
  version : Z;
  result_int : Z;
  server : option string;
  content_type : option string;
  keep_alive : bool;
  body : string;
  payload : option string
}.

#[export] Instance response_eta : Eta response := λ r,
  Response (version r) (result_int r) (server r) (content_type r) (keep_alive r) (body r)
    (payload r).

#[export] Instance response_eq_dec : EqDecision response.
Proof. solve_decision. Defined.

Definition prepare_payload (r : response) : response := r <| payload := Some (body r) |>.

Section Messages.
Context `{Beast}.

(** [http::response<http::string_body>{status, version}] *)
Definition make_response (status v : Z) : response :=
  Response v status None None (response_keep_alive v) "" None.

(** A default-constructed response: HTTP/1.1 and status 200. *)
Definition response_default : response := make_response 200 11.

(** The source of a move, as for a request. *)
Definition moved_response (r : response) : response := make_response (result_int r) (version r).

End Messages.

(** A response as the client sees it: its length describes its body. *)
Definition well_framed (r : response) : Prop := payload r = Some (body r).

(** ** JSON values *)

Class JsonApi (J : Type) := {
  null : J;                                      (* a default-constructed [json] *)
  of_string : string -> J;
  of_bool : bool -> J;
  parse : string -> outcome J;
  get_value : J -> string -> string -> outcome string;  (* [value(key, default)] *)
  contains : J -> string -> bool;
  at_key : J -> string -> outcome J;             (* [operator[]] *)
  is_string : J -> bool;
  get_string : J -> outcome string;              (* [get<std::string>()] *)
  set_key : string -> J -> J -> outcome J;       (* [j[key] = v] *)
  dump : Z -> J -> outcome string
}.
