(* ===== verification/Metrics.v ===== *)
(** * Metrics (src/metrics/, src/interfaces/IStatsDClient.hpp, src/third_party/UDPSender.hpp)

    [UDPSender] batches messages in a queue that a background thread drains
    every [sendInterval] milliseconds; [StatsDClient] formats StatsD lines and
    hands them over; [DummyStatsDClient] does nothing. The socket calls are
    arguments: what [socket], [inet_pton], [getaddrinfo] and [sendto] return. *)

From S2P Require Import Prelude Text Models Logging.

(** ** UDPSender *)

Module UDPSender.

Record t := {
  m_mustExit : bool;
  m_host : string;
  m_port : Z;
  m_socket : option Z;                    (* [None]: k_invalidSocket *)
  m_batchsize : Z;
  m_sendInterval : Z;
  m_batchingMessageQueue : list string;
  m_batchingThread : bool;                (* joinable *)
  m_errorMessage : string;
  datagrams : list string                 (* what [sendto] was given, in order *)
}.

#[global] Instance t_eta : Eta t := λ u,
  {| m_mustExit := m_mustExit u; m_host := m_host u; m_port := m_port u; m_socket := m_socket u;
     m_batchsize := m_batchsize u; m_sendInterval := m_sendInterval u;
     m_batchingMessageQueue := m_batchingMessageQueue u; m_batchingThread := m_batchingThread u;
     m_errorMessage := m_errorMessage u; datagrams := datagrams u |}.

(** The answers of the operating system. *)
Record network := {
  socket : option Z;                      (* the descriptor, or [None] for -1 *)
  inet_pton : string -> Z;
  getaddrinfo : string -> Z;
  sendto_fails : string -> bool;
  errno : Z
}.

Definition with_queue (q : list string) (u : t) : t := u <| m_batchingMessageQueue := q |>.

Definition with_error (e : string) (u : t) : t := u <| m_errorMessage := e |>.

Definition with_socket (s : option Z) (u : t) : t := u <| m_socket := s |>.

Definition with_thread (running mustExit : bool) (u : t) : t := 
  u <| m_batchingThread := running |> <| m_mustExit := mustExit |>.

Definition push_datagram (m : string) (u : t) : t := u <| datagrams ::= λ d, d ++ [m] |>.

Definition initialized (u : t) : bool := bool_decide (is_Some (m_socket u)).

Definition errorMessage (u : t) : string := m_errorMessage u.

(** [inet_pton] returns 0 for a host that is not a dotted address. *)
Definition initialize (net : network) (u : t) : bool * t :=
  match socket net with
  | None => (false, with_error ("socket creation failed: errno=" +:+ to_string (errno net)) u)
  | Some fd =>
      let u := with_socket (Some fd) u in
      if decide (inet_pton net (m_host u) = 0) then
        let ret := getaddrinfo net (m_host u) in
        if decide (ret ≠ 0) then
          (false, with_error ("getaddrinfo failed: error code=" +:+ to_string ret)
                    (with_socket None u))
        else (true, u)
      else (true, u)
  end.

Definition ctor (net : network) (host : string) (port batchsize sendInterval : Z) : t :=
  let u := {| m_mustExit := false; m_host := host; m_port := port; m_socket := None;
              m_batchsize := batchsize; m_sendInterval := sendInterval;
              m_batchingMessageQueue := []; m_batchingThread := false; m_errorMessage := "";
              datagrams := [] |} in
  if decide (m_host u = "") then u
  else
    let '(ok, u) := initialize net u in
    if negb ok then u
    else if decide (m_batchsize u ≠ 0 ∧ m_sendInterval u > 0) then with_thread true false u
    else u.

Definition sendToDaemon (net : network) (message : string) (u : t) : t :=
  let u := push_datagram message u in
  if sendto_fails net message then
    with_error ("sendto server failed: host=" +:+ m_host u +:+ ":" +:+ to_string (m_port u)
                +:+ ", err=" +:+ to_string (errno net)) u
  else u.

(** The back of the queue is the open batch. *)
Definition append_back (f : string -> string) (q : list string) : list string :=
  match last q with
  | Some b => removelast q ++ [f b]
  | None => q
  end.

Definition queueMessage (message : string) (u : t) : t :=
  let q := m_batchingMessageQueue u in
  let q :=
    match last q with
    | None => q ++ [""]
    | Some back =>
        if decide (Z.of_nat (String.length back) > m_batchsize u) then q ++ [""]
        else if decide (back ≠ "") then append_back (λ b, b +:+ nl) q
        else q
    end in
  with_queue (append_back (λ b, b +:+ message) q) u.

Definition send (net : network) (message : string) (u : t) : t :=
  let u := with_error "" u in
  if decide (m_batchsize u > 0) then queueMessage message u
  else sendToDaemon net message u.

Fixpoint send_all (net : network) (staged : list string) (u : t) : t :=
  match staged with
  | [] => u
  | m :: staged => send_all net staged (sendToDaemon net m u)
  end.

(** One round of the batching thread: swap the queue out under the lock, then
    send what was staged. *)
Definition batching_round (net : network) (u : t) : t :=
  if negb (m_batchingThread u) || m_mustExit u then u
  else
    let staged := m_batchingMessageQueue u in
    send_all net staged (with_queue [] u).

Definition flush (net : network) (u : t) : t :=
  let q := m_batchingMessageQueue u in
  with_queue [] (send_all net q u).

(** The destructor: what is still queued is dropped. *)
Definition dtor (u : t) : t :=
  if negb (initialized u) then u
  else
    let u := if m_batchingThread u then with_thread false true u else u in
    with_socket None u.

End UDPSender.

(** ** IStatsDClient *)

Class IStatsDClient (S : Type) := {
  increment : string -> Z -> S -> S;
  decrement : string -> Z -> S -> S;
  gauge : string -> string -> S -> S;      (* the value as the stream prints it *)
  timing : string -> Z -> S -> S;
  set : string -> string -> S -> S
}.

Module StatsDClient.

Record t := { udp_sender_ : option UDPSender.t; log_ : list (LogLevel * string) }.

Section Client.
Context (net : UDPSender.network).

Definition say (level : LogLevel) (m : string) (c : t) : t :=
  {| udp_sender_ := udp_sender_ c; log_ := log_ c ++ [(level, m)] |}.

(** The constructor: the port is cut to 16 bits without a range check. *)
Definition ctor (config : AppConfig) (statsd_address : string) : outcome t :=
  match find ":" statsd_address with
  | None => Throw (Exn RuntimeError "STATSD_SERVER must be in the format <host>:<port>")
  | Some colon_pos =>
      let host_ := prefix_of colon_pos statsd_address in
      let host_ := if decide (host_ = "localhost") then "127.0.0.1" else host_ in
      match stoi (suffix_from (S colon_pos) statsd_address) with
      | Ret (n, _) =>
          let port := to_u16 n in
          let u := UDPSender.ctor net host_ port (to_u64 (metrics_batch_size config))
                     (to_u64 (metrics_send_interval_in_millis config)) in
          Ret (say Models.SETUP ("UDPSender initialized for " +:+ host_ +:+ ":" +:+ to_string port)
                 {| udp_sender_ := Some u; log_ := [] |})
      | Throw e => Throw (Exn RuntimeError ("Invalid port in STATSD_SERVER: " +:+ what e))
      | UB => UB
      end
  end.

(** [UDPSender::send] is [noexcept], so nothing is caught here. *)
Definition send (message : string) (c : t) : t :=
  match udp_sender_ c with
  | None =>
      say Models.CERROR "StatsDClient: UDPSender is not initialized, cannot send message." c
  | Some u => {| udp_sender_ := Some (UDPSender.send net message u); log_ := log_ c |}
  end.

Definition increment (key : string) (value : Z) (c : t) : t :=
  send (key +:+ ":" +:+ to_string value +:+ "|c") c.

(** [-value] on an [int]. *)
Definition decrement (key : string) (value : Z) (c : t) : t :=
  increment key (wrap32 (- value)) c.

Definition gauge (key : string) (value : string) (c : t) : t :=
  send (key +:+ ":" +:+ value +:+ "|g") c.

Definition timing (key : string) (value : Z) (c : t) : t :=
  send (key +:+ ":" +:+ to_string value +:+ "|ms") c.

Definition set (key value : string) (c : t) : t :=
  send (key +:+ ":" +:+ value +:+ "|s") c.

#[global] Instance client : IStatsDClient t := {|
  Metrics.increment := increment;
  Metrics.decrement := decrement;
  Metrics.gauge := gauge;
  Metrics.timing := timing;
  Metrics.set := set
|}.

End Client.

End StatsDClient.

Module DummyStatsDClient.

Definition increment (_ : string) (_ : Z) (c : unit) : unit := c.
Definition decrement (_ : string) (_ : Z) (c : unit) : unit := c.
Definition gauge (_ _ : string) (c : unit) : unit := c.
Definition timing (_ : string) (_ : Z) (c : unit) : unit := c.
Definition set (_ _ : string) (c : unit) : unit := c.

#[global] Instance client : IStatsDClient unit := {|
  Metrics.increment := increment;
  Metrics.decrement := decrement;
  Metrics.gauge := gauge;
  Metrics.timing := timing;
  Metrics.set := set
|}.

End DummyStatsDClient.
