(* ===== verification/MetricsProps.v ===== *)
(** * What the metrics path guarantees

    Batching neither loses nor reorders messages and keeps each datagram near
    the batch size; a drain sends exactly what was queued; the client appends
    one StatsD line per call. *)

From S2P Require Import Prelude Text TextFacts Models Logging Metrics.
Import UDPSender.

(** Lines joined by newlines: the text of a batch. *)
Fixpoint join_lines (ms : list string) : string :=
  match ms with
  | [] => ""
  | [m] => m
  | m :: ms => m +:+ nl +:+ join_lines ms
  end.

Lemma join_lines_snoc ms m :
  ms ≠ [] → join_lines (ms ++ [m]) = (join_lines ms +:+ nl) +:+ m.
Proof.
  induction ms as [|x ms IH]; [done|]. intros _. destruct ms as [|y ms].
  - cbn. by rewrite string_app_assoc.
  - change (join_lines ((x :: y :: ms) ++ [m])) with (x +:+ nl +:+ join_lines ((y :: ms) ++ [m])).
    rewrite IH by done.
    change (join_lines (x :: y :: ms)) with (x +:+ nl +:+ join_lines (y :: ms)).
    by rewrite !string_app_assoc.
Qed.

Lemma string_app_nonempty_l (a b : string) : a ≠ "" → a +:+ b ≠ "".
Proof. by destruct a. Qed.

Lemma join_lines_nonempty ms : ms ≠ [] → Forall (λ m, m ≠ "") ms → join_lines ms ≠ "".
Proof.
  destruct ms as [|m ms]; [done|]. intros _ [Hm _]%Forall_cons.
  destruct ms as [|x ms]; [done|]. by apply string_app_nonempty_l.
Qed.

(** The queue as groups of messages, the text before a group's last message
    within the batch size. *)
Definition group_ok (batchsize : Z) (g : list string) : Prop :=
  g ≠ [] ∧ Forall (λ m, m ≠ "") g ∧
  Z.of_nat (String.length (join_lines (removelast g))) <= batchsize.

Lemma append_back_snoc f q b : append_back f (q ++ [b]) = q ++ [f b].
Proof. unfold append_back. by rewrite last_snoc, removelast_last. Qed.

Lemma queueMessage_groups m u groups :
  m ≠ "" → 0 <= m_batchsize u → Forall (group_ok (m_batchsize u)) groups →
  m_batchingMessageQueue u = join_lines <$> groups →
  ∃ groups', m_batchingMessageQueue (queueMessage m u) = join_lines <$> groups'
    ∧ Forall (group_ok (m_batchsize u)) groups' ∧ concat groups' = concat groups ++ [m].
Proof.
  intros Hm Hb Hg Hq. unfold queueMessage. cbn [m_batchingMessageQueue with_queue].
  assert (Hnew : ∃ groups', append_back (λ b, b +:+ m) (m_batchingMessageQueue u ++ [""])
      = join_lines <$> groups'
    ∧ Forall (group_ok (m_batchsize u)) groups' ∧ concat groups' = concat groups ++ [m]).
  { exists (groups ++ [[m]]). rewrite append_back_snoc, Hq, fmap_app. split; [done|].
    rewrite concat_app. cbn. split; [|done]. apply Forall_app. split; [done|].
    apply Forall_singleton. split; [done|]. split; [by apply Forall_singleton|]. cbn. lia. }
  destruct groups as [|g groups _] using rev_ind; [by rewrite Hq in *|].
  rewrite fmap_app in Hq. cbn in Hq. rewrite Hq, last_snoc in *.
  apply Forall_app in Hg as [Hgs [(Hne & Hmsgs & Hlen) _]%Forall_cons].
  case_decide as Hfull; [done|].
  rewrite decide_True by (by apply join_lines_nonempty).
  rewrite !append_back_snoc. exists (groups ++ [g ++ [m]]).
  rewrite fmap_app. cbn. rewrite join_lines_snoc by done. split; [done|].
  rewrite !concat_app. cbn. rewrite !app_nil_r, app_assoc. split; [|done].
  apply Forall_app. split; [done|]. apply Forall_singleton. split; [by destruct g|].
  split; [by apply Forall_app; split; [|apply Forall_singleton]|].
  rewrite removelast_last. lia.
Qed.

Lemma send_all_datagrams net staged u :
  datagrams (send_all net staged u) = datagrams u ++ staged
  ∧ m_batchingMessageQueue (send_all net staged u) = m_batchingMessageQueue u.
Proof.
  revert u. induction staged as [|m staged IH]; intros u; cbn.
  - by rewrite app_nil_r.
  - destruct (IH (sendToDaemon net m u)) as [-> ->]. unfold sendToDaemon.
    destruct (sendto_fails net m); cbn; by rewrite <- app_assoc.
Qed.

Definition send_list (net : network) (ms : list string) (u : t) : t :=
  foldl (λ u m, send net m u) u ms.

Lemma send_list_groups net ms u groups :
  m_batchsize u > 0 → Forall (λ m, m ≠ "") ms → Forall (group_ok (m_batchsize u)) groups →
  m_batchingMessageQueue u = join_lines <$> groups →
  ∃ groups', m_batchingMessageQueue (send_list net ms u) = join_lines <$> groups'
    ∧ Forall (group_ok (m_batchsize u)) groups' ∧ concat groups' = concat groups ++ ms
    ∧ datagrams (send_list net ms u) = datagrams u
    ∧ m_batchingThread (send_list net ms u) = m_batchingThread u
    ∧ m_mustExit (send_list net ms u) = m_mustExit u.
Proof.
  revert u groups. induction ms as [|m ms IH]; intros u groups Hb Hms Hg Hq.
  - exists groups. by rewrite app_nil_r.
  - apply Forall_cons in Hms as [Hm Hms]. cbn.
    destruct (queueMessage_groups m (with_error "" u) groups) as (g1 & Hq1 & Hg1 & Hc1);
      [done|cbn; lia|done..|].
    assert (Hs : send net m u = queueMessage m (with_error "" u)).
    { unfold send. by rewrite decide_True. }
    rewrite Hs. destruct (IH (queueMessage m (with_error "" u)) g1) as (g2 & Hq2 & Hg2 & Hc2 & Hd);
      [done..|]. exists g2. split; [done|]. split; [done|]. split; [|done].
    rewrite Hc2, Hc1, <- app_assoc. done.
Qed.

(** C29 (functional): with batching on, whatever non-empty messages are sent
    between two rounds of the batching thread, the round sends them all, in
    order, newline-separated, and each datagram without its last message fits
    the batch size; the queue is empty afterwards. *)
Theorem batching_delivers_in_order net ms u :
  m_batchsize u > 0 → m_batchingThread u = true → m_mustExit u = false →
  m_batchingMessageQueue u = [] → Forall (λ m, m ≠ "") ms →
  let u' := batching_round net (send_list net ms u) in
  m_batchingMessageQueue u' = []
  ∧ ∃ groups, datagrams u' = datagrams u ++ (join_lines <$> groups)
      ∧ concat groups = ms ∧ Forall (group_ok (m_batchsize u)) groups.
Proof.
  intros Hb Ht He Hq Hms.
  destruct (send_list_groups net ms u []) as (g & Hq' & Hg & Hc & Hd & Ht' & He');
    [done..|]. cbn zeta. unfold batching_round. rewrite Ht', He', Ht, He. cbn [negb orb].
  destruct (send_all_datagrams net (m_batchingMessageQueue (send_list net ms u))
    (with_queue [] (send_list net ms u))) as [Hd2 Hq2].
  rewrite Hq2. split; [done|]. exists g. rewrite Hd2. cbn. by rewrite Hd, Hq'.
Qed.

Definition demo_network : network :=
  {| socket := Some 3; inet_pton := λ _, 1; getaddrinfo := λ _, 0; sendto_fails := λ _, false;
     errno := 0 |}.

Lemma batching_delivers_in_order_witness :
  datagrams (batching_round demo_network (send_list demo_network
    ["metric.1:1|c"; "metric.2:1|c"; "metric.5:1|c"]
    (UDPSender.ctor demo_network "127.0.0.1" 8125 20 1000)))
    = ["metric.1:1|c" +:+ nl +:+ "metric.2:1|c"; "metric.5:1|c"]
  ∧ m_batchingMessageQueue (batching_round demo_network (send_list demo_network
    ["metric.1:1|c"; "metric.2:1|c"; "metric.5:1|c"]
    (UDPSender.ctor demo_network "127.0.0.1" 8125 20 1000))) = [].
Proof.
  split; [vm_compute; reflexivity|].
  refine (proj1 (batching_delivers_in_order demo_network
    ["metric.1:1|c"; "metric.2:1|c"; "metric.5:1|c"]
    (UDPSender.ctor demo_network "127.0.0.1" 8125 20 1000) _ _ _ _ _)); try reflexivity.
  repeat constructor; discriminate.
Defined.
