(* ===== verification/Cache.v ===== *)
(** * InMemoryCache: the LRU cache of src/cache/InMemoryCache.{hpp,cpp}

    The state is the code's: the hash map [cache_], the doubly linked list
    [lru_list_] and the map [lru_map_] of list iterators. A list node has an
    identity, so an iterator is the node it points at, and using an iterator
    whose node is gone is undefined behaviour ([UB]). The specification is a
    recency-ordered association list ([Spec]); [run_refines] shows that the
    three containers implement it and that no iterator is ever invalid. *)

From S2P Require Import Prelude.

Module InMemoryCache.

Record CacheEntry := { value : string; expiry : Z }.

(** Nodes are listed front (most recent) to back (least recent). *)
Record t := {
  cache_ : gmap string CacheEntry;
  lru_list_ : list (nat * string);
  lru_map_ : gmap string nat;
  next_node : nat;
  default_ttl_seconds_ : Z;
  max_size_ : Z
}.

#[global] Instance t_eta : Eta t := λ s,
  {| cache_ := cache_ s; lru_list_ := lru_list_ s; lru_map_ := lru_map_ s;
     next_node := next_node s; default_ttl_seconds_ := default_ttl_seconds_ s;
     max_size_ := max_size_ s |}.

Definition ctor (default_ttl_seconds max_size : Z) : t :=
  {| cache_ := ∅; lru_list_ := []; lru_map_ := ∅; next_node := 0;
     default_ttl_seconds_ := default_ttl_seconds; max_size_ := max_size |}.

(** ** The three containers *)

Definition with_cache (m : gmap string CacheEntry) (s : t) : t :=
  s <| cache_ := m |>.

Definition with_lru (l : list (nat * string)) (m : gmap string nat) (s : t)
    : t :=
  s <| lru_list_ := l |> <| lru_map_ := m |>.

(** [std::list::erase(it)] *)
Definition list_erase (it : nat) (l : list (nat * string)) : outcome (list (nat * string)) :=
  if decide (it ∈ l.*1) then Ret (filter (λ n, n.1 ≠ it) l) else UB.

(** [std::list::splice(begin(), list, it)]: the node moves, its identity stays. *)
Definition list_splice_front (it : nat) (l : list (nat * string))
    : outcome (list (nat * string)) :=
  match list_find (λ n, n.1 = it) l with
  | Some (_, n) => Ret (n :: filter (λ n, n.1 ≠ it) l)
  | None => UB
  end.

(** [lru_list_.push_front(key); lru_map_[key] = lru_list_.begin();] *)
Definition lru_push_front (key : string) (s : t) : t :=
  s <| lru_list_ ::= cons (next_node s, key) |>
    <| lru_map_ ::= insert key (next_node s) |>
    <| next_node ::= S |>.

(** ** Private helpers *)

Definition removeExpired_step (now : Z) (s : t) (kv : string * CacheEntry)
    : outcome t :=
  let key_to_remove := kv.1 in
  if decide (expiry kv.2 <= now) then
    s ← match lru_map_ s !! key_to_remove with
        | Some lru_it =>
            l ← list_erase lru_it (lru_list_ s);
            Ret (with_lru l (delete key_to_remove (lru_map_ s)) s)
        | None => Ret s
        end;
    Ret (with_cache (delete key_to_remove (cache_ s)) s)
  else Ret s.

Fixpoint foldM {A B} (f : A -> B -> outcome A) (l : list B) (a : A) : outcome A :=
  match l with
  | [] => Ret a
  | x :: l => a ← f a x; foldM f l a
  end.

(** The loop visits every entry of the unordered map once. *)
Definition removeExpired (now : Z) (s : t) : outcome t :=
  foldM (removeExpired_step now) (map_to_list (cache_ s)) s.

(** One round of the eviction loop; [fuel] bounds the rounds. *)
Fixpoint evictLoop (fuel : nat) (s : t) : outcome t :=
  match fuel with
  | O => Ret s
  | S fuel =>
      if decide (max_size_ s <= Z.of_nat (size (lru_map_ s)) ∧ lru_list_ s ≠ []) then
        match last (lru_list_ s) with
        | Some (_, oldest_key) =>
            let s := with_lru (removelast (lru_list_ s)) (delete oldest_key (lru_map_ s)) s in
            evictLoop fuel (with_cache (delete oldest_key (cache_ s)) s)
        | None => UB
        end
      else Ret s
  end.

Definition evictIfNeeded (s : t) : outcome t :=
  evictLoop (S (length (lru_list_ s))) s.

(** ** Public operations

    Each runs under [lock_guard(mutex_)], so it is one atomic step. A reading
    of [steady_clock::now()] is an argument, in nanoseconds. *)

Definition effective_ttl (ttl : Z) (s : t) : Z :=
  if decide (ttl > 0) then ttl else default_ttl_seconds_ s.

Definition set (now : Z) (key val : string) (ttl : Z) (s : t)
    : outcome (bool * t) :=
  let entry := {| value := val; expiry := now + effective_ttl ttl s * 10^9 |} in
  s ← match lru_map_ s !! key with
      | Some lru_it =>
          l ← list_erase lru_it (lru_list_ s);
          Ret (with_lru l (lru_map_ s) s)
      | None => evictIfNeeded s
      end;
  let s := with_cache (<[key := entry]> (cache_ s)) s in
  Ret (true, lru_push_front key s).

Definition get (now1 now2 : Z) (key : string) (s : t)
    : outcome (option string * t) :=
  s ← removeExpired now1 s;
  match lru_map_ s !! key with
  | Some lru_it =>
      let cleanup (s : t) :=
        l ← list_erase lru_it (lru_list_ s);
        Ret (None, with_lru l (delete key (lru_map_ s)) s) in
      match cache_ s !! key with
      | Some e =>
          if decide (expiry e > now2) then
            l ← list_splice_front lru_it (lru_list_ s);
            Ret (Some (value e), with_lru l (lru_map_ s) s)
          else cleanup (with_cache (delete key (cache_ s)) s)
      | None => cleanup s
      end
  | None => Ret (None, s)
  end.

Definition remove (key : string) (s : t) : outcome (bool * t) :=
  '(removed, s) ← match lru_map_ s !! key with
       | Some lru_it =>
           l ← list_erase lru_it (lru_list_ s);
           Ret (true, with_lru l (delete key (lru_map_ s)) s)
       | None => Ret (false, s)
       end;
  match cache_ s !! key with
  | Some _ => Ret (true, with_cache (delete key (cache_ s)) s)
  | None => Ret (removed, s)
  end.

Definition clear (s : t) : outcome (bool * t) :=
  Ret (true, with_lru [] ∅ (with_cache ∅ s)).

Definition exists_ (now1 now2 : Z) (key : string) (s : t)
    : outcome (bool * t) :=
  s ← removeExpired now1 s;
  Ret (match cache_ s !! key with
       | Some e => bool_decide (expiry e > now2)
       | None => false
       end, s).

(** ** A sequence of calls *)

Inductive op :=
  | OSet (now : Z) (key val : string) (ttl : Z)
  | OGet (now1 now2 : Z) (key : string)
  | ORemove (key : string)
  | OClear
  | OExists (now1 now2 : Z) (key : string).

Inductive res := RBool (b : bool) | ROpt (o : option string).

Definition wrap_res {A} (f : A -> res) (o : outcome (A * t)) : outcome (res * t) :=
  '(a, s) ← o; Ret (f a, s).

Definition run (o : op) (s : t) : outcome (res * t) :=
  match o with
  | OSet now k v ttl => wrap_res RBool (set now k v ttl s)
  | OGet n1 n2 k => wrap_res ROpt (get n1 n2 k s)
  | ORemove k => wrap_res RBool (remove k s)
  | OClear => wrap_res RBool (clear s)
  | OExists n1 n2 k => wrap_res RBool (exists_ n1 n2 k s)
  end.

Fixpoint run_all (os : list op) (s : t) : outcome (list res * t) :=
  match os with
  | [] => Ret ([], s)
  | o :: os =>
      '(r, s) ← run o s;
      '(rs, s) ← run_all os s;
      Ret (r :: rs, s)
  end.

End InMemoryCache.

(** ** Abstract specification: a recency-ordered association list *)

Module Spec.
Import InMemoryCache.

Abbreviation entries := (list (string * CacheEntry)).

Fixpoint assoc (k : string) (l : entries) : option CacheEntry :=
  match l with
  | [] => None
  | (k', e) :: l => if decide (k = k') then Some e else assoc k l
  end.

Definition drop_key (k : string) (l : entries) : entries := filter (λ p, p.1 ≠ k) l.
Definition expire (now : Z) (l : entries) : entries := filter (λ p, now < expiry p.2) l.

(** Room for one more entry: the least recently used ones go. *)
Definition make_room (max : Z) (l : entries) : entries := take (Z.to_nat (max - 1)) l.

Definition set (dttl max now : Z) (k v : string) (ttl : Z) (l : entries) : entries :=
  let ttl := if decide (ttl > 0) then ttl else dttl in
  let rest := match assoc k l with
              | Some _ => drop_key k l
              | None => make_room max l
              end in
  (k, {| value := v; expiry := now + ttl * 10^9 |}) :: rest.

Definition get (now1 now2 : Z) (k : string) (l : entries) : option string * entries :=
  let l := expire now1 l in
  match assoc k l with
  | Some e =>
      if decide (expiry e > now2) then (Some (value e), (k, e) :: drop_key k l)
      else (None, drop_key k l)
  | None => (None, l)
  end.

Definition remove (k : string) (l : entries) : bool * entries :=
  (bool_decide (is_Some (assoc k l)), drop_key k l).

Definition exists_ (now1 now2 : Z) (k : string) (l : entries) : bool * entries :=
  let l := expire now1 l in
  (match assoc k l with
   | Some e => bool_decide (expiry e > now2)
   | None => false
   end, l).

Definition run (dttl max : Z) (o : op) (l : entries) : res * entries :=
  match o with
  | OSet now k v ttl => (RBool true, set dttl max now k v ttl l)
  | OGet n1 n2 k => let '(r, l) := get n1 n2 k l in (ROpt r, l)
  | ORemove k => let '(r, l) := remove k l in (RBool r, l)
  | OClear => (RBool true, [])
  | OExists n1 n2 k => let '(r, l) := exists_ n1 n2 k l in (RBool r, l)
  end.

Fixpoint run_all (dttl max : Z) (os : list op) (l : entries) : list res * entries :=
  match os with
  | [] => ([], l)
  | o :: os =>
      let '(r, l) := run dttl max o l in
      let '(rs, l) := run_all dttl max os l in
      (r :: rs, l)
  end.

End Spec.

(** ** The refinement *)

Module Refinement.
Import InMemoryCache.

(** The abstraction: the list's keys with their entries, in recency order. *)
Definition absl (c : gmap string CacheEntry) (l : list (nat * string))
    : list (string * CacheEntry) :=
  omap (λ n, pair n.2 <$> c !! n.2) l.

#[global] Arguments absl : simpl never.
#[global] Arguments Spec.drop_key : simpl never.
#[global] Arguments Spec.expire : simpl never.

Definition abs (s : t) : list (string * CacheEntry) := absl (cache_ s) (lru_list_ s).

Record wf (s : t) : Prop := {
  wf_nodes : NoDup (lru_list_ s).*1;
  wf_keys : NoDup (lru_list_ s).*2;
  wf_map : ∀ k it, lru_map_ s !! k = Some it ↔ (it, k) ∈ lru_list_ s;
  wf_dom : ∀ k, is_Some (cache_ s !! k) ↔ k ∈ (lru_list_ s).*2;
  wf_fresh : ∀ it, it ∈ (lru_list_ s).*1 → (it < next_node s)%nat
}.

(** Two states with the same bounds and the same allocator. *)
Definition same_conf (s s' : t) : Prop :=
  default_ttl_seconds_ s' = default_ttl_seconds_ s ∧ max_size_ s' = max_size_ s.

(** *** The abstraction and the two maps *)

Lemma absl_cons c n l :
  absl c (n :: l) = match c !! n.2 with Some e => [(n.2, e)] | None => [] end ++ absl c l.
Proof. unfold absl. cbn. by destruct (c !! n.2). Qed.

Lemma drop_key_cons k p l :
  Spec.drop_key k (p :: l) = if decide (p.1 = k) then Spec.drop_key k l
                             else p :: Spec.drop_key k l.
Proof. unfold Spec.drop_key. rewrite filter_cons. repeat case_decide; naive_solver. Qed.

Lemma absl_delete c l k : absl (delete k c) l = Spec.drop_key k (absl c l).
Proof.
  induction l as [|[it k'] l IH]; [done|]. rewrite !absl_cons, IH. cbn.
  destruct (decide (k = k')) as [->|Hne].
  - rewrite lookup_delete_eq. destruct (c !! k'); [|done].
    cbn. by rewrite drop_key_cons, decide_True.
  - rewrite lookup_delete_ne by done. destruct (c !! k'); [|done].
    cbn. rewrite drop_key_cons, decide_False; naive_solver.
Qed.

Lemma absl_filter c l k : absl c (filter (λ n, n.2 ≠ k) l) = Spec.drop_key k (absl c l).
Proof.
  induction l as [|[it k'] l IH]; [done|].
  rewrite absl_cons, filter_cons. cbn. case_decide as Hd.
  - rewrite absl_cons. cbn. destruct (c !! k'); cbn; rewrite IH; [|done].
    rewrite drop_key_cons, decide_False; naive_solver.
  - subst k'. destruct (c !! k); cbn; rewrite IH; [|done].
    by rewrite drop_key_cons, decide_True.
Qed.

Lemma absl_insert c l k e : k ∉ l.*2 → absl (<[k:=e]> c) l = absl c l.
Proof.
  induction l as [|[it k'] l IH]; [done|]. rewrite !absl_cons. cbn. intros Hk.
  apply not_elem_of_cons in Hk as [Hne Hk].
  by rewrite lookup_insert_ne, IH.
Qed.

Lemma absl_keys c l :
  (∀ k, k ∈ l.*2 → is_Some (c !! k)) → (absl c l).*1 = l.*2.
Proof.
  induction l as [|[it k] l IH]; [done|]. rewrite absl_cons. cbn. intros H.
  destruct (H k) as [e He]; [by left|]. rewrite He. cbn. f_equal.
  apply IH. intros k' Hk'. apply H. by right.
Qed.

Lemma assoc_absl c l k :
  Spec.assoc k (absl c l) = if decide (k ∈ l.*2) then c !! k else None.
Proof.
  induction l as [|[it k'] l IH].
  - cbn. by rewrite decide_False by apply not_elem_of_nil.
  - rewrite absl_cons. cbn. destruct (decide (k = k')) as [->|Hne].
    + rewrite (decide_True (P := k' ∈ _)) by left. destruct (c !! k') eqn:E; cbn.
      * by rewrite decide_True.
      * rewrite IH. by case_decide.
    + rewrite (decide_ext _ (k ∈ l.*2)) by (rewrite elem_of_cons; naive_solver).
      destruct (c !! k'); cbn; rewrite ?decide_False by done; apply IH.
Qed.

Lemma absl_app c l1 l2 : absl c (l1 ++ l2) = absl c l1 ++ absl c l2.
Proof.
  induction l1 as [|n l1 IH]; [done|].
  rewrite <- app_comm_cons, !absl_cons, IH. by rewrite app_assoc.
Qed.

Lemma elem_of_abs s k e : (k, e) ∈ abs s → cache_ s !! k = Some e.
Proof.
  intros ([it k'] & _ & Hx)%list_elem_of_omap. cbn in Hx.
  destruct (cache_ s !! k') eqn:E; naive_solver.
Qed.

(** *** Consequences of well-formedness *)

Lemma wf_assoc s k : wf s → Spec.assoc k (abs s) = cache_ s !! k.
Proof.
  intros W. unfold abs. rewrite assoc_absl. case_decide as Hk; [done|].
  rewrite <- (wf_dom _ W) in Hk. by apply eq_None_not_Some in Hk.
Qed.

Lemma wf_cached s k e : wf s → cache_ s !! k = Some e → ∃ it, lru_map_ s !! k = Some it.
Proof.
  intros W H. assert (Hk : k ∈ (lru_list_ s).*2) by (apply (wf_dom _ W); eauto).
  apply list_elem_of_fmap in Hk as [[it k'] [-> Hin]]. exists it. by apply (wf_map _ W).
Qed.

Lemma wf_mapped s k it : wf s → lru_map_ s !! k = Some it → ∃ e, cache_ s !! k = Some e.
Proof.
  intros W Hit. apply (wf_dom _ W). apply (wf_map _ W) in Hit.
  apply list_elem_of_fmap. by exists (it, k).
Qed.

Lemma wf_uncached s k : wf s → lru_map_ s !! k = None → cache_ s !! k = None ∧ k ∉ (lru_list_ s).*2.
Proof.
  intros W H. assert (Hk : k ∉ (lru_list_ s).*2).
  { intros ([it k'] & -> & Hin)%list_elem_of_fmap. apply (wf_map _ W) in Hin. naive_solver. }
  split; [|done]. apply eq_None_not_Some. by rewrite (wf_dom _ W).
Qed.

Lemma wf_abs_keys s : wf s → (abs s).*1 = (lru_list_ s).*2.
Proof. intros W. apply absl_keys. intros k. apply (wf_dom _ W). Qed.

Lemma wf_size s : wf s → size (lru_map_ s) = length (lru_list_ s).
Proof.
  intros W. rewrite <- length_map_to_list.
  rewrite <- (length_fmap (λ n : nat * string, (n.2, n.1)) (lru_list_ s)).
  apply Permutation_length, NoDup_Permutation.
  - apply NoDup_map_to_list.
  - apply NoDup_fmap_1 with (f := fst). rewrite <- list_fmap_compose. apply (wf_keys _ W).
  - intros [k it]. rewrite elem_of_map_to_list, (wf_map _ W), list_elem_of_fmap. split.
    + intros Hin. by exists (it, k).
    + intros [[it' k'] [Heq Hin]]. cbn in Heq. by simplify_eq.
Qed.

Lemma NoDup_node_key (l : list (nat * string)) it k n :
  NoDup l.*1 → NoDup l.*2 → (it, k) ∈ l → n ∈ l → n.1 ≠ it ↔ n.2 ≠ k.
Proof.
  intros H1 H2 Hin Hn. destruct n as [it' k']. cbn. split; intros Hne ->; apply Hne.
  - apply list_elem_of_lookup in Hin as [i Hi], Hn as [j Hj].
    assert (i = j) as ->; [|naive_solver].
    apply (NoDup_lookup _ _ _ k H2); by rewrite list_lookup_fmap, ?Hi, ?Hj.
  - apply list_elem_of_lookup in Hin as [i Hi], Hn as [j Hj].
    assert (i = j) as ->; [|naive_solver].
    apply (NoDup_lookup _ _ _ it H1); by rewrite list_lookup_fmap, ?Hi, ?Hj.
Qed.

(** Erasing through the stored iterator removes exactly the key's node. *)
Lemma wf_erase s k it :
  wf s → lru_map_ s !! k = Some it →
  list_erase it (lru_list_ s) = Ret (filter (λ n, n.2 ≠ k) (lru_list_ s)).
Proof.
  intros W H. apply (wf_map _ W) in H. unfold list_erase.
  rewrite decide_True by (apply list_elem_of_fmap; by exists (it, k)). f_equal.
  apply list_filter_ext_in. intros n Hn. eapply NoDup_node_key; eauto using wf_nodes, wf_keys.
Qed.

(** *** Dropping one key *)

Definition drop (k : string) (s : t) : t :=
  with_cache (delete k (cache_ s))
    (with_lru (filter (λ n, n.2 ≠ k) (lru_list_ s)) (delete k (lru_map_ s)) s).

Lemma abs_drop k s : abs (drop k s) = Spec.drop_key k (abs s).
Proof.
  unfold abs. cbn. rewrite absl_delete, absl_filter. unfold Spec.drop_key.
  rewrite list_filter_filter_and. apply list_filter_ext_in. tauto.
Qed.

Lemma wf_drop k s : wf s → wf (drop k s).
Proof.
  intros W. split; cbn.
  - apply NoDup_filter, W.
  - apply NoDup_filter, W.
  - intros k' it. rewrite list_elem_of_filter, <- (wf_map _ W), lookup_delete_Some. cbn.
    naive_solver.
  - intros k'. rewrite lookup_delete_is_Some, (wf_dom _ W), !list_elem_of_fmap.
    setoid_rewrite list_elem_of_filter. naive_solver.
  - intros it ([it' k'] & -> & [_ Hin]%list_elem_of_filter)%list_elem_of_fmap.
    apply (wf_fresh _ W), list_elem_of_fmap. by exists (it', k').
Qed.

#[local] Hint Resolve wf_drop : core.

Lemma removeExpired_step_drop now s k e :
  wf s → cache_ s !! k = Some e →
  removeExpired_step now s (k, e) = Ret (if decide (expiry e <= now) then drop k s else s).
Proof.
  intros W He. unfold removeExpired_step. cbn. case_decide; [|done].
  destruct (wf_cached _ _ _ W He) as [it Hit]. rewrite Hit. cbn.
  by rewrite (wf_erase _ _ _ W Hit).
Qed.

(** Whatever the order of the unordered map's iteration. *)
Lemma removeExpired_fold now kvs s :
  wf s → NoDup kvs.*1 → (∀ k e, (k, e) ∈ kvs → cache_ s !! k = Some e) →
  ∃ s', foldM (removeExpired_step now) kvs s = Ret s' ∧ wf s' ∧ same_conf s s' ∧
    abs s' = filter (λ p, p.1 ∈ kvs.*1 → now < expiry p.2) (abs s).
Proof.
  revert s. induction kvs as [|[k e] kvs IH]; intros s W Hnd Hc.
  - exists s. split; [done|]. split; [done|]. split; [done|]. symmetry. apply list_filter_all.
    intros p _ Hp. by apply elem_of_nil in Hp.
  - cbn in Hnd. apply NoDup_cons in Hnd as [Hk Hnd]. cbn.
    assert (He : cache_ s !! k = Some e) by (apply Hc; left).
    rewrite (removeExpired_step_drop _ _ _ _ W He). cbn.
    set (s1 := if decide (expiry e <= now) then drop k s else s).
    destruct (IH s1) as (s' & Hf & W' & [Hd Hm] & Ha).
    { unfold s1. case_decide; auto. }
    { done. }
    { intros k' e' Hin. assert (k' ≠ k).
      { intros ->. apply Hk, list_elem_of_fmap. by exists (k, e'). }
      unfold s1. case_decide; cbn; [rewrite lookup_delete_ne by done|]; apply Hc; by right. }
    exists s'. split; [done|]. split; [done|]. split.
    { unfold same_conf. rewrite Hd, Hm. unfold s1. by case_decide. }
    rewrite Ha. unfold s1. case_decide as Hexp.
    + rewrite abs_drop. unfold Spec.drop_key. rewrite list_filter_filter_and.
      apply list_filter_ext_in. intros [k' e'] Hin. cbn. rewrite elem_of_cons.
      destruct (decide (k' = k)) as [->|]; [|naive_solver].
      apply elem_of_abs in Hin. naive_solver lia.
    + apply list_filter_ext_in. intros [k' e'] Hin. cbn. rewrite elem_of_cons.
      destruct (decide (k' = k)) as [->|]; [|naive_solver].
      apply elem_of_abs in Hin. naive_solver lia.
Qed.

Lemma removeExpired_ok now s :
  wf s → ∃ s', removeExpired now s = Ret s' ∧ wf s' ∧ same_conf s s' ∧
    abs s' = Spec.expire now (abs s).
Proof.
  intros W. destruct (removeExpired_fold now (map_to_list (cache_ s)) s W)
    as (s' & Hf & W' & Hc & Ha).
  - apply NoDup_fst_map_to_list.
  - intros k e. apply elem_of_map_to_list.
  - exists s'. split; [done|]. split; [done|]. split; [done|]. rewrite Ha.
    apply list_filter_ext_in. intros [k e] Hin. cbn.
    assert (k ∈ (map_to_list (cache_ s)).*1); [|naive_solver].
    apply elem_of_abs in Hin. apply list_elem_of_fmap. exists (k, e). by rewrite elem_of_map_to_list.
Qed.

(** *** Eviction *)

Lemma filter_last_key l it k :
  NoDup (l ++ [(it, k)]).*2 → filter (λ n : nat * string, n.2 ≠ k) (l ++ [(it, k)]) = l.
Proof.
  rewrite fmap_app, NoDup_app. intros (_ & Hk & _). rewrite filter_app.
  rewrite (list_filter_all _ l).
  - rewrite filter_cons_False by (cbn; tauto). apply app_nil_r.
  - intros n Hn Hnk. apply (Hk k); [|by left]. rewrite <- Hnk. by apply list_elem_of_fmap_2.
Qed.

Lemma evict_last s l it k :
  wf s → lru_list_ s = l ++ [(it, k)] →
  with_cache (delete k (cache_ s)) (with_lru (removelast (lru_list_ s))
    (delete k (lru_map_ s)) s) = drop k s
  ∧ abs (drop k s) = take (length l) (abs s)
  ∧ length (lru_list_ (drop k s)) = length l.
Proof.
  intros W Hl. pose proof (wf_keys _ W) as Hnd. rewrite Hl in Hnd.
  assert (Hf : filter (λ n, n.2 ≠ k) (lru_list_ s) = l) by (by rewrite Hl, filter_last_key).
  split; [|split].
  - unfold drop. rewrite Hf, Hl. by rewrite removelast_last.
  - assert (Hk : k ∉ l.*2).
    { rewrite fmap_app, NoDup_app in Hnd. destruct Hnd as (_ & Hk & _).
      intros Hin. apply (Hk k Hin). by left. }
    assert (Hlen : length (absl (cache_ s) l) = length l).
    { rewrite <- (length_fmap fst), absl_keys, length_fmap; [done|].
      intros k' Hk'. apply (wf_dom _ W). rewrite Hl, fmap_app, elem_of_app. by left. }
    unfold abs. cbn. rewrite Hf, Hl, absl_app, <- Hlen, take_app_length, absl_delete.
    apply list_filter_all. intros [k' e] Hin Hne. cbn in Hne. subst k'.
    apply Hk. apply list_elem_of_omap in Hin as ([it' k'] & Hin & Hx). cbn in Hx.
    destruct (cache_ s !! k'); simplify_eq/=. apply list_elem_of_fmap. by exists (it', k).
  - cbn. by rewrite Hf.
Qed.

Lemma wf_abs_length s : wf s → length (abs s) = length (lru_list_ s).
Proof. intros W. by rewrite <- (length_fmap fst), wf_abs_keys, length_fmap. Qed.

Lemma evictLoop_ok fuel s :
  (length (lru_list_ s) < fuel)%nat → wf s →
  ∃ s', evictLoop fuel s = Ret s' ∧ wf s' ∧ same_conf s s' ∧
    abs s' = Spec.make_room (max_size_ s) (abs s).
Proof.
  revert s. induction fuel as [|fuel IH]; intros s Hfuel W; [lia|].
  cbn. rewrite wf_size by done. case_decide as Hc.
  - destruct Hc as [Hmax Hne]. destruct (exists_last Hne) as (l & [it k] & Hl).
    assert (Hlast : last (lru_list_ s) = Some (it, k)) by (by rewrite Hl, last_snoc).
    rewrite Hlast. destruct (evict_last _ _ _ _ W Hl) as (-> & Ha & Hlen).
    rewrite Hl, length_app in Hfuel, Hmax. cbn in Hfuel, Hmax.
    destruct (IH (drop k s)) as (s' & Hr & W' & [Hd Hm] & Ha'); [lia|by apply wf_drop|].
    exists s'. split; [done|]. split; [done|]. split; [done|].
    rewrite Ha', Ha. unfold Spec.make_room. cbn. rewrite take_take. f_equal. lia.
  - exists s. split; [done|]. split; [done|]. split; [done|].
    unfold Spec.make_room. rewrite take_ge; [done|]. rewrite wf_abs_length by done.
    destruct (lru_list_ s) eqn:Hl; [cbn; lia|]. rewrite <- Hl in *.
    assert (¬ max_size_ s <= Z.of_nat (length (lru_list_ s))); [|lia].
    intros ?. apply Hc. split; [done|]. by rewrite Hl.
Qed.

(** *** Insertion at the front, and moving a node there *)

Definition insert_entry (k : string) (e : CacheEntry) (s : t) : t :=
  lru_push_front k (with_cache (<[k:=e]> (cache_ s)) s).

Lemma insert_entry_ok k e s :
  wf s → k ∉ (lru_list_ s).*2 →
  wf (insert_entry k e s) ∧ abs (insert_entry k e s) = (k, e) :: abs s.
Proof.
  intros W Hk. split; [split; cbn|].
  - apply NoDup_cons. split; [|apply W]. intros Hin%(wf_fresh _ W). lia.
  - apply NoDup_cons. split; [done|apply W].
  - intros k' it. rewrite elem_of_cons, lookup_insert_Some, (wf_map _ W). split.
    + intros [[<- <-]|[Hne Hin]]; [by left|by right].
    + intros [Heq|Hin]; [left; naive_solver|right]. split; [|done].
      intros ->. apply Hk, list_elem_of_fmap. by exists (it, k').
  - intros k'. rewrite lookup_insert_is_Some, elem_of_cons, (wf_dom _ W).
    destruct (decide (k = k')) as [->|]; naive_solver.
  - intros it. rewrite elem_of_cons. intros [->|Hin%(wf_fresh _ W)]; lia.
  - unfold abs, insert_entry. cbn. rewrite absl_cons. cbn.
    by rewrite lookup_insert_eq, absl_insert.
Qed.

Lemma wf_perm s l : wf s → l ≡ₚ lru_list_ s → wf (with_lru l (lru_map_ s) s).
Proof.
  intros W Hp. split; cbn.
  - rewrite Hp. apply W.
  - rewrite Hp. apply W.
  - intros k it. rewrite Hp. apply W.
  - intros k. rewrite Hp. apply W.
  - intros it. rewrite Hp. apply W.
Qed.

Lemma splice_ok s k it e :
  wf s → lru_map_ s !! k = Some it → cache_ s !! k = Some e →
  ∃ l, list_splice_front it (lru_list_ s) = Ret l ∧ wf (with_lru l (lru_map_ s) s) ∧
    abs (with_lru l (lru_map_ s) s) = (k, e) :: Spec.drop_key k (abs s).
Proof.
  intros W Hit He. pose proof (wf_erase _ _ _ W Hit) as Her.
  apply (wf_map _ W) in Hit. unfold list_splice_front.
  destruct (list_find _ (lru_list_ s)) as [[i [it' k']]|] eqn:Hf.
  - apply list_find_Some in Hf as (Hi & Hit' & _). cbn in Hit'. subst it'.
    assert (k' = k) as ->.
    { apply list_elem_of_lookup_2 in Hi.
      pose proof (NoDup_node_key _ _ _ _ (wf_nodes _ W) (wf_keys _ W) Hit Hi) as Hnk.
      cbn in Hnk. apply dec_stable. intros Hne. by apply Hnk in Hne. }
    unfold list_erase in Her. case_decide; simplify_eq. rewrite Her.
    eexists. split; [done|]. split.
    + apply wf_perm; [done|]. pose proof Hi as Hdel. apply delete_Permutation in Hdel.
      rewrite Hdel at 2. f_equiv. rewrite Hdel at 1.
      rewrite filter_cons_False by (cbn; tauto). rewrite list_filter_all; [done|].
      intros n Hn Hnk. pose proof (wf_keys _ W) as Hnd. rewrite Hdel in Hnd. cbn in Hnd.
      apply NoDup_cons in Hnd as [Hnd _]. apply Hnd. rewrite <- Hnk.
      by apply list_elem_of_fmap_2.
    + unfold abs. cbn. rewrite absl_cons. cbn. by rewrite He, absl_filter.
  - apply list_find_None in Hf. rewrite Forall_forall in Hf. by destruct (Hf _ Hit).
Qed.

(** *** Every operation refines its specification *)

Lemma set_ok now k v ttl s :
  wf s → ∃ s', set now k v ttl s = Ret (true, s') ∧ wf s' ∧ same_conf s s' ∧
    abs s' = Spec.set (default_ttl_seconds_ s) (max_size_ s) now k v ttl (abs s).
Proof.
  intros W. unfold set, Spec.set, effective_ttl.
  set (e := {| value := v; expiry := _ |}). rewrite (wf_assoc _ _ W).
  destruct (lru_map_ s !! k) as [it|] eqn:Hit.
  - rewrite (wf_erase _ _ _ W Hit). cbn.
    destruct (wf_mapped _ _ _ W Hit) as [e' He'].
    rewrite He'. destruct (insert_entry_ok k e (drop k s)) as [W' Ha]; [by apply wf_drop| |].
    { cbn. intros ([it' k'] & -> & [Hne _]%list_elem_of_filter)%list_elem_of_fmap. done. }
    rewrite abs_drop in Ha. unfold insert_entry, lru_push_front, drop in W', Ha. cbn in W', Ha.
    rewrite !insert_delete_eq in W', Ha.
    eexists. split; [done|]. split; [exact W'|]. split; [done|]. exact Ha.
  - destruct (wf_uncached _ _ W Hit) as [Hc Hk]. rewrite Hc.
    destruct (evictLoop_ok (S (length (lru_list_ s))) s) as (s' & Hr & W' & Hconf & Ha);
      [lia|done|]. unfold evictIfNeeded. rewrite Hr. cbn.
    destruct (insert_entry_ok k e s' W') as [W'' Ha'].
    { rewrite <- (wf_abs_keys _ W'), Ha. unfold Spec.make_room. rewrite fmap_take.
      intros Hin%elem_of_take. apply Hk. rewrite <- (wf_abs_keys _ W). destruct Hin as (? & Hin & _).
      by eapply list_elem_of_lookup_2. }
    eexists. split; [done|]. split; [exact W''|]. split; [exact Hconf|].
    fold (insert_entry k e s'). by rewrite Ha', Ha.
Qed.

Lemma get_ok now1 now2 k s :
  wf s → ∃ r s', get now1 now2 k s = Ret (r, s') ∧ wf s' ∧ same_conf s s' ∧
    Spec.get now1 now2 k (abs s) = (r, abs s').
Proof.
  intros W. destruct (removeExpired_ok now1 s W) as (s1 & Hr & W1 & Hc & Ha).
  unfold get, Spec.get. rewrite Hr, <- Ha, (wf_assoc _ _ W1). cbn.
  destruct (lru_map_ s1 !! k) as [it|] eqn:Hit.
  - assert (is_Some (cache_ s1 !! k)) as [e He].
    { apply (wf_dom _ W1). apply (wf_map _ W1) in Hit. apply list_elem_of_fmap. by exists (it, k). }
    rewrite He. case_decide.
    + destruct (splice_ok _ _ _ _ W1 Hit He) as (l & Hl & W' & Ha'). rewrite Hl. cbn.
      eexists _, _. split; [done|]. split; [done|]. split; [exact Hc|]. by rewrite Ha'.
    + change (lru_list_ (with_cache _ s1)) with (lru_list_ s1).
      rewrite (wf_erase _ _ _ W1 Hit). eexists _, (drop k s1).
      split; [done|]. split; [by apply wf_drop|]. split; [exact Hc|]. by rewrite abs_drop.
  - destruct (wf_uncached _ _ W1 Hit) as [-> _]. eauto 10.
Qed.

Lemma remove_ok k s :
  wf s → ∃ r s', remove k s = Ret (r, s') ∧ wf s' ∧ same_conf s s' ∧
    Spec.remove k (abs s) = (r, abs s').
Proof.
  intros W. unfold remove, Spec.remove. rewrite (wf_assoc _ _ W).
  destruct (lru_map_ s !! k) as [it|] eqn:Hit.
  - assert (is_Some (cache_ s !! k)) as [e He].
    { apply (wf_dom _ W). apply (wf_map _ W) in Hit. apply list_elem_of_fmap. by exists (it, k). }
    rewrite (wf_erase _ _ _ W Hit). cbn. rewrite He. eexists _, (drop k s).
    split; [done|]. split; [by apply wf_drop|]. split; [done|]. by rewrite abs_drop.
  - destruct (wf_uncached _ _ W Hit) as [Hc Hk]. cbn. rewrite Hc. eexists _, s.
    split; [done|]. split; [done|]. split; [done|]. cbn. f_equal.
    apply list_filter_all. intros [k' e] Hin Hne. cbn in Hne. subst.
    apply elem_of_abs in Hin. congruence.
Qed.

Lemma exists_ok now1 now2 k s :
  wf s → ∃ r s', exists_ now1 now2 k s = Ret (r, s') ∧ wf s' ∧ same_conf s s' ∧
    Spec.exists_ now1 now2 k (abs s) = (r, abs s').
Proof.
  intros W. destruct (removeExpired_ok now1 s W) as (s1 & Hr & W1 & Hc & Ha).
  unfold exists_, Spec.exists_. rewrite Hr, <- Ha, (wf_assoc _ _ W1). cbn. eauto 10.
Qed.

Lemma wf_empty s : wf (with_lru [] ∅ (with_cache ∅ s)).
Proof.
  split; cbn.
  - apply NoDup_nil_2.
  - apply NoDup_nil_2.
  - intros k it. rewrite lookup_empty. split; [done|]. by intros ?%elem_of_nil.
  - intros k. rewrite lookup_empty. split; [by intros []|]. by intros ?%elem_of_nil.
  - by intros it ?%elem_of_nil.
Qed.

Lemma run_ok o s :
  wf s → ∃ r s', run o s = Ret (r, s') ∧ wf s' ∧ same_conf s s' ∧
    Spec.run (default_ttl_seconds_ s) (max_size_ s) o (abs s) = (r, abs s').
Proof.
  intros W. destruct o as [now k v ttl|n1 n2 k|k| |n1 n2 k]; cbn.
  - destruct (set_ok now k v ttl s W) as (s' & -> & ? & ? & <-). eauto 10.
  - destruct (get_ok n1 n2 k s W) as (r & s' & -> & ? & ? & ->). eauto 10.
  - destruct (remove_ok k s W) as (r & s' & -> & ? & ? & Hs). unfold Spec.remove, Spec.exists_ in *.
    injection Hs as <- Hl. eexists _, s'.
    split; [done|]. split; [done|]. split; [done|]. by rewrite <- Hl.
  - eexists _, _. split; [done|]. split; [apply wf_empty|]. done.
  - destruct (exists_ok n1 n2 k s W) as (r & s' & -> & ? & ? & Hs). unfold Spec.remove, Spec.exists_ in *.
    injection Hs as <- Hl. eexists _, s'.
    split; [done|]. split; [done|]. split; [done|]. by rewrite <- Hl.
Qed.

Lemma run_all_ok os s :
  wf s → ∃ rs s', run_all os s = Ret (rs, s') ∧ wf s' ∧ same_conf s s' ∧
    Spec.run_all (default_ttl_seconds_ s) (max_size_ s) os (abs s) = (rs, abs s').
Proof.
  revert s. induction os as [|o os IH]; intros s W; cbn.
  - eexists _, _. split; [done|]. split; [done|]. split; done.
  - destruct (run_ok o s W) as (r & s1 & -> & W1 & [Hd Hm] & ->). cbn.
    destruct (IH s1 W1) as (rs & s' & -> & W' & [Hd' Hm'] & Hs). rewrite Hd, Hm in *.
    rewrite Hs. cbn. eexists _, _. split; [done|]. split; [done|]. split; [|done].
    split; congruence.
Qed.

End Refinement.
