(* ===== verification/CacheProps.v ===== *)
(** * What the in-memory cache guarantees to its clients

    Consequences of the refinement of [Cache.v], stated on the code's own
    operations: the three containers behave as one LRU list and never use an
    invalid iterator, the size bound holds, a [get] returns the last value
    written and never an expired one, and an entry survives any
    [max_size - 1] operations on other keys. *)

From S2P Require Import Prelude Cache.
Import InMemoryCache Refinement.

(** ** Association lists without duplicate keys *)

Lemma assoc_elem_of k e (l : list (string * CacheEntry)) :
  NoDup l.*1 → Spec.assoc k l = Some e ↔ (k, e) ∈ l.
Proof.
  induction l as [|[k' e'] l IH]; cbn; intros Hnd.
  - split; [done|]. by intros ?%elem_of_nil.
  - apply NoDup_cons in Hnd as [Hk Hnd]. rewrite elem_of_cons, <- IH by done. case_decide as Hd.
    + subst k'. split; [intros [= ->]; by left|]. intros [[= ->]|Hin]; [done|].
      apply IH in Hin; [|done]. destruct Hk. apply list_elem_of_fmap. by exists (k, e).
    + split; [by right|]. intros [[= -> ->]|]; done.
Qed.

Lemma wf_NoDup_abs s : wf s → NoDup (abs s).*1.
Proof. intros W. rewrite wf_abs_keys by done. apply W. Qed.

(** ** The last write of a key in a history of calls *)

Definition write1 (dttl : Z) (k : string) (o : op) (acc : option CacheEntry)
    : option CacheEntry :=
  match o with
  | OSet now k' v ttl =>
      if decide (k = k') then
        Some {| value := v; expiry := now + (if decide (ttl > 0) then ttl else dttl) * 10^9 |}
      else acc
  | ORemove k' => if decide (k = k') then None else acc
  | OClear => None
  | OGet _ _ _ | OExists _ _ _ => acc
  end.

Fixpoint last_write (dttl : Z) (k : string) (os : list op) (acc : option CacheEntry)
    : option CacheEntry :=
  match os with
  | [] => acc
  | o :: os => last_write dttl k os (write1 dttl k o acc)
  end.

Lemma drop_key_lt k e (l : list (string * CacheEntry)) :
  Spec.assoc k l = Some e → (length (Spec.drop_key k l) < length l)%nat.
Proof.
  induction l as [|[k' e'] l IH]; cbn; [done|]. rewrite drop_key_cons. cbn.
  case_decide as Hk; intros Ha.
  - rewrite decide_True by done. pose proof (length_filter (λ p, p.1 ≠ k) l).
    unfold Spec.drop_key. lia.
  - rewrite decide_False by done. cbn. specialize (IH Ha). lia.
Qed.

Lemma elem_of_drop_key k k' e (l : list (string * CacheEntry)) :
  (k, e) ∈ Spec.drop_key k' l ↔ k ≠ k' ∧ (k, e) ∈ l.
Proof. unfold Spec.drop_key. by rewrite list_elem_of_filter. Qed.

Lemma elem_of_expire now k e (l : list (string * CacheEntry)) :
  (k, e) ∈ Spec.expire now l ↔ now < expiry e ∧ (k, e) ∈ l.
Proof. unfold Spec.expire. by rewrite list_elem_of_filter. Qed.

Lemma spec_run_write d m o (l l' : list (string * CacheEntry)) r k e :
  NoDup l.*1 → Spec.run d m o l = (r, l') → (k, e) ∈ l' →
  write1 d k o (Spec.assoc k l) = Some e.
Proof.
  intros Hnd Hrun Hin. destruct o as [now k' v ttl|n1 n2 k'|k'| |n1 n2 k']; cbn in *.
  - injection Hrun as <- <-. unfold Spec.set in Hin.
    apply elem_of_cons in Hin as [[= -> ->]|Hin]; [by rewrite decide_True|].
    destruct (Spec.assoc k' l) eqn:Ha.
    + apply elem_of_drop_key in Hin as [? Hin]. rewrite decide_False by done.
      by apply assoc_elem_of.
    + apply elem_of_take in Hin as (i & Hi & _). apply list_elem_of_lookup_2 in Hi.
      apply assoc_elem_of in Hi; [|done]. rewrite decide_False by congruence. done.
  - unfold Spec.get in Hrun. apply assoc_elem_of; [done|].
    assert (Hnd' : NoDup (Spec.expire n1 l).*1) by by apply NoDup_filter.
    destruct (Spec.assoc k' (Spec.expire n1 l)) as [e'|] eqn:Ha; [case_decide|];
      injection Hrun as <- <-.
    + apply elem_of_cons in Hin as [[= -> ->]|Hin].
      * by apply assoc_elem_of, elem_of_expire in Ha as [_ ?].
      * by apply elem_of_drop_key in Hin as [_ [_ ?]%elem_of_expire].
    + by apply elem_of_drop_key in Hin as [_ [_ ?]%elem_of_expire].
    + by apply elem_of_expire in Hin as [_ ?].
  - injection Hrun as <- <-. apply elem_of_drop_key in Hin as [? Hin].
    rewrite decide_False by done. by apply assoc_elem_of.
  - injection Hrun as <- <-. by apply elem_of_nil in Hin.
  - injection Hrun as <- <-. apply elem_of_expire in Hin as [_ ?]. by apply assoc_elem_of.
Qed.

(** A cache that lost entries knows no more than the history does. *)
Lemma last_write_mono d k os acc acc' :
  acc = None ∨ acc = acc' →
  last_write d k os acc = None ∨ last_write d k os acc = last_write d k os acc'.
Proof.
  revert acc acc'. induction os as [|o os IH]; intros acc acc' H; [done|]. cbn. apply IH.
  destruct o; cbn; try case_decide; naive_solver.
Qed.

Lemma run_all_write os s rs s' k e :
  wf s → run_all os s = Ret (rs, s') → Spec.assoc k (abs s') = Some e →
  last_write (default_ttl_seconds_ s) k os (Spec.assoc k (abs s)) = Some e.
Proof.
  revert s rs. induction os as [|o os IH]; intros s rs W Hr He; cbn in *.
  - by injection Hr as <- <-.
  - destruct (run_ok o s W) as (r & s1 & Hr1 & W1 & [Hd Hm] & Hs). rewrite Hr1 in Hr. cbn in Hr.
    destruct (run_all os s1) as [[rs1 s2]| |] eqn:Hr2; try done. injection Hr as <- <-.
    pose proof (IH _ _ W1 Hr2 He) as IHs. rewrite Hd in IHs.
    assert (Hkn : Spec.assoc k (abs s1) = None
      ∨ Spec.assoc k (abs s1) = write1 (default_ttl_seconds_ s) k o (Spec.assoc k (abs s))).
    { destruct (Spec.assoc k (abs s1)) as [e1|] eqn:H1; [right|by left]. symmetry.
      apply assoc_elem_of in H1; [|by apply wf_NoDup_abs].
      eapply spec_run_write; [by apply wf_NoDup_abs|done|done]. }
    destruct (last_write_mono (default_ttl_seconds_ s) k os _ _ Hkn); congruence.
Qed.

(** ** Positions in the recency order *)

Lemma lookup_filter_le {A} (P : A -> Prop) `{∀ x, Decision (P x)} (l : list A) i x :
  l !! i = Some x → P x → ∃ j, (j <= i)%nat ∧ filter P l !! j = Some x.
Proof.
  revert i. induction l as [|y l IH]; intros i Hi Hx; [done|]. destruct i as [|i]; cbn in Hi.
  - injection Hi as ->. rewrite filter_cons_True by done. by exists 0%nat.
  - destruct (IH i Hi Hx) as (j & Hj & Hl). rewrite filter_cons. case_decide.
    + exists (S j). split; [lia|done].
    + exists j. split; [lia|done].
Qed.

(** Operations that neither rewrite nor remove [k], at times before its expiry. *)
Definition leaves (k : string) (e : CacheEntry) (o : op) : Prop :=
  match o with
  | OSet _ k' _ _ | ORemove k' => k' ≠ k
  | OGet n1 n2 _ => n1 < expiry e ∧ n2 < expiry e
  | OExists n1 _ _ => n1 < expiry e
  | OClear => False
  end.

Lemma spec_run_position d m o (l l' : list (string * CacheEntry)) r k e i :
  NoDup l.*1 → leaves k e o → Spec.run d m o l = (r, l') →
  l !! i = Some (k, e) → Z.of_nat i + 1 < m →
  ∃ j, (j <= S i)%nat ∧ l' !! j = Some (k, e).
Proof.
  intros Hnd Ho Hrun Hi Hm.
  assert (Hdrop : ∀ k' (l : list (string * CacheEntry)) i, l !! i = Some (k, e) → k' ≠ k →
    ∃ j, (j <= i)%nat ∧ Spec.drop_key k' l !! j = Some (k, e)).
  { intros k' l0 i0 H0 Hk. by apply lookup_filter_le. }
  assert (Hexp : ∀ n, n < expiry e → ∃ j, (j <= i)%nat ∧ Spec.expire n l !! j = Some (k, e)).
  { intros n Hn. by apply lookup_filter_le. }
  destruct o as [now k' v ttl|n1 n2 k'|k'| |n1 n2 k']; cbn in *; try done.
  - injection Hrun as <- <-. unfold Spec.set. destruct (Spec.assoc k' l).
    + destruct (Hdrop _ _ _ Hi Ho) as (j & ? & ?). exists (S j). split; [lia|done].
    + exists (S i). split; [lia|]. change (Spec.make_room m l !! i = Some (k, e)).
      unfold Spec.make_room. by rewrite lookup_take_lt by lia.
  - destruct Ho as [Ho1 Ho2]. destruct (Hexp _ Ho1) as (j & Hj & Hl).
    assert (Hnd' : NoDup (Spec.expire n1 l).*1) by by apply NoDup_filter.
    unfold Spec.get in Hrun. destruct (decide (k' = k)) as [->|Hne].
    + apply list_elem_of_lookup_2, assoc_elem_of in Hl as Ha; [|done]. rewrite Ha in Hrun.
      rewrite decide_True in Hrun by lia. injection Hrun as <- <-. exists 0%nat. split; [lia|done].
    + destruct (Hdrop _ _ _ Hl Hne) as (j' & Hj' & Hl').
      destruct (Spec.assoc k' _); [case_decide|]; injection Hrun as <- <-.
      * exists (S j'). split; [lia|done].
      * exists j'. split; [lia|done].
      * exists j. split; [lia|done].
  - injection Hrun as <- <-. destruct (Hdrop _ _ _ Hi Ho) as (j & ? & ?). exists j.
    split; [lia|done].
  - injection Hrun as <- <-. destruct (Hexp _ Ho) as (j & ? & ?). exists j. split; [lia|done].
Qed.

Lemma run_all_position os s rs s' k e i :
  wf s → run_all os s = Ret (rs, s') → Forall (leaves k e) os →
  abs s !! i = Some (k, e) → Z.of_nat i + Z.of_nat (length os) < max_size_ s →
  (k, e) ∈ abs s'.
Proof.
  revert s rs i. induction os as [|o os IH]; intros s rs i W Hr Hos Hi Hm; cbn in *.
  - injection Hr as <- <-. by eapply list_elem_of_lookup_2.
  - apply Forall_cons in Hos as [Ho Hos].
    destruct (run_ok o s W) as (r & s1 & Hr1 & W1 & [Hd Hm1] & Hs). rewrite Hr1 in Hr. cbn in Hr.
    destruct (run_all os s1) as [[rs1 s2]| |] eqn:Hr2; try done. injection Hr as <- <-.
    destruct (spec_run_position _ _ _ _ _ _ _ _ _ (wf_NoDup_abs _ W) Ho Hs Hi) as (j & Hj & Hl);
      [lia|]. eapply (IH s1); eauto. rewrite Hm1. lia.
Qed.

(** ** Sizes *)

Lemma wf_cache_size s : wf s → size (cache_ s) = length (lru_list_ s).
Proof.
  intros W. rewrite <- length_map_to_list, <- (length_fmap fst), <- (length_fmap snd (lru_list_ s)).
  apply Permutation_length, NoDup_Permutation; [apply NoDup_fst_map_to_list|apply W|].
  intros k. rewrite <- (wf_dom _ W), list_elem_of_fmap. split.
  - intros ([k' e] & -> & Hin%elem_of_map_to_list). eauto.
  - intros [e He]. exists (k, e). by rewrite elem_of_map_to_list.
Qed.

Lemma spec_run_length d m o (l l' : list (string * CacheEntry)) r :
  Spec.run d m o l = (r, l') → Z.of_nat (length l) <= Z.max 1 m →
  Z.of_nat (length l') <= Z.max 1 m.
Proof.
  intros Hrun Hl.
  assert (Hf : ∀ (P : string * CacheEntry → Prop) `{∀ x, Decision (P x)} (l0 : list _),
    (length (filter P l0) <= length l0)%nat) by (intros; apply length_filter).
  assert (Hdrop : ∀ k (l0 : list (string * CacheEntry)),
    (length (Spec.drop_key k l0) <= length l0)%nat) by (intros; apply Hf).
  assert (Hexp : ∀ n, (length (Spec.expire n l) <= length l)%nat) by (intros; apply Hf).
  destruct o as [now k v ttl|n1 n2 k|k| |n1 n2 k]; cbn in Hrun.
  - injection Hrun as <- <-. unfold Spec.set. cbn. destruct (Spec.assoc k l) eqn:Ha.
    + assert (length (Spec.drop_key k l) < length l)%nat by (by eapply drop_key_lt). lia.
    + unfold Spec.make_room. rewrite length_take. lia.
  - unfold Spec.get in Hrun. specialize (Hexp n1).
    pose proof (Hdrop k (Spec.expire n1 l)).
    destruct (Spec.assoc k (Spec.expire n1 l)) eqn:Ha; [case_decide|]; injection Hrun as <- <-;
      cbn; try lia.
    assert (length (Spec.drop_key k (Spec.expire n1 l)) < length (Spec.expire n1 l))%nat
      by (by eapply drop_key_lt). lia.
  - injection Hrun as <- <-. specialize (Hdrop k l). lia.
  - injection Hrun as <- <-. cbn. lia.
  - injection Hrun as <- <-. specialize (Hexp n1). lia.
Qed.

(** ** Properties *)

Lemma wf_ctor d m : wf (ctor d m).
Proof. apply (wf_empty (ctor d m)). Qed.

Section Properties.
Variables (dttl max : Z).

(** C9 (refinement): whatever the sequence of [set], [get], [remove], [clear]
    and [exists] calls on a fresh cache, the hash map, the linked list and the
    iterator map never use an invalid iterator, and every call returns what the
    recency-ordered list of the specification returns. *)
Theorem cache_refines_lru os :
  ∃ rs s, run_all os (ctor dttl max) = Ret (rs, s)
    ∧ Spec.run_all dttl max os [] = (rs, abs s).
Proof.
  destruct (run_all_ok os (ctor dttl max)) as (rs & s & Hr & _ & _ & Hs); [apply wf_ctor|].
  eauto.
Qed.

(** C15 (invariant): after any sequence of calls the cache holds at most
    [max_size] entries (one, when [max_size] is zero). *)
Theorem cache_bounded os :
  match run_all os (ctor dttl max) with
  | Ret (_, s) => Z.of_nat (size (cache_ s)) <= Z.max 1 max
  | _ => False
  end.
Proof.
  assert (H : ∀ os s, wf s → max_size_ s = max → Z.of_nat (length (abs s)) <= Z.max 1 max →
    match run_all os s with
    | Ret (_, s') => Z.of_nat (length (abs s')) <= Z.max 1 max ∧ wf s'
    | _ => False end).
  { clear os. induction os as [|o os IH]; intros s W Hm Hb; cbn; [done|].
    destruct (run_ok o s W) as (r & s1 & Hr & W1 & [_ Hm1] & Hs). rewrite Hr. cbn.
    assert (Hb1 : Z.of_nat (length (abs s1)) <= Z.max 1 max).
    { rewrite Hm in Hs. by eapply spec_run_length. }
    specialize (IH s1 W1 ltac:(congruence) Hb1).
    by destruct (run_all os s1) as [[]| |]. }
  assert (H0 : Z.of_nat (length (abs (ctor dttl max))) <= Z.max 1 max)
    by (change (0 <= Z.max 1 max); lia).
  specialize (H os (ctor dttl max) (wf_ctor _ _) eq_refl H0).
  destruct (run_all os (ctor dttl max)) as [[rs s]| |]; [|done..].
  destruct H as [H W]. rewrite wf_abs_length in H by done.
  by rewrite wf_cache_size.
Qed.

(** (safety): a [get] that returns a value returns the one written by the
    last [set] of the key, not removed since, whose expiry is still ahead of
    the clock readings of the call. *)
Theorem cache_get_sound os rs s now1 now2 k v s' :
  run_all os (ctor dttl max) = Ret (rs, s) →
  get now1 now2 k s = Ret (Some v, s') →
  ∃ e, last_write dttl k os None = Some e ∧ value e = v ∧ now1 < expiry e ∧ now2 < expiry e.
Proof.
  intros Hr Hg. destruct (run_all_ok os _ (wf_ctor dttl max)) as (? & ? & Hr' & W & _).
  rewrite Hr in Hr'. injection Hr' as <- <-.
  destruct (get_ok now1 now2 k s W) as (r & s1 & Hg' & _ & _ & Hs). rewrite Hg in Hg'.
  injection Hg' as <- <-. unfold Spec.get in Hs.
  destruct (Spec.assoc k (Spec.expire now1 (abs s))) as [e|] eqn:Ha; [case_decide|]; try done.
  apply assoc_elem_of in Ha; [|by apply NoDup_filter, wf_NoDup_abs].
  apply elem_of_expire in Ha as [Hn1 Hin]. exists e. injection Hs as <- _.
  split; [|split; [done|lia]]. apply assoc_elem_of in Hin; [|by apply wf_NoDup_abs].
  by apply (run_all_write _ _ _ _ _ _ (wf_ctor dttl max) Hr).
Qed.

(** C14 (functional): after [set k v], any [max_size - 1] further calls that do
    not rewrite or remove [k], at times before the entry's expiry, leave [k]
    readable: only the least recently used entries are evicted. *)
Theorem cache_keeps_recent os0 rs0 s0 now k v ttl s1 os rs s2 now1 now2 :
  run_all os0 (ctor dttl max) = Ret (rs0, s0) →
  set now k v ttl s0 = Ret (true, s1) →
  run_all os s1 = Ret (rs, s2) →
  Z.of_nat (length os) < max →
  let e := {| value := v; expiry := now + effective_ttl ttl s0 * 10^9 |} in
  Forall (leaves k e) os → now1 < expiry e → now2 < expiry e →
  ∃ s3, get now1 now2 k s2 = Ret (Some v, s3).
Proof.
  intros Hr0 Hset Hr Hlen e Hos Hn1 Hn2.
  destruct (run_all_ok os0 _ (wf_ctor dttl max)) as (? & ? & Hr' & W0 & [_ Hm0] & _).
 rewrite Hr0 in Hr'. injection Hr' as <- <-.
  destruct (set_ok now k v ttl s0 W0) as (s1' & Hset' & W1 & [_ Hm1] & Ha1).
  rewrite Hset in Hset'. injection Hset' as <-.
  destruct (run_all_ok os s1 W1) as (? & ? & Hr'' & W2 & _). rewrite Hr in Hr''.
  injection Hr'' as <- <-.
  assert (Hin : (k, e) ∈ abs s2).
  { apply (run_all_position os s1 rs s2 k e 0); try done; [|rewrite Hm1, Hm0; cbn; lia].
    by rewrite Ha1. }
  destruct (get_ok now1 now2 k s2 W2) as (r & s3 & Hg & _ & _ & Hs). exists s3. rewrite Hg.
  assert (Ha : Spec.assoc k (Spec.expire now1 (abs s2)) = Some e).
  { apply assoc_elem_of; [by apply NoDup_filter, wf_NoDup_abs|]. by apply elem_of_expire. }
  unfold Spec.get in Hs. rewrite Ha, decide_True in Hs by lia. by injection Hs as <- _.
Qed.

End Properties.

(** A two-entry cache: [b] is refreshed, so the third key evicts [a]. *)
Example lru_history : list op :=
  [OSet 0 "a" "1" 10; OSet 1 "b" "2" 10; OGet 2 3 "b"; OSet 4 "c" "3" 10].

Lemma cache_get_sound_witness :
  ∃ e, last_write 5 "b" lru_history None = Some e ∧ value e = "2" ∧
    5 < expiry e ∧ 6 < expiry e.
Proof.
  destruct (run_all lru_history (ctor 5 2)) as [[rs s]| |] eqn:E; [|vm_compute in E; done..].
  destruct (get 5 6 "b" s) as [[r s']| |] eqn:G;
    vm_compute in E; injection E as <- <-; vm_compute in G; try done.
  injection G as <- <-.
  refine (cache_get_sound 5 2 lru_history _ _ 5 6 "b" "2" _ _ _); vm_compute; reflexivity.
Defined.

Lemma cache_keeps_recent_witness :
  ∃ s3, get 7 8 "b" (default (ctor 5 3) (match run_all
      [OSet 0 "a" "1" 0; OSet 1 "b" "2" 9; OGet 2 3 "a"; OSet 4 "c" "3" 0] (ctor 5 3) with
    | Ret (_, s) => Some s | _ => None end)) = Ret (Some "2", s3).
Proof.
  destruct (run_all [OSet 0 "a" "1" 0] (ctor 5 3)) as [[rs0 s0]| |] eqn:E0; [|by vm_compute in E0..].
  destruct (set 1 "b" "2" 9 s0) as [[b s1]| |] eqn:E1;
    vm_compute in E0; injection E0 as <- <-; vm_compute in E1; [|done..].
  injection E1 as <- <-.
  refine (cache_keeps_recent 5 3 [OSet 0 "a" "1" 0] _ _ 1 "b" "2" 9 _
    [OGet 2 3 "a"; OSet 4 "c" "3" 0] _ _ 7 8 _ _ _ _ _ _ _).
  1-3: vm_compute; reflexivity.
  1: vm_compute; reflexivity.
  1: repeat constructor; done.
  all: vm_compute; reflexivity.
Defined.
