(* ===== verification/CacheInterface.v ===== *)
(** * CacheInterface (src/interfaces/CacheInterface.hpp)

    The operations as a class over the type of the cache object, and the
    contract its clients rely on: calls return, and a read gives back only a
    value that was written under the same key. [InMemoryCache] implements
    both; [RedisCache] does in Redis.v. *)

From S2P Require Import Prelude Cache CacheProps.

Class CacheInterface (C : Type) := {
  set : string -> string -> Z -> M C bool;
  get : string -> M C (option string);
  remove : string -> M C bool;
  clear : M C bool;
  exists_ : string -> M C bool
}.

(** [m'] holds nothing but entries of [m] and the entry [k], [v]. *)
Definition at_most_adds (k v : string) (m m' : gmap string string) : Prop :=
  ∀ k' v', m' !! k' = Some v' → m !! k' = Some v' ∨ (k' = k ∧ v' = v).

Lemma at_most_adds_insert k v m m' : m' ⊆ <[k := v]> m → at_most_adds k v m m'.
Proof.
  rewrite map_subseteq_spec. intros Hs k' v' Hk%Hs.
  apply lookup_insert_Some in Hk as [[-> ->]|[_ Hk]]; auto.
Qed.

Lemma at_most_adds_refl k v m : at_most_adds k v m m.
Proof. intros k' v' Hk. by left. Qed.

(** [contents] bounds what a read may return, by the key and the value as the
    implementation stores them. *)
Class CacheContract (C : Type) `{CacheInterface C} := {
  cache_inv : C -> Prop;
  contents : C -> gmap string string;
  stored_key : string -> string;
  stored_value : string -> string;
  contract_set k v ttl c : cache_inv c →
    ∃ b c', set k v ttl c = (Ret b, c') ∧ cache_inv c'
      ∧ at_most_adds (stored_key k) (stored_value v) (contents c) (contents c');
  contract_get k c : cache_inv c →
    ∃ r c', get k c = (Ret r, c') ∧ cache_inv c' ∧ contents c' ⊆ contents c
      ∧ ∀ v, r = Some v → contents c !! stored_key k = Some v;
  contract_remove k c : cache_inv c →
    ∃ b c', remove k c = (Ret b, c') ∧ cache_inv c' ∧ contents c' ⊆ contents c;
  contract_clear c : cache_inv c →
    ∃ b c', clear c = (Ret b, c') ∧ cache_inv c' ∧ contents c' ⊆ contents c;
  contract_exists k c : cache_inv c →
    ∃ b c', exists_ k c = (Ret b, c') ∧ cache_inv c' ∧ contents c' ⊆ contents c
}.

(** ** InMemoryCache as a CacheInterface

    The object with the readings of its clock: [clock i] is what the [i]th
    call of [steady_clock::now()] returns. *)

Module InMemory.
Import InMemoryCache.

Record t := { cache : InMemoryCache.t; clock : nat -> Z; reads : nat }.

#[global] Instance t_eta : Eta t := λ c,
  {| cache := cache c; clock := clock c; reads := reads c |}.

(** Runs an operation that reads the clock [n] times. *)
Definition call {A} (n : nat) (f : (nat -> Z) -> InMemoryCache.t -> outcome (A * InMemoryCache.t))
    : M t A := λ c,
  match f (λ i, clock c (reads c + i)%nat) (cache c) with
  | Ret (a, s) => (Ret a, c <| cache := s |> <| reads ::= Nat.add n |>)
  | Throw e => (Throw e, c)
  | UB => (UB, c)
  end.

#[global] Instance interface : CacheInterface t := {|
  CacheInterface.set k v ttl := call 1 (λ now, InMemoryCache.set (now 0%nat) k v ttl);
  CacheInterface.get k := call 2 (λ now, InMemoryCache.get (now 0%nat) (now 1%nat) k);
  CacheInterface.remove k := call 0 (λ _, InMemoryCache.remove k);
  CacheInterface.clear := call 0 (λ _, InMemoryCache.clear);
  CacheInterface.exists_ k := call 2 (λ now, InMemoryCache.exists_ (now 0%nat) (now 1%nat) k)
|}.

Definition values (c : t) : gmap string string := value <$> cache_ (cache c).

(** *** The contract *)

Lemma elem_of_abs_iff s k e :
  Refinement.wf s → (k, e) ∈ Refinement.abs s ↔ cache_ s !! k = Some e.
Proof.
  intros W. rewrite <- (Refinement.wf_assoc _ _ W). symmetry.
  apply assoc_elem_of. by apply wf_NoDup_abs.
Qed.

Lemma assoc_in k e (l : list (string * CacheEntry)) : Spec.assoc k l = Some e → (k, e) ∈ l.
Proof.
  induction l as [|[k' e'] l IH]; cbn; [done|]. rewrite elem_of_cons.
  case_decide; [intros [= ->]; left; congruence|]. auto.
Qed.

(** A list with fewer entries, and one with one more, as value maps. *)
Lemma values_incl s s' :
  Refinement.wf s → Refinement.wf s' →
  (∀ p, p ∈ Refinement.abs s' → p ∈ Refinement.abs s) →
  (value <$> cache_ s' : gmap string string) ⊆ value <$> cache_ s.
Proof.
  intros W W' Hsub. apply map_fmap_mono. apply map_subseteq_spec. intros k e.
  rewrite <- !elem_of_abs_iff by done. apply Hsub.
Qed.

Lemma values_incl_insert s s' k v now :
  Refinement.wf s → Refinement.wf s' →
  (∀ p, p ∈ Refinement.abs s' → p = (k, {| value := v; expiry := now |}) ∨
     (p ∈ Refinement.abs s ∧ p.1 ≠ k)) →
  (value <$> cache_ s' : gmap string string) ⊆ <[k := v]> (value <$> cache_ s).
Proof.
  intros W W' Hsub. apply map_subseteq_spec. intros k' v'. rewrite lookup_fmap_Some.
  intros (e & <- & He). apply elem_of_abs_iff in He; [|done].
  destruct (Hsub _ He) as [[= -> ->]|[Hin Hk]]; [by rewrite lookup_insert_eq|].
  cbn in Hk. rewrite lookup_insert_ne, lookup_fmap by done.
  apply elem_of_abs_iff in Hin; [|done]. by rewrite Hin.
Qed.

Lemma spec_get_incl n1 n2 k l p : p ∈ (Spec.get n1 n2 k l).2 → p ∈ l.
Proof.
  unfold Spec.get. destruct p as [k' e'].
  destruct (Spec.assoc k (Spec.expire n1 l)) as [e|] eqn:He.
  - apply assoc_in in He. rewrite elem_of_expire in He.
    case_decide; cbn; rewrite ?elem_of_cons, elem_of_drop_key, elem_of_expire; naive_solver.
  - cbn. rewrite elem_of_expire. naive_solver.
Qed.

Lemma spec_set_incl d m now k v ttl l :
  NoDup l.*1 →
  ∃ t, ∀ p, p ∈ Spec.set d m now k v ttl l →
    p = (k, {| value := v; expiry := t |}) ∨ (p ∈ l ∧ p.1 ≠ k).
Proof.
  intros Hnd. unfold Spec.set. eexists. intros [k' e]. rewrite elem_of_cons.
  intros [Hp|Hp]; [left; exact Hp|right]. destruct (Spec.assoc k l) eqn:Ha.
  - rewrite elem_of_drop_key in Hp. naive_solver.
  - assert (Hin : (k', e) ∈ l).
    { unfold Spec.make_room in Hp. apply elem_of_take in Hp as (i & Hi & _).
      by apply list_elem_of_lookup_2 in Hi. }
    split; [done|]. cbn. intros ->. apply assoc_elem_of in Hin; [|done]. congruence.
Qed.

Lemma call_ret {A} n f c (a : A) s :
  f (λ i, clock c (reads c + i)%nat) (cache c) = Ret (a, s) →
  call n f c = (Ret a, c <| cache := s |> <| reads ::= Nat.add n |>).
Proof. unfold call. by intros ->. Qed.

Definition inv (c : t) : Prop := Refinement.wf (cache c).

#[global] Program Instance contract : CacheContract t := {|
  cache_inv := inv;
  contents := values;
  stored_key k := k;
  stored_value v := v
|}.
Next Obligation.
  intros k v ttl c W.
  destruct (Refinement.set_ok (clock c (reads c + 0)%nat) k v ttl _ W) as (s & Hs & W' & _ & Ha).
  eexists _, _. split; [by apply call_ret|]. split; [done|].
  destruct (spec_set_incl (default_ttl_seconds_ (cache c)) (max_size_ (cache c))
    (clock c (reads c + 0)%nat) k v ttl _ (wf_NoDup_abs _ W)) as [t Ht].
  apply at_most_adds_insert, (values_incl_insert _ _ _ _ t W W'). cbn. rewrite Ha. exact Ht.
Qed.
Next Obligation.
  intros k c W.
  destruct (Refinement.get_ok (clock c (reads c + 0)%nat) (clock c (reads c + 1)%nat) k _ W)
    as (r & s & Hs & W' & _ & Ha).
  eexists _, _. split; [by apply call_ret|]. split; [done|]. split.
  - apply (values_incl _ _ W W'). intros p Hp.
    apply (spec_get_incl (clock c (reads c + 0)%nat) (clock c (reads c + 1)%nat) k).
    by rewrite Ha.
  - intros v ->. unfold Spec.get in Ha.
    destruct (Spec.assoc k _) as [e|] eqn:He in Ha; [|done].
    case_decide; [|done]. injection Ha as <- _. apply assoc_in, elem_of_expire in He as [_ He].
    apply elem_of_abs_iff in He; [|done]. unfold values. by rewrite lookup_fmap, He.
Qed.
Next Obligation.
  intros k c W. destruct (Refinement.remove_ok k _ W) as (r & s & Hs & W' & _ & Ha).
  eexists _, _. split; [by apply call_ret|]. split; [done|].
  apply (values_incl _ _ W W'). injection Ha as _ Ha. cbn. rewrite <- Ha.
  intros [k' e]. rewrite elem_of_drop_key. tauto.
Qed.
Next Obligation.
  intros c W. eexists _, _. split; [by apply call_ret|]. split; [apply Refinement.wf_empty|].
  unfold values. cbn. rewrite fmap_empty. apply map_empty_subseteq.
Qed.
Next Obligation.
  intros k c W.
  destruct (Refinement.exists_ok (clock c (reads c + 0)%nat) (clock c (reads c + 1)%nat) k _ W)
    as (r & s & Hs & W' & _ & Ha).
  eexists _, _. split; [by apply call_ret|]. split; [done|].
  apply (values_incl _ _ W W'). injection Ha as _ Ha. cbn. rewrite <- Ha.
  intros [k' e]. rewrite elem_of_expire. tauto.
Qed.

End InMemory.
