(* ===== verification/Redis.v ===== *)
(** * RedisCache (src/cache/RedisCache.{hpp,cpp})

    The hiredis calls are a class over the state [R] of the connection and the
    server. Keys and values are handed to hiredis as C strings ([%s]), so what
    follows a NUL byte is not sent. [RedisServer] states what the server's
    replies to the six commands mean; with it [RedisCache] implements the
    contract of CacheInterface.v. Every operation runs under [mutex_]. *)

From S2P Require Import Prelude Text TextFacts Models Logging Http CacheInterface.

(** ** hiredis *)

Inductive redisReply :=
  | REPLY_STRING (str : string)
  | REPLY_INTEGER (integer : Z)
  | REPLY_STATUS (str : string)
  | REPLY_ERROR (str : string)
  | REPLY_NIL
  | REPLY_ARRAY.

Inductive arg := AStr (s : string) | AInt (z : Z).

Record redisContext := { err : Z; errstr : string }.

Class Hiredis (R : Type) := {
  redisConnect : string -> Z -> R -> option redisContext * R;
  redisFree : R -> R;
  redisCommand : string -> list arg -> R -> option redisReply * R
}.

Module RedisCache.

Record t (R : Type) := { redis_context_ : option redisContext; server : R; log_ : logs }.
#[global] Arguments redis_context_ {R}.
#[global] Arguments server {R}.
#[global] Arguments log_ {R}.

#[global] Instance t_eta {R} : Eta (t R) := λ c,
  {| redis_context_ := redis_context_ c; server := server c; log_ := log_ c |}.

Section Redis.
Context {R : Type} `{Hiredis R}.

Definition error (m : string) : M (t R) unit :=
  modify (λ c, c <| log_ ::= λ l, l ++ [(Models.CERROR, m)] |>).

(** The answer of the server to a command on the open connection. *)
Definition command (format : string) (args : list arg) : M (t R) (option redisReply) := λ c,
  let '(reply, r) := redisCommand format args (server c) in (Ret reply, c <| server := r |>).

Definition connect (config : AppConfig) (c : t R) : t R :=
  let '(ctx, r) := redisConnect (c_str (redis_host config)) (redis_port config) (server c) in
  let c := c <| redis_context_ := ctx |> <| server := r |> in
  match ctx with
  | Some x =>
      if decide (err x ≠ 0) then
        let c := c <| server ::= redisFree |> <| redis_context_ := None |> in
        ((error ("Redis connection error: " +:+ errstr x)) c).2
      else c
  | None => ((error "Redis connection error: can't allocate redis context") c).2
  end.

Definition ctor (config : AppConfig) (r : R) : t R :=
  connect config {| redis_context_ := None; server := r; log_ := [] |}.

Definition dtor (c : t R) : t R :=
  match redis_context_ c with
  | Some _ => c <| server ::= redisFree |>
  | None => c
  end.

(** [if (!redis_context_) { logger_->error(...); return r; }] before the rest. *)
Definition connected {A} (m : string) (r : A) (k : M (t R) A) : M (t R) A :=
  c ← get_state;
  match redis_context_ c with
  | None => error m;; mret r
  | Some _ => k
  end.

(** [reply->type != REDIS_REPLY_ERROR], false for a null reply *)
Definition is_success (reply : option redisReply) : bool :=
  match reply with
  | None | Some (REPLY_ERROR _) => false
  | Some _ => true
  end.

(** [reply->type == REDIS_REPLY_INTEGER && reply->integer > 0] *)
Definition is_positive (reply : option redisReply) : bool :=
  match reply with
  | Some (REPLY_INTEGER n) => bool_decide (n > 0)
  | _ => false
  end.

Definition set (key value : string) (ttl : Z) : M (t R) bool :=
  connected ("Redis not connected. Cannot SET key: " +:+ key) false (
    reply ←
      (if decide (ttl > 0) then
         command "SETEX %s %d %s" [AStr (c_str key); AInt ttl; AStr (c_str value)]
       else command "SET %s %s" [AStr (c_str key); AStr (c_str value)]);
    match reply with
    | None =>
        error ("Redis SET/SETEX command failed (nullptr reply) for key: " +:+ key);; mret false
    | Some _ => mret (is_success reply)
    end).

Definition get (key : string) : M (t R) (option string) :=
  connected ("Redis not connected. Cannot GET key: " +:+ key) None (
    reply ← command "GET %s" [AStr (c_str key)];
    match reply with
    | Some (REPLY_STRING str) => mret (Some str)
    | _ => mret None
    end).

Definition remove (key : string) : M (t R) bool :=
  connected ("Redis not connected. Cannot DEL key: " +:+ key) false (
    reply ← command "DEL %s" [AStr (c_str key)];
    mret (is_positive reply)).

Definition clear : M (t R) bool :=
  connected "Redis not connected. Cannot FLUSHALL." false (
    reply ← command "FLUSHALL" [];
    mret (is_success reply)).

Definition exists_ (key : string) : M (t R) bool :=
  connected ("Redis not connected. Cannot check EXISTS for key: " +:+ key) false (
    reply ← command "EXISTS %s" [AStr (c_str key)];
    mret (is_positive reply)).

Definition isConnected (c : t R) : bool := bool_decide (is_Some (redis_context_ c)).

(** The two JSON overloads. *)
Definition set_json {J} `{JsonApi J} (config : AppConfig) (key : string) (value : J)
    : M (t R) unit :=
  try_catch
    (s ← lift (dump (-1) value);
     ok ← set key s (redis_ttl config);
     if negb ok then error ("Failed to set JSON value in Redis for key: " +:+ key) else mret tt)
    (λ e, error ("Exception during JSON set for key '" +:+ key +:+ "': " +:+ what e)).

Definition get_json {J} `{JsonApi J} (key : string) : M (t R) (option J) :=
  str_value ← get key;
  match str_value with
  | None => mret None
  | Some s =>
      try_catch (j ← lift (parse s); mret (Some j))
        (λ e, if decide (exn_type e = JsonParseError) then
                error ("JSON parse error for key '" +:+ key +:+ "': " +:+ what e);; mret None
              else throw e)
  end.

#[global] Instance interface : CacheInterface (t R) := {|
  CacheInterface.set := set;
  CacheInterface.get := get;
  CacheInterface.remove := remove;
  CacheInterface.clear := clear;
  CacheInterface.exists_ := exists_
|}.

End Redis.

End RedisCache.

(** ** What the server's replies mean

    [store] is the server's data base as long as no other client writes to
    it; keys may vanish at any time (expiry, memory limit). *)

Class RedisServer (R : Type) `{Hiredis R} := {
  store : R -> gmap string string;
  GET_reply k r reply r' : redisCommand "GET %s" [AStr k] r = (reply, r') →
    store r' ⊆ store r ∧ ∀ v, reply = Some (REPLY_STRING v) → store r !! k = Some v;
  SETEX_reply k n v r reply r' :
    redisCommand "SETEX %s %d %s" [AStr k; AInt n; AStr v] r = (reply, r') →
    store r' ⊆ <[k := v]> (store r);
  SET_reply k v r reply r' : redisCommand "SET %s %s" [AStr k; AStr v] r = (reply, r') →
    store r' ⊆ <[k := v]> (store r);
  DEL_reply k r reply r' : redisCommand "DEL %s" [AStr k] r = (reply, r') → store r' ⊆ store r;
  FLUSHALL_reply r reply r' : redisCommand "FLUSHALL" [] r = (reply, r') → store r' ⊆ store r;
  EXISTS_reply k r reply r' : redisCommand "EXISTS %s" [AStr k] r = (reply, r') →
    store r' ⊆ store r
}.

Module RedisContract.
Import RedisCache.

Section Contract.
Context {R : Type} `{RedisServer R}.

Definition contents (c : t R) : gmap string string := store (server c).

Lemma run_connected {A} m (r : A) k (c : t R) :
  connected m r k c
  = match redis_context_ c return outcome A * t R with
    | Some _ => k c
    | None => (Ret r, c <| log_ ::= λ l, l ++ [(Models.CERROR, m)] |>)
    end.
Proof. unfold connected, get_state, mbind, M_bind. by destruct (redis_context_ c). Qed.

Lemma run_command {A} f args (k : option redisReply -> M (t R) A) c :
  (command f args ≫= k) c
  = k (redisCommand f args (server c)).1 (c <| server := (redisCommand f args (server c)).2 |>).
Proof.
  unfold command, mbind, M_bind. by destruct (redisCommand f args (server c)) as [reply r'].
Qed.

Lemma get_contract k c :
  ∃ r c', get k c = (Ret r, c') ∧ contents c' ⊆ contents c
    ∧ ∀ v, r = Some v → contents c !! c_str k = Some v.
Proof.
  unfold get. rewrite run_connected. destruct (redis_context_ c); [|by eexists _, _].
  rewrite run_command. destruct (redisCommand _ _ _) as [reply r'] eqn:Hc.
  apply GET_reply in Hc as [Hs Hv]. cbn.
  destruct reply as [[]|]; (eexists _, _; split; [reflexivity|]; split; [exact Hs|]); naive_solver.
Qed.

Lemma set_contract k v ttl c :
  ∃ b c', set k v ttl c = (Ret b, c')
    ∧ at_most_adds (c_str k) (c_str v) (contents c) (contents c').
Proof.
  unfold set. rewrite run_connected. destruct (redis_context_ c).
  - case_decide; rewrite run_command; destruct (redisCommand _ _ _) as [reply r'] eqn:Hc;
      [apply SETEX_reply in Hc|apply SET_reply in Hc];
      apply at_most_adds_insert in Hc; (destruct reply; (eexists _, _; split; [reflexivity|exact Hc])).
  - eexists _, _. split; [reflexivity|]. apply at_most_adds_refl.
Qed.

(** The operations that at most remove entries. *)
Lemma shrinking {A} m (r0 : A) f args (k : option redisReply -> A) c :
  (∀ reply r', redisCommand f args (server c) = (reply, r') → store r' ⊆ store (server c)) →
  ∃ b c', connected m r0 (reply ← command f args; mret (k reply)) c = (Ret b, c')
    ∧ contents c' ⊆ contents c.
Proof.
  intros Hf. rewrite run_connected. destruct (redis_context_ c); [|by eexists _, _].
  rewrite run_command. destruct (redisCommand f args (server c)) as [reply r'].
  eexists _, _. split; [reflexivity|]. by apply (Hf reply).
Qed.

End Contract.

#[global] Program Instance contract {R} `{RedisServer R} : CacheContract (t R) := {|
  cache_inv _ := True;
  CacheInterface.contents := contents;
  stored_key := c_str;
  stored_value := c_str
|}.
Next Obligation. intros R ?? k v ttl c _. destruct (set_contract k v ttl c); naive_solver. Qed.
Next Obligation. intros R ?? k c _. destruct (get_contract k c); naive_solver. Qed.
Next Obligation.
  intros R ?? k c _.
  assert (∃ b c', remove k c = (Ret b, c') ∧ contents c' ⊆ contents c); [|naive_solver].
  apply shrinking. intros reply r'. apply DEL_reply.
Qed.
Next Obligation.
  intros R ?? c _.
  assert (∃ b c', clear c = (Ret b, c') ∧ contents c' ⊆ contents c); [|naive_solver].
  apply shrinking. intros reply r'. apply FLUSHALL_reply.
Qed.
Next Obligation.
  intros R ?? k c _.
  assert (∃ b c', exists_ k c = (Ret b, c') ∧ contents c' ⊆ contents c); [|naive_solver].
  apply shrinking. intros reply r'. apply EXISTS_reply.
Qed.

End RedisContract.

(** ** A server that stores what it is given *)

(** A data base without expiry, as an instance of the two classes. *)
Module StoringServer.

Definition exec (format : string) (args : list arg) (db : gmap string string)
    : option redisReply * gmap string string :=
  match args with
  | [AStr k; AInt n; AStr v] => (Some (REPLY_STATUS "OK"), <[k := v]> db)
  | [AStr k; AStr v] => (Some (REPLY_STATUS "OK"), <[k := v]> db)
  | [AStr k] =>
      if decide (format = "GET %s") then
        (Some (match db !! k with Some v => REPLY_STRING v | None => REPLY_NIL end), db)
      else if decide (format = "DEL %s") then
        (Some (REPLY_INTEGER (if db !! k then 1 else 0)), delete k db)
      else (Some (REPLY_INTEGER (if db !! k then 1 else 0)), db)
  | _ => (Some (REPLY_STATUS "OK"), ∅)
  end.

#[global] Instance hiredis : Hiredis (gmap string string) := {|
  redisConnect _ _ db := (Some {| err := 0; errstr := "" |}, db);
  redisFree db := db;
  redisCommand := exec
|}.

#[global] Program Instance redis_server : RedisServer (gmap string string) := {|
  store db := db
|}.
Next Obligation.
  intros k r reply r'. cbn. intros [= <- <-]. split; [done|]. intros v.
  by destruct (r !! k) eqn:Hk; intros [= ->].
Qed.
Next Obligation. intros k n v r reply r'. by intros [= <- <-]. Qed.
Next Obligation. intros k v r reply r'. by intros [= <- <-]. Qed.
Next Obligation. intros k r reply r'. cbn. intros [= <- <-]. apply delete_subseteq. Qed.
Next Obligation. intros r reply r'. cbn. intros [= <- <-]. apply map_empty_subseteq. Qed.
Next Obligation. intros k r reply r'. by intros [= <- <-]. Qed.

End StoringServer.

Section RedisProperties.
Import RedisCache.
Context {R : Type} `{Hiredis R}.

(** (roundtrip): on a connected [RedisCache] whose server stores what it is
    given, a value is read back after [set] up to its first NUL byte, and the
    same answer is given for every key that agrees with the written one up to
    its first NUL byte. *)
Theorem redis_set_get k k' v ttl (c : t R)
    (Hsetex : ∀ k n v r, ∃ reply r', redisCommand "SETEX %s %d %s" [AStr k; AInt n; AStr v] r
       = (Some (REPLY_STATUS reply), r')
       ∧ (redisCommand "GET %s" [AStr k] r').1 = Some (REPLY_STRING v))
    (Hset : ∀ k v r, ∃ reply r', redisCommand "SET %s %s" [AStr k; AStr v] r
       = (Some (REPLY_STATUS reply), r')
       ∧ (redisCommand "GET %s" [AStr k] r').1 = Some (REPLY_STRING v))
    (Hc : is_Some (redis_context_ c)) (Hk : c_str k' = c_str k) :
  (set k v ttl c).1 = Ret true ∧ (get k' (set k v ttl c).2).1 = Ret (Some (c_str v)).
Proof.
  destruct Hc as [x Hx]. unfold set, get. rewrite RedisContract.run_connected, Hx.
  case_decide; rewrite RedisContract.run_command;
    [destruct (Hsetex (c_str k) ttl (c_str v) (server c)) as (? & r' & -> & Hg)
    |destruct (Hset (c_str k) (c_str v) (server c)) as (? & r' & -> & Hg)];
    (split; [done|]); cbn [fst snd];
    match goal with |- context [snd ?p] => change (snd p) with (c <| server := r' |>) end;
    rewrite RedisContract.run_connected; cbn [redis_context_ update_field]; rewrite Hx;
    rewrite RedisContract.run_command; cbn [server update_field]; by rewrite Hk, Hg.
Qed.

End RedisProperties.

Lemma redis_set_get_witness :
  let c := RedisCache.ctor AppConfig_default (∅ : gmap string string) in
  (RedisCache.get "k" (RedisCache.set "k" "v" 60 c).2).1 = Ret (Some "v").
Proof.
  apply (redis_set_get "k" "k" "v" 60 (RedisCache.ctor AppConfig_default (∅ : gmap string string))).
  - intros k n v r. eexists _, _. split; [reflexivity|]. cbn. by rewrite lookup_insert_eq.
  - intros k v r. eexists _, _. split; [reflexivity|]. cbn. by rewrite lookup_insert_eq.
  - cbn. eauto.
  - reflexivity.
Defined.
