(* ===== verification/AsyncHttpClient.v ===== *)
(** * AsyncHttpClientSession (src/core/AsyncHttpClientSession.hpp)

    One call of a backend: resolve, connect, write the request, read the
    response, with a timer beside them. Each handler is a definition from its
    error code (and result) to the new state and the effects it has, in order.
    [step] runs the handler of the asynchronous operation that completes; the
    error codes are those the operating system chooses. *)

From S2P Require Import Prelude Text Models Logging Http.

Module AsyncHttpClientSession.

(** The operation the session waits for. *)
Inductive io_op := Resolving | Connecting | Writing | Reading.

#[global] Instance io_op_eq_dec : EqDecision io_op.
Proof. solve_decision. Defined.

(** The wait on [timer_]. *)
Inductive timer_wait := NotWaiting | Waiting | Cancelled.

(** What [req_] holds. *)
Record client_request := {
  creq_version : Z;
  creq_method : verb;
  creq_target : string;
  creq_host : string;
  creq_user_agent : string;
  creq_accept_encoding : string
}.

Record t := {
  backend_info_ : BackendUrlInfo;
  req_ : client_request;
  timeout : Z;                         (* milliseconds *)
  timer_ : timer_wait;
  socket_open : bool;
  pending : option io_op
}.

#[global] Instance t_eta : Eta t := λ s,
  {| backend_info_ := backend_info_ s; req_ := req_ s; timeout := timeout s;
     timer_ := timer_ s; socket_open := socket_open s; pending := pending s |}.

Inductive effect :=
  | Log (level : LogLevel) (m : string)
  | Resolve (host service : string)                (* [resolver_.async_resolve] *)
  | Complete (res : response) (ec : error_code).   (* [on_complete_(res, ec)] *)

Section Client.
Context `{Beast}.

Definition ctor (backendInfo : BackendUrlInfo) (target_path : string) (timeout_ms : Z) : t :=
  {| backend_info_ := backendInfo;
     req_ := {| creq_version := 11; creq_method := verb_get; creq_target := target_path;
                creq_host := backend_host backendInfo;
                creq_user_agent := BOOST_BEAST_VERSION_STRING;
                creq_accept_encoding := "gzip, deflate" |};
     timeout := timeout_ms;
     timer_ := NotWaiting;
     socket_open := false;
     pending := None |}.

Definition do_resolve (s : t) : t * list effect :=
  (s <| pending := Some Resolving |>,
   [Resolve (backend_host (backend_info_ s)) (to_string (backend_port (backend_info_ s)))]).

Definition run (s : t) : t * list effect := do_resolve (s <| timer_ := Waiting |>).

Definition timer_cancel (s : t) : t :=
  match timer_ s with
  | Waiting => s <| timer_ := Cancelled |>
  | _ => s
  end.

Definition cancel (s : t) : t := (timer_cancel s) <| socket_open := false |>.

Definition on_timeout (ec : error_code) (s : t) : t * list effect :=
  if failed ec && bool_decide (ec ≠ operation_aborted) then
    (s <| socket_open := false |>,
     [Log Models.CERROR ("AsyncHttpClientSession timeout for " +:+ url (backend_info_ s));
      Complete response_default timed_out])
  else (s, []).

(** [async_connect] opens the socket. *)
Definition on_resolve (ec : error_code) (s : t) : t * list effect :=
  if failed ec then (s, [Complete response_default ec])
  else (s <| socket_open := true |> <| pending := Some Connecting |>, []).

Definition on_connect (ec : error_code) (s : t) : t * list effect :=
  if failed ec then (s, [Complete response_default ec])
  else (s <| pending := Some Writing |>, []).

Definition on_write (ec : error_code) (s : t) : t * list effect :=
  if failed ec then (s, [Complete response_default ec])
  else (s <| pending := Some Reading |>, []).

(** [res] is what [async_read] has parsed into [res_]; [shut_ec] is the result
    of the shutdown. *)
Definition on_read (ec : error_code) (res : response) (shut_ec : error_code) (s : t)
    : t * list effect :=
  (timer_cancel s,
   (if failed shut_ec && bool_decide (shut_ec ≠ not_connected) then
      [Log Models.CERROR ("AsyncHttpClientSession shutdown error: " +:+ message shut_ec)]
    else []) ++
   [Complete res (if decide (ec = end_of_stream) then no_error else ec)]).

(** ** Completions *)

Inductive event :=
  | Timer (ec : error_code)
  | Io (op : io_op) (ec : error_code) (res : response) (shut_ec : error_code)
  | Cancel.

Definition handler (op : io_op) (ec : error_code) (res : response) (shut_ec : error_code)
    : t -> t * list effect :=
  match op with
  | Resolving => on_resolve ec
  | Connecting => on_connect ec
  | Writing => on_write ec
  | Reading => on_read ec res shut_ec
  end.

(** [None]: the event cannot happen in this state. *)
Definition step (e : event) (s : t) : option (t * list effect) :=
  match e with
  | Timer ec =>
      match timer_ s with
      | NotWaiting => None
      | _ => Some (on_timeout ec (s <| timer_ := NotWaiting |>))
      end
  | Io op ec res shut_ec =>
      if decide (pending s = Some op) then
        Some (handler op ec res shut_ec (s <| pending := None |>))
      else None
  | Cancel => Some (cancel s, [])
  end.

Fixpoint steps (es : list event) (s : t) : option (t * list effect) :=
  match es with
  | [] => Some (s, [])
  | e :: es =>
      '(s, o) ← step e s;
      '(s, os) ← steps es s;
      Some (s, o ++ os)
  end.

End Client.

End AsyncHttpClientSession.

(** ** Properties *)

Section Properties.
Import AsyncHttpClientSession.
Context `{Beast}.

(** A wait on a [steady_timer] ends with success when the timer expires and
    with [operation_aborted] when it is cancelled. *)
Definition documented (e : event) : Prop :=
  match e with
  | Timer ec => ec = no_error ∨ ec = operation_aborted
  | _ => True
  end.

Definition is_complete (o : effect) : bool := match o with Complete _ _ => true | _ => false end.
Definition is_io (e : event) : bool := match e with Io _ _ _ _ => true | _ => false end.

Definition completions (os : list effect) : nat := length (filter is_complete os).

Definition ios (es : list event) : nat := length (filter is_io es).

Definition in_flight (s : t) : nat := if pending s is Some _ then 1%nat else 0%nat.

(** What an I/O completion reports, if it ends the call. *)
Definition reported (e : event) : option (response * error_code) :=
  match e with
  | Io Reading ec res _ => Some (res, if decide (ec = end_of_stream) then no_error else ec)
  | Io _ ec _ _ => if failed ec then Some (response_default, ec) else None
  | _ => None
  end.

(** The I/O operations still to come, at most. *)
Definition remaining (s : t) : nat :=
  match pending s with
  | Some Resolving => 4 | Some Connecting => 3 | Some Writing => 2 | Some Reading => 1
  | None => 0
  end%nat.

Lemma completions_app os1 os2 :
  completions (os1 ++ os2) = (completions os1 + completions os2)%nat.
Proof. unfold completions. by rewrite filter_app, length_app. Qed.

Lemma completions_cons o os :
  completions (o :: os) = ((if is_complete o then 1 else 0) + completions os)%nat.
Proof. unfold completions. rewrite filter_cons. case_decide; by destruct (is_complete o). Qed.

Lemma ios_cons e es : ios (e :: es) = ((if is_io e then 1 else 0) + ios es)%nat.
Proof. unfold ios. rewrite filter_cons. case_decide; by destruct (is_io e). Qed.

Lemma documented_timeout ec s : documented (Timer ec) → on_timeout ec s = (s, []).
Proof. by intros [->| ->]. Qed.

(** One step: it ends the call exactly when it takes the pending operation
    away, and then with what that operation reports. *)
Lemma step_ok e s s' o :
  documented e → step e s = Some (s', o) →
  (completions o + in_flight s' = in_flight s
   ∧ remaining s' + (if is_io e then 1 else 0) <= remaining s)%nat
  ∧ ∀ res ec, Complete res ec ∈ o → reported e = Some (res, ec).
Proof.
  intros Hd. destruct e as [ec|op ec res shut_ec|]; cbn [step].
  - destruct (timer_ s); [done|..]; rewrite documented_timeout by done;
      intros [= <- <-]; (split; [split; [done|cbn; unfold remaining; cbn; lia]|]);
      intros ? ? Hin; by apply elem_of_nil in Hin.
  - case_decide as Hp; [|done]. intros [= Hs]. unfold in_flight, remaining. rewrite Hp. revert Hs.
    destruct op; cbn; unfold on_resolve, on_connect, on_write, on_read, timer_cancel;
      [destruct (failed ec) eqn:Hec..|
       destruct (timer_ _), (failed shut_ec && bool_decide (shut_ec ≠ not_connected))];
      intros [= <- <-]; cbn; rewrite ?Hec; (split; [split; [done|lia]|]); intros ? ?;
      rewrite ?elem_of_cons, ?elem_of_nil; naive_solver.
  - intros [= <- <-]. unfold cancel, timer_cancel. split.
    + destruct s as [? ? ? [] ? ?]; unfold in_flight, remaining; cbn; (split; [done|lia]).
    + intros ? ? Hin. by apply elem_of_nil in Hin.
Qed.

Lemma steps_ok es s s' os :
  Forall documented es → steps es s = Some (s', os) →
  (completions os + in_flight s' = in_flight s
   ∧ remaining s' + ios es <= remaining s)%nat
  ∧ ∀ res ec, Complete res ec ∈ os → ∃ e, e ∈ es ∧ reported e = Some (res, ec).
Proof.
  intros Hd. revert s os. induction Hd as [|e es He Hes IH]; intros s os; cbn [steps].
  - intros [= <- <-]. split; [cbn; lia|]. intros ? ? Hin. by apply elem_of_nil in Hin.
  - destruct (step e s) as [[s1 o]|] eqn:Hstep; [cbn [mbind option_bind]|done].
    destruct (steps es s1) as [[s2 os2]|] eqn:Hsteps; [cbn [mbind option_bind]|done]. intros [= <- <-].
    destruct (step_ok _ _ _ _ He Hstep) as [[H1 H2] H3].
    destruct (IH _ _ Hsteps) as [[H4 H5] H6]. split.
    + rewrite completions_app. split; [lia|]. clear H3 H6.
      rewrite ios_cons. lia.
    + intros res ec [Hin|Hin]%elem_of_app; [exists e|apply H6 in Hin as (e' & ? & ?); exists e'];
        rewrite elem_of_cons; auto.
Qed.

(** C10 (safety): in any sequence of events after [run()], the completion
    handler is called exactly once when the last I/O operation is done and not
    before, after at most four I/O completions; and what it is given is what
    one of these reported: the error of the first operation that failed, or
    what the read delivered, the end of the stream counting as success. *)
Theorem client_completes_once b target ms es s os
    (Hdoc : Forall documented es)
    (Hrun : steps es (run (ctor b target ms)).1 = Some (s, os)) :
  completions os = (if pending s is Some _ then 0 else 1)%nat
  ∧ (ios es <= 4)%nat
  ∧ ∀ res ec, Complete res ec ∈ os → ∃ e, e ∈ es ∧ reported e = Some (res, ec).
Proof.
  destruct (steps_ok _ _ _ _ Hdoc Hrun) as [[H1 H2] H3]. unfold in_flight in H1. cbn in H1, H2.
  split; [destruct (pending s); lia|]. split; [lia|done].
Qed.

(** A schedule that completes the pending operation, time after time, with
    what the network [net] has for it. *)
Fixpoint drive (fuel : nat) (net : io_op -> error_code * response * error_code) (s : t)
    : option (t * list effect) :=
  match fuel, pending s with
  | S fuel, Some op =>
      let '(ec, res, shut_ec) := net op in
      '(s, o) ← step (Io op ec res shut_ec) s;
      '(s, os) ← drive fuel net s;
      Some (s, o ++ os)
  | _, _ => Some (s, [])
  end.

Lemma drive_steps fuel net s :
  ∃ es s' os, drive fuel net s = Some (s', os) ∧ steps es s = Some (s', os)
    ∧ Forall documented es ∧ (pending s' = None ∨ ios es = fuel).
Proof.
  revert s. induction fuel as [|fuel IH]; intros s; cbn [drive].
  - exists [], s, []. auto.
  - destruct (pending s) as [op|] eqn:Hp; [|by exists [], s, []; auto].
    destruct (net op) as [[ec res] shut_ec]. cbn [step]. rewrite decide_True by done. cbn [mbind option_bind].
    destruct (handler op ec res shut_ec (s <| pending := None |>)) as [s1 o] eqn:Hh.
    destruct (IH s1) as (es & s' & os & Hd & Hs & Hes & Hend).
    exists (Io op ec res shut_ec :: es), s', (o ++ os). rewrite Hd. split; [done|].
    cbn [steps step]. rewrite decide_True by done. cbn [mbind option_bind]. rewrite Hh, Hs.
    split; [done|]. split; [by constructor|]. rewrite ios_cons. cbn. destruct Hend; [by left|right; lia].
Qed.

(** C11 (termination): whatever has happened to a call, and whatever the network
    answers from then on, four completions of the pending operation at most
    end it, and by then the completion handler has been called once. *)
Theorem client_call_terminates b target ms es s os net
    (Hdoc : Forall documented es)
    (Hrun : steps es (run (ctor b target ms)).1 = Some (s, os)) :
  ∃ s' os', drive 4 net s = Some (s', os') ∧ pending s' = None
    ∧ completions (os ++ os') = 1%nat.
Proof.
  destruct (steps_ok _ _ _ _ Hdoc Hrun) as [[H1 H2] _].
  destruct (drive_steps 4 net s) as (es' & s' & os' & Hd & Hs & Hes & Hend).
  destruct (steps_ok _ _ _ _ Hes Hs) as [[H3 H4] _].
  exists s', os'. split; [done|]. rewrite completions_app. cbn in H1, H2.
  assert (Hp : pending s' = None).
  { destruct Hend as [Hp|Hn]; [done|]. unfold remaining in H4 at 1.
    destruct (pending s') as [[]|]; [lia..|done]. }
  split; [done|]. unfold in_flight in *. rewrite Hp in H3. cbn in H1. lia.
Qed.

(** (liveness): the timer never ends a call: as long as the pending I/O
    operation does not complete, no expiry and no cancellation makes the
    session call its completion handler. *)
Theorem client_timeout_never_acts b target ms es s os
    (Hdoc : Forall documented es) (Hio : Forall (λ e, is_io e = false) es)
    (Hrun : steps es (run (ctor b target ms)).1 = Some (s, os)) :
  os = [] ∧ pending s = Some Resolving.
Proof.
  change (Some Resolving) with (pending (run (ctor b target ms)).1).
  revert Hrun. generalize (run (ctor b target ms)).1 as s0.
  revert os. induction Hdoc as [|e es He Hes IH]; intros os s0 Hrun; [by injection Hrun as <- <-|].
  apply Forall_cons in Hio as [Hi Hio]. cbn [steps] in Hrun.
  destruct e as [ec|op ec res shut_ec|]; [|done|].
  - cbn [step] in Hrun. destruct (timer_ s0); [done|..];
      rewrite documented_timeout in Hrun by done; cbn in Hrun;
      destruct (steps es _) as [[s2 os2]|] eqn:Hs; cbn in Hrun; simplify_eq;
      destruct (IH Hio _ _ Hs) as [-> ->]; done.
  - cbn in Hrun. destruct (steps es (cancel s0)) as [[s2 os2]|] eqn:Hs; cbn in Hrun; simplify_eq.
    destruct (IH Hio _ _ Hs) as [-> ->]. unfold cancel, timer_cancel. by destruct (timer_ s0).
Qed.

(** (safety): [cancel()] does not stop a call that is still resolving: the
    socket it closes is opened again by the connect, and the call goes on as
    if it had not been cancelled, only without its timer. *)
Theorem client_cancel_while_resolving s res shut_ec
    (Hp : pending s = Some Resolving) (Ht : timer_ s = Waiting) :
  ∃ s1 s2,
    steps [Cancel; Io Resolving no_error res shut_ec] s = Some (s1, [])
    ∧ steps [Io Resolving no_error res shut_ec] s = Some (s2, [])
    ∧ s1 = s2 <| timer_ := Cancelled |> ∧ pending s1 = Some Connecting ∧ socket_open s1 = true.
Proof.
  eexists _, _. cbn. unfold cancel, timer_cancel. rewrite Ht. cbn. rewrite Hp. by repeat split.
Qed.

End Properties.

Section Witnesses.
Import AsyncHttpClientSession.
#[local] Existing Instance example_beast.

Definition example_backend : BackendUrlInfo :=
  {| url := "http://localhost:9001"; backend_host := "localhost"; backend_port := 9001;
     is_https := false |}.

Definition example_run : t := (run (ctor example_backend "/companies/1" 1000)).1.

Definition example_call : list event :=
  let io op := Io op no_error response_default no_error in
  [io Resolving; io Connecting; io Writing; io Reading; Timer operation_aborted].

Lemma example_call_documented : Forall documented example_call.
Proof. repeat (apply Forall_cons_2; [cbn; auto|]). apply Forall_nil_2. Qed.

Definition example_end : t * list effect := default (example_run, []) (steps example_call example_run).

Lemma example_call_steps : steps example_call example_run = Some (example_end.1, example_end.2).
Proof. vm_compute. reflexivity. Qed.

Lemma client_completes_once_witness :
  steps example_call example_run = Some (example_end.1, example_end.2)
  ∧ completions example_end.2 = 1%nat.
Proof.
  pose proof (client_completes_once example_backend "/companies/1" 1000 example_call _ _
    example_call_documented example_call_steps) as (Hc & _ & _).
  split; [exact example_call_steps|]. rewrite Hc. vm_compute. reflexivity.
Defined.

Lemma client_call_terminates_witness :
  ∃ s os s' os', steps [Io Resolving no_error response_default no_error] example_run = Some (s, os)
    ∧ drive 4 (λ _, (connection_refused, response_default, no_error)) s = Some (s', os')
    ∧ completions (os ++ os') = 1%nat.
Proof.
  destruct (client_call_terminates example_backend "/companies/1" 1000
    [Io Resolving no_error response_default no_error] _ _
    (λ _, (connection_refused, response_default, no_error))
    ltac:(repeat constructor) eq_refl) as (s' & os' & Hd & _ & Hc).
  eexists _, _, s', os'. split; [reflexivity|]. split; [exact Hd|exact Hc].
Defined.

Lemma client_timeout_never_acts_witness :
  ∃ s os, steps [Timer no_error] example_run = Some (s, os) ∧ os = [] ∧ pending s = Some Resolving.
Proof.
  eexists _, _. split; [reflexivity|].
  refine (client_timeout_never_acts example_backend "/companies/1" 1000 [Timer no_error] _ _ _ _
    eq_refl); repeat constructor.
Defined.

Lemma client_cancel_while_resolving_witness :
  ∃ s, steps [Cancel; Io Resolving no_error response_default no_error] example_run = Some (s, [])
    ∧ socket_open s = true.
Proof.
  destruct (client_cancel_while_resolving example_run response_default no_error eq_refl eq_refl)
    as (s1 & s2 & H1 & _ & _ & _ & Ho). by exists s1.
Defined.

End Witnesses.
