(* ===== verification/Backendify.v ===== *)
(** * Backendify (src/core/Backendify.{hpp,cpp})

    The service: a company request is answered from the cache, or by a call of
    the country's backend whose completion builds the answer. Every method is
    a computation over [world], the members of the class and the heap of
    client sessions. The reply callback is a value of type [CB] (who waits for
    the answer); [send_response_cb] runs it, on the [outer] state it captures.
    The lambdas handed to a client session are records of their captures. *)

From S2P Require Import Prelude Text Models Utils Logging Metrics CircuitBreaker Http.
From S2P Require Import CacheInterface AsyncHttpClient.

Module Backendify.

(** The literals R"({"error": "..."})" *)
Definition json_error (m : string) : string :=
  "{" +:+ quoted "error" +:+ ": " +:+ quoted m +:+ "}".

Definition BACKEND_PATH : string := "/companies/".

(** What the completion lambda of [processCompanyRequest] captures. *)
Record completion (CB : Type) := Completion {
  beast_res_cb : response;
  send_response_cb_copy : CB;
  cache_key_copy : string;
  id_copy : string;
  backend_url_copy : string
}.
#[global] Arguments Completion {CB}.
#[global] Arguments beast_res_cb {CB}.
#[global] Arguments send_response_cb_copy {CB}.
#[global] Arguments cache_key_copy {CB}.
#[global] Arguments id_copy {CB}.
#[global] Arguments backend_url_copy {CB}.

(** What the [on_complete] lambda of [callBackendApi] captures. *)
Record wrapper (CB : Type) := Wrapper {
  original_user_callback : completion CB;
  session_to_remove_on_complete : option nat
}.
#[global] Arguments Wrapper {CB}.
#[global] Arguments original_user_callback {CB}.
#[global] Arguments session_to_remove_on_complete {CB}.

(** The members, the client sessions alive, the handlers given to [net::post],
    the clock readings so far, and the state of the callers. *)
Record world (C L S CB X : Type) := World {
  cache_ : C;
  statsd_client_ : S;
  logger_ : L;
  circuit_breaker_ : CircuitBreaker.t;
  active_client_sessions_ : gset nat;
  clients : gmap nat (AsyncHttpClientSession.t * wrapper CB);
  next_client : nat;
  posted : list (completion CB * error_code);
  steady_reads : nat;
  system_reads : nat;
  outer : X
}.
#[global] Arguments World {C L S CB X}.
#[global] Arguments cache_ {C L S CB X}.
#[global] Arguments statsd_client_ {C L S CB X}.
#[global] Arguments logger_ {C L S CB X}.
#[global] Arguments circuit_breaker_ {C L S CB X}.
#[global] Arguments active_client_sessions_ {C L S CB X}.
#[global] Arguments clients {C L S CB X}.
#[global] Arguments next_client {C L S CB X}.
#[global] Arguments posted {C L S CB X}.
#[global] Arguments steady_reads {C L S CB X}.
#[global] Arguments system_reads {C L S CB X}.
#[global] Arguments outer {C L S CB X}.

#[global] Instance world_eta {C L S CB X} : Eta (world C L S CB X) := λ w,
  World (cache_ w) (statsd_client_ w) (logger_ w) (circuit_breaker_ w)
    (active_client_sessions_ w) (clients w) (next_client w) (posted w) (steady_reads w)
    (system_reads w) (outer w).

(** ** The query string *)

Record query_state := {
  params : gmap string string;
  current_param : string;
  key : string;
  value : string;
  parsing_key : bool
}.

Definition query_init : query_state :=
  {| params := ∅; current_param := ""; key := ""; value := ""; parsing_key := true |}.

Definition query_char (q : query_state) (c : ascii) : query_state :=
  if decide (c = "="%char) then
    {| params := params q; current_param := ""; key := urlDecode (current_param q);
       value := value q; parsing_key := false |}
  else if decide (c = "&"%char) then
    {| params := (if decide (key q = "") then params q
                  else <[key q := urlDecode (current_param q)]> (params q));
       current_param := ""; key := ""; value := ""; parsing_key := true |}
  else
    {| params := params q; current_param := current_param q +:+ String c "";
       key := key q; value := value q; parsing_key := parsing_key q |}.

Fixpoint query_chars (s : string) (q : query_state) : query_state :=
  match s with
  | EmptyString => q
  | String c s => query_chars s (query_char q c)
  end.

Definition query_end (q : query_state) : gmap string string :=
  if decide (current_param q = "") then params q
  else
    let '(key, value) :=
      if parsing_key q then (urlDecode (current_param q), value q)
      else (key q, urlDecode (current_param q)) in
    if decide (key = "") then params q else <[key := value]> (params q).

Definition query_of_target (target_str : string) : string :=
  match find "?" target_str with
  | Some query_pos => suffix_from (S query_pos) target_str
  | None => ""
  end.

Definition parse_query (target_str : string) : gmap string string :=
  query_end (query_chars (query_of_target target_str) query_init).

(** The two parameters of a company request; the country in upper case. *)
Definition request_id (target_str : string) : string :=
  default "" (parse_query target_str !! "id").

Definition request_country (target_str : string) : string :=
  map_string toupper (default "" (parse_query target_str !! "country_iso")).

(** [id + ":" + country_iso] *)
Definition cache_key_of (id country_iso : string) : string := id +:+ ":" +:+ country_iso.

(** The configuration, the readings of the two clocks, and the indeterminate
    characters that [isUTCTimeInFuture] may look at. *)
Class Env := {
  config_ : AppConfig;
  steady_now : nat -> Z;
  system_now : nat -> Z;
  uninit : nat -> ascii
}.

Section Backendify.
Context `{Beast} {J : Type} `{JsonApi J}.
Context {C : Type} `{CacheInterface C} {L : Type} `{ILogger L} {S : Type} `{IStatsDClient S}.
Context {CB X : Type}.

Abbreviation W := (world C L S CB X).

Context `{Env} (send_response_cb : CB -> option response -> M W unit).

(** ** The members *)

Definition log (level : LogLevel) (m : string) : M W unit :=
  modify (λ w, w <| logger_ ::= Logging.log level m |>).

Definition say (ms : logs) : M W unit := modify (λ w, w <| logger_ ::= log_all ms |>).

Definition increment (metric : string) : M W unit :=
  modify (λ w, w <| statsd_client_ ::= Metrics.increment metric 1 |>).

Definition now : M W Z := λ w,
  (Ret (steady_now (steady_reads w)), w <| steady_reads ::= Datatypes.S |>).

Definition on_cache {A} (m : M C A) : M W A := λ w,
  let '(r, c) := m (cache_ w) in (r, w <| cache_ := c |>).

(** [Utils::isUTCTimeInFuture] with the readings it makes. *)
Definition is_future (time : string) : M W bool := λ w,
  (isUTCTimeInFuture (uninit (system_reads w)) (system_now (system_reads w)) time,
   w <| system_reads ::= Datatypes.S |>).

Definition isTripped (backendUrl : string) : M W bool :=
  t ← now;
  w ← get_state;
  let '(r, ms) := CircuitBreaker.isTripped t backendUrl (circuit_breaker_ w) in
  say ms;; mret r.

Definition trip (backendUrl : string) (millis : Z) : M W unit :=
  t ← now;
  w ← get_state;
  let '(b, ms) := CircuitBreaker.trip t backendUrl millis (circuit_breaker_ w) in
  modify (λ w, w <| circuit_breaker_ := b |>);; say ms.

(** The constructor: the three pointers are checked, the circuit breaker is
    made from the last two. *)
Definition ctor (cache : option C) (statsd_client : option S) (logger : option L) (x : X)
    : outcome W :=
  match cache, statsd_client, logger with
  | None, _, _ => Throw (Exn InvalidArgument "Cache pointer cannot be null")
  | _, None, _ => Throw (Exn InvalidArgument "StatsDClient pointer cannot be null")
  | _, _, None => Throw (Exn InvalidArgument "Logger pointer cannot be null")
  | Some c, Some s, Some l =>
      b ← CircuitBreaker.ctor true true;
      Ret (World c s (Logging.log Models.DEBUG "Backendify initialized" l) b ∅ ∅ 0%nat [] 0%nat
             0%nat x)
  end.

Definition registerRoutes : M W unit := log Models.SETUP "Backendify Server successfully started.".

Definition handleBackendServerErrorResponse (status : Z) (backendUrl : string) : M W unit :=
  let cool_off := backend_servers_circuit_breaker_cool_off_duration_in_millis config_ in
  log Models.CERROR ("Backend returned " +:+ to_string status +:+ " for " +:+ backendUrl
    +:+ ". Tripping circuit breaker for " +:+ to_string cool_off +:+ "ms.");;
  increment MetricsDefinitions.CIRCUIT_BREAKER_LOGGED;;
  trip backendUrl cool_off.

Definition checkCacheAndRespond (cache_key : string) (cb : CB) : M W bool :=
  cached_response_str ← on_cache (CacheInterface.get cache_key);
  match cached_response_str with
  | Some str =>
      log Models.DEBUG ("Found cache for key : " +:+ cache_key);;
      send_response_cb cb (Some (prepare_payload (response_default
        <| version := 11 |> <| keep_alive := true |>
        <| server := Some BOOST_BEAST_VERSION_STRING |>
        <| content_type := Some "application/json" |>
        <| result_int := 200 |> <| body := str |>)));;
      mret true
  | None => mret false
  end.

Definition findBackendInfo (country_iso : string) : option BackendUrlInfo :=
  country_backend_map config_ !! country_iso.

(** ** The answer of a backend *)

(** [if (j.contains(key) && j[key].is_string()) info.field = j[key].get<string>()] *)
Definition optional_string (j : J) (key : string) (f : string -> CompanyInfo -> CompanyInfo)
    : M (CompanyInfo * W) unit :=
  if contains j key then
    v ← lift (at_key j key);
    if is_string v then s ← lift (get_string v); update_local (f s) else mret tt
  else mret tt.

Definition parseBackendResponse (beast_response : response) : M (CompanyInfo * W) unit :=
  let failure (metric prefix : string) (e : exn) : M (CompanyInfo * W) unit :=
    global (increment metric;;
            log Models.CERROR (prefix +:+ what e +:+ nl +:+ "Body: " +:+ body beast_response)) in
  try_catch
    (let contentType := default "" (content_type beast_response) in
     if decide (body beast_response = "") then mret tt
     else
       bodyJson ← lift (parse (J := J) (body beast_response));
       if decide (contentType = "application/x-company-v1") then
         update_local (λ i, i <| Models.version := 1 |> <| parse_success := true |>);;
         cn ← lift (get_value bodyJson "cn" "");
         update_local (λ i, i <| name := cn |>);;
         created ← lift (get_value bodyJson "created_on" "");
         update_local (λ i, i <| created_on := Some created |>);;
         optional_string bodyJson "closed_on" (λ s i, i <| closed_on := Some s |>)
       else if decide (contentType = "application/x-company-v2") then
         update_local (λ i, i <| Models.version := 2 |> <| parse_success := true |>);;
         cn ← lift (get_value bodyJson "company_name" "");
         update_local (λ i, i <| name := cn |>);;
         t ← lift (get_value bodyJson "tin" "");
         update_local (λ i, i <| tin := Some t |>);;
         optional_string bodyJson "dissolved_on" (λ s i, i <| dissolved_on := Some s |>)
       else mret tt)
    (λ e,
       match exn_type e with
       | JsonParseError => failure MetricsDefinitions.JSON_ERROR "Backend response JSON parse error: " e
       | JsonTypeError => failure MetricsDefinitions.JSON_ERROR "Backend response JSON type error: " e
       | _ => failure MetricsDefinitions.CODE_EXCEPTION
                "Unexpected error during backend response parsing: " e
       end).

(** [final_json_obj[key] = v;] *)
Definition put (key : string) (v : J) : M (J * W) unit :=
  j ← get_local; j ← lift (set_key key v j); set_local j.

(** An optional string that is set and not empty. *)
Definition present (o : option string) : option string :=
  match o with
  | Some s => if decide (s = "") then None else Some s
  | None => None
  end.

(** The start of activity (version 1 only). *)
Definition put_start (date : option string) : M (J * W) unit :=
  match present date with
  | Some date =>
      future ← global (is_future date);
      if (future : bool) then put "active" (of_bool false) else mret tt
  | None => mret tt
  end.

(** The end of activity, alike in both versions. *)
Definition put_end (date : option string) : M (J * W) unit :=
  match present date with
  | Some date =>
      future ← global (is_future date);
      if (future : bool) then put "active_until" (of_string date)
      else put "active" (of_bool false);; put "active_until" (of_string date)
  | None => mret tt
  end.

Definition constructV1Json (company_info : CompanyInfo) : M (J * W) unit :=
  put "id" (of_string (id company_info));;
  put "name" (of_string (name company_info));;
  put "active" (of_bool true);;
  put_start (created_on company_info);;
  put_end (closed_on company_info).

Definition constructV2Json (company_info : CompanyInfo) : M (J * W) unit :=
  put "id" (of_string (id company_info));;
  put "name" (of_string (name company_info));;
  put "active" (of_bool true);;
  put_end (dissolved_on company_info).

(** ** The completion of a backend call *)

Definition answer (status : Z) (b : string) (r : response) : response :=
  r <| result_int := status |> <| body := b |>.

(** The lambda of [processCompanyRequest], up to what it does with
    [beast_res_cb], whose final value it returns. *)
Definition backend_result (k : completion CB) (backend_api_response : response) (ec : error_code)
    : M W response :=
  let res := beast_res_cb k in
  let status := result_int backend_api_response in
  if failed ec && bool_decide (ec ≠ end_of_stream) then
    log Models.CERROR ("Error calling Backend API (Boost.Asio): " +:+ message ec
      +:+ " for companyId : " +:+ id_copy k);;
    (if decide (ec = connection_refused ∨ ec = timed_out) then
       handleBackendServerErrorResponse 503 (backend_url_copy k)
     else mret tt);;
    mret (answer 504 (json_error "Gateway Timeout - Backend Unreachable") res)
  else if decide (status = 200) then
    company_info ← with_local (CompanyInfo_default <| id := id_copy k |>)
                     (parseBackendResponse backend_api_response);
    if parse_success company_info then
      final_json_obj ← with_local null
        (if decide (Models.version company_info = 1) then constructV1Json company_info
         else if decide (Models.version company_info = 2) then constructV2Json company_info
         else mret tt);
      final_json_string ← lift (dump 4 final_json_obj);
      _ ← on_cache (CacheInterface.set (cache_key_copy k) final_json_string (3600 * 24));
      log Models.DEBUG ("Setting cache for Key : " +:+ cache_key_copy k);;
      mret (answer 200 final_json_string res)
    else
      log Models.CERROR ("Backend returned 200 but response parsing failed for companyId: "
        +:+ id_copy k +:+ " <body> : " +:+ body backend_api_response);;
      mret (answer 502 (json_error "Bad Gateway - Upstream Response Parse Error") res)
  else if decide (status = 404) then
    log Models.DEBUG ("Data requested was not found from backend. CompanyId: " +:+ id_copy k);;
    mret (answer 404 (json_error "Not Found from backend") res)
  else if decide (500 <= status < 600) then
    handleBackendServerErrorResponse status (backend_url_copy k);;
    mret (answer 502 (json_error "Bad Gateway - Upstream Server Error") res)
  else
    increment MetricsDefinitions.CODE_EXCEPTION;;
    log Models.CERROR ("Backend API returned unhandled status: " +:+ to_string status
      +:+ " for companyId: " +:+ id_copy k);;
    mret (answer 502 (json_error "Bad Gateway - Unknown Upstream Status") res).

(** The whole lambda. *)
Definition on_backend_response (k : completion CB) (backend_api_response : response)
    (ec : error_code) : M W unit :=
  res ← backend_result k backend_api_response ec;
  send_response_cb (send_response_cb_copy k) (Some (prepare_payload res)).

(** The [on_complete] lambda of [callBackendApi]. *)
Definition on_client_complete (k : wrapper CB) (res : response) (ec : error_code) : M W unit :=
  match session_to_remove_on_complete k with
  | Some session =>
      modify (λ w, w <| active_client_sessions_ ::= (.∖ {[session]}) |>);;
      log Models.DEBUG "AsyncHttpClientSession removed from tracking set."
  | None => mret tt
  end;;
  on_backend_response (original_user_callback k) res ec.

(** The effects of a client session; its resolver is not modelled further. *)
Fixpoint run_effects (k : wrapper CB) (os : list AsyncHttpClientSession.effect) : M W unit :=
  match os with
  | [] => mret tt
  | AsyncHttpClientSession.Log level m :: os => log level m;; run_effects k os
  | AsyncHttpClientSession.Resolve _ _ :: os => run_effects k os
  | AsyncHttpClientSession.Complete res ec :: os =>
      on_client_complete k res ec;; run_effects k os
  end.

(** The io_context completes an operation of client session [n]. *)
Definition client_event (n : nat) (e : AsyncHttpClientSession.event) : M W unit :=
  w ← get_state;
  match clients w !! n with
  | None => mret tt
  | Some (s, k) =>
      match AsyncHttpClientSession.step e s with
      | None => mret tt
      | Some (s, os) =>
          modify (λ w, w <| clients ::= insert n (s, k) |>);; run_effects k os
      end
  end.

(** The io_context runs a posted handler. *)
Definition run_posted : M W unit :=
  w ← get_state;
  match posted w with
  | [] => mret tt
  | (k, ec) :: rest =>
      modify (λ w, w <| posted := rest |>);; on_backend_response k response_default ec
  end.

(** ** Starting a backend call *)

(** Integer arithmetic of [(connection_timeout + read_timeout) / 1000 + 200]. *)
Definition timeout_ms : Z :=
  wrap32 (wrap32 (connection_timeout_in_microseconds config_
                  + read_request_timeout_in_microseconds config_) `quot` 1000 + 200).

Definition post (k : completion CB) (ec : error_code) : M W unit :=
  modify (λ w, w <| posted ::= λ p, p ++ [(k, ec)] |>).

Definition callBackendApi (backendUrlInfo : option BackendUrlInfo) (company_id : string)
    (callback : completion CB) : M W unit :=
  match backendUrlInfo with
  | None =>
      log Models.CERROR ("callBackendApi: backendUrlInfo is null for company_id: " +:+ company_id);;
      post callback invalid_argument
  | Some info =>
      if is_https info then
        log Models.CERROR ("HTTPS not yet supported in callBackendApi for: " +:+ url info);;
        post callback operation_not_supported
      else
        let target_path := BACKEND_PATH +:+ company_id in
        let client_session := AsyncHttpClientSession.ctor info target_path timeout_ms in
        let k := Wrapper callback None in
        w ← get_state;
        let client_session_sp := next_client w in
        modify (λ w, w <| active_client_sessions_ ::= ({[client_session_sp]} ∪.) |>
                       <| next_client ::= Datatypes.S |>);;
        let '(client_session, os) := AsyncHttpClientSession.run client_session in
        modify (λ w, w <| clients ::= insert client_session_sp (client_session, k) |>);;
        run_effects k os
  end.

(** ** Requests *)

(** [beast_res.prepare_payload(); return send_response_cb(make_optional(move(beast_res)));] *)
Definition send_local (cb : CB) : M (response * W) unit :=
  r ← get_local;
  set_local (moved_response r);;
  global (send_response_cb cb (Some (prepare_payload r))).

Definition micros (n : Z) : string := to_string n +:+ "micros. ".

(** The body of the [try] block; the local variable is [beast_res]. *)
Definition company_request (beast_req : request) (request_received_time : Z) (cb : CB)
    : M (response * W) unit :=
  let id := request_id (target beast_req) in
  let country_iso := request_country (target beast_req) in
  if decide (id = "" ∨ country_iso = "") then
    update_local (answer 400 (json_error "Missing required parameters"));;
    global (log Models.CERROR ("Returning as request is missing required parameters "
      +:+ id +:+ ":" +:+ country_iso));;
    send_local cb
  else
    let cache_key := cache_key_of id country_iso in
    hit ← global (checkCacheAndRespond cache_key cb);
    if (hit : bool) then mret tt
    else
      current_time ← global now;
      let elapsed_time := (current_time - request_received_time) `quot` 1000 in
      if decide (elapsed_time >
                 server_sla_in_micros config_ - request_average_processing_time_in_micros config_)
      then
        if drop_sla_timeout_requests config_ then
          global (log Models.WARN ("SLA missed for request. Elapsed time: " +:+ micros elapsed_time
                    +:+ "Dropping request as per configuration.");;
                  increment MetricsDefinitions.REQUEST_TIMED_OUT;;
                  send_response_cb cb None)
        else
          global (log Models.WARN ("SLA missed for request. Elapsed time: " +:+ micros elapsed_time
                    +:+ "Returning 504.");;
                  increment MetricsDefinitions.REQUEST_TIMED_OUT);;
          update_local (answer 504 (json_error "Gateway Timeout - SLA Exceeded"));;
          send_local cb
      else
        match findBackendInfo country_iso with
        | None =>
            global (log Models.CERROR ("Unconfigured Country : " +:+ country_iso));;
            update_local (answer 404 (json_error "Unconfigured country_iso"));;
            send_local cb
        | Some backendUrlInfo =>
            tripped ← global (isTripped (url backendUrlInfo));
            if (tripped : bool) then
              update_local (answer 504 (json_error "Gateway Timeout - Circuit Breaker Active"));;
              send_local cb
            else
              r ← get_local;
              set_local (moved_response r);;
              global (callBackendApi (Some backendUrlInfo) id
                (Completion r cb cache_key id (url backendUrlInfo)))
        end.

Definition processCompanyRequest (beast_req : request) (request_received_time : Z) (cb : CB)
    : M W unit :=
  log Models.DEBUG "Received /company request";;
  let beast_res := response_default
    <| version := req_version beast_req |>
    <| keep_alive := request_keep_alive (req_version beast_req) (fields beast_req) |>
    <| server := Some BOOST_BEAST_VERSION_STRING |>
    <| content_type := Some "application/json" |> in
  with_local beast_res
    (try_catch (company_request beast_req request_received_time cb)
       (λ e,
          global (log Models.CERROR ("Unexpected exception in processCompanyRequest: " +:+ what e);;
                  increment MetricsDefinitions.CODE_EXCEPTION);;
          update_local (answer 500 (json_error "Internal Server Error"));;
          send_local cb));;
  mret tt.

Definition processStatusRequest (cb : CB) : M W unit :=
  log Models.DEBUG "Received /status request";;
  let res := prepare_payload (response_default
    <| content_type := Some "text/plain" |> <| result_int := 200 |>
    <| body := "Frontend Server is running (Beast)" |>) in
  log Models.DEBUG ("Prepared /status response. Body: " +:+ body res
    +:+ ". Calling send_response_cb.");;
  send_response_cb cb (Some res).

(** ** Shutting down *)

Definition cancel_client (n : nat) : M W unit := client_event n AsyncHttpClientSession.Cancel.

Fixpoint cancel_all (sessions : list nat) : M W unit :=
  match sessions with
  | [] => mret tt
  | n :: sessions => cancel_client n;; cancel_all sessions
  end.

Definition cancel_active_backend_calls : M W unit :=
  log Models.INFO "Backendify cancelling active backend calls...";;
  w ← get_state;
  let active := active_client_sessions_ w in
  if decide (active = ∅) then log Models.INFO "No active backend calls to cancel."
  else
    log Models.INFO ("Found " +:+ to_string (Z.of_nat (size active))
      +:+ " active backend calls to attempt cancellation.");;
    cancel_all (elements active).

End Backendify.

End Backendify.
