(* ===== verification/QueryProps.v ===== *)
(** * What the query parser accepts

    A query string built the way a client encodes it is decoded to the same
    parameters; a second [=] moves what comes before it into the key; and two
    requests share a cache key only if they ask for the same thing or a colon
    is in the way. *)

From S2P Require Import Prelude Text TextFacts Models Utils ConfigProps Backendify.
Import Backendify.

(** ** Text between the separators *)

Definition is_plain (c : ascii) : bool :=
  negb (bool_decide (c = "="%char)) && negb (bool_decide (c = "&"%char)).

Lemma query_chars_app s1 s2 q : query_chars (s1 +:+ s2) q = query_chars s2 (query_chars s1 q).
Proof. revert q. induction s1 as [|c s1 IH]; intros q; [done|]. cbn. apply IH. Qed.

Lemma query_plain s q :
  all_of is_plain s = true →
  query_chars s q
  = {| params := params q; current_param := current_param q +:+ s; key := key q; value := value q;
       parsing_key := parsing_key q |}.
Proof.
  revert q. induction s as [|c s IH]; intros q Hs; cbn.
  - rewrite string_app_nil_r. by destruct q.
  - cbn in Hs. apply andb_prop in Hs as [Hc Hs]. rewrite IH by done.
    apply andb_prop in Hc as [H1%negb_true_iff%bool_decide_eq_false
                              H2%negb_true_iff%bool_decide_eq_false].
    unfold query_char. rewrite !decide_False by done. cbn. by rewrite string_app_assoc.
Qed.

Lemma encoded_plain_char c :
  (λ c, implb (isalpha c || isdigit c) (is_plain c)
        && is_plain (hex_digit (code c / 16)) && is_plain (hex_digit (code c mod 16))) c = true.
Proof. revert c. by_characters. Qed.

Lemma encoded_plain s : all_of is_plain (percent_encode s) = true.
Proof.
  induction s as [|c s IH]; [done|]. cbn [percent_encode].
  pose proof (encoded_plain_char c) as Hc. cbv beta in Hc.
  apply andb_prop in Hc as [[Hc H1]%andb_prop H2].
  destruct (isalpha c || isdigit c); cbn; [cbn in Hc; by rewrite Hc|]. by rewrite H1, H2.
Qed.

Lemma encoded_nonempty s : s ≠ "" → percent_encode s ≠ "".
Proof. destruct s as [|c s]; [done|]. intros _. cbn. by destruct (isalpha c || isdigit c). Qed.

(** ** Encoded queries *)

Definition encode_pair (kv : string * string) : string :=
  percent_encode kv.1 +:+ "=" +:+ percent_encode kv.2.

Fixpoint encode_query (kvs : list (string * string)) : string :=
  match kvs with
  | [] => ""
  | [kv] => encode_pair kv
  | kv :: kvs => encode_pair kv +:+ "&" +:+ encode_query kvs
  end.

Definition fresh (m : gmap string string) : query_state :=
  {| params := m; current_param := ""; key := ""; value := ""; parsing_key := true |}.

Lemma query_pair kv m :
  query_chars (encode_pair kv) (fresh m)
  = {| params := m; current_param := percent_encode kv.2; key := kv.1; value := "";
       parsing_key := false |}.
Proof.
  unfold encode_pair. rewrite !query_chars_app, query_plain by apply encoded_plain. cbn.
  unfold query_char. cbn. rewrite query_plain by apply encoded_plain. cbn.
  by rewrite percent_roundtrip.
Qed.

Definition insert_pair (m : gmap string string) (kv : string * string) : gmap string string :=
  <[kv.1 := kv.2]> m.

Lemma query_encoded kvs m :
  kvs ≠ [] → Forall (λ kv, kv.1 ≠ "" ∧ kv.2 ≠ "") kvs →
  query_end (query_chars (encode_query kvs) (fresh m)) = foldl insert_pair m kvs.
Proof.
  revert m. induction kvs as [|kv kvs IH]; intros m Hne Hkv; [done|].
  apply Forall_cons in Hkv as [[Hk Hv] Hkv]. destruct kvs as [|kv' kvs].
  - cbn [encode_query foldl]. rewrite query_pair. unfold query_end. cbn.
    rewrite decide_False by (by apply encoded_nonempty). rewrite decide_False by done.
    by rewrite percent_roundtrip.
  - cbn [encode_query foldl]. rewrite !query_chars_app, query_pair. cbn [query_chars].
    unfold query_char at 1. rewrite decide_False, decide_True by done. cbn [key current_param params].
    rewrite decide_False, percent_roundtrip by done. by apply IH.
Qed.

Lemma query_of_target_app path q : find "?" path = None → query_of_target (path +:+ "?" +:+ q) = q.
Proof.
  intros Hp. unfold query_of_target. change ("?" +:+ q) with (String "?" q).
  rewrite find_app by (by apply find_None). by rewrite suffix_from_app_S.
Qed.

(** ** Properties *)

(** C25 (roundtrip): the parameters of a target whose query was built by
    percent-encoding non-empty names and values are the encoded ones, whatever
    bytes they contain; a repeated name has its last value. *)
Theorem parse_query_encoded path kvs
    (Hpath : find "?" path = None) (Hne : kvs ≠ [])
    (Hkv : Forall (λ kv, kv.1 ≠ "" ∧ kv.2 ≠ "") kvs) :
  parse_query (path +:+ "?" +:+ encode_query kvs) = foldl insert_pair ∅ kvs.
Proof.
  unfold parse_query. rewrite query_of_target_app by done. by apply query_encoded.
Qed.

Lemma parse_query_encoded_witness :
  parse_query ("/company" +:+ "?" +:+ encode_query [("id", "a=b&c"); ("country_iso", "us")])
  = foldl insert_pair ∅ [("id", "a=b&c"); ("country_iso", "us")].
Proof.
  apply (parse_query_encoded "/company"); [reflexivity|done|].
  repeat (apply Forall_cons_2; [done|]). apply Forall_nil_2.
Defined.

(** (functional): an unencoded equals sign inside a value is not a part of
    it: what precedes the last equals sign becomes the name, so the parameter
    meant is not there. *)
Theorem parse_query_second_equals path k v1 v2
    (Hpath : find "?" path = None)
    (Hk : all_of is_plain k = true) (Hv1 : all_of is_plain v1 = true)
    (Hv2 : all_of is_plain v2 = true ∧ v2 ≠ "") :
  parse_query (path +:+ "?" +:+ k +:+ "=" +:+ v1 +:+ "=" +:+ v2)
  = if decide (urlDecode v1 = "") then ∅ else {[urlDecode v1 := urlDecode v2]}.
Proof.
  destruct Hv2 as [Hv2 Hne]. unfold parse_query. rewrite query_of_target_app by done.
  rewrite !query_chars_app, query_plain by done. cbn. unfold query_char. cbn.
  rewrite query_plain by done. cbn. rewrite query_plain by done. cbn. unfold query_end. cbn.
  rewrite decide_False by done. by case_decide.
Qed.

Lemma parse_query_second_equals_witness :
  parse_query ("/company" +:+ "?" +:+ "id" +:+ "=" +:+ "a" +:+ "=" +:+ "b") = {["a" := "b"]}.
Proof. apply (parse_query_second_equals "/company" "id" "a" "b"); done. Defined.

(** (functional): two requests have the same cache key only if they have
    the same id and country, provided that no country has a colon in it;
    without that, different requests can share one. *)
Theorem cache_key_injective id1 c1 id2 c2
    (H1 : find ":" c1 = None) (H2 : find ":" c2 = None)
    (Heq : cache_key_of id1 c1 = cache_key_of id2 c2) :
  id1 = id2 ∧ c1 = c2.
Proof.
  unfold cache_key_of in Heq. revert id2 Heq.
  induction id1 as [|x id1 IH]; intros [|y id2] Heq; cbn in Heq.
  - by injection Heq as ->.
  - exfalso. injection Heq as _ ->. by apply find_app_not_None in H1.
  - exfalso. injection Heq as _ Heq. rewrite <- Heq in H2. by apply find_app_not_None in H2.
  - injection Heq as <- Heq. by destruct (IH _ Heq) as [-> ->].
Qed.

Lemma cache_key_injective_witness : "a" = "a" ∧ "US" = "US".
Proof. by apply (cache_key_injective "a" "US" "a" "US"). Defined.

(** (safety): the country of a request is not checked before the cache is
    read, so a colon in it makes two different requests share a cache key. *)
Theorem cache_key_collision :
  ∃ t1 t2, (request_id t1, request_country t1) = ("a:B", "C")
    ∧ (request_id t2, request_country t2) = ("a", "B:C")
    ∧ cache_key_of (request_id t1) (request_country t1)
      = cache_key_of (request_id t2) (request_country t2).
Proof.
  exists "/company?id=a:B&country_iso=c", "/company?id=a&country_iso=b:c".
  split_and!; vm_compute; reflexivity.
Qed.
