(* ===== verification/BackendifyProps.v ===== *)
(** * What the service does with a request

    [company_verdict] is the decision table of a company request, on values:
    what the cache holds, two clock readings and the circuit breaker.
    [company_request_verdict] shows that [processCompanyRequest] follows it:
    one answer, or one drop, or one backend call. *)

From S2P Require Import Prelude Text TextFacts Models Utils Logging Metrics CircuitBreaker Http.
From S2P Require Import CacheInterface AsyncHttpClient Backendify.
Import Backendify.

(** ** The decision table *)

Module CompanySpec.

Inductive verdict :=
  | Answer (r : response)
  | Dropped
  | Calls (info : BackendUrlInfo).

Section Table.
Context `{Beast} `{Env}.

(** The headers of every answer of [processCompanyRequest]. *)
Definition blank (req : request) : response :=
  {| version := req_version req;
     result_int := 200;
     server := Some BOOST_BEAST_VERSION_STRING;
     content_type := Some "application/json";
     keep_alive := request_keep_alive (req_version req) (fields req);
     body := "";
     payload := None |}.

Definition reply (req : request) (status : Z) (b : string) : response :=
  prepare_payload (answer status b (blank req)).

(** An answer from the cache does not look at the request. *)
Definition cached_reply (str : string) : response :=
  {| version := 11;
     result_int := 200;
     server := Some BOOST_BEAST_VERSION_STRING;
     content_type := Some "application/json";
     keep_alive := true;
     body := str;
     payload := Some str |}.

Definition late (received now : Z) : Prop :=
  (now - received) `quot` 1000 >
    server_sla_in_micros config_ - request_average_processing_time_in_micros config_.
#[global] Instance late_dec received now : Decision (late received now).
Proof. unfold late. apply _. Defined.

Definition company_verdict (req : request) (received : Z) (cached : option string)
    (now1 now2 : Z) (b : CircuitBreaker.t) : verdict :=
  let id := request_id (target req) in
  let country := request_country (target req) in
  if decide (id = "" ∨ country = "") then
    Answer (reply req 400 (json_error "Missing required parameters"))
  else match cached with
  | Some str => Answer (cached_reply str)
  | None =>
      if decide (late received now1) then
        if drop_sla_timeout_requests config_ then Dropped
        else Answer (reply req 504 (json_error "Gateway Timeout - SLA Exceeded"))
      else match country_backend_map config_ !! country with
      | None => Answer (reply req 404 (json_error "Unconfigured country_iso"))
      | Some info =>
          if (CircuitBreaker.isTripped now2 (url info) b).1 then
            Answer (reply req 504 (json_error "Gateway Timeout - Circuit Breaker Active"))
          else Calls info
      end
  end.

End Table.

End CompanySpec.
Import CompanySpec.

Section Service.
Context `{Beast} {J : Type} `{JsonApi J}.
Context {C : Type} `{CacheInterface C} {L : Type} `{ILogger L} {S : Type} `{IStatsDClient S}.
Context {CB X : Type} (deliver : CB -> option response -> X -> X).
Context `{Env}.

Abbreviation W := (world C L S CB X).

(** The callback: it changes the state of the callers and returns. *)
Definition send (cb : CB) (r : option response) : M W unit :=
  modify (λ w, w <| outer ::= deliver cb r |>).

Abbreviation company_request := (company_request (J := J) send).
Abbreviation processCompanyRequest := (processCompanyRequest (J := J) send).

(** Nothing but the cache, the log, the metrics, the clock and the callers'
    state has changed. *)
Definition same_calls (w w' : W) : Prop :=
  circuit_breaker_ w' = circuit_breaker_ w
  ∧ active_client_sessions_ w' = active_client_sessions_ w
  ∧ clients w' = clients w ∧ next_client w' = next_client w ∧ posted w' = posted w.

(** One call has been started, or one failure posted, with the completion [k]. *)
Definition started (info : BackendUrlInfo) (id : string) (k : completion CB) (w w' : W) : Prop :=
  circuit_breaker_ w' = circuit_breaker_ w ∧
  if is_https info then
    posted w' = posted w ++ [(k, operation_not_supported)] ∧ clients w' = clients w
    ∧ next_client w' = next_client w ∧ active_client_sessions_ w' = active_client_sessions_ w
  else
    let session := AsyncHttpClientSession.ctor info (BACKEND_PATH +:+ id) timeout_ms in
    clients w' = <[next_client w := ((AsyncHttpClientSession.run session).1, Wrapper k None)]>
                   (clients w)
    ∧ next_client w' = Datatypes.S (next_client w)
    ∧ active_client_sessions_ w' = {[next_client w]} ∪ active_client_sessions_ w
    ∧ posted w' = posted w.

Definition follows (v : verdict) (req : request) (cb : CB) (w w' : W) : Prop :=
  match v with
  | Answer r => outer w' = deliver cb (Some r) (outer w) ∧ same_calls w w'
  | Dropped => outer w' = deliver cb None (outer w) ∧ same_calls w w'
  | Calls info =>
      let id := request_id (target req) in
      let country := request_country (target req) in
      outer w' = outer w
      ∧ started info id (Completion (blank req) cb (cache_key_of id country) id (url info)) w w'
  end.

Lemma run_isTripped url (w : W) :
  isTripped url w
  = (Ret (CircuitBreaker.isTripped (steady_now (steady_reads w)) url (circuit_breaker_ w)).1,
     w <| steady_reads ::= Datatypes.S |>
       <| logger_ ::= log_all (CircuitBreaker.isTripped (steady_now (steady_reads w)) url
                                 (circuit_breaker_ w)).2 |>).
Proof.
  unfold isTripped, mbind, M_bind. cbn.
  by destruct (CircuitBreaker.isTripped _ _ _) as [r ms].
Qed.

Lemma company_request_follows req received cb (w : W) cached c' :
  CacheInterface.get (cache_key_of (request_id (target req)) (request_country (target req)))
    (cache_ w) = (Ret cached, c') →
  ∃ r w', company_request req received cb (blank req, w) = (Ret tt, (r, w'))
    ∧ follows (company_verdict req received cached (steady_now (steady_reads w))
        (steady_now (Datatypes.S (steady_reads w))) (circuit_breaker_ w)) req cb w w'
    ∧ (cache_ w' = cache_ w ∨ cache_ w' = c').
Proof.
  intros Hget. unfold Backendify.company_request, company_verdict.
  set (id := request_id _) in *. set (country := request_country _) in *.
  case_decide; [eexists _, _; split_and!; [done..|by left]|].
  unfold checkCacheAndRespond, on_cache, mbind, M_bind, global. cbn. rewrite Hget.
  destruct cached as [str|]; cbn; [eexists _, _; split_and!; [done..|by right]|].
  change (_ `quot` 1000 > _) with (late received (steady_now (steady_reads w))).
  case_decide as Hlate.
  { rewrite decide_True by done. destruct (drop_sla_timeout_requests config_);
      (eexists _, _; split_and!; [done..|by right]). }
  rewrite decide_False by done.
  unfold findBackendInfo. destruct (country_backend_map config_ !! country) as [info|];
    [|eexists _, _; split_and!; [done..|by right]].
  cbn. rewrite run_isTripped. cbn.
  destruct (CircuitBreaker.isTripped _ _ _) as [[] ms]; cbn; [eexists _, _; split_and!; [done..|by right]|].
  unfold callBackendApi. destruct (is_https info) eqn:Hs; cbn.
  - eexists _, _. split; [done|]. split; [|by right]. split; [done|]. unfold started. by rewrite Hs.
  - eexists _, _. split; [done|]. split; [|by right]. split; [done|]. unfold started. by rewrite Hs.
Qed.

Lemma company_request_run req received cb (w : W) cached c'
    (Hget : CacheInterface.get
       (cache_key_of (request_id (target req)) (request_country (target req))) (cache_ w)
       = (Ret cached, c')) :
  ∃ w', processCompanyRequest req received cb w = (Ret tt, w')
    ∧ follows (company_verdict req received cached (steady_now (steady_reads w))
        (steady_now (Datatypes.S (steady_reads w))) (circuit_breaker_ w)) req cb w w'
    ∧ (cache_ w' = cache_ w ∨ cache_ w' = c').
Proof.
  set (w1 := w <| logger_ ::= Logging.log Models.DEBUG "Received /company request" |>).
  destruct (company_request_follows req received cb w1 cached c' Hget) as (r & w' & Hr & Hf & Hc').
  exists w'. split; [|by split].
  unfold Backendify.processCompanyRequest. rewrite (M_bind_ret _ _ w w1 tt) by done.
  erewrite M_bind_ret; [reflexivity|]. unfold with_local, try_catch. cbn [update_field].
  change (Response _ _ _ _ _ _ _) with (blank req). by rewrite Hr.
Qed.

(** C4 (refinement): a company request whose cache look-up returns is decided
    by [company_verdict]: the callback is called exactly once, with the
    verdict's answer, or with nothing when the request is dropped, and no call
    is started; or it is not called, and one backend call of the verdict's
    backend is started (for an https backend its failure is posted), whose
    completion holds the request's headers, callback, id and cache key. *)
Theorem company_request_verdict req received cb (w : W) cached c'
    (Hget : CacheInterface.get
       (cache_key_of (request_id (target req)) (request_country (target req))) (cache_ w)
       = (Ret cached, c')) :
  ∃ w', processCompanyRequest req received cb w = (Ret tt, w')
    ∧ follows (company_verdict req received cached (steady_now (steady_reads w))
        (steady_now (Datatypes.S (steady_reads w))) (circuit_breaker_ w)) req cb w w'.
Proof.
  destruct (company_request_run req received cb w cached c' Hget) as (w' & Hr & Hf & _).
  by exists w'.
Qed.

End Service.
