(* ===== verification/CompletionProps.v ===== *)
(** * What the service does with a backend's answer

    The failures and their statuses ([failure_reply]); a company that can be
    read ([read_company]) is answered with its JSON, which is the value that
    is cached; and what happens when the answer cannot be read or a date is
    malformed. *)

From S2P Require Import Prelude Text TextFacts Models Utils Logging Metrics CircuitBreaker Http.
From S2P Require Import CacheInterface AsyncHttpClient Backendify BackendifyProps.
Import Backendify.

(** ** Objects *)

(** What the code relies on when it builds an object key by key: [members] is
    [None] for a value that is not an object; a null value becomes one. *)
Class JsonObjects (J : Type) `{JsonApi J} := {
  members : J -> option (gmap string J);
  members_null : members null = Some ∅;
  members_set k v j m : members j = Some m →
    ∃ j', set_key k v j = Ret j' ∧ members j' = Some (<[k := v]> m)
}.

(** ** Specification *)

Section Spec.
Context {J : Type} `{JsonApi J}.

(** The answer when there is no 200: its status, its body and whether the
    circuit breaker is tripped. *)
Definition failure_reply (ec : error_code) (status : Z) : option (Z * string * bool) :=
  if decide (ec ≠ no_error ∧ ec ≠ end_of_stream) then
    Some (504, json_error "Gateway Timeout - Backend Unreachable",
          bool_decide (ec = connection_refused ∨ ec = timed_out))
  else if decide (status = 200) then None
  else if decide (status = 404) then Some (404, json_error "Not Found from backend", false)
  else if decide (500 <= status < 600) then
    Some (502, json_error "Bad Gateway - Upstream Server Error", true)
  else Some (502, json_error "Bad Gateway - Unknown Upstream Status", false).

Definition optional_member (j : J) (key : string) : outcome (option string) :=
  if contains j key then
    v ← at_key j key;
    if is_string v then s ← get_string v; Ret (Some s) else Ret None
  else Ret None.

(** The company an answer describes. *)
Definition read_company (company_id : string) (res : response) : outcome CompanyInfo :=
  j ← parse (J := J) (body res);
  if decide (default "" (content_type res) = "application/x-company-v1") then
    n ← get_value j "cn" "";
    created ← get_value j "created_on" "";
    closed ← optional_member j "closed_on";
    Ret {| id := company_id; name := n; Models.version := 1; parse_success := true;
           created_on := Some created; closed_on := closed; tin := None; dissolved_on := None |}
  else if decide (default "" (content_type res) = "application/x-company-v2") then
    n ← get_value j "company_name" "";
    t ← get_value j "tin" "";
    dissolved ← optional_member j "dissolved_on";
    Ret {| id := company_id; name := n; Models.version := 2; parse_success := true;
           created_on := None; closed_on := None; tin := Some t; dissolved_on := dissolved |}
  else Throw (Exn OtherStdException "not a company").

(** The members of the answer: a company that starts in the future or has
    ended is not active; its end, when it has one, is reported. *)
Definition company_members (info : CompanyInfo) (starts_in_future : bool)
    (end_date : option (string * bool)) : gmap string J :=
  let base := {["id" := of_string (id info); "name" := of_string (name info)]} in
  match end_date with
  | None => <["active" := of_bool (negb starts_in_future)]> base
  | Some (date, ends_in_future) =>
      <["active" := of_bool (negb starts_in_future && ends_in_future)]>
        (<["active_until" := of_string date]> base)
  end.

End Spec.

Section Completion.
Context `{Beast} {J : Type} `{JsonApi J}.
Context {C : Type} `{CacheInterface C} {L : Type} `{ILogger L} {S : Type} `{IStatsDClient S}.
Context {CB X : Type} (deliver : CB -> option response -> X -> X).
Context `{Env}.

Abbreviation W := (world C L S CB X).
Abbreviation on_backend_response := (on_backend_response (J := J) (send deliver)).

Lemma run_trip url ms (w : W) :
  ∃ l, trip url ms w
  = (Ret tt, w <| steady_reads ::= Datatypes.S |>
      <| circuit_breaker_ := (CircuitBreaker.trip (steady_now (steady_reads w)) url ms
                                (circuit_breaker_ w)).1 |>
      <| logger_ := l |>).
Proof. by eexists. Qed.

Lemma backend_failure_run (k : completion CB) res ec (w : W) status b trips
    (Hf : failure_reply ec (result_int res) = Some (status, b, trips)) :
  ∃ w', on_backend_response k res ec w = (Ret tt, w')
    ∧ outer w' = deliver (send_response_cb_copy k)
        (Some (prepare_payload (answer status b (beast_res_cb k)))) (outer w)
    ∧ cache_ w' = cache_ w ∧ clients w' = clients w ∧ posted w' = posted w
    ∧ circuit_breaker_ w'
      = if trips : bool then
          (CircuitBreaker.trip (steady_now (steady_reads w)) (backend_url_copy k)
             (backend_servers_circuit_breaker_cool_off_duration_in_millis config_)
             (circuit_breaker_ w)).1
        else circuit_breaker_ w.
Proof.
  unfold failure_reply in Hf. unfold Backendify.on_backend_response, backend_result, failed.
  case_decide as Hec.
  - destruct Hec as [H1' H2']. injection Hf as <- <- <-.
    rewrite !bool_decide_eq_true_2 by done. cbn [andb].
    case_bool_decide as Hr; case_decide; try done; by eexists.
  - assert (bool_decide (ec ≠ no_error) && bool_decide (ec ≠ end_of_stream) = false) as ->.
    { apply andb_false_iff. rewrite !bool_decide_eq_false. destruct (decide (ec = no_error)); tauto. }
    case_decide; [done|]. case_decide; [simplify_eq; by eexists|].
    case_decide; simplify_eq; by eexists.
Qed.

(** C7 (error): every call that fails, or that is not answered 200, has its
    answer, sent once: a call that ends with an error (other than the end of
    the stream) is a 504, the backend's 404 a 404, any other status a 502. The
    circuit breaker is tripped for a refused connection, a time-out and a 5xx,
    and not for the other 504s (a name that is not resolved, a broken
    connection). Nothing is written to the cache, and no call is repeated. *)
Theorem backend_failure_answer (k : completion CB) res ec (w : W) status b trips
    (Hf : failure_reply ec (result_int res) = Some (status, b, trips)) :
  ∃ w', on_backend_response k res ec w = (Ret tt, w')
    ∧ outer w' = deliver (send_response_cb_copy k)
        (Some (prepare_payload (answer status b (beast_res_cb k)))) (outer w)
    ∧ cache_ w' = cache_ w ∧ clients w' = clients w ∧ posted w' = posted w
    ∧ circuit_breaker_ w'
      = if trips : bool then
          (CircuitBreaker.trip (steady_now (steady_reads w)) (backend_url_copy k)
             (backend_servers_circuit_breaker_cool_off_duration_in_millis config_)
             (circuit_breaker_ w)).1
        else circuit_breaker_ w.
Proof. by apply backend_failure_run. Qed.

(** ** Reading a company *)

Lemma run_optional_string j key f (i : CompanyInfo) (w : W) o :
  optional_member j key = Ret o →
  optional_string j key f (i, w) = (Ret tt, (match o with Some s => f s i | None => i end, w)).
Proof.
  unfold optional_member, optional_string. destruct (contains j key); [|by intros [= <-]].
  unfold mbind, M_bind, lift. cbn. destruct (at_key j key) as [v| |]; [|done..]. cbn.
  destruct (is_string v); [|by intros [= <-]].
  destruct (get_string v) as [s| |]; cbn; [|done..]. by intros [= <-].
Qed.

Lemma run_parse company_id res info (w : W) :
  body res ≠ "" → read_company (J := J) company_id res = Ret info →
  with_local {| id := company_id; name := ""; Models.version := -1; parse_success := false;
                created_on := None; closed_on := None; tin := None; dissolved_on := None |}
    (parseBackendResponse (J := J) res) w = (Ret info, w).
Proof.
  unfold read_company, parseBackendResponse, with_local, try_catch. intros Hb.
  rewrite decide_False by done.
  destruct (parse (body res)) as [j| |]; cbn [mbind outcome_bind]; [|done..].
  rewrite (M_bind_ret _ _ _ ((_, w) : CompanyInfo * W) j) by done.
  case_decide; [|case_decide; [|done]].
  - destruct (get_value j "cn" "") as [n| |] eqn:Hn; cbn [mbind outcome_bind]; [|done..].
    destruct (get_value j "created_on" "") as [c| |] eqn:Hc; cbn [mbind outcome_bind]; [|done..].
    destruct (optional_member j "closed_on") as [o| |] eqn:Ho; cbn [mbind outcome_bind]; [|done..].
    intros [= <-]. unfold mbind, M_bind, update_local, lift. cbn.
    erewrite run_optional_string by exact Ho. by destruct o.
  - destruct (get_value j "company_name" "") as [n| |] eqn:Hn; cbn [mbind outcome_bind]; [|done..].
    destruct (get_value j "tin" "") as [c| |] eqn:Hc; cbn [mbind outcome_bind]; [|done..].
    destruct (optional_member j "dissolved_on") as [o| |] eqn:Ho; cbn [mbind outcome_bind]; [|done..].
    intros [= <-]. unfold mbind, M_bind, update_local, lift. cbn.
    erewrite run_optional_string by exact Ho. by destruct o.
Qed.

(** ** Building its JSON *)

Context `{!JsonObjects J}.

Lemma run_put key v (j : J) m (w : W) :
  members j = Some m →
  ∃ j', put key v (j, w) = (Ret tt, (j', w)) ∧ members j' = Some (<[key := v]> m).
Proof.
  intros Hm. destruct (members_set key v j m Hm) as (j' & Hs & Hm'). exists j'. split; [|done].
  unfold put, mbind, M_bind, get_local, lift. cbn. by rewrite Hs.
Qed.

(** The next step of a construction is a [put]. *)
Lemma run_put_bind key v (j : J) m (w : W) :
  members j = Some m →
  ∃ j', members j' = Some (<[key := v]> m)
    ∧ ∀ A (f : unit -> M (J * W) A), (put key v ≫= f) (j, w) = f tt (j', w).
Proof.
  intros Hm. destruct (run_put key v j m w Hm) as (j' & Hp & Hm'). exists j'. split; [done|].
  intros A f. by apply M_bind_ret.
Qed.

(** A date against the clock: what it is, and the readings used. *)
Definition dated (o : option string) (n : nat) : outcome (option (string * bool) * nat) :=
  match present o with
  | None => Ret (None, n)
  | Some t =>
      f ← isUTCTimeInFuture (uninit n) (system_now n) t; Ret (Some (t, f), Datatypes.S n)
  end.

Lemma run_put_end o (j : J) m (w : W) d n :
  dated o (system_reads w) = Ret (d, n) → members j = Some m →
  ∃ j', put_end o (j, w) = (Ret tt, (j', w <| system_reads := n |>)) ∧
    members j' = Some (match d with
                       | None => m
                       | Some (date, true) => <["active_until" := of_string date]> m
                       | Some (date, false) =>
                           <["active_until" := of_string date]> (<["active" := of_bool false]> m)
                       end).
Proof.
  unfold dated, put_end. destruct (present o) as [date|]; cbn; [|intros [= <- <-] Hm; by exists j; destruct w].
  destruct (isUTCTimeInFuture _ _ date) as [f| |] eqn:Hf; cbn; [|done..]. intros [= <- <-] Hm.
  erewrite M_bind_ret by (unfold global, is_future; cbn; by rewrite Hf). destruct f.
  - by apply run_put.
  - set (w1 := w <| system_reads ::= Datatypes.S |>).
    destruct (run_put_bind "active" (of_bool false) j m w1 Hm) as (j1 & Hm1 & Hr).
    destruct (run_put "active_until" (of_string date) j1 _ w1 Hm1) as (j2 & Hr2 & Hm2).
    exists j2. split; [|exact Hm2]. etrans; [apply Hr|exact Hr2].
Qed.

(** The three members every company has. *)
Lemma run_put_base (info : CompanyInfo) (w : W) :
  ∃ j, members j = Some (company_members info false None)
    ∧ ∀ A (f : M (J * W) A),
        (put "id" (of_string (id info));; put "name" (of_string (name info));;
         put "active" (of_bool true);; f) (null, w) = f (j, w).
Proof.
  destruct (run_put_bind "id" (of_string (id info)) null ∅ w members_null) as (j1 & Hm1 & Hr1).
  destruct (run_put_bind "name" (of_string (name info)) j1 _ w Hm1) as (j2 & Hm2 & Hr2).
  destruct (run_put_bind "active" (of_bool true) j2 _ w Hm2) as (j3 & Hm3 & Hr3).
  exists j3. split; [by rewrite Hm3|]. intros A f. by rewrite Hr1, Hr2, Hr3.
Qed.

Lemma company_members_end info f m d :
  m = company_members (J := J) info f None →
  match d with
  | None => m
  | Some (date, true) => <["active_until" := of_string date]> m
  | Some (date, false) => <["active_until" := of_string date]> (<["active" := of_bool false]> m)
  end = company_members info f d.
Proof.
  intros ->. destruct d as [[date []]|]; [| |done]; unfold company_members.
  - rewrite insert_insert_ne by done. by rewrite andb_true_r.
  - rewrite insert_insert_eq, andb_false_r. by rewrite insert_insert_ne by done.
Qed.

Definition starts_in_future (d : option (string * bool)) : bool :=
  match d with Some (_, f) => f | None => false end.

Lemma run_put_start info (j : J) (w : W) d n :
  dated (created_on info) (system_reads w) = Ret (d, n) →
  members j = Some (company_members info false None) →
  ∃ j', put_start (created_on info) (j, w) = (Ret tt, (j', w <| system_reads := n |>))
    ∧ members j' = Some (company_members info (starts_in_future d) None).
Proof.
  unfold dated, put_start. destruct (present (created_on info)) as [t|]; cbn.
  - destruct (isUTCTimeInFuture _ _ t) as [f| |] eqn:Hf; cbn; [|done..]. intros [= <- <-] Hm.
    erewrite M_bind_ret by (unfold global, is_future; cbn; by rewrite Hf).
    destruct f; [|by exists j]. set (w1 := w <| system_reads ::= Datatypes.S |>).
    destruct (run_put "active" (of_bool false) j _ w1 Hm) as (j1 & Hr & Hm1). exists j1.
    split; [exact Hr|]. by rewrite Hm1.
  - intros [= <- <-] Hm. exists j. by destruct w.
Qed.

Lemma run_constructV1 info (w : W) d1 n1 d2 n2 :
  dated (created_on info) (system_reads w) = Ret (d1, n1) →
  dated (closed_on info) n1 = Ret (d2, n2) →
  ∃ j, with_local null (constructV1Json info) w = (Ret j, w <| system_reads := n2 |>)
    ∧ members j = Some (company_members info (starts_in_future d1) d2).
Proof.
  intros Hd1 Hd2. unfold with_local, constructV1Json.
  destruct (run_put_base info w) as (j & Hm & Hb). rewrite Hb.
  destruct (run_put_start info j w d1 n1 Hd1 Hm) as (j1 & Hr & Hm1).
  set (w1 := w <| system_reads := n1 |>) in Hr. erewrite M_bind_ret by exact Hr.
  destruct (run_put_end (closed_on info) j1 _ w1 d2 n2 Hd2 Hm1) as (j2 & -> & Hm2).
  exists j2. split; [done|]. rewrite Hm2. f_equal. by apply company_members_end.
Qed.

Lemma run_constructV2 info (w : W) d n :
  dated (dissolved_on info) (system_reads w) = Ret (d, n) →
  ∃ j, with_local null (constructV2Json info) w = (Ret j, w <| system_reads := n |>)
    ∧ members j = Some (company_members info false d).
Proof.
  intros Hd. unfold with_local, constructV2Json.
  destruct (run_put_base info w) as (j & Hm & Hb). rewrite Hb.
  destruct (run_put_end (dissolved_on info) j _ w d n Hd Hm) as (j2 & -> & Hm2).
  exists j2. split; [done|]. rewrite Hm2. f_equal. by apply company_members_end.
Qed.

(** ** Answers *)

Definition end_date (info : CompanyInfo) : option string :=
  if decide (Models.version info = 1) then closed_on info else dissolved_on info.

Definition build (info : CompanyInfo) : M (J * W) unit :=
  if decide (Models.version info = 1) then constructV1Json info
  else if decide (Models.version info = 2) then constructV2Json info else mret tt.

Lemma read_company_version company_id res info :
  read_company (J := J) company_id res = Ret info →
  parse_success info = true ∧
  (Models.version info = 1 ∨ Models.version info = 2 ∧ created_on info = None).
Proof.
  unfold read_company, mbind, outcome_bind. intros Hr. repeat case_match; simplify_eq; cbn; auto.
Qed.

Lemma run_build info (w : W) d1 n1 d2 n2 :
  (Models.version info = 1 ∨ Models.version info = 2 ∧ created_on info = None) →
  dated (created_on info) (system_reads w) = Ret (d1, n1) →
  dated (end_date info) n1 = Ret (d2, n2) →
  ∃ j, with_local null (build info) w = (Ret j, w <| system_reads := n2 |>)
    ∧ members j = Some (company_members info (starts_in_future d1) d2).
Proof.
  unfold end_date, build. intros [Hv|[Hv Hc]]; rewrite Hv; cbn.
  - apply run_constructV1.
  - rewrite Hc. cbn. intros [= <- <-]. apply run_constructV2.
Qed.

(** Whatever was read, once it counts as parsed. *)
Lemma run_success (k : completion CB) res ec info j str b c' (w w1 : W) :
  ec = no_error ∨ ec = end_of_stream → result_int res = 200 →
  with_local {| id := id_copy k; name := ""; Models.version := -1; parse_success := false;
                created_on := None; closed_on := None; tin := None; dissolved_on := None |}
    (parseBackendResponse (J := J) res) w = (Ret info, w1) →
  parse_success info = true →
  (∃ n, with_local null (build info) w1 = (Ret j, w1 <| system_reads := n |>)) →
  dump 4 j = Ret str →
  CacheInterface.set (cache_key_copy k) str 86400 (cache_ w1) = (Ret b, c') →
  ∃ w', on_backend_response k res ec w = (Ret tt, w')
    ∧ outer w' = deliver (send_response_cb_copy k)
        (Some (prepare_payload (answer 200 str (beast_res_cb k)))) (outer w1)
    ∧ cache_ w' = c' ∧ circuit_breaker_ w' = circuit_breaker_ w1 ∧ clients w' = clients w1
    ∧ posted w' = posted w1.
Proof.
  intros Hec Hs Hp Hok [n Hb] Hd Hset.
  unfold Backendify.on_backend_response, backend_result, failed.
  assert (bool_decide (ec ≠ no_error) && bool_decide (ec ≠ end_of_stream) = false) as ->.
  { apply andb_false_iff. rewrite !bool_decide_eq_false. tauto. }
  rewrite decide_True by done.
  unfold mbind at 1, M_bind at 1. cbn [update_field]. erewrite M_bind_ret by exact Hp.
  rewrite Hok. erewrite M_bind_ret by exact Hb. erewrite M_bind_ret by (unfold lift; by rewrite Hd).
  change (3600 * 24) with 86400.
  erewrite M_bind_ret by (unfold on_cache; cbn [cache_ update_field]; by rewrite Hset).
  eexists. split; [reflexivity|]. done.
Qed.

(** C6 (functional): a readable company is answered with status 200 and its
    JSON object: id, name, whether it is active now, and its end when it has
    one; the text that is sent is also what is stored under the request's
    cache key for a day. *)
Theorem company_answer (k : completion CB) res ec info d1 n1 d2 n2 (w : W)
    (Hec : ec = no_error ∨ ec = end_of_stream) (Hs : result_int res = 200) (Hb : body res ≠ "")
    (Hr : read_company (J := J) (id_copy k) res = Ret info)
    (Hd1 : dated (created_on info) (system_reads w) = Ret (d1, n1))
    (Hd2 : dated (end_date info) n1 = Ret (d2, n2)) :
  ∃ j : J, members j = Some (company_members info (starts_in_future d1) d2)
    ∧ ∀ str b c', dump 4 j = Ret str →
        CacheInterface.set (cache_key_copy k) str 86400 (cache_ w) = (Ret b, c') →
        ∃ w', on_backend_response k res ec w = (Ret tt, w')
          ∧ outer w' = deliver (send_response_cb_copy k)
              (Some (prepare_payload (answer 200 str (beast_res_cb k)))) (outer w)
          ∧ cache_ w' = c' ∧ circuit_breaker_ w' = circuit_breaker_ w ∧ clients w' = clients w
          ∧ posted w' = posted w.
Proof.
  destruct (read_company_version _ _ _ Hr) as [Hok Hv].
  destruct (run_build info w d1 n1 d2 n2 Hv Hd1 Hd2) as (j & Hj & Hm).
  exists j. split; [exact Hm|]. intros str b c' Hdump Hset.
  by eapply run_success; eauto using run_parse.
Qed.

(** Two states that differ in the log, the metrics and the clock only. *)
Definition quiet (w w' : W) : Prop :=
  outer w' = outer w ∧ cache_ w' = cache_ w ∧ circuit_breaker_ w' = circuit_breaker_ w
  ∧ clients w' = clients w ∧ posted w' = posted w.

(** A body the code does not read as a company. *)
Definition unreadable (res : response) : Prop :=
  body res = "" ∨ (∃ e, parse (J := J) (body res) = Throw e)
  ∨ (∃ j, parse (J := J) (body res) = Ret j)
    ∧ content_type res ≠ Some "application/x-company-v1"
    ∧ content_type res ≠ Some "application/x-company-v2".

Lemma default_content_type res v :
  v ≠ "" → default "" (content_type res) = v ↔ content_type res = Some v.
Proof. destruct (content_type res); naive_solver. Qed.

Lemma run_unreadable i res (w : W) :
  unreadable res → ∃ w1, with_local i (parseBackendResponse (J := J) res) w = (Ret i, w1) ∧ quiet w w1.
Proof.
  unfold parseBackendResponse, with_local, try_catch. intros Hu.
  case_decide as Hb; [by exists w|].
  destruct Hu as [?|[[e He]|[[j Hj] [H1' H2']]]]; [done| |].
  - rewrite He. destruct e as [[] m]; by eexists.
  - rewrite Hj. rewrite <- default_content_type in H1', H2' by done.
    unfold mbind, M_bind, lift. rewrite !decide_False by done. by exists w.
Qed.

(** (error): a 200 without a body, with a body that is not JSON or without
    a company content type is answered 502, once, and nothing is cached. *)
Theorem unreadable_answer (k : completion CB) res ec (w : W)
    (Hec : ec = no_error ∨ ec = end_of_stream) (Hs : result_int res = 200) (Hu : unreadable res) :
  ∃ w', on_backend_response k res ec w = (Ret tt, w')
    ∧ outer w' = deliver (send_response_cb_copy k)
        (Some (prepare_payload (answer 502
           (json_error "Bad Gateway - Upstream Response Parse Error") (beast_res_cb k)))) (outer w)
    ∧ cache_ w' = cache_ w ∧ circuit_breaker_ w' = circuit_breaker_ w.
Proof.
  destruct (run_unreadable (CompanyInfo_default <| id := id_copy k |>) res w Hu)
    as (w1 & Hp & Ho & Hc & Hb & _).
  unfold Backendify.on_backend_response, backend_result, failed.
  assert (bool_decide (ec ≠ no_error) && bool_decide (ec ≠ end_of_stream) = false) as ->.
  { apply andb_false_iff. rewrite !bool_decide_eq_false. tauto. }
  rewrite decide_True by done.
  unfold mbind at 1, M_bind at 1. erewrite M_bind_ret by exact Hp.
  eexists. split; [reflexivity|]. cbn. by rewrite Ho, Hc, Hb.
Qed.

Lemma run_partial i res j e (w : W) :
  body res ≠ "" → parse (body res) = Ret j →
  (content_type res = Some "application/x-company-v1" ∧ get_value j "cn" "" = Throw e
   ∨ content_type res = Some "application/x-company-v2" ∧ get_value j "company_name" "" = Throw e) →
  ∃ v w1, (v = 1 ∨ v = 2) ∧ quiet w w1 ∧
    with_local i (parseBackendResponse (J := J) res) w
    = (Ret {| id := id i; name := name i; Models.version := v; parse_success := true;
              created_on := created_on i; closed_on := closed_on i; tin := tin i;
              dissolved_on := dissolved_on i |}, w1).
Proof.
  intros Hb Hj Hc. unfold parseBackendResponse, with_local, try_catch.
  rewrite decide_False, Hj by done. unfold mbind, M_bind, lift, update_local. cbn.
  destruct Hc as [[Hc Hg]|[Hc Hg]]; rewrite Hc; cbn; rewrite Hg; cbn.
  - exists 1. destruct e as [[] m]; eexists; (split; [auto|]; split; [|reflexivity]); done.
  - exists 2. destruct e as [[] m]; eexists; (split; [auto|]; split; [|reflexivity]); done.
Qed.

(** (error): a 200 whose JSON is not an object, or whose name is not a
    string, is not an error for the code: the member is read after the answer
    was marked as parsed, so the client gets status 200 and an active company
    without a name, and that is cached for a day. *)
Theorem wrong_shape_answered_200 (k : completion CB) res ec jb e (w : W)
    (Hec : ec = no_error ∨ ec = end_of_stream) (Hs : result_int res = 200) (Hb : body res ≠ "")
    (Hp : parse (body res) = Ret jb)
    (Hg : content_type res = Some "application/x-company-v1" ∧ get_value jb "cn" "" = Throw e
          ∨ content_type res = Some "application/x-company-v2"
            ∧ get_value jb "company_name" "" = Throw e) :
  ∃ j : J,
    members j = Some {["id" := of_string (id_copy k); "name" := of_string "";
                       "active" := of_bool true]}
    ∧ ∀ str b c', dump 4 j = Ret str →
        CacheInterface.set (cache_key_copy k) str 86400 (cache_ w) = (Ret b, c') →
        ∃ w', on_backend_response k res ec w = (Ret tt, w')
          ∧ outer w' = deliver (send_response_cb_copy k)
              (Some (prepare_payload (answer 200 str (beast_res_cb k)))) (outer w)
          ∧ cache_ w' = c'.
Proof.
  edestruct (run_partial (CompanyInfo_default <| id := id_copy k |>) res jb e w Hb Hp Hg)
    as (v & w1 & Hv & (Ho & Hc & _) & Hr).
  match type of Hr with _ = (Ret ?i, _) => set (info := i) in Hr end.
  destruct (run_build info w1 None (system_reads w1) None (system_reads w1)) as (j & Hj & Hm).
  { destruct Hv as [-> | ->]; cbn; auto. }
  { done. }
  { unfold end_date, info. cbn. by case_decide. }
  exists j. split; [by rewrite Hm|]. intros str b c' Hd Hset. rewrite <- Hc in Hset.
  destruct (run_success k res ec info j str b c' w w1) as (w' & Hr' & Ho' & Hc' & _);
    [done|done|exact Hr|done|by eexists|done|done|].
  exists w'. by rewrite Ho', Ho.
Qed.

Lemma run_future_throw t (j : J) (w : W) e :
  isUTCTimeInFuture (uninit (system_reads w)) (system_now (system_reads w)) t = Throw e →
  global (is_future t) (j, w) = (Throw e, (j, w <| system_reads ::= Datatypes.S |>)).
Proof. intros Hf. unfold global, is_future. cbn. by rewrite Hf. Qed.

Lemma run_put_end_throw o (j : J) (w : W) e :
  dated o (system_reads w) = Throw e →
  ∃ w', put_end o (j, w) = (Throw e, (j, w')) ∧ quiet w w'.
Proof.
  unfold dated, put_end. destruct (present o) as [t|]; cbn; [|done].
  destruct (isUTCTimeInFuture _ _ t) as [f|e'|] eqn:Hf; cbn; [done| |done]. intros [= <-].
  eexists. split; [by apply M_bind_throw, run_future_throw|done].
Qed.

(** One of the dates of a company cannot be parsed. *)
Definition malformed (info : CompanyInfo) (n : nat) (e : exn) : Prop :=
  Models.version info = 1 ∧ dated (created_on info) n = Throw e
  ∨ ∃ d1 n1, (Models.version info = 1 ∨ Models.version info = 2 ∧ created_on info = None)
      ∧ dated (created_on info) n = Ret (d1, n1) ∧ dated (end_date info) n1 = Throw e.

Lemma run_build_throw info e (w : W) :
  malformed info (system_reads w) e →
  ∃ w', with_local null (build info) w = (Throw e, w') ∧ quiet w w'.
Proof using Type JsonObjects0.
  unfold build, with_local, constructV1Json, constructV2Json, malformed, end_date.
  destruct (run_put_base info w) as (j & Hm & Hb).
  intros [[Hv Hd]|(d1 & n1 & [Hv|[Hv Hc]] & Hd1 & Hd2)]; rewrite Hv in *.
  - rewrite decide_True, Hb by done. unfold dated, put_start in *.
    destruct (present (created_on info)) as [t|]; cbn in Hd; [|done].
    destruct (isUTCTimeInFuture _ _ t) as [f|e'|] eqn:Hf; cbn in Hd; [done| |done]. simplify_eq.
    erewrite M_bind_throw by (by apply M_bind_throw, run_future_throw). by eexists.
  - rewrite decide_True, Hb by done. rewrite decide_True in Hd2 by done.
    destruct (run_put_start info j w d1 n1 Hd1 Hm) as (j1 & Hr & _).
    set (w1 := w <| system_reads := n1 |>) in Hr. erewrite M_bind_ret by exact Hr.
    destruct (run_put_end_throw _ j1 w1 e Hd2) as (w' & -> & Hq).
    by exists w'.
  - rewrite decide_False, decide_True, Hb by done. rewrite decide_False in Hd2 by done.
    rewrite Hc in Hd1. injection Hd1 as <- <-.
    destruct (run_put_end_throw _ j w e Hd2) as (w' & -> & Hq). by exists w'.
Qed.

(** (error): a date that cannot be parsed throws out of the completion
    handler: the client is sent nothing and nothing is cached. *)
Theorem malformed_date_no_answer (k : completion CB) res ec info e (w : W)
    (Hec : ec = no_error ∨ ec = end_of_stream) (Hs : result_int res = 200) (Hb : body res ≠ "")
    (Hr : read_company (J := J) (id_copy k) res = Ret info)
    (Hd : malformed info (system_reads w) e) :
  ∃ w', on_backend_response k res ec w = (Throw e, w')
    ∧ outer w' = outer w ∧ cache_ w' = cache_ w.
Proof using Type JsonObjects0.
  destruct (read_company_version _ _ _ Hr) as [Hok Hv].
  destruct (run_build_throw info e w Hd) as (w' & Hj & Ho & Hc & _).
  exists w'. split; [|done]. unfold Backendify.on_backend_response, backend_result, failed.
  assert (bool_decide (ec ≠ no_error) && bool_decide (ec ≠ end_of_stream) = false) as ->.
  { apply andb_false_iff. rewrite !bool_decide_eq_false. tauto. }
  rewrite decide_True by done. apply M_bind_throw.
  erewrite M_bind_ret by (by apply run_parse). rewrite Hok. by apply M_bind_throw.
Qed.

End Completion.
