(* ===== verification/ServiceProps.v ===== *)
(** * Invariants of the service

    Which parts of [world] each method leaves alone ([keeps_..] lemmas), and
    what the circuit breaker does to the request after the one that tripped
    it. *)

From S2P Require Import Prelude Text TextFacts Models Utils Logging Metrics CircuitBreaker Http.
From S2P Require Import CacheInterface AsyncHttpClient Backendify BackendifyProps CompletionProps.
Import Backendify CompanySpec.

Section Service.
Context `{Beast} {J : Type} `{JsonApi J}.
Context {C : Type} `{CacheInterface C} {L : Type} `{ILogger L} {S : Type} `{IStatsDClient S}.
Context {CB X : Type} (deliver : CB -> option response -> X -> X).
Context `{Env}.

Abbreviation W := (world C L S CB X).
Abbreviation on_backend_response := (on_backend_response (J := J) (send deliver)).
Abbreviation client_event := (client_event (J := J) (send deliver)).
Abbreviation processCompanyRequest := (processCompanyRequest (J := J) (send deliver)).

#[global] Instance quiet_preorder : PreOrder (quiet (C:=C) (L:=L) (S:=S) (CB:=CB) (X:=X)).
Proof. split; unfold quiet; [done|]. intros ? ? ?. naive_solver congruence. Qed.

(** No call is started, ended or forgotten. *)
Definition calls_eq (w w' : W) : Prop :=
  active_client_sessions_ w' = active_client_sessions_ w
  ∧ clients w' = clients w ∧ next_client w' = next_client w ∧ posted w' = posted w.

#[global] Instance calls_eq_preorder : PreOrder calls_eq.
Proof. split; unfold calls_eq; [done|]. intros ? ? ?. naive_solver congruence. Qed.

Section Relation.
Context (R : W -> W -> Prop) `{!PreOrder R}.
Hypothesis R_log : ∀ l w, R w (w <| logger_ := l |>).
Hypothesis R_metric : ∀ s w, R w (w <| statsd_client_ := s |>).
Hypothesis R_system : ∀ n w, R w (w <| system_reads := n |>).

#[local] Set Default Proof Using "Type PreOrder0 R_log R_metric R_system".

Lemma keeps_log level m : keeps R (log level m).
Proof. intros w. apply (R_log (Logging.log level m (logger_ w))). Qed.

Lemma keeps_say ms : keeps R (say ms).
Proof. intros w. apply (R_log (log_all ms (logger_ w))). Qed.

Lemma keeps_increment m : keeps R (increment m).
Proof. intros w. apply (R_metric (Metrics.increment m 1 (statsd_client_ w))). Qed.

Lemma keeps_is_future t : keeps R (is_future t).
Proof. intros w. apply R_system. Qed.

#[local] Hint Resolve keeps_log keeps_say keeps_increment keeps_is_future : keeps.

Lemma keeps_parse res : keeps_local R (parseBackendResponse (J := J) res).
Proof. unfold parseBackendResponse, optional_string. keeps. Qed.

Lemma keeps_build info : keeps_local R (build (J := J) info).
Proof. unfold build, constructV1Json, constructV2Json, put_start, put_end, put. keeps. Qed.

Hypothesis R_cache : ∀ c w, R w (w <| cache_ := c |>).
Hypothesis R_steady : ∀ n w, R w (w <| steady_reads := n |>).
Hypothesis R_breaker : ∀ b w, R w (w <| circuit_breaker_ := b |>).

#[local] Set Default Proof Using
  "Type PreOrder0 R_log R_metric R_system R_cache R_steady R_breaker".

Lemma keeps_on_cache {A} (m : M C A) : keeps R (on_cache m).
Proof. intros w. unfold on_cache. destruct (m (cache_ w)) as [r c]. apply R_cache. Qed.

Lemma keeps_now : keeps R now.
Proof. intros w. apply R_steady. Qed.

Lemma keeps_breaker b : keeps R (modify (λ w, w <| circuit_breaker_ := b |>)).
Proof. intros w. apply R_breaker. Qed.

#[local] Hint Resolve keeps_on_cache keeps_now keeps_breaker keeps_parse keeps_build : keeps.

Lemma keeps_trip url ms : keeps R (trip url ms).
Proof. unfold trip. keeps. Qed.

#[local] Hint Resolve keeps_trip : keeps.

Lemma keeps_backend_result k res ec : keeps R (backend_result (J := J) k res ec).
Proof.
  unfold backend_result, handleBackendServerErrorResponse,
    constructV1Json, constructV2Json, put_start, put_end, put. keeps.
Qed.

Hypothesis R_outer : ∀ x w, R w (w <| outer := x |>).

#[local] Set Default Proof Using
  "Type PreOrder0 R_log R_metric R_system R_cache R_steady R_breaker R_outer".

Lemma keeps_send cb r : keeps R (send deliver cb r).
Proof. intros w. apply R_outer. Qed.

#[local] Hint Resolve keeps_send keeps_backend_result : keeps.

Lemma keeps_on_backend_response k res ec : keeps R (on_backend_response k res ec).
Proof. unfold Backendify.on_backend_response. keeps. Qed.

End Relation.

(** ** One completion *)

Lemma completion_calls_eq k res ec (w : W) : calls_eq w (on_backend_response k res ec w).2.
Proof. revert w. apply (keeps_on_backend_response calls_eq); try apply _; done. Qed.

(** A completion gives its answer, unless an exception leaves it; then the
    callers are left as they were. *)
Lemma completion_delivers k res ec (w : W) :
  match on_backend_response k res ec w with
  | (Ret _, w') => ∃ r, outer w' = deliver (send_response_cb_copy k) (Some r) (outer w)
  | (_, w') => outer w' = outer w
  end.
Proof.
  assert (Hk : keeps (λ w w' : W, outer w' = outer w) (backend_result (J := J) k res ec)).
  { assert (PreOrder (λ w w' : W, outer w' = outer w)) by (split; [done|intros ???; congruence]).
    by apply keeps_backend_result. }
  specialize (Hk w). unfold Backendify.on_backend_response, mbind, M_bind.
  destruct (backend_result k res ec w) as [[r|e|] w1]; cbn in *; [|done..].
  exists (prepare_payload r). by rewrite Hk.
Qed.

Lemma parse_quiet i res (w : W) :
  quiet w (with_local i (parseBackendResponse (J := J) res) w).2.
Proof.
  revert w. change (keeps (W := W) quiet (with_local i (parseBackendResponse (J := J) res))).
  apply keeps_with_local; [apply _|]. apply keeps_parse; try apply _; done.
Qed.

Lemma build_quiet info (w : W) : quiet w (with_local null (build (J := J) info) w).2.
Proof.
  revert w. change (keeps (W := W) quiet (with_local null (build (J := J) info))).
  apply keeps_with_local; [apply _|]. apply keeps_build; try apply _; done.
Qed.

(** ** The circuit breaker in the service *)

(** C12 (functional): after a failure that trips the circuit breaker, a
    request for the same backend is answered 504 and no call is made, until
    the cool-down of the configuration has elapsed. *)
Theorem tripped_backend_not_called (k : completion CB) res ec status b (w w1 : W)
    req received cb info c'
    (Hf : failure_reply ec (result_int res) = Some (status, b, true))
    (Hw1 : on_backend_response k res ec w = (Ret tt, w1))
    (Hp : request_id (target req) ≠ "" ∧ request_country (target req) ≠ "")
    (Hget : CacheInterface.get
       (cache_key_of (request_id (target req)) (request_country (target req))) (cache_ w1)
       = (Ret None, c'))
    (Hsla : ¬ late received (steady_now (steady_reads w1)))
    (Hinfo : country_backend_map config_ !! request_country (target req) = Some info)
    (Hurl : url info = backend_url_copy k)
    (Hclock : 0 <= steady_now (steady_reads w) < 2^62)
    (Hcool : int32 (backend_servers_circuit_breaker_cool_off_duration_in_millis config_))
    (Hnow : steady_now (Datatypes.S (steady_reads w1))
            < steady_now (steady_reads w)
              + backend_servers_circuit_breaker_cool_off_duration_in_millis config_ * 10^6) :
  ∃ w2, processCompanyRequest req received cb w1 = (Ret tt, w2)
    ∧ outer w2 = deliver cb (Some (reply req 504
        (json_error "Gateway Timeout - Circuit Breaker Active"))) (outer w1)
    ∧ clients w2 = clients w1 ∧ posted w2 = posted w1.
Proof.
  destruct (backend_failure_run deliver k res ec w status b true Hf)
    as (w1' & Hr & _ & _ & _ & _ & Hb). rewrite Hw1 in Hr. injection Hr as <-.
  destruct (company_request_run deliver req received cb w1 None c' Hget) as (w2 & Hr & Hv & _).
  exists w2. split; [exact Hr|]. unfold company_verdict in Hv.
  rewrite decide_False in Hv by tauto. rewrite decide_False, Hinfo in Hv by done.
  unfold CircuitBreaker.isTripped in Hv. rewrite Hb, Hurl in Hv. cbn in Hv.
  rewrite lookup_insert_eq in Hv.
  rewrite decide_True in Hv; [by destruct Hv as (Ho & _ & _ & ? & _ & ?)|].
  rewrite after_millis_exact by done. lia.
Qed.

Context `{!CacheContract C}.

(** What a completion may do to the callers and to the cache. *)
Definition completion_effect (k : completion CB) (w w' : W) : Prop :=
  cache_inv (cache_ w') ∧
  (outer w' = outer w ∧ contents (cache_ w') ⊆ contents (cache_ w)
   ∨ ∃ r, outer w' = deliver (send_response_cb_copy k) (Some r) (outer w) ∧ well_framed r
       ∧ (contents (cache_ w') ⊆ contents (cache_ w)
          ∨ result_int r = 200
            ∧ at_most_adds (stored_key (cache_key_copy k)) (stored_value (body r))
                (contents (cache_ w)) (contents (cache_ w')))).

Lemma completion_answered k w w' r :
  cache_inv (cache_ w) → cache_ w' = cache_ w →
  outer w' = deliver (send_response_cb_copy k) (Some (prepare_payload r)) (outer w) →
  completion_effect k w w'.
Proof.
  intros Hi Hc Ho. split; [by rewrite Hc|]. right. exists (prepare_payload r).
  split; [done|]. split; [done|]. left. by rewrite Hc.
Qed.

Lemma completion_silent k w w' : cache_inv (cache_ w) → quiet w w' → completion_effect k w w'.
Proof. intros Hi (Ho & Hc & _). split; [by rewrite Hc|]. left. by rewrite Ho, Hc. Qed.

Lemma completion_ok k res ec (w : W) :
  cache_inv (cache_ w) → completion_effect k w (on_backend_response k res ec w).2.
Proof.
  intros Hi. destruct (failure_reply ec (result_int res)) as [[[status b] trips]|] eqn:Hf.
  - destruct (backend_failure_run deliver k res ec w status b trips Hf) as (w' & -> & Ho & Hc & _).
    cbn. eapply completion_answered; [exact Hi|exact Hc|exact Ho].
  - unfold failure_reply in Hf. case_decide as Hec; [done|]. case_decide as Hs; [|by repeat case_decide].
    unfold Backendify.on_backend_response, backend_result, failed.
    assert (bool_decide (ec ≠ no_error) && bool_decide (ec ≠ end_of_stream) = false) as ->.
    { apply andb_false_iff. rewrite !bool_decide_eq_false. destruct (decide (ec = no_error)); tauto. }
    rewrite decide_True by done. unfold mbind at 1, M_bind at 1. unfold mbind at 1, M_bind at 1.
    set (i := CompanyInfo_default <| id := id_copy k |>). pose proof (parse_quiet i res w) as Hq.
    destruct (with_local i _ w) as [[info|e|] w1]; cbn in Hq;
      [|by apply completion_silent..].
    destruct Hq as (Ho & Hc & Hq). destruct (parse_success info).
    + fold (build (J := J) (C := C) (L := L) (S := S) (CB := CB) (X := X) info).
      unfold mbind at 1, M_bind at 1. pose proof (build_quiet info w1) as Hq'.
      destruct (with_local null _ w1) as [[j|e|] w2]; cbn in Hq';
        [|apply completion_silent; [done|]; unfold quiet in *; naive_solver congruence..].
      destruct Hq' as (Ho' & Hc' & Hq'). unfold mbind at 1, M_bind at 1, lift.
      destruct (dump 4 j) as [str|e|].
      * unfold mbind at 1, M_bind at 1, on_cache. rewrite Hc', Hc.
        destruct (contract_set (cache_key_copy k) str (3600 * 24) _ Hi) as (b & c' & -> & Hi' & Ha).
        split; [exact Hi'|]. right. eexists. split; [cbn; by rewrite Ho', Ho|].
        split; [done|]. right. done.
      * apply completion_silent; [done|]. unfold quiet in *. cbn. naive_solver congruence.
      * apply completion_silent; [done|]. unfold quiet in *. cbn. naive_solver congruence.
    + eapply (completion_answered k _ _ (answer 502 _ (beast_res_cb k))); [done|exact Hc|].
      rewrite <- Ho. reflexivity.
Qed.

End Service.
