(* ===== verification/History.v ===== *)
(** * Histories of the service

    A run of the service: requests arrive, backend calls progress, posted
    handlers run, a shutdown cancels calls, in any order. Requests are
    numbered, and the callback records what each was answered, so that the
    theorems can speak of a whole run: nobody is answered twice, and the cache
    gives back nothing but what was answered to a request for the same key. *)

From S2P Require Import Prelude Text TextFacts Models Utils Logging Metrics CircuitBreaker Http.
From S2P Require Import CacheInterface AsyncHttpClient Backendify BackendifyProps CompletionProps.
From S2P Require Import ServiceProps.
Import Backendify CompanySpec.

(** A request: its number and its target. *)
Record ticket := { number : nat; asked : string }.

Abbreviation answers := (list (ticket * option response)).

Definition record_answer (t : ticket) (r : option response) (x : answers) : answers :=
  x ++ [(t, r)].

Definition key_of (t : ticket) : string :=
  cache_key_of (request_id (asked t)) (request_country (asked t)).

(** ** Sums over finite maps *)

Definition map_sum {A} (f : A -> nat) (m : gmap nat A) : nat :=
  sum_list (f <$> (map_to_list m).*2).

Lemma sum_list_Permutation (l1 l2 : list nat) : l1 ≡ₚ l2 → sum_list l1 = sum_list l2.
Proof. induction 1; cbn; lia. Qed.

Lemma map_sum_insert {A} (f : A -> nat) m c x :
  m !! c = None → map_sum f (<[c := x]> m) = (f x + map_sum f m)%nat.
Proof.
  intros Hc. unfold map_sum.
  pose proof (map_to_list_insert m c x Hc) as Hp.
  by rewrite (sum_list_Permutation _ (f <$> ((c, x) :: map_to_list m).*2)) by (by rewrite Hp).
Qed.

Lemma map_sum_update {A} (f : A -> nat) m c x y :
  m !! c = Some y → (f y + map_sum f (<[c := x]> m))%nat = (f x + map_sum f m)%nat.
Proof.
  intros Hc. rewrite <- (insert_delete_id m c y Hc) at 2. rewrite <- insert_delete_eq.
  rewrite !map_sum_insert by apply lookup_delete_eq. lia.
Qed.

Section History.
Context `{Beast} {J : Type} `{JsonApi J}.
Context {C : Type} `{CacheContract C} {L : Type} `{ILogger L} {S : Type} `{IStatsDClient S}.
Context `{Env}.

(** Who waits for an answer, and what an answer does to the callers: it is at
    least recorded, with the ticket of the request. *)
Context {CB X : Type} (deliver : CB -> option response -> X -> X).
Context (ticket_of : CB -> ticket) (answers_of : X -> answers).
Hypothesis answers_deliver : ∀ cb r x,
  answers_of (deliver cb r x) = record_answer (ticket_of cb) r (answers_of x).
#[local] Set Default Proof Using "Type*".

Abbreviation W := (world C L S CB X).
Abbreviation callback := (send deliver).

(** ** Runs *)

(** The state of a run: the number of requests so far, and the world. The last
    step is one of the callers' own. *)
Inductive step : nat * W -> nat * W -> Prop :=
  | step_company n w req received cb :
      ticket_of cb = {| number := n; asked := target req |} →
      step (n, w)
        (Datatypes.S n, (processCompanyRequest (J := J) callback req received cb w).2)
  | step_status n w cb :
      number (ticket_of cb) = n →
      step (n, w) (Datatypes.S n, (processStatusRequest callback cb w).2)
  | step_client n w c e :
      documented e → step (n, w) (n, (client_event (J := J) callback c e w).2)
  | step_posted n w : step (n, w) (n, (run_posted (J := J) callback w).2)
  | step_cancel n w : step (n, w) (n, (cancel_active_backend_calls (J := J) callback w).2)
  | step_outer n w x :
      answers_of x = answers_of (outer w) → step (n, w) (n, w <| outer := x |>).

(** ** The requests that are answered or wait for a call *)

Definition delivered (i : nat) (x : answers) : nat :=
  length (filter (λ p, number p.1 = i) x).

Definition waits (i : nat) (p : AsyncHttpClientSession.t * wrapper CB) : nat :=
  if decide (number (ticket_of (send_response_cb_copy (original_user_callback p.2))) = i)
  then in_flight p.1 else 0%nat.

Definition posted_for (i : nat) (ps : list (completion CB * error_code)) : nat :=
  length (filter (λ p, number (ticket_of (send_response_cb_copy p.1)) = i) ps).

Definition accounted (i : nat) (w : W) : nat :=
  (delivered i (answers_of (outer w)) + map_sum (waits i) (clients w) + posted_for i (posted w))%nat.

(** A completion remembers its request. *)
Definition completion_wf (k : completion CB) : Prop :=
  cache_key_copy k = key_of (ticket_of (send_response_cb_copy k)).

(** What the cache holds was answered to a request for the same key. *)
Definition contents_ok (w : W) : Prop :=
  ∀ k v, contents (cache_ w) !! k = Some v →
    ∃ t r, (t, Some r) ∈ answers_of (outer w) ∧ result_int r = 200
      ∧ k = stored_key (key_of t) ∧ v = stored_value (body r).

Record inv (n : nat) (w : W) : Prop := {
  inv_once i : (accounted i w <= 1)%nat;
  inv_new i : (n <= i)%nat → accounted i w = 0%nat;
  inv_clients c s k : clients w !! c = Some (s, k) →
    (c < next_client w)%nat ∧ session_to_remove_on_complete k = None
    ∧ completion_wf (original_user_callback k);
  inv_posted k ec : (k, ec) ∈ posted w → completion_wf k;
  inv_active : active_client_sessions_ w = set_seq 0 (next_client w);
  inv_cache : cache_inv (cache_ w);
  inv_contents : contents_ok w
}.

(** ** Steps of one completion *)

Lemma contents_ok_mono w w' :
  contents (cache_ w') ⊆ contents (cache_ w) → (∀ p, p ∈ answers_of (outer w) → p ∈ answers_of (outer w')) →
  contents_ok w → contents_ok w'.
Proof.
  intros Hs Ho Hok k v Hk. rewrite map_subseteq_spec in Hs. apply Hs, Hok in Hk.
  naive_solver.
Qed.

Lemma delivered_app i x y : delivered i (x ++ y) = (delivered i x + delivered i y)%nat.
Proof. unfold delivered. by rewrite filter_app, length_app. Qed.

Lemma delivered_one i t r : delivered i [(t, r)] = if decide (number t = i) then 1%nat else 0%nat.
Proof. unfold delivered. rewrite filter_cons. cbn. by case_decide. Qed.

Lemma completion_history k res ec (w : W) :
  cache_inv (cache_ w) → contents_ok w → completion_wf k →
  let w' := (on_backend_response (J := J) callback k res ec w).2 in
  calls_eq w w' ∧ cache_inv (cache_ w') ∧ contents_ok w'
  ∧ ∀ i, (delivered i (answers_of (outer w')) <= delivered i (answers_of (outer w))
          + (if decide (number (ticket_of (send_response_cb_copy k)) = i) then 1 else 0))%nat.
Proof.
  intros Hi Hok Hk w'. split; [apply completion_calls_eq|].
  destruct (completion_ok (J := J) deliver k res ec w Hi) as [Hi' Heff]. fold w' in Hi', Heff.
  split; [done|]. destruct Heff as [[Ho Hc]|(r & Ho & _ & Hc)].
  - split; [by apply (contents_ok_mono w); [|rewrite Ho|]|]. intros i. rewrite Ho. lia.
  - apply (f_equal answers_of) in Ho. rewrite answers_deliver in Ho. unfold record_answer in Ho. split.
    + assert (Hsub : ∀ p, p ∈ answers_of (outer w) → p ∈ answers_of (outer w'))
        by (intros p; rewrite Ho, elem_of_app; auto).
      destruct Hc as [Hc|[Hr Hc]]; [by apply (contents_ok_mono w)|].
      intros k' v Hv. destruct (Hc _ _ Hv) as [Hv'|[-> ->]].
      * destruct (Hok _ _ Hv') as (t & r' & Hin & Hx). exists t, r'. auto.
      * exists (ticket_of (send_response_cb_copy k)), r. rewrite Ho, elem_of_app, list_elem_of_singleton, Hk.
        auto.
    + intros i. rewrite Ho, delivered_app, delivered_one. lia.
Qed.

Lemma run_effects_history k os (w : W) :
  cache_inv (cache_ w) → contents_ok w → session_to_remove_on_complete k = None →
  completion_wf (original_user_callback k) →
  let w' := (run_effects (J := J) callback k os w).2 in
  calls_eq w w' ∧ cache_inv (cache_ w') ∧ contents_ok w'
  ∧ ∀ i, (delivered i (answers_of (outer w')) <= delivered i (answers_of (outer w))
          + (if decide (number (ticket_of (send_response_cb_copy (original_user_callback k))) = i)
             then completions os else 0))%nat.
Proof.
  intros Hi Hok Hn Hk. revert w Hi Hok. induction os as [|o os IH]; intros w Hi Hok; cbn zeta.
  - split; [done|]. split; [done|]. split; [done|]. intros i. cbn. lia.
  - destruct o as [level m|host service|res ec]; cbn [run_effects].
    + set (w1 := w <| logger_ ::= Logging.log level m |>).
      destruct (IH w1) as (H1' & H2' & H3' & H4'); [done..|]. split_and!; done.
    + by destruct (IH w) as (H1' & H2' & H3' & H4').
    + unfold on_client_complete. rewrite Hn.
      destruct (completion_history (original_user_callback k) res ec w Hi Hok Hk)
        as (H1' & H2' & H3' & H4').
      set (m := on_backend_response callback (original_user_callback k) res ec) in *.
      assert (Hm : ((mret tt;; m);; run_effects (J := J) callback k os) w
        = match m w with
          | (Ret _, w1) => run_effects (J := J) callback k os w1
          | (Throw e, w1) => (Throw e, w1)
          | (UB, w1) => (UB, w1)
          end) by (unfold mbind, M_bind; cbn; by destruct (m w) as [[] ?]).
      rewrite Hm. clear Hm. destruct (m w) as [[[]|e|] w1]; cbn [snd] in *.
      * destruct (IH w1 H2' H3') as (H5' & H6' & H7' & H8').
        split; [by etrans; [exact H1'|]|]. split; [done|]. split; [done|].
        intros i. specialize (H4' i). specialize (H8' i).
        rewrite completions_cons. cbn [is_complete]. case_decide; lia.
      * split_and!; try done. intros i. specialize (H4' i).
        rewrite completions_cons. cbn [is_complete]. case_decide; lia.
      * split_and!; try done. intros i. specialize (H4' i).
        rewrite completions_cons. cbn [is_complete]. case_decide; lia.
Qed.

(** ** Every step keeps the invariant *)

(** Log, metrics, clock readings and circuit breaker do not matter. *)
Lemma inv_irrelevant n (w w' : W) :
  inv n w → answers_of (outer w') = answers_of (outer w) → cache_ w' = cache_ w → calls_eq w w' → inv n w'.
Proof.
  intros [H1' H2' H3' H4' H5' H6' H7'] Ho Hc (Ha & Hcl & Hn & Hp).
  assert (Hacc : ∀ i, accounted i w' = accounted i w) by (intros i; unfold accounted; by rewrite Ho, Hcl, Hp).
  split; try (intros i; rewrite Hacc); auto.
  - rewrite Hcl, Hn. apply H3'.
  - rewrite Hp. apply H4'.
  - by rewrite Ha, Hn.
  - by rewrite Hc.
  - unfold contents_ok. by rewrite Hc, Ho.
Qed.

(** A new request that is answered, or dropped, at once. *)
Lemma inv_answered n (w w' : W) cb r :
  inv n w → number (ticket_of cb) = n → outer w' = deliver cb r (outer w) → calls_eq w w' →
  cache_inv (cache_ w') → contents (cache_ w') ⊆ contents (cache_ w) → inv (Datatypes.S n) w'.
Proof.
  intros [H1' H2' H3' H4' H5' H6' H7'] Ht Ho (Ha & Hcl & Hn & Hp) Hi Hc.
  apply (f_equal answers_of) in Ho. rewrite answers_deliver in Ho.
  assert (Hacc : ∀ i, accounted i w' = (accounted i w + (if decide (n = i) then 1 else 0))%nat).
  { intros i. unfold accounted. rewrite Ho, Hcl, Hp. unfold record_answer.
    rewrite delivered_app, delivered_one, Ht. lia. }
  split.
  - intros i. rewrite Hacc. case_decide as Hi'; [|specialize (H1' i); lia]. subst i.
    rewrite H2' by lia. lia.
  - intros i Hni. rewrite Hacc, H2', decide_False by lia. done.
  - rewrite Hcl, Hn. apply H3'.
  - rewrite Hp. apply H4'.
  - by rewrite Ha, Hn.
  - done.
  - eapply contents_ok_mono; [exact Hc| |exact H7']. intros p. rewrite Ho. unfold record_answer.
    rewrite elem_of_app. auto.
Qed.

Lemma inv_started n (w w' : W) info id k :
  inv n w → number (ticket_of (send_response_cb_copy k)) = n → completion_wf k → outer w' = outer w →
  started info id k w w' → cache_inv (cache_ w') →
  contents (cache_ w') ⊆ contents (cache_ w) → inv (Datatypes.S n) w'.
Proof.
  intros [H1' H2' H3' H4' H5' H6' H7'] Ht Hk Ho Hs Hi Hc.
  assert (Hok : contents_ok w') by (eapply contents_ok_mono; [exact Hc|by rewrite Ho|exact H7']).
  unfold started in Hs. destruct Hs as [_ Hs]. destruct (is_https info).
  - destruct Hs as (Hp & Hcl & Hn & Ha).
    assert (Hacc : ∀ i, accounted i w' = (accounted i w + (if decide (n = i) then 1 else 0))%nat).
    { intros i. unfold accounted, posted_for. rewrite Ho, Hcl, Hp, filter_app, length_app.
      rewrite filter_cons. cbn. rewrite Ht. case_decide; cbn; lia. }
    split; [| | | | |done|done].
    + intros i. rewrite Hacc. case_decide as Hi'; [|specialize (H1' i); lia]. subst i.
      rewrite H2' by lia. lia.
    + intros i Hni. rewrite Hacc, H2', decide_False by lia. done.
    + rewrite Hcl, Hn. apply H3'.
    + intros k' ec. rewrite Hp, elem_of_app, list_elem_of_singleton. naive_solver.
    + by rewrite Ha, Hn.
  - destruct Hs as (Hcl & Hn & Ha & Hp).
    assert (Hfresh : clients w !! next_client w = None).
    { destruct (clients w !! next_client w) as [[s k']|] eqn:Hl; [|done].
      apply H3' in Hl as [? _]. lia. }
    assert (Hacc : ∀ i, accounted i w' = (accounted i w + (if decide (n = i) then 1 else 0))%nat).
    { intros i. unfold accounted. rewrite Ho, Hcl, Hp, map_sum_insert by done.
      unfold waits at 1. cbn. rewrite Ht. case_decide; cbn; lia. }
    split; [| | | | |done|done].
    + intros i. rewrite Hacc. case_decide as Hi'; [|specialize (H1' i); lia]. subst i.
      rewrite H2' by lia. lia.
    + intros i Hni. rewrite Hacc, H2', decide_False by lia. done.
    + intros c s k'. rewrite Hcl, Hn, lookup_insert_Some. intros [[<- [= <- <-]]|[_ Hl]].
      * split; [lia|]. done.
      * apply H3' in Hl as (? & ? & ?). split; [lia|]. done.
    + rewrite Hp. apply H4'.
    + rewrite Ha, Hn, H5'. by rewrite set_seq_S_end_union_L, Nat.add_0_l.
Qed.

Lemma inv_company n w req received cb :
  ticket_of cb = {| number := n; asked := target req |} → inv n w →
  inv (Datatypes.S n) (processCompanyRequest (J := J) callback req received cb w).2.
Proof.
  intros Hcb Hinv. assert (Hnum : number (ticket_of cb) = n) by by rewrite Hcb. pose proof (inv_cache _ _ Hinv) as Hi.
  destruct (contract_get (cache_key_of (request_id (target req)) (request_country (target req)))
    _ Hi) as (cached & c' & Hget & Hi' & Hsub & _).
  destruct (company_request_run (J := J) deliver req received cb w cached c' Hget) as (w' & -> & Hf & Hc).
  assert (Hcw : cache_inv (cache_ w') ∧ contents (cache_ w') ⊆ contents (cache_ w))
    by (destruct Hc as [-> | ->]; done).
  destruct Hcw as [Hciw Hcsw]. cbn. destruct (company_verdict _ _ _ _ _ _) as [r| |info]; cbn in Hf.
  - destruct Hf as (Ho & _ & Hcalls).
    by apply (inv_answered n w w' cb (Some r)).
  - destruct Hf as (Ho & _ & Hcalls).
    by apply (inv_answered n w w' cb None).
  - destruct Hf as [Ho Hs]. eapply inv_started; [exact Hinv| | |exact Ho|exact Hs|exact Hciw|exact Hcsw]; [exact Hnum|].
    unfold completion_wf. cbn. by rewrite Hcb.
Qed.

Lemma inv_status n w cb :
  number (ticket_of cb) = n → inv n w → inv (Datatypes.S n) (processStatusRequest callback cb w).2.
Proof.
  intros Hcb Hinv. eapply (inv_answered n w _ cb); try done.
  apply (inv_cache _ _ Hinv).
Qed.

Lemma inv_client_event n w c e :
  documented e → inv n w → inv n (client_event (J := J) callback c e w).2.
Proof.
  intros He Hinv. unfold client_event, get_state. unfold mbind at 1, M_bind at 1.
  destruct (clients w !! c) as [[s k]|] eqn:Hc; [|done].
  destruct (AsyncHttpClientSession.step e s) as [[s' os]|] eqn:Hs; [|done].
  destruct (step_ok _ _ _ _ He Hs) as [[Hcount _] _].
  destruct (inv_clients _ _ Hinv _ _ _ Hc) as (Hlt & Hnone & Hwf).
  set (w1 := w <| clients ::= insert c (s', k) |>).
  rewrite (M_bind_ret _ _ w w1 tt) by done.
  destruct Hinv as [H1' H2' H3' H4' H5' H6' H7'].
  destruct (run_effects_history k os w1 H6' H7' Hnone Hwf) as ((Ha & Hcl & Hn & Hp) & Hi & Hok & Hd).
  set (w2 := (run_effects callback k os w1).2) in *.
  assert (Hacc : ∀ i, (accounted i w2 <= accounted i w)%nat).
  { intros i. specialize (Hd i). unfold accounted. rewrite Hcl, Hp.
    change (outer w1) with (outer w) in Hd. change (posted w1) with (posted w).
    change (clients w1) with (<[c := (s', k)]> (clients w)).
    pose proof (map_sum_update (waits i) (clients w) c (s', k) (s, k) Hc) as Hu.
    unfold waits at 1 3 in Hu. cbn [fst snd] in Hu. case_decide; lia. }
  split.
  - intros i. specialize (Hacc i). specialize (H1' i). lia.
  - intros i Hni. specialize (Hacc i). specialize (H2' i Hni). lia.
  - intros c' s1 k1. rewrite Hcl, Hn. change (next_client w1) with (next_client w).
    change (clients w1) with (<[c := (s', k)]> (clients w)). rewrite lookup_insert_Some.
    intros [[<- [= <- <-]]|[_ Hl]]; [done|by apply H3' in Hl].
  - rewrite Hp. apply H4'.
  - by rewrite Ha, Hn.
  - done.
  - done.
Qed.

Lemma inv_posted_run n w : inv n w → inv n (run_posted (J := J) callback w).2.
Proof.
  intros Hinv. unfold run_posted, get_state. unfold mbind at 1, M_bind at 1.
  destruct (posted w) as [|[k ec] rest] eqn:Hq; [done|].
  set (w1 := w <| posted := rest |>). rewrite (M_bind_ret _ _ w w1 tt) by done.
  destruct Hinv as [H1' H2' H3' H4' H5' H6' H7'].
  assert (Hk : completion_wf k) by (apply (H4' k ec); rewrite Hq; by left).
  destruct (completion_history k response_default ec w1 H6' H7' Hk)
    as ((Ha & Hcl & Hn & Hp) & Hi & Hok & Hd).
  set (w2 := (Backendify.on_backend_response callback k response_default ec w1).2) in *.
  assert (Hacc : ∀ i, (accounted i w2 <= accounted i w)%nat).
  { intros i. specialize (Hd i). unfold accounted, posted_for. rewrite Hcl, Hp, Hq.
    rewrite filter_cons. cbn [fst]. change (outer w1) with (outer w) in Hd.
    change (posted w1) with rest. change (clients w1) with (clients w).
    case_decide; cbn [length]; lia. }
  split.
  - intros i. specialize (Hacc i). specialize (H1' i). lia.
  - intros i Hni. specialize (Hacc i). specialize (H2' i Hni). lia.
  - rewrite Hcl, Hn. apply H3'.
  - rewrite Hp. intros k' ec' Hin. apply (H4' k' ec'). rewrite Hq. by right.
  - by rewrite Ha, Hn.
  - done.
  - done.
Qed.

Lemma inv_cancel_all n sessions w :
  inv n w → inv n (cancel_all (J := J) callback sessions w).2.
Proof.
  revert w. induction sessions as [|c sessions IH]; intros w Hinv; [done|]. cbn [cancel_all].
  pose proof (inv_client_event n w c AsyncHttpClientSession.Cancel I Hinv) as Hc.
  unfold cancel_client, mbind, M_bind. destruct (client_event callback c _ w) as [[[]|e|] w1];
    [by apply IH|done..].
Qed.

Lemma inv_cancel n w : inv n w → inv n (cancel_active_backend_calls (J := J) callback w).2.
Proof.
  intros Hinv. unfold cancel_active_backend_calls.
  set (w1 := w <| logger_ ::= Logging.log Models.INFO "Backendify cancelling active backend calls..." |>).
  rewrite (M_bind_ret _ _ w w1 tt) by done. rewrite (M_bind_ret _ _ w1 w1 w1) by done.
  assert (Hinv1 : inv n w1) by by apply (inv_irrelevant n w).
  case_decide; [by apply (inv_irrelevant n w1)|].
  erewrite M_bind_ret by done. apply inv_cancel_all. by apply (inv_irrelevant n w1).
Qed.

Lemma step_inv p p' : step p p' → inv p.1 p.2 → inv p'.1 p'.2.
Proof.
  intros [n w req received cb Hcb|n w cb Hcb|n w c e He|n w|n w|n w x Hx]; cbn [fst snd].
  - by apply inv_company.
  - by apply inv_status.
  - by apply inv_client_event.
  - apply inv_posted_run.
  - apply inv_cancel.
  - intros Hinv. by apply (inv_irrelevant n w).
Qed.

(** A world as the constructor makes it. *)
Definition initial (w : W) : Prop :=
  ∃ c s l x, ctor (Some c) (Some s) (Some l) x = Ret w ∧ cache_inv c ∧ contents c = ∅
    ∧ answers_of x = [].

Lemma initial_inv w : initial w → inv 0 w.
Proof.
  intros (c & s & l & x & Hw & Hc & Hempty & Hx). injection Hw as <-. split.
  - intros i. unfold accounted. cbn. rewrite Hx. change (0 <= 1)%nat. lia.
  - intros i _. unfold accounted. cbn. by rewrite Hx.
  - intros i s' k'. cbn. by rewrite lookup_empty.
  - intros k ec Hin. by apply elem_of_nil in Hin.
  - done.
  - done.
  - intros k v. cbn. by rewrite Hempty, lookup_empty.
Qed.

Lemma service_reachable_inv w0 n w : initial w0 → rtc step (0%nat, w0) (n, w) → inv n w.
Proof.
  intros Hinit Hr. apply (rtc_ind_r (λ p, inv p.1 p.2) (0%nat, w0) (initial_inv w0 Hinit)) in Hr; [done|].
  intros p p' _ Hs. by apply step_inv.
Qed.

End History.

(** ** Properties

    The callers of this run only keep what they are answered. *)

Section Answers.
Context `{Beast} {J : Type} `{JsonApi J}.
Context {C : Type} `{CacheContract C} {L : Type} `{ILogger L} {S : Type} `{IStatsDClient S}.
Context `{Env}.
Implicit Types w : world C L S ticket answers.

Abbreviation step := (step (J := J) (C := C) (L := L) (S := S) record_answer Datatypes.id Datatypes.id).
Abbreviation initial := (initial (C := C) (L := L) (S := S) (CB := ticket) (X := answers) Datatypes.id).

Lemma answers_inv w0 n w :
  initial w0 → rtc step (0%nat, w0) (n, w) → inv Datatypes.id Datatypes.id n w.
Proof. by apply service_reachable_inv. Qed.

(** C3 (safety): in any run of the service, at any time, a request has been
    answered (or dropped) at most once, and as long as a backend call or a
    posted failure for it is outstanding, not at all; a request that has not
    arrived has neither. *)
Theorem answered_at_most_once w0 n w i
    (Hinit : initial w0) (Hrun : rtc step (0%nat, w0) (n, w)) :
  (delivered i (outer w) + map_sum (waits Datatypes.id i) (clients w) + posted_for Datatypes.id i (posted w) <= 1)%nat
  ∧ ((n <= i)%nat → delivered i (outer w) = 0%nat).
Proof.
  pose proof (answers_inv w0 n w Hinit Hrun) as Hinv. split; [apply (inv_once _ _ _ _ Hinv)|].
  intros Hi. pose proof (inv_new _ _ _ _ Hinv i Hi) as H0'.
  unfold accounted, Datatypes.id in H0'. lia.
Qed.

(** C5 (safety): what the service finds in its cache, at any time of any run,
    is the body of a 200 it has answered before, to a request with the same
    cache key as the cache stores it. *)
Theorem cache_returns_earlier_answers w0 n w key str c'
    (Hinit : initial w0) (Hrun : rtc step (0%nat, w0) (n, w))
    (Hget : CacheInterface.get key (cache_ w) = (Ret (Some str), c')) :
  ∃ t r, (t, Some r) ∈ outer w ∧ result_int r = 200
    ∧ stored_key key = stored_key (key_of t) ∧ str = stored_value (body r).
Proof.
  pose proof (answers_inv w0 n w Hinit Hrun) as Hinv.
  destruct (contract_get key _ (inv_cache _ _ _ _ Hinv)) as (o & c1 & Hget' & _ & _ & Hv).
  rewrite Hget in Hget'. injection Hget' as <- <-.
  by apply (inv_contents _ _ _ _ Hinv), Hv.
Qed.

(** (liveness): the set of active client sessions only grows: whatever
    calls have completed, it holds every session ever started. *)
Theorem client_sessions_never_removed w0 n w
    (Hinit : initial w0) (Hrun : rtc step (0%nat, w0) (n, w)) :
  active_client_sessions_ w = set_seq 0 (next_client w).
Proof. apply (inv_active _ _ _ _ (answers_inv w0 n w Hinit Hrun)). Qed.

End Answers.
