(* ===== verification/HttpServerSession.v ===== *)
(** * HttpServerSession (src/core/HttpServerSession.{hpp,cpp})

    One client connection: read a request, hand it to the service, write the
    answer, read the next. Each method is a computation over the session; the
    asynchronous operations it starts are fields of the state ([dispatched],
    [reading], [service_calls], [writing], the timer), and [step] runs the
    handler of the one that completes. *)

From S2P Require Import Prelude Text Models Logging Http.

Module HttpServerSession.

(** A call of the service whose callback has not run yet. *)
Inductive service_call :=
  | CompanyRequest (req : request) (received : Z)
  | StatusRequest.

(** A handler given to [net::dispatch]. *)
Inductive dispatch := DoRead | Finish.

#[global] Instance dispatch_eq_dec : EqDecision dispatch.
Proof. solve_decision. Defined.

Record t := Session {
  socket_open : bool;
  backendify_service_ : bool;                    (* not null *)
  on_finish_callback_ : bool;                    (* not null *)
  response_queue_ : list (nat * response);       (* with the identity of the shared_ptr *)
  next_response : nat;
  write_in_progress_ : bool;
  current_write_op_completed_ : bool;
  req_ : request;
  request_received_time_ : Z;
  dispatched : list dispatch;
  reading : bool;
  service_calls : list service_call;
  writing : list (nat * bool);                   (* the response and its keep-alive *)
  timer_waiting : bool;
  timer_cancelled : nat;                         (* waits that end with operation_aborted *)
  log_ : logs;
  cerr_ : list string
}.

#[global] Instance t_eta : Eta t := λ s,
  Session (socket_open s) (backendify_service_ s) (on_finish_callback_ s) (response_queue_ s)
    (next_response s) (write_in_progress_ s) (current_write_op_completed_ s) (req_ s)
    (request_received_time_ s) (dispatched s) (reading s) (service_calls s) (writing s)
    (timer_waiting s) (timer_cancelled s) (log_ s) (cerr_ s).

(** What the session sees of the program: its configuration, the printed
    address of the object, and the logger's level. *)
Class SessionEnv := {
  config_ : AppConfig;
  session_addr : string;
  getLogLevel : Z
}.

(** What the operating system answers during one handler. *)
Record os := { now : Z; shutdown_ec : error_code; close_ec : error_code }.

Section Session.
Context `{Beast} `{SessionEnv} (o : os).

Definition log (level : LogLevel) (m : string) : M t unit :=
  modify (λ s, s <| log_ ::= λ l, l ++ [(level, m)] |>).

(** The messages start with the address of the session. *)
Definition say (level : LogLevel) (m : string) : M t unit :=
  log level ("HttpServerSession " +:+ session_addr +:+ m).

Definition complain (m : string) : M t unit := modify (λ s, s <| cerr_ ::= λ l, l ++ [m] |>).

Definition status (r : response) : string := to_string (result_int r).

Definition ctor (service on_finish : bool) : t :=
  (say Models.DEBUG " CONSTRUCTOR called."
     (Session true service on_finish [] 0%nat false false request_default 0 [] false [] [] false
        0%nat [] [])).2.

(** [steady_timer::cancel] and [expires_after]: the pending wait is aborted. *)
Definition timer_cancel : M t unit :=
  modify (λ s, if timer_waiting s
               then s <| timer_waiting := false |> <| timer_cancelled ::= S |> else s).

Definition dtor : M t unit := say Models.DEBUG " DESTRUCTOR called.";; timer_cancel.

Definition run : M t unit :=
  say Models.DEBUG " run() called. Dispatching do_read.";;
  modify (λ s, s <| dispatched ::= λ d, d ++ [DoRead] |>).

Definition stop : M t unit :=
  say Models.DEBUG " stop() called.";;
  modify (λ s, s <| current_write_op_completed_ := true |>);;
  timer_cancel;;
  s ← get_state;
  (if socket_open s then
     (if failed (shutdown_ec o) && bool_decide (shutdown_ec o ≠ not_connected) then
        say Models.CERROR (" socket shutdown error during stop: " +:+ message (shutdown_ec o))
      else mret tt);;
     modify (λ s, s <| socket_open := false |>)
   else mret tt);;
  let ec_socket := if socket_open s then close_ec o else no_error in
  if failed ec_socket && bool_decide (ec_socket ≠ not_connected) then
    say Models.CERROR (" socket close error during stop: " +:+ message ec_socket)
  else if negb (failed ec_socket) then
    say Models.DEBUG " socket closed successfully during stop."
  else mret tt.

Definition do_read : M t unit :=
  say Models.DEBUG " do_read() called.";;
  modify (λ s, s <| request_received_time_ := now o |> <| req_ := request_default |>
                 <| reading := true |>).

Definition do_close : M t unit :=
  say Models.DEBUG "::do_close called.";;
  modify (λ s, s <| current_write_op_completed_ := true |>);;
  timer_cancel;;
  s ← get_state;
  let ec_shutdown := if socket_open s then shutdown_ec o else no_error in
  (if failed ec_shutdown && bool_decide (ec_shutdown ≠ not_connected) then
     say Models.CERROR (" socket shutdown warning in do_close (may be expected): "
       +:+ message ec_shutdown)
   else mret tt);;
  if on_finish_callback_ s then
    say Models.DEBUG "::do_close - dispatching on_finish_callback_.";;
    modify (λ s, s <| on_finish_callback_ := false |> <| dispatched ::= λ d, d ++ [Finish] |>)
  else mret tt.

Definition do_write : M t unit :=
  s ← get_state;
  match response_queue_ s with
  | [] =>
      modify (λ s, s <| write_in_progress_ := false |>);;
      say Models.CERROR "::do_write called with empty queue."
  | (current_response_ptr, res) :: _ =>
      modify (λ s, s <| write_in_progress_ := true |>);;
      say Models.DEBUG ("::do_write - preparing to call http::async_write for queued response. Status: "
        +:+ status res);;
      if negb (socket_open s) then
        say Models.CERROR ("::do_write - SOCKET IS NOT OPEN before async_write. " +:+
          "Clearing queue and closing.");;
        modify (λ s, s <| response_queue_ := [] |> <| write_in_progress_ := false |>);;
        do_close
      else
        modify (λ s, s <| current_write_op_completed_ := false |>);;
        say Models.DEBUG "::do_write - Initiating diagnostic timer (5s).";;
        timer_cancel;;
        modify (λ s, s <| timer_waiting := true |>);;
        modify (λ s, s <| writing ::= λ l, l ++ [(current_response_ptr, keep_alive res)] |>)
  end.

(** The lambda given to [diagnostic_write_timer_.async_wait]. *)
Definition on_timer (ec_timer : error_code) : M t unit :=
  s ← get_state;
  if current_write_op_completed_ s then mret tt
  else if decide (ec_timer = operation_aborted) then
    say Models.DEBUG " diagnostic_write_timer cancelled (operation_aborted)."
  else if failed ec_timer then
    say Models.CERROR (" diagnostic_write_timer error: " +:+ message ec_timer)
  else
    say Models.CERROR (" CRITICAL: diagnostic_write_timer EXPIRED (5s). async_write completion "
      +:+ "handler did not run. Attempting to close session socket.");;
    complain ("HttpServerSession " +:+ session_addr +:+ " CRITICAL: diagnostic_write_timer "
      +:+ "EXPIRED (5s). async_write completion handler did not run.");;
    complain ("[SESS_TIMER_DEBUG] HttpServerSession " +:+ session_addr
      +:+ " diagnostic_write_timer EXPIRED (std::cerr).");;
    modify (λ s, s <| socket_open := false |>);;
    let ec := if socket_open s then close_ec o else no_error in
    if failed ec then
      say Models.CERROR (" diagnostic timer: error closing socket: " +:+ message ec)
    else say Models.DEBUG " diagnostic timer: socket closed.".

Definition discard_oldest (new : response) : M t unit :=
  s ← get_state;
  match response_queue_ s with
  | [] => lift UB                                   (* [front()] of an empty deque *)
  | (_, oldest) :: rest =>
      (if decide (getLogLevel <= LogLevel_to_int Models.WARN) then
         say Models.WARN ("::send_response: Response queue is full (current size "
           +:+ to_string (Z.of_nat (length (response_queue_ s))) +:+ ", max "
           +:+ to_string (max_response_queue_size config_)
           +:+ "). Discarding oldest response (status " +:+ status oldest
           +:+ ") to make space for new response for target '" +:+ target (req_ s)
           +:+ "' (status " +:+ status new +:+ ").")
       else mret tt);;
      modify (λ s, s <| response_queue_ := rest |>)
  end.

(** The queue's size against an [int]: both are converted to [size_t]. *)
Definition queue_full (s : t) : bool :=
  bool_decide (to_u64 (max_response_queue_size config_) <= Z.of_nat (length (response_queue_ s))).

Definition send_response (opt_res : option response) : M t unit :=
  s ← get_state;
  match opt_res with
  | None =>
      say Models.WARN ("::send_response: received nullopt. Request for target '"
        +:+ target (req_ s) +:+ "' will be dropped.");;
      if write_in_progress_ s then
        say Models.DEBUG ("::send_response: request dropped. A write is already in progress "
          +:+ "for a previous response. Letting it complete.")
      else if request_keep_alive (req_version (req_ s)) (fields (req_ s)) then
        say Models.DEBUG ("::send_response: request dropped. Keep-alive. "
          +:+ "Calling do_read() for next request.");;
        do_read
      else
        say Models.DEBUG ("::send_response: request dropped. Not keep-alive. "
          +:+ "Calling do_close().");;
        do_close
  | Some res =>
      (if queue_full s then discard_oldest res else mret tt);;
      say Models.DEBUG ("::send_response called to queue response. Status: " +:+ status res);;
      modify (λ s, s <| response_queue_ ::= λ q, q ++ [(next_response s, res)] |>
                     <| next_response ::= S |>);;
      s ← get_state;
      if write_in_progress_ s then mret tt else do_write
  end.

(** A response of the session itself. *)
Definition plain_response (st : Z) (req : request) (text : string) : response :=
  prepare_payload ((make_response st (req_version req))
    <| server := Some BOOST_BEAST_VERSION_STRING |> <| content_type := Some "text/plain" |>
    <| keep_alive := request_keep_alive (req_version req) (fields req) |>
    <| body := text |>).

Definition target_path (req : request) : string :=
  match find "?" (target req) with
  | Some query_pos => prefix_of query_pos (target req)
  | None => target req
  end.

(** [req] is a reference to [req_]; the company branch moves from it. *)
Definition handle_request : M t unit :=
  s ← get_state;
  let req := req_ s in
  say Models.DEBUG (" handle_request for target: " +:+ target req);;
  if negb (backendify_service_ s) then
    say Models.CERROR ": Backendify service is null.";;
    say Models.DEBUG " handle_request - sending 500 due to null service.";;
    send_response (Some (plain_response 500 req "Internal server error: service not available."))
  else if decide (method req = verb_get ∧ target_path req = "/company") then
    say Models.DEBUG " handle_request - routing to processCompanyRequest.";;
    modify (λ s, s <| req_ := moved_request req |>
                   <| service_calls ::= λ c, c ++ [CompanyRequest req (request_received_time_ s)] |>)
  else if decide (method req = verb_get ∧ target_path req = "/status") then
    say Models.DEBUG " handle_request - routing to processStatusRequest.";;
    modify (λ s, s <| service_calls ::= λ c, c ++ [StatusRequest] |>)
  else
    say Models.DEBUG (" handle_request - target not found: " +:+ target req);;
    say Models.DEBUG " handle_request - sending 404.";;
    send_response (Some (plain_response 404 req
      ("The resource '" +:+ target req +:+ "' was not found."))).

(** The lambdas given to the service as callbacks. *)
Definition on_answer (c : service_call) (opt_res : option response) : M t unit :=
  say Models.DEBUG (" handle_request ("
    +:+ match c with CompanyRequest _ _ => "company" | StatusRequest => "status" end
    +:+ ") - callback received, calling send_response to queue.");;
  send_response opt_res.

(** [async_read] has parsed [req] into [req_]. *)
Definition on_read (ec : error_code) (bytes_transferred : Z) (req : request) : M t unit :=
  modify (λ s, s <| req_ := req |>);;
  if decide (ec = end_of_stream) then
    say Models.DEBUG " on_read: end_of_stream. Calling do_close.";; do_close
  else if failed ec then
    (if decide (ec = operation_aborted) then
       say Models.DEBUG " on_read: operation aborted (likely due to stop() or timer). Calling do_close."
     else say Models.CERROR (" on_read error: " +:+ message ec));;
    do_close
  else
    say Models.DEBUG (" on_read successful. Bytes: " +:+ to_string bytes_transferred
      +:+ ". Handling request for target: " +:+ target req);;
    handle_request.

Definition on_write (keep_alive : bool) (ec : error_code) (bytes_transferred : Z) : M t unit :=
  (if decide (getLogLevel <= LogLevel_to_int Models.DEBUG) then
     log Models.DEBUG ("[ASYNC_WRITE_DEBUG] HttpServerSession " +:+ session_addr
       +:+ " on_write completion handler entered (std::cerr). EC: " +:+ message ec
       +:+ ", KeepAlive: " +:+ boolalpha keep_alive)
   else mret tt);;
  s ← get_state;
  let timer_already_fired_and_acted := current_write_op_completed_ s in
  modify (λ s, s <| current_write_op_completed_ := true |>);;
  timer_cancel;;
  if timer_already_fired_and_acted then
    say Models.CERROR (" on_write handler: current_write_op_completed_ was already true "
      +:+ "(timer likely fired and acted). EC: " +:+ message ec +:+ ". Bytes: "
      +:+ to_string bytes_transferred);;
    (if failed ec then do_close
     else
       say Models.CERROR (" on_write: No error, but timer previously fired. Closing session.");;
       do_close)
  else if failed ec then
    (if decide (ec = operation_aborted) then
       say Models.DEBUG " on_write: operation aborted (likely due to stop() or timer). Calling do_close."
     else say Models.CERROR (" on_write error: " +:+ message ec +:+ ". Bytes transferred: "
       +:+ to_string bytes_transferred));;
    modify (λ s, s <| response_queue_ := [] |> <| write_in_progress_ := false |>);;
    do_close
  else
    say Models.DEBUG (" on_write successful. Bytes transferred: " +:+ to_string bytes_transferred
      +:+ ". Keep-Alive: " +:+ (if keep_alive then "yes" else "no"));;
    (if decide (response_queue_ s = []) then
       say Models.CERROR (" on_write: response_queue_ was empty after successful write. "
         +:+ "This is unexpected.")
     else modify (λ s, s <| response_queue_ ::= tail |>));;
    s ← get_state;
    if decide (response_queue_ s ≠ []) then
      say Models.DEBUG " on_write: more responses in queue, calling do_write again.";; do_write
    else
      modify (λ s, s <| write_in_progress_ := false |>);;
      if negb keep_alive then
        say Models.DEBUG " on_write: not keep-alive and queue empty, calling do_close.";; do_close
      else
        say Models.DEBUG " on_write: keep-alive and queue empty, calling do_read for next request.";;
        do_read.

End Session.

(** ** Completions *)

Inductive event :=
  | Dispatched                                              (* the first dispatched handler *)
  | ReadDone (ec : error_code) (bytes : Z) (req : request)
  | WriteDone (ec : error_code) (bytes : Z)
  | TimerDone (ec : error_code)
  | Respond (opt_res : option response)                     (* the service calls back *)
  | Stop.                                                   (* [stop()] is called *)

Section Step.
Context `{Beast} `{SessionEnv}.

(** The computation an event runs; [None]: it cannot happen in this state. *)
Definition handler (o : os) (e : event) (s : t) : option (M t unit) :=
  match e with
  | Dispatched =>
      match dispatched s with
      | [] => None
      | d :: rest =>
          Some (modify (λ s, s <| dispatched := rest |>);;
                match d with DoRead => do_read o | Finish => mret tt end)
      end
  | ReadDone ec bytes req =>
      if reading s then Some (modify (λ s, s <| reading := false |>);; on_read o ec bytes req)
      else None
  | WriteDone ec bytes =>
      match writing s with
      | [] => None
      | (_, keep_alive) :: rest =>
          Some (modify (λ s, s <| writing := rest |>);; on_write o keep_alive ec bytes)
      end
  | TimerDone ec =>
      if decide (ec = operation_aborted) then
        match timer_cancelled s with
        | O => None
        | S n => Some (modify (λ s, s <| timer_cancelled := n |>);; on_timer o ec)
        end
      else if timer_waiting s then
        Some (modify (λ s, s <| timer_waiting := false |>);; on_timer o ec)
      else None
  | Respond opt_res =>
      match service_calls s with
      | [] => None
      | c :: rest => Some (modify (λ s, s <| service_calls := rest |>);; on_answer o c opt_res)
      end
  | Stop => Some (stop o)
  end.

Inductive step : t -> t -> Prop :=
  | step_event o e s m s' : handler o e s = Some m → m s = (Ret tt, s') → step s s'.

End Step.

End HttpServerSession.
