(* ===== verification/SessionProps.v ===== *)
(** * What a session does

    [core] is the state of a session without its log; each method is first
    reduced to its effect on it. The invariant counts the activities of a
    session: there is exactly one until the session is over. *)

From S2P Require Import Prelude Text Models Logging Http HttpServerSession.
Import HttpServerSession.

Section Session.
Context `{Beast} `{SessionEnv}.

(** ** The methods without their messages *)

Definition core (s : t) : t := s <| log_ := [] |> <| cerr_ := [] |>.

Definition tcancel (s : t) : t :=
  if timer_waiting s then s <| timer_waiting := false |> <| timer_cancelled ::= S |> else s.

Definition close (s : t) : t :=
  let s := tcancel (s <| current_write_op_completed_ := true |>) in
  if on_finish_callback_ s
  then s <| on_finish_callback_ := false |> <| dispatched ::= λ d, d ++ [Finish] |> else s.

Definition read_next (o : os) (s : t) : t :=
  s <| request_received_time_ := now o |> <| req_ := request_default |> <| reading := true |>.

Definition start_write (s : t) : t :=
  match response_queue_ s with
  | [] => s <| write_in_progress_ := false |>
  | (n, res) :: _ =>
      if socket_open s then
        (tcancel (s <| write_in_progress_ := true |> <| current_write_op_completed_ := false |>))
          <| timer_waiting := true |> <| writing ::= λ l, l ++ [(n, keep_alive res)] |>
      else close (s <| response_queue_ := [] |> <| write_in_progress_ := false |>)
  end.

Definition respond (o : os) (opt_res : option response) (s : t) : t :=
  match opt_res with
  | None =>
      if write_in_progress_ s then s
      else if request_keep_alive (req_version (req_ s)) (fields (req_ s)) then read_next o s
      else close s
  | Some res =>
      let s := s <| response_queue_ ::= λ q, q ++ [(next_response s, res)] |>
                 <| next_response ::= S |> in
      if write_in_progress_ s then s else start_write s
  end.

Definition handle (o : os) (s : t) : t :=
  let req := req_ s in
  if negb (backendify_service_ s) then
    respond o (Some (plain_response 500 req "Internal server error: service not available.")) s
  else if decide (method req = verb_get ∧ target_path req = "/company") then
    s <| req_ := moved_request req |>
      <| service_calls ::= λ c, c ++ [CompanyRequest req (request_received_time_ s)] |>
  else if decide (method req = verb_get ∧ target_path req = "/status") then
    s <| service_calls ::= λ c, c ++ [StatusRequest] |>
  else
    respond o (Some (plain_response 404 req
      ("The resource '" +:+ target req +:+ "' was not found."))) s.

Definition read_done (o : os) (ec : error_code) (req : request) (s : t) : t :=
  let s := s <| req_ := req |> in
  if failed ec then close s else handle o s.

Definition write_done (o : os) (ka : bool) (ec : error_code) (s : t) : t :=
  let fired := current_write_op_completed_ s in
  let s := tcancel (s <| current_write_op_completed_ := true |>) in
  if fired then close s
  else if failed ec then close (s <| response_queue_ := [] |> <| write_in_progress_ := false |>)
  else
    let s := s <| response_queue_ ::= tail |> in
    match response_queue_ s with
    | [] =>
        let s := s <| write_in_progress_ := false |> in
        if ka then read_next o s else close s
    | _ => start_write s
    end.

Definition timer_done (ec : error_code) (s : t) : t :=
  if current_write_op_completed_ s || failed ec then s else s <| socket_open := false |>.

Definition stopped (s : t) : t :=
  (tcancel (s <| current_write_op_completed_ := true |>)) <| socket_open := false |>.

(** [m] returns, and its state is [s'] but for the messages. *)
Definition runs (m : M t unit) (s s' : t) : Prop :=
  ∃ s1, m s = (Ret tt, s1) ∧ core s1 = core s'.

Lemma runs_modify f m s s' : runs m (f s) s' → runs (modify f;; m) s s'.
Proof. intros Hr. exact Hr. Qed.

Lemma runs_ret s : runs (mret tt) s s.
Proof. by exists s. Qed.

Ltac split_session s :=
  destruct s as [op sv fin q nr wip cmp rq rt d rd sc wr tw tc lg ce].

Lemma core_close s : core (close s) = close (core s).
Proof. split_session s. by destruct tw, fin. Qed.

Lemma core_read_next o s : core (read_next o s) = read_next o (core s).
Proof. done. Qed.

Lemma core_start_write s : core (start_write s) = start_write (core s).
Proof. split_session s. destruct q as [|[]]; [done|]. by destruct op, tw, fin. Qed.

Lemma core_respond o r s : core (respond o r s) = respond o r (core s).
Proof.
  destruct r as [res|]; cbn.
  - destruct (write_in_progress_ s) eqn:Hw; [done|]. by rewrite core_start_write.
  - destruct (write_in_progress_ s); [done|]. case_match; [done|]. by rewrite core_close.
Qed.

Lemma runs_say level m k s s' :
  runs k (s <| log_ ::= λ l, l ++ [(level, "HttpServerSession " +:+ session_addr +:+ m)] |>) s' →
  runs (say level m;; k) s s'.
Proof. done. Qed.

Lemma close_runs o s : runs (do_close o) s (close s).
Proof.
  unfold runs, do_close, timer_cancel, close, tcancel, say, log, modify, get_state, mbind, M_bind.
  split_session s. destruct tw, fin, op; cbn -[String.append];
    try destruct (failed (shutdown_ec o) && bool_decide (shutdown_ec o ≠ not_connected));
    eexists; split; reflexivity.
Qed.

Lemma read_runs o s : runs (do_read o) s (read_next o s).
Proof. by eexists. Qed.

Lemma start_write_runs o s : runs (do_write o) s (start_write s).
Proof.
  unfold do_write, start_write. split_session s. destruct q as [|[n res] q]; [by eexists|].
  destruct op; [destruct tw; by eexists|].
  unfold runs, say, log, modify, get_state, mbind, M_bind. cbn -[String.append do_close].
  match goal with |- context [do_close o ?s] => destruct (close_runs o s) as (s1 & Hr & Hc) end.
  exists s1. split; [exact Hr|]. rewrite Hc, !core_close. done.
Qed.

Ltac run_body := unfold runs, say, log, complain, modify, get_state, mbind, M_bind, timer_cancel.
Ltac run_cbn := cbn -[String.append do_close do_read do_write send_response handle_request core
  respond handle close start_write read_next plain_response target_path].

(** The computation ends in a call of one of the methods above. *)
Ltac run_tail lem :=
  match goal with
  | |- ∃ s1, ?m ?s = _ ∧ _ =>
      let s1 := fresh in let Hr := fresh in let Hc := fresh in
      destruct (lem s) as (s1 & Hr & Hc); exists s1; split; [exact Hr|rewrite Hc]
  end.

Lemma respond_runs o r s :
  (is_Some r → queue_full s = false) → runs (send_response o r) s (respond o r s).
Proof.
  intros Hq. unfold send_response, respond. destruct r as [res|].
  - specialize (Hq ltac:(eauto)). run_body. run_cbn. rewrite Hq. split_session s. run_cbn.
    destruct wip; run_cbn; [by eexists|].
    run_tail (start_write_runs o). by rewrite !core_start_write.
  - run_body. split_session s. run_cbn. destruct wip; run_cbn; [by eexists|].
    destruct (request_keep_alive (req_version rq) (fields rq)); run_cbn.
    + by run_tail (read_runs o).
    + run_tail (close_runs o). by rewrite !core_close.
Qed.

Lemma core_handle o s : core (handle o s) = handle o (core s).
Proof.
  unfold handle. change (backendify_service_ (core s)) with (backendify_service_ s).
  change (req_ (core s)) with (req_ s).
  destruct (negb (backendify_service_ s)); [apply core_respond|].
  case_decide; [done|]. case_decide; [done|]. apply core_respond.
Qed.

Lemma handle_runs o s : queue_full s = false → runs (handle_request o) s (handle o s).
Proof.
  intros Hq. unfold handle_request, handle. run_body. split_session s. run_cbn.
  destruct sv; run_cbn.
  - case_decide; [by eexists|]. case_decide; [by eexists|]. run_cbn.
    match goal with |- ∃ s1, send_response _ ?r ?s2 = _ ∧ _ =>
      destruct (respond_runs o r s2 (λ _, Hq)) as (s1 & Hr & Hc) end.
    exists s1. split; [exact Hr|]. by rewrite Hc, !core_respond.
  - match goal with |- ∃ s1, send_response _ ?r ?s2 = _ ∧ _ =>
      destruct (respond_runs o r s2 (λ _, Hq)) as (s1 & Hr & Hc) end.
    exists s1. split; [exact Hr|]. by rewrite Hc, !core_respond.
Qed.

Lemma on_read_runs o ec bytes req s :
  queue_full s = false → runs (on_read o ec bytes req) s (read_done o ec req s).
Proof.
  intros Hq. unfold on_read, read_done. run_body. split_session s. run_cbn.
  case_decide as He; [subst ec; change (failed end_of_stream) with true; run_cbn|].
  - run_tail (close_runs o). by rewrite !core_close.
  - destruct (failed ec); run_cbn.
    + case_decide; run_cbn; run_tail (close_runs o); by rewrite !core_close.
    + match goal with |- ∃ s1, handle_request _ ?s2 = _ ∧ _ =>
        destruct (handle_runs o s2 Hq) as (s1 & Hr & Hc) end.
      exists s1. split; [exact Hr|]. by rewrite Hc, !core_handle.
Qed.

Lemma on_timer_runs o ec s : runs (on_timer o ec) s (timer_done ec s).
Proof.
  unfold on_timer, timer_done. run_body. split_session s. run_cbn.
  destruct cmp; [by eexists|]. case_decide as He; [subst ec; by eexists|].
  destruct (failed ec); [by eexists|]. run_cbn.
  destruct op; run_cbn; [destruct (failed (close_ec o))|]; by eexists.
Qed.

Lemma stop_runs o s : runs (stop o) s (stopped s).
Proof.
  unfold stop, stopped, tcancel. run_body. split_session s. run_cbn.
  destruct tw, op; run_cbn;
    try destruct (failed (shutdown_ec o) && bool_decide (shutdown_ec o ≠ not_connected)); run_cbn;
    try destruct (failed (close_ec o) && bool_decide (close_ec o ≠ not_connected)); run_cbn;
    try destruct (negb (failed (close_ec o))); by eexists.
Qed.

Lemma core_tcancel s : core (tcancel s) = tcancel (core s).
Proof. split_session s. by destruct tw. Qed.

Lemma core_write_done o ka ec s : core (write_done o ka ec s) = write_done o ka ec (core s).
Proof.
  unfold write_done. change (current_write_op_completed_ (core s)) with (current_write_op_completed_ s).
  set (s1 := tcancel (s <| current_write_op_completed_ := true |>)).
  assert (Hs1 : core s1 = tcancel ((core s) <| current_write_op_completed_ := true |>))
    by apply core_tcancel.
  rewrite <- Hs1. clearbody s1.
  destruct (current_write_op_completed_ s); [apply core_close|].
  destruct (failed ec); [apply core_close|].
  set (s2 := s1 <| response_queue_ ::= tail |>).
  change ((core s1) <| response_queue_ ::= tail |>) with (core s2).
  change (response_queue_ (core s2)) with (response_queue_ s2). clearbody s2.
  destruct (response_queue_ s2); [|apply core_start_write].
  destruct ka; [done|apply core_close].
Qed.

Lemma on_write_runs o ka ec bytes s : runs (on_write o ka ec bytes) s (write_done o ka ec s).
Proof.
  unfold on_write, write_done, tcancel. run_body. split_session s.
  destruct (decide (getLogLevel <= LogLevel_to_int DEBUG)); destruct cmp, tw; run_cbn.
  all: destruct (failed ec); run_cbn.
  all: try (run_tail (close_runs o); by rewrite !core_close).
  all: try (case_decide; run_cbn; run_tail (close_runs o); by rewrite !core_close).
  all: destruct q as [|p [|p' q]]; run_cbn;
    repeat (first [rewrite decide_True by done|rewrite decide_False by (done || by intros [])]; run_cbn).
  all: try (run_tail (start_write_runs o); by rewrite !core_start_write).
  all: destruct ka; run_cbn; [by run_tail (read_runs o)|run_tail (close_runs o)].
  all: by rewrite !core_close.
Qed.

Lemma answer_runs o c r s :
  (is_Some r → queue_full s = false) → runs (on_answer o c r) s (respond o r s).
Proof.
  intros Hq. unfold on_answer. apply runs_say.
  match goal with |- runs _ ?s2 _ => destruct (respond_runs o r s2 Hq) as (s1 & Hr & Hc) end.
  exists s1. split; [exact Hr|]. rewrite Hc, !core_respond. done.
Qed.

(** ** What an event does *)

Definition effect (o : os) (e : event) (s : t) : option t :=
  match e with
  | Dispatched =>
      match dispatched s with
      | [] => None
      | d :: rest =>
          let s := s <| dispatched := rest |> in
          Some (match d with DoRead => read_next o s | Finish => s end)
      end
  | ReadDone ec bytes req =>
      if reading s then Some (read_done o ec req (s <| reading := false |>)) else None
  | WriteDone ec bytes =>
      match writing s with
      | [] => None
      | (_, ka) :: rest => Some (write_done o ka ec (s <| writing := rest |>))
      end
  | TimerDone ec =>
      if decide (ec = operation_aborted) then
        match timer_cancelled s with
        | O => None
        | S n => Some (s <| timer_cancelled := n |>)
        end
      else if timer_waiting s then Some (timer_done ec (s <| timer_waiting := false |>)) else None
  | Respond r =>
      match service_calls s with
      | [] => None
      | _ :: rest => Some (respond o r (s <| service_calls := rest |>))
      end
  | Stop => Some (stopped s)
  end.

(** The queue has room whenever it is about to be used. *)
Definition has_room (e : event) (s : t) : Prop :=
  match e with ReadDone _ _ _ | Respond _ => queue_full s = false | _ => True end.

Lemma handler_runs o e s :
  has_room e s →
  match handler o e s, effect o e s with
  | Some m, Some s' => runs m s s'
  | None, None => True
  | _, _ => False
  end.
Proof.
  intros Hq. destruct e as [|ec bytes req|ec bytes|ec|r|]; cbn [handler effect] in *.
  - destruct (dispatched s) as [|[] rest]; [done|apply runs_modify, read_runs|apply runs_modify, runs_ret].
  - destruct (reading s); [|done]. by apply runs_modify, on_read_runs.
  - destruct (writing s) as [|[n ka] rest]; [done|]. apply runs_modify, on_write_runs.
  - case_decide as He.
    + subst ec. destruct (timer_cancelled s) as [|n]; [done|].
      destruct (on_timer_runs o operation_aborted (s <| timer_cancelled := n |>)) as (s1 & Hr & Hc).
      exists s1. split; [exact Hr|]. rewrite Hc. unfold timer_done.
      change (failed operation_aborted) with true. by rewrite orb_true_r.
    + destruct (timer_waiting s); [|done]. apply on_timer_runs.
  - destruct (service_calls s) as [|c rest]; [done|]. by apply runs_modify, answer_runs.
  - apply stop_runs.
Qed.

(** ** The invariant *)

Definition count (d : dispatch) (ds : list dispatch) : nat := length (filter (d =.) ds).

(** The operations that will make the session go on. *)
Definition activity (s : t) : nat :=
  (count DoRead (dispatched s) + (if reading s then 1 else 0) + length (service_calls s)
   + length (writing s))%nat.

Definition finished (s : t) : nat := if on_finish_callback_ s then 0%nat else 1%nat.

Record inv (s : t) : Prop := {
  inv_activity : (activity s + finished s = 1)%nat;
  inv_finish : (count Finish (dispatched s) <= finished s)%nat;
  inv_queue : (length (response_queue_ s) <= 1)%nat;
  inv_write : on_finish_callback_ s = true →
    match writing s with
    | [] => response_queue_ s = [] ∧ write_in_progress_ s = false
    | (n, ka) :: _ => ∃ res, response_queue_ s = [(n, res)] ∧ ka = keep_alive res
    end
}.

Lemma inv_core s1 s2 : core s1 = core s2 → inv s1 → inv s2.
Proof.
  intros Hc [H1' H2' H3' H4'].
  assert (H1 : inv (core s1)) by by split. rewrite Hc in H1. destruct H1. by split.
Qed.

(** Between two operations: nothing runs, and the session is not over. *)
Definition idle (s : t) : Prop :=
  activity s = 0%nat ∧ on_finish_callback_ s = true ∧ count Finish (dispatched s) = 0%nat.

Lemma count_app d l1 l2 : count d (l1 ++ l2) = (count d l1 + count d l2)%nat.
Proof. unfold count. by rewrite filter_app, length_app. Qed.

Lemma count_cons d d' l : count d (d' :: l) = ((if decide (d = d') then 1 else 0) + count d l)%nat.
Proof. unfold count. rewrite filter_cons. by case_decide. Qed.

Lemma count_cons_eq d l : count d (d :: l) = S (count d l).
Proof. by rewrite count_cons, decide_True. Qed.

Lemma count_cons_ne d d' l : d ≠ d' → count d (d' :: l) = count d l.
Proof. intros. by rewrite count_cons, decide_False. Qed.

Ltac idle_tac := unfold idle, activity, finished in *; cbn -[count] in *.

Lemma close_ok s : idle s → (length (response_queue_ s) <= 1)%nat → inv (close s).
Proof.
  intros (Ha & Hf & Hc) Hq. unfold close, tcancel.
  destruct (timer_waiting _); cbn -[count]; rewrite Hf; split; idle_tac; rewrite ?count_app;
    change (count DoRead [Finish]) with 0%nat; change (count Finish [Finish]) with 1%nat;
    try done; lia.
Qed.

Lemma read_ok o s : idle s → response_queue_ s = [] → write_in_progress_ s = false → inv (read_next o s).
Proof.
  intros (Ha & Hf & Hc) Hq Hw. split; idle_tac; rewrite ?Hf, ?Hq; cbn -[count]; try lia.
  destruct (writing s) as [|[]]; [done|]. cbn in Ha. lia.
Qed.

Lemma start_write_ok s n res : idle s → response_queue_ s = [(n, res)] → inv (start_write s).
Proof.
  intros (Ha & Hf & Hc) Hq. unfold start_write. rewrite Hq. destruct (socket_open s).
  - unfold tcancel. assert (Hw : writing s = []) by (idle_tac; destruct (writing s); cbn in *; [done|lia]).
    destruct (timer_waiting _); cbn -[count]; split; idle_tac; rewrite ?Hf, ?Hq, ?Hw in *; cbn in *; try lia;
      intros _; by exists res.
  - apply close_ok; [|cbn; lia]. by split_and!.
Qed.

Lemma respond_ok o r s :
  idle s → response_queue_ s = [] → write_in_progress_ s = false → inv (respond o r s).
Proof.
  intros Hi Hq Hw. unfold respond. destruct r as [res|].
  - cbn. rewrite Hw. eapply start_write_ok; [exact Hi|cbn; by rewrite Hq].
  - rewrite Hw. case_match; [by apply read_ok|]. apply close_ok; [done|rewrite Hq; cbn; lia].
Qed.

Lemma inv_idle s : inv s → (1 <= activity s)%nat → on_finish_callback_ s = true ∧ activity s = 1%nat
  ∧ count Finish (dispatched s) = 0%nat.
Proof.
  intros [H1' H2' _ _] Ha. unfold finished in *. destruct (on_finish_callback_ s); split_and!; try done; lia.
Qed.

Lemma handle_ok o s :
  idle s → response_queue_ s = [] → write_in_progress_ s = false → writing s = [] → inv (handle o s).
Proof.
  intros Hi Hq Hw Hwr. unfold handle. destruct (negb _); [by apply respond_ok|].
  destruct Hi as (Ha & Hf & Hc).
  repeat case_decide; [| |by apply respond_ok];
    split; idle_tac; rewrite ?length_app; cbn; rewrite ?Hf, ?Hq, ?Hwr in *; cbn; try done; lia.
Qed.

Lemma write_done_ok o ka ec n ka' rest s :
  inv s → writing s = (n, ka') :: rest → inv (write_done o ka ec (s <| writing := rest |>)).
Proof.
  intros Hinv Hw. destruct (inv_idle s Hinv) as (Hf & Ha & Hc).
  { unfold activity. rewrite Hw. cbn. lia. }
  pose proof (inv_write _ Hinv Hf) as Hq. rewrite Hw in Hq. destruct Hq as (res & Hq & _).
  assert (Hidle : ∀ b, idle (tcancel ((s <| writing := rest |>) <| current_write_op_completed_ := b |>))).
  { intros b. unfold tcancel. destruct (timer_waiting _); unfold idle, activity in *; cbn -[count];
      rewrite Hw in Ha; cbn -[count] in Ha; split_and!; try done; lia. }
  assert (Hqueue : ∀ b, response_queue_ (tcancel ((s <| writing := rest |>)
      <| current_write_op_completed_ := b |>)) = [(n, res)]).
  { intros b. unfold tcancel. by destruct (timer_waiting _). }
  unfold write_done. specialize (Hidle true). specialize (Hqueue true).
  set (s1 := tcancel _) in *. clearbody s1.
  destruct (current_write_op_completed_ _); [apply close_ok; [done|by rewrite Hqueue]|].
  destruct (failed ec); [apply close_ok; [done|cbn; lia]|].
  cbn -[close read_next]. rewrite Hqueue. cbn -[close read_next].
  destruct ka; [apply read_ok; [done|done|done]|]. apply close_ok; [done|cbn; lia].
Qed.

Lemma timer_ok ec s : inv s → inv (timer_done ec s).
Proof.
  intros [H1' H2' H3' H4']. unfold timer_done.
  destruct (_ || _); split; [exact H1'|exact H2'|exact H3'|exact H4'|exact H1'|exact H2'|exact H3'|exact H4'].
Qed.

Lemma effect_ok o e s s' : effect o e s = Some s' → inv s → inv s'.
Proof.
  intros He Hinv. destruct e as [|ec bytes req|ec bytes|ec|r|]; cbn [effect] in He.
  - destruct (dispatched s) as [|[] rest] eqn:Hd; simplify_eq.
    + destruct (inv_idle s Hinv) as (Hf & Ha & Hc).
      { unfold activity. rewrite Hd, count_cons_eq. lia. }
      pose proof (inv_write _ Hinv Hf) as Hq. unfold activity in Ha.
      rewrite Hd, count_cons_eq in Ha. rewrite Hd, count_cons_ne in Hc by done.
      destruct (writing s) as [|[]] eqn:Hw; [|cbn in Ha; lia].
      apply read_ok; try apply Hq. unfold idle, activity. cbn -[count]. rewrite ?Hw. cbn -[count].
      cbn -[count] in Ha. split_and!; try done; lia.
    + destruct Hinv as [H1' H2' H3' H4']. unfold activity, finished in *.
      rewrite Hd, count_cons_ne in H1' by done. rewrite Hd, count_cons_eq in H2'.
      split; unfold activity, finished; cbn -[count]; try done; lia.
  - destruct (reading s) eqn:Hr; simplify_eq.
    destruct (inv_idle s Hinv) as (Hf & Ha & Hc); [unfold activity; rewrite Hr; lia|].
    pose proof (inv_write _ Hinv Hf) as Hq. unfold activity in Ha. rewrite Hr in Ha.
    destruct (writing s) as [|[]] eqn:Hw; [|cbn in Ha; lia]. destruct Hq as [Hq Hwip].
    assert (Hidle : idle ((s <| reading := false |>) <| req_ := req |>)).
    { unfold idle, activity. cbn -[count]. rewrite ?Hw. split_and!; try done. lia. }
    unfold read_done. cbv zeta. set (s1 := (s <| reading := false |>) <| req_ := req |>) in *.
    destruct (failed ec).
    + apply close_ok; [exact Hidle|]. cbn. rewrite Hq. cbn. lia.
    + by apply handle_ok.
  - destruct (writing s) as [|[n ka] rest] eqn:Hw; simplify_eq. by eapply write_done_ok.
  - repeat case_match; simplify_eq; [destruct Hinv; by split|].
    apply timer_ok. destruct Hinv; by split.
  - destruct (service_calls s) as [|c rest] eqn:Hs; simplify_eq.
    destruct (inv_idle s Hinv) as (Hf & Ha & Hc); [unfold activity; rewrite Hs; cbn; lia|].
    pose proof (inv_write _ Hinv Hf) as Hq. unfold activity in Ha. rewrite Hs in Ha. cbn -[count] in Ha.
    destruct (writing s) as [|[]] eqn:Hw; [|cbn in Ha; lia]. destruct Hq as [Hq Hwip].
    apply respond_ok; try done. unfold idle, activity. cbn -[count]. rewrite ?Hw. cbn -[count].
    cbn -[count] in Ha. split_and!; try done; lia.
  - simplify_eq. destruct Hinv as [H1' H2' H3' H4']. unfold stopped, tcancel.
    destruct (timer_waiting _); by split.
Qed.

(** ** Reachable sessions *)

(** A session after [run()], with a listener for its end. *)
Definition started (service : bool) : t := (run (ctor service true)).2.

Lemma started_inv service : inv (started service).
Proof. split; [reflexivity|by apply Nat.le_0_l|by apply Nat.le_0_l|done]. Qed.

Lemma enabled_room o e s m :
  0 < to_u64 (max_response_queue_size config_) → inv s → handler o e s = Some m → has_room e s.
Proof.
  intros Hmax Hinv Hh.
  assert (Hroom : (1 <= activity s)%nat → writing s = [] → queue_full s = false).
  { intros Ha Hw. destruct (inv_idle s Hinv Ha) as (Hf & _). pose proof (inv_write _ Hinv Hf) as Hq.
    rewrite Hw in Hq. destruct Hq as [Hq _]. unfold queue_full. rewrite Hq.
    apply bool_decide_eq_false. cbn. lia. }
  destruct e as [|ec bytes req|ec bytes|ec|r|]; try done; cbn in *.
  - destruct (reading s) eqn:Hr; [|done]. assert (Ha : (1 <= activity s)%nat).
    { unfold activity. rewrite Hr. lia. }
    apply Hroom; [done|]. destruct (inv_idle s Hinv Ha) as (_ & Ha' & _).
    unfold activity in Ha'. rewrite Hr in Ha'. destruct (writing s); [done|cbn in Ha'; lia].
  - destruct (service_calls s) as [|c rest] eqn:Hs; [done|]. assert (Ha : (1 <= activity s)%nat).
    { unfold activity. rewrite Hs. cbn. lia. }
    apply Hroom; [done|]. destruct (inv_idle s Hinv Ha) as (_ & Ha' & _).
    unfold activity in Ha'. rewrite Hs in Ha'. destruct (writing s); [done|cbn in Ha'; lia].
Qed.

Lemma handler_effect o e s m :
  0 < to_u64 (max_response_queue_size config_) → inv s → handler o e s = Some m →
  ∃ s1 s', m s = (Ret tt, s1) ∧ effect o e s = Some s' ∧ core s1 = core s' ∧ inv s1.
Proof.
  intros Hmax Hinv Hh. pose proof (handler_runs o e s (enabled_room o e s m Hmax Hinv Hh)) as Hr.
  rewrite Hh in Hr. destruct (effect o e s) as [s'|] eqn:He; [|done].
  destruct Hr as (s1 & Hm & Hc). exists s1, s'. split_and!; try done.
  apply (inv_core s'); [done|]. by eapply effect_ok.
Qed.

Lemma session_reachable_inv service s :
  0 < to_u64 (max_response_queue_size config_) → rtc step (started service) s → inv s.
Proof.
  intros Hmax Hr. apply (rtc_ind_r inv) in Hr; [done|apply started_inv|].
  intros s1 s2 _ [o e s3 m s4 Hh Hm] Hinv.
  destruct (handler_effect o e s3 m Hmax Hinv Hh) as (s5 & s' & Hm' & _ & _ & Hi).
  rewrite Hm in Hm'. by injection Hm' as ->.
Qed.

(** Runs a sequence of events. *)
Fixpoint run_events (es : list (os * event)) (s : t) : option t :=
  match es with
  | [] => Some s
  | (o, e) :: es =>
      m ← handler o e s;
      match m s with
      | (Ret tt, s') => run_events es s'
      | _ => None
      end
  end.

Lemma run_events_reachable es s s' : run_events es s = Some s' → rtc step s s'.
Proof.
  revert s. induction es as [|[o e] es IH]; intros s; cbn; [by intros [= ->]|].
  destruct (handler o e s) as [m|] eqn:Hh; cbn; [|done].
  destruct (m s) as [[[]|err|] s1] eqn:Hm; [|done..]. intros Hr.
  eapply rtc_l; [by econstructor|by apply IH].
Qed.

(** ** Properties *)

(** C8 (invariant): whatever the network, the service and the shutdown do, a
    session that is not over has exactly one thing going on: a read to start,
    a read, a call of the service or a write; so requests are handled one
    after the other, no more than one response is queued, and no handler ever
    meets an empty queue or any other undefined behaviour. *)
Theorem session_one_activity service s
    (Hmax : 0 < to_u64 (max_response_queue_size config_))
    (Hrun : rtc step (started service) s) :
  (activity s + finished s = 1)%nat
  ∧ (length (response_queue_ s) <= 1)%nat
  ∧ ∀ o e m, handler o e s = Some m → ∃ s', m s = (Ret tt, s').
Proof.
  pose proof (session_reachable_inv service s Hmax Hrun) as Hinv. split; [apply Hinv|]. split; [apply Hinv|].
  intros o e m Hh. destruct (handler_effect o e s m Hmax Hinv Hh) as (s1 & _ & Hm & _). by exists s1.
Qed.

(** (functional): the answer to a request is written at once, alone, with
    its own keep-alive; if the socket is closed by then, nothing is written
    and the session is over. *)
Theorem session_writes_answer service o s m r
    (Hmax : 0 < to_u64 (max_response_queue_size config_))
    (Hrun : rtc step (started service) s)
    (Hh : handler o (Respond (Some r)) s = Some m) :
  ∃ s', m s = (Ret tt, s')
    ∧ if socket_open s
      then response_queue_ s' = [(next_response s, r)]
           ∧ writing s' = [(next_response s, keep_alive r)] ∧ timer_waiting s' = true
      else response_queue_ s' = [] ∧ writing s' = [] ∧ finished s' = 1%nat.
Proof.
  pose proof (session_reachable_inv service s Hmax Hrun) as Hinv.
  destruct (handler_effect o _ s m Hmax Hinv Hh) as (s1 & s' & Hm & He & Hc & _).
  exists s1. split; [done|]. cbn [effect] in He.
  destruct (service_calls s) as [|c rest] eqn:Hs; [done|]. injection He as <-.
  assert (Ha : (1 <= activity s)%nat) by (unfold activity; rewrite Hs; cbn; lia).
  destruct (inv_idle s Hinv Ha) as (Hf & Ha' & _). pose proof (inv_write _ Hinv Hf) as Hq.
  unfold activity in Ha'. rewrite Hs in Ha'. cbn in Ha'.
  destruct (writing s) as [|[]] eqn:Hw; [|cbn in Ha'; lia]. destruct Hq as [Hq Hwip].
  change (finished s1) with (finished (core s1)).
  change (response_queue_ s1) with (response_queue_ (core s1)).
  change (writing s1) with (writing (core s1)). change (timer_waiting s1) with (timer_waiting (core s1)).
  rewrite Hc. split_session s. cbn in Hq, Hwip, Hf, Hw. subst. cbn. destruct op, tw; done.
Qed.

(** (error): a company request that the service drops leaves the decision
    to close or to go on to a request that has been moved from: the client's
    Connection header is not looked at, only the version. *)
Theorem session_drop_ignores_connection service o1 o2 s bytes req
    (Hmax : 0 < to_u64 (max_response_queue_size config_))
    (Hrun : rtc step (started service) s) (Hr : reading s = true)
    (Hs : backendify_service_ s = true)
    (Hget : method req = verb_get ∧ target_path req = "/company") :
  ∃ m1 s1 m2 s2, handler o1 (ReadDone no_error bytes req) s = Some m1 ∧ m1 s = (Ret tt, s1)
    ∧ handler o2 (Respond None) s1 = Some m2 ∧ m2 s1 = (Ret tt, s2)
    ∧ reading s2 = request_keep_alive (req_version req) [].
Proof.
  pose proof (session_reachable_inv service s Hmax Hrun) as Hinv.
  assert (Ha : (1 <= activity s)%nat) by (unfold activity; rewrite Hr; lia).
  destruct (inv_idle s Hinv Ha) as (Hf & Ha' & _). pose proof (inv_write _ Hinv Hf) as Hq.
  unfold activity in Ha'. rewrite Hr in Ha'.
  destruct (writing s) as [|[]] eqn:Hw; [|cbn in Ha'; lia]. destruct Hq as [Hq Hwip].
  assert (Hsc : service_calls s = []) by (destruct (service_calls s); [done|cbn in Ha'; lia]).
  destruct (handler o1 (ReadDone no_error bytes req) s) as [m1|] eqn:Hh1;
    [|unfold handler in Hh1; by rewrite Hr in Hh1].
  destruct (handler_effect o1 _ s m1 Hmax Hinv Hh1) as (s1 & s' & Hm & He & Hc & Hi1).
  cbn [effect] in He. rewrite Hr in He. injection He as <-.
  assert (Hs1 : service_calls s1 = [CompanyRequest req (request_received_time_ s)]
    ∧ write_in_progress_ s1 = false ∧ req_ s1 = moved_request req ∧ reading s1 = false).
  { change (service_calls s1) with (service_calls (core s1)).
    change (write_in_progress_ s1) with (write_in_progress_ (core s1)).
    change (req_ s1) with (req_ (core s1)). change (reading s1) with (reading (core s1)).
    rewrite Hc. unfold read_done, handle. cbn -[target_path]. rewrite Hs. cbn -[target_path].
    rewrite decide_True by done. cbn. by rewrite Hsc. }
  destruct Hs1 as (Hs1 & Hw1 & Hreq & Hrd).
  destruct (handler o2 (Respond None) s1) as [m2|] eqn:Hh2;
    [|unfold handler in Hh2; by rewrite Hs1 in Hh2].
  destruct (handler_effect o2 _ s1 m2 Hmax Hi1 Hh2) as (s2 & s2' & Hm2 & He2 & Hc2 & _).
  exists m1, s1, m2, s2. split_and!; try done. cbn [effect] in He2. rewrite Hs1 in He2.
  injection He2 as <-. change (reading s2) with (reading (core s2)). rewrite Hc2. unfold respond. cbn.
  rewrite Hw1, Hreq. cbn. destruct (request_keep_alive (req_version req) []); [done|].
  unfold close, tcancel. cbn. by destruct (timer_waiting s1), (on_finish_callback_ s1).
Qed.

(** (safety): the diagnostic timer leaves no mark: when it expires during a
    write it closes the socket, but [on_write] does not take its branch for a
    timer that has fired: a write that still ends well is handled as any
    other, and the next read is started on the closed socket. *)
Theorem diagnostic_timer_leaves_no_mark service o1 o2 s n bytes
    (Hmax : 0 < to_u64 (max_response_queue_size config_))
    (Hrun : rtc step (started service) s)
    (Hw : writing s = [(n, true)]) (Hc : current_write_op_completed_ s = false)
    (Ht : timer_waiting s = true) :
  ∃ m1 s1 m2 s2, handler o1 (TimerDone no_error) s = Some m1 ∧ m1 s = (Ret tt, s1)
    ∧ socket_open s1 = false ∧ current_write_op_completed_ s1 = false
    ∧ handler o2 (WriteDone no_error bytes) s1 = Some m2 ∧ m2 s1 = (Ret tt, s2)
    ∧ reading s2 = true ∧ socket_open s2 = false.
Proof.
  pose proof (session_reachable_inv service s Hmax Hrun) as Hinv.
  assert (Ha : (1 <= activity s)%nat) by (unfold activity; rewrite Hw; cbn; lia).
  destruct (inv_idle s Hinv Ha) as (Hf & _). pose proof (inv_write _ Hinv Hf) as Hq.
  rewrite Hw in Hq. destruct Hq as (res & Hq & _).
  destruct (handler o1 (TimerDone no_error) s) as [m1|] eqn:Hh1;
    [|unfold handler in Hh1; rewrite decide_False in Hh1 by done; by rewrite Ht in Hh1].
  destruct (handler_effect o1 _ s m1 Hmax Hinv Hh1) as (s1 & s' & Hm1 & He & Hc1 & Hi1).
  cbn [effect] in He. rewrite decide_False in He by done. rewrite Ht in He. injection He as <-.
  unfold timer_done in Hc1. cbn in Hc1. rewrite Hc in Hc1.
  change (failed no_error) with false in Hc1. cbn in Hc1.
  assert (Hw1 : writing s1 = [(n, true)] ∧ socket_open s1 = false
    ∧ current_write_op_completed_ s1 = false ∧ response_queue_ s1 = [(n, res)]).
  { change (writing s1) with (writing (core s1)). change (socket_open s1) with (socket_open (core s1)).
    change (current_write_op_completed_ s1) with (current_write_op_completed_ (core s1)).
    change (response_queue_ s1) with (response_queue_ (core s1)). by rewrite Hc1. }
  destruct Hw1 as (Hw1 & Ho1 & Hcm1 & Hq1).
  destruct (handler o2 (WriteDone no_error bytes) s1) as [m2|] eqn:Hh2;
    [|unfold handler in Hh2; by rewrite Hw1 in Hh2].
  destruct (handler_effect o2 _ s1 m2 Hmax Hi1 Hh2) as (s2 & s2' & Hm2 & He2 & Hc2 & _).
  exists m1, s1, m2, s2. split_and!; try done.
  - change (reading s2) with (reading (core s2)). cbn [effect] in He2. rewrite Hw1 in He2.
    injection He2 as <-. rewrite Hc2. split_session s1. cbn in *. subst.
    unfold write_done. by destruct tw.
  - change (socket_open s2) with (socket_open (core s2)). cbn [effect] in He2. rewrite Hw1 in He2.
    injection He2 as <-. rewrite Hc2. split_session s1. cbn in *. subst.
    unfold write_done. by destruct tw.
Qed.

End Session.

(** ** Witnesses *)

Section Witnesses.
#[local] Existing Instance example_beast.
#[local] Instance example_env : SessionEnv :=
  {| config_ := AppConfig_default; session_addr := "0x1"; getLogLevel := 0 |}.

Definition example_os : os := {| now := 5; shutdown_ec := no_error; close_ec := no_error |}.
Definition example_request (path : string) : request :=
  Request verb_get path 11 [("Connection", "close")] "".

Definition to_read : list (os * event) := [(example_os, Dispatched)].
Definition to_call : list (os * event) :=
  to_read ++ [(example_os, ReadDone no_error 80 (example_request "/status"))].
Definition to_write : list (os * event) :=
  to_call ++ [(example_os, Respond (Some (make_response 200 11)))].

Definition session_after (es : list (os * event)) : t :=
  default (started true) (run_events es (started true)).

Lemma session_after_reachable es :
  is_Some (run_events es (started true)) → rtc step (started true) (session_after es).
Proof. intros [s Hs]. unfold session_after. rewrite Hs. by eapply run_events_reachable. Qed.

Lemma example_room : 0 < to_u64 (max_response_queue_size config_).
Proof. reflexivity. Qed.

Lemma session_one_activity_witness : activity (session_after to_write) = 1%nat.
Proof.
  assert (H : (activity (session_after to_write) + finished (session_after to_write) = 1)%nat).
  { apply (session_one_activity true); [apply example_room|]. apply session_after_reachable.
    vm_compute. eauto. }
  exact H.
Defined.

Lemma session_writes_answer_witness :
  ∃ m s', handler example_os (Respond (Some (make_response 200 11))) (session_after to_call) = Some m
    ∧ m (session_after to_call) = (Ret tt, s') ∧ writing s' = [(0%nat, true)].
Proof.
  eexists _. 
  destruct (session_writes_answer true example_os (session_after to_call) _ (make_response 200 11)
    example_room (session_after_reachable to_call ltac:(vm_compute; eauto)) eq_refl) as (s' & Hm & H).
  exists s'. split; [reflexivity|]. split; [exact Hm|]. exact (proj1 (proj2 H)).
Defined.

Lemma session_drop_ignores_connection_witness :
  request_keep_alive 11 [("Connection", "close")] = false ∧
  ∃ s2, reading s2 = true.
Proof.
  split; [reflexivity|].
  destruct (session_drop_ignores_connection true example_os example_os (session_after to_read) 80
    (example_request "/company?id=1&country_iso=us") example_room
    (session_after_reachable to_read ltac:(vm_compute; eauto)) eq_refl eq_refl
    ltac:(split; reflexivity)) as (_ & _ & _ & s2 & _ & _ & _ & _ & Hr).
  exists s2. exact Hr.
Defined.

Lemma diagnostic_timer_leaves_no_mark_witness :
  ∃ s2, reading s2 = true ∧ socket_open s2 = false.
Proof.
  destruct (diagnostic_timer_leaves_no_mark true example_os example_os (session_after to_write) 0 12
    example_room (session_after_reachable to_write ltac:(vm_compute; eauto)) eq_refl eq_refl eq_refl)
    as (_ & _ & _ & s2 & _ & _ & _ & _ & _ & _ & Hr & Ho).
  by exists s2.
Defined.

End Witnesses.
