(* ===== verification/BeastHttpServer.v ===== *)
(** * BeastHttpServer (src/core/BeastHttpServer.{hpp,cpp})

    The acceptor and the set of active sessions, composed with the sessions of
    HttpServerSession.v: [sessions] is the heap of the sessions ever made, by
    identity, [active_sessions_] is the program's own set. A step is the
    completion of an accept, an event of one session (whose completion handler
    [on_session_finish] runs with the dispatched [Finish]), or [stop()]. *)

From S2P Require Import Prelude Text Models Logging Http HttpServerSession.

Module BeastHttpServer.

Record t := Server {
  acceptor_open : bool;
  accepting : nat;                              (* async_accept operations under way *)
  active_sessions_ : gset nat;
  sessions : gmap nat HttpServerSession.t;
  next_session : nat;
  log_ : logs
}.

#[global] Instance t_eta : Eta t := λ s,
  Server (acceptor_open s) (accepting s) (active_sessions_ s) (sessions s) (next_session s)
    (log_ s).

(** The object before the body of its constructor. *)
Definition members : t := Server false 0%nat ∅ ∅ 0%nat [].

(** The error codes of the four calls on the acceptor. *)
Record acceptor_os := { open_ec : error_code; set_option_ec : error_code;
                        bind_ec : error_code; listen_ec : error_code }.

(** What the calls of [stop()] answer, those of the sessions included. *)
Record stop_os := { accept_cancel_ec : error_code; accept_close_ec : error_code;
                    session_os : nat -> HttpServerSession.os }.

(** The configuration, the level of the logger, and the printed address of
    each session object. *)
Class ServerEnv := {
  config_ : AppConfig;
  log_level : Z;
  session_address : nat -> string
}.

Section Server.
Context `{Beast} `{ServerEnv}.

(** What the session [id] sees of the program. *)
Definition session_env (id : nat) : HttpServerSession.SessionEnv := {|
  HttpServerSession.config_ := config_;
  HttpServerSession.session_addr := session_address id;
  HttpServerSession.getLogLevel := log_level
|}.

Definition log (level : LogLevel) (m : string) : M t unit :=
  modify (λ s, s <| log_ ::= λ l, l ++ [(level, m)] |>).

(** [if (ec) { logger_->error(...); throw std::runtime_error(...); }] *)
Definition check (ec : error_code) (logged thrown : string) : M t unit :=
  if failed ec then
    log Models.CERROR (logged +:+ message ec);;
    throw (Exn RuntimeError (thrown +:+ message ec))
  else mret tt.

Definition ctor (o : acceptor_os) : M t unit :=
  check (open_ec o) "BeastHttpServer open acceptor error: " "Failed to open acceptor: ";;
  modify (λ s, s <| acceptor_open := true |>);;
  check (set_option_ec o) "BeastHttpServer set_option error: " "Failed to set_option: ";;
  check (bind_ec o) "BeastHttpServer bind error: " "Failed to bind: ";;
  check (listen_ec o) "BeastHttpServer listen error: " "Failed to listen: ".

Definition do_accept : M t unit := modify (λ s, s <| accepting ::= S |>).

Definition run : M t unit := do_accept.

(** A method of the session [id]. *)
Definition on_session {A} (id : nat) (m : M HttpServerSession.t A) : M t A := λ s,
  match sessions s !! id with
  | Some x => let '(r, x) := m x in (r, s <| sessions ::= <[id := x]> |>)
  | None => (UB, s)
  end.

Definition on_accept (ec : error_code) : M t unit :=
  if failed ec then
    log Models.CERROR ("BeastHttpServer accept error: " +:+ message ec);;
    if decide (ec ≠ operation_aborted) then do_accept else mret tt
  else
    s ← get_state;
    let session := next_session s in
    modify (λ s, s <| sessions ::= <[session :=
                        @HttpServerSession.ctor (session_env session) true true]> |>
                   <| next_session ::= S |>);;
    modify (λ s, s <| active_sessions_ ::= λ a, {[ session ]} ∪ a |>);;
    log Models.DEBUG ("BeastHttpServer::on_accept - created and added session "
      +:+ session_address session +:+ " to active set.");;
    log Models.DEBUG ("BeastHttpServer::on_accept - calling run() for session "
      +:+ session_address session);;
    on_session session (@HttpServerSession.run (session_env session));;
    do_accept.

Definition on_session_finish (session : nat) : M t unit :=
  log Models.DEBUG ("BeastHttpServer::on_session_finish - ENTERING for session "
    +:+ session_address session);;
  s ← get_state;
  let found := bool_decide (session ∈ active_sessions_ s) in
  modify (λ s, s <| active_sessions_ ::= λ a, a ∖ {[ session ]} |>);;
  s ← get_state;
  let count := to_string (Z.of_nat (size (active_sessions_ s))) in
  if (found : bool) then
    log Models.DEBUG ("BeastHttpServer::on_session_finish - successfully removed session "
      +:+ session_address session +:+ " from active set. Active sessions count: " +:+ count)
  else
    log Models.CERROR ("BeastHttpServer::on_session_finish - session "
      +:+ session_address session +:+ " was NOT FOUND in active set for removal. "
      +:+ "Active sessions count: " +:+ count).

(** [for (const auto& session_ptr : active_sessions_) session_ptr->stop();] *)
Fixpoint stop_sessions (o : nat -> HttpServerSession.os) (ids : list nat) : M t unit :=
  match ids with
  | [] => mret tt
  | id :: ids =>
      on_session id (@HttpServerSession.stop _ (session_env id) (o id));; stop_sessions o ids
  end.

(** Cancelling or closing the acceptor ends a pending [async_accept]; its
    handler runs later, with the error. *)
Definition stop (o : stop_os) : M t unit :=
  log Models.INFO "BeastHttpServer stopping...";;
  (if failed (accept_cancel_ec o) then
     log Models.CERROR ("BeastHttpServer acceptor cancel error: " +:+ message (accept_cancel_ec o))
   else mret tt);;
  modify (λ s, s <| acceptor_open := false |>);;
  (if failed (accept_close_ec o) then
     log Models.CERROR ("BeastHttpServer acceptor close error: " +:+ message (accept_close_ec o))
   else mret tt);;
  log Models.INFO "BeastHttpServer stopped accepting new connections.";;
  s ← get_state;
  stop_sessions (session_os o) (elements (active_sessions_ s));;
  modify (λ s, s <| active_sessions_ := ∅ |>).

(** ** Events *)

Inductive event :=
  | Accepted (ec : error_code)
  | SessionEvent (id : nat) (o : HttpServerSession.os) (e : HttpServerSession.event)
  | StopServer (o : stop_os).

(** The first handler the session has dispatched is its completion handler. *)
Definition finishing (x : HttpServerSession.t) (e : HttpServerSession.event) : bool :=
  match e, HttpServerSession.dispatched x with
  | HttpServerSession.Dispatched, HttpServerSession.Finish :: _ => true
  | _, _ => false
  end.

(** The computation an event runs; [None]: it cannot happen in this state. A
    session is stopped by [stop] alone. *)
Definition handler (e : event) (s : t) : option (M t unit) :=
  match e with
  | Accepted ec =>
      match accepting s with
      | O => None
      | S n => Some (modify (λ s, s <| accepting := n |>);; on_accept ec)
      end
  | SessionEvent _ _ HttpServerSession.Stop => None
  | SessionEvent id o e =>
      x ← sessions s !! id;
      m ← @HttpServerSession.handler _ (session_env id) o e x;
      Some (on_session id m;; if finishing x e then on_session_finish id else mret tt)
  | StopServer o => Some (stop o)
  end.

Inductive step : event -> t -> t -> Prop :=
  | step_event e s m s' : handler e s = Some m → m s = (Ret tt, s') → step e s s'.

(** A history of the server, from its start. *)
Inductive history (s0 : t) : list event -> t -> Prop :=
  | history_start : history s0 [] s0
  | history_step es e s s' : history s0 es s → step e s s' → history s0 (es ++ [e]) s'.

End Server.

End BeastHttpServer.
