(* ===== verification/ServerProps.v ===== *)
(** * What the server does

    The sessions inside the server are the sessions of SessionProps.v; the set
    of active sessions is exact until [stop()]; one accept is always under way. *)

From S2P Require Import Prelude Text Models Logging Http HttpServerSession SessionProps BeastHttpServer.
Import BeastHttpServer.

(** The completion handler of the session has still to run. *)
Definition pending (x : HttpServerSession.t) : bool :=
  HttpServerSession.on_finish_callback_ x
  || bool_decide (HttpServerSession.Finish ∈ HttpServerSession.dispatched x).

Section PendingSessions.
Import HttpServerSession.
Context `{Beast} `{SessionEnv}.

Lemma pending_same x x' :
  on_finish_callback_ x' = on_finish_callback_ x → dispatched x' = dispatched x →
  pending x' = pending x.
Proof. intros H1 H2. unfold pending. by rewrite H1, H2. Qed.

Lemma pending_core x x' : core x = core x' → pending x = pending x'.
Proof.
  intros Hc. change (pending (core x) = pending (core x')). by rewrite Hc.
Qed.

Lemma pending_tcancel x : pending (tcancel x) = pending x.
Proof. unfold tcancel. by destruct (timer_waiting x). Qed.

Lemma pending_close x : pending (close x) = pending x.
Proof.
  unfold close. set (y := tcancel _). assert (Hy : pending y = pending x).
  { unfold y. by rewrite pending_tcancel. }
  destruct (on_finish_callback_ y) eqn:Hf; [|done]. rewrite <- Hy. unfold pending. cbn.
  rewrite Hf. cbn. apply bool_decide_eq_true. set_solver.
Qed.

Lemma pending_start_write x : pending (start_write x) = pending x.
Proof.
  unfold start_write. destruct (response_queue_ x) as [|[n res] q]; [done|].
  destruct (socket_open x); [|by rewrite pending_close].
  set (y := tcancel _). change (pending y = pending x). unfold y. by rewrite pending_tcancel.
Qed.

Lemma pending_respond o r x : pending (respond o r x) = pending x.
Proof.
  destruct r as [res|]; cbn [respond].
  - cbn zeta. destruct (write_in_progress_ _); [done|]. by rewrite pending_start_write.
  - destruct (write_in_progress_ x); [done|].
    destruct (request_keep_alive _ _); [done|]. by rewrite pending_close.
Qed.

Lemma pending_handle o x : pending (handle o x) = pending x.
Proof.
  unfold handle. destruct (negb _); [apply pending_respond|].
  case_decide; [done|]. case_decide; [done|]. apply pending_respond.
Qed.

(** The operation has completed; the timer is cancelled. *)
Lemma pending_completed x :
  pending (tcancel (x <| current_write_op_completed_ := true |>)) = pending x.
Proof. by rewrite pending_tcancel. Qed.

Lemma pending_write_done o ka ec x : pending (write_done o ka ec x) = pending x.
Proof.
  unfold write_done. cbn zeta. pose proof (pending_completed x) as Hy.
  set (y := tcancel _) in *. clearbody y.
  repeat case_match; rewrite ?pending_close, ?pending_start_write; exact Hy.
Qed.

(** Only the run of the completion handler itself ends the session. *)
Lemma effect_pending o e x x' :
  effect o e x = Some x' → finishing x e = false → pending x' = pending x.
Proof.
  intros He Hf. destruct e as [|ec bytes req|ec bytes|ec|r|]; cbn [effect] in He.
  - unfold finishing in Hf. destruct (dispatched x) as [|[] rest] eqn:Hd; simplify_eq.
    unfold pending. cbn. rewrite Hd. f_equal. apply bool_decide_ext. set_solver.
  - destruct (reading x); simplify_eq. unfold read_done. cbn zeta.
    repeat case_match; by rewrite ?pending_close, ?pending_handle.
  - destruct (writing x) as [|[]]; simplify_eq. by rewrite pending_write_done.
  - repeat case_match; simplify_eq; unfold timer_done; repeat case_match; done.
  - destruct (service_calls x); simplify_eq. by rewrite pending_respond.
  - simplify_eq. exact (pending_completed x).
Qed.

Lemma effect_finishing o e x x' :
  effect o e x = Some x' → inv x → finishing x e = true → pending x = true ∧ pending x' = false.
Proof.
  intros He Hinv Hf. unfold finishing in Hf. destruct e; try done. cbn [effect] in He.
  destruct (dispatched x) as [|[] rest] eqn:Hd; simplify_eq.
  destruct Hinv as [_ Hfin _ _]. rewrite Hd, count_cons_eq in Hfin. unfold finished in Hfin.
  destruct (on_finish_callback_ x) eqn:Hcb; [lia|]. unfold pending. cbn. rewrite Hd, Hcb. cbn.
  split; [by apply bool_decide_eq_true; left|]. apply bool_decide_eq_false. intros Hin.
  assert (0 < count Finish rest)%nat; [|lia]. unfold count.
  destruct (filter _ rest) as [|a l] eqn:Hfl; [|cbn; lia].
  exfalso. eapply elem_of_nil. rewrite <- Hfl. by apply list_elem_of_filter.
Qed.

(** *** The calls of the service *)

Lemma calls_tcancel x : service_calls (tcancel x) = service_calls x.
Proof. unfold tcancel. by destruct (timer_waiting x). Qed.

Lemma calls_close x : service_calls (close x) = service_calls x.
Proof.
  unfold close. set (y := tcancel _). assert (Hy : service_calls y = service_calls x).
  { unfold y. by rewrite calls_tcancel. }
  by destruct (on_finish_callback_ y).
Qed.

Lemma calls_start_write x : service_calls (start_write x) = service_calls x.
Proof.
  unfold start_write. destruct (response_queue_ x) as [|[n res] q]; [done|].
  destruct (socket_open x); [|by rewrite calls_close].
  set (y := tcancel _). change (service_calls y = service_calls x). unfold y. by rewrite calls_tcancel.
Qed.

Lemma calls_respond o r x : service_calls (respond o r x) = service_calls x.
Proof.
  destruct r as [res|]; cbn [respond].
  - cbn zeta. destruct (write_in_progress_ _); [done|]. by rewrite calls_start_write.
  - destruct (write_in_progress_ x); [done|].
    destruct (request_keep_alive _ _); [done|]. by rewrite calls_close.
Qed.

Lemma calls_completed x :
  service_calls (tcancel (x <| current_write_op_completed_ := true |>)) = service_calls x.
Proof. by rewrite calls_tcancel. Qed.

(** An answer takes the first call away, the end of a read may add one. *)
Lemma effect_service_calls o e x x' :
  effect o e x = Some x' →
  match e with
  | Respond _ => service_calls x' = tail (service_calls x)
  | ReadDone _ _ _ =>
      reading x = true
      ∧ (service_calls x' = service_calls x ∨ ∃ c, service_calls x' = service_calls x ++ [c])
  | _ => service_calls x' = service_calls x
  end.
Proof.
  intros He. destruct e as [|ec bytes req|ec bytes|ec|r|]; cbn [effect] in He.
  - by destruct (dispatched x) as [|[] rest]; simplify_eq.
  - destruct (reading x); simplify_eq. split; [done|]. unfold read_done. cbn zeta.
    destruct (failed ec); [left; by rewrite calls_close|]. unfold handle.
    destruct (negb _); [left; by rewrite calls_respond|].
    case_decide; [right; by eexists|]. case_decide; [right; by eexists|]. left. by rewrite calls_respond.
  - destruct (writing x) as [|[]]; simplify_eq. unfold write_done. cbn zeta.
    match goal with |- context [tcancel ?y] => pose proof (calls_tcancel y) as Hy end.
    set (y := tcancel _) in *. clearbody y.
    repeat case_match; rewrite ?calls_close, ?calls_start_write; exact Hy.
  - repeat case_match; simplify_eq; unfold timer_done; repeat case_match; done.
  - destruct (service_calls x) eqn:Hc; simplify_eq. by rewrite calls_respond.
  - simplify_eq. exact (calls_completed x).
Qed.

End PendingSessions.

Section ServerProps.
Context `{Beast} `{ServerEnv}.
Implicit Types (s : t) (x : HttpServerSession.t) (id : nat) (es : list event).

(** ** What the methods do *)

(** Runs the methods up to the strings and the calls of a session. *)
Ltac run_server :=
  unfold mbind, M_bind, log, get_state, modify;
  cbn -[String.append bool_decide HttpServerSession.ctor HttpServerSession.run stop_sessions].

Definition session_step id : relation HttpServerSession.t := @HttpServerSession.step _ (session_env id).

(** The session as [run()] leaves it. *)
Definition session_start id : HttpServerSession.t := @started (session_env id) true.

Lemma on_session_finish_run id s :
  ∃ l, on_session_finish id s
    = (Ret tt, s <| active_sessions_ ::= λ a, a ∖ {[ id ]} |> <| log_ := l |>).
Proof.
  unfold on_session_finish. run_server. case_bool_decide; by eexists.
Qed.

Lemma on_accept_failed ec s :
  failed ec = true →
  ∃ l, on_accept ec s = (Ret tt, s <| accepting := if decide (ec = operation_aborted)
                                                   then accepting s else S (accepting s) |>
                                   <| log_ := l |>).
Proof.
  intros Hf. unfold on_accept. rewrite Hf. run_server.
  destruct (decide (ec = operation_aborted)); [rewrite decide_False by naive_solver|
    rewrite decide_True by done]; by eexists.
Qed.

Lemma on_accept_run s :
  ∃ l, on_accept no_error s
    = (Ret tt, s <| accepting ::= S |> <| next_session ::= S |>
                 <| sessions ::= <[next_session s := session_start (next_session s)]> |>
                 <| active_sessions_ ::= λ a, {[ next_session s ]} ∪ a |> <| log_ := l |>).
Proof.
  unfold on_accept, on_session. change (failed no_error) with false. run_server.
  rewrite lookup_insert_eq. eexists. unfold session_start, started.
  set (x := @HttpServerSession.run (session_env (next_session s)) _).
  assert (Hx : x = (Ret tt, x.2)) by done.
  clearbody x. destruct x as [r x1]. injection Hx as ->. run_server.
  rewrite insert_insert_eq. unfold do_accept, modify. cbn. reflexivity.
Qed.

(** [stop()] on the sessions of a list. *)
Lemma stop_sessions_run o ids s :
  (∀ id, id ∈ ids → is_Some (sessions s !! id)) →
  ∃ m, stop_sessions o ids s = (Ret tt, s <| sessions := m |>)
    ∧ ∀ id, match sessions s !! id with
            | Some x => ∃ x', m !! id = Some x' ∧ rtc (session_step id) x x'
                ∧ pending x' = pending x
                ∧ HttpServerSession.service_calls x' = HttpServerSession.service_calls x
                ∧ (id ∉ ids → x' = x)
                ∧ (id ∈ ids ∨ HttpServerSession.socket_open x = false →
                   HttpServerSession.socket_open x' = false)
            | None => m !! id = None
            end.
Proof.
  revert s. induction ids as [|i ids IH]; intros s Hids.
  - exists (sessions s). split; [by destruct s|]. intros id.
    destruct (sessions s !! id) as [x|] eqn:Hx; [|done]. exists x. split_and!; try done.
    intros [Hin|]; [by apply not_elem_of_nil in Hin|done].
  - destruct (Hids i) as [x Hx]; [left|].
    destruct (@stop_runs _ (session_env i) (o i) x) as (x1 & Hrun & Hcore).
    set (s1 := s <| sessions ::= <[i := x1]> |>).
    destruct (IH s1) as (m & Hm & Hspec).
    { intros id Hid. cbn. destruct (decide (id = i)) as [->|]; [rewrite lookup_insert_eq; eauto|].
      rewrite lookup_insert_ne by done. apply Hids. by right. }
    exists m. split.
    { cbn [stop_sessions]. unfold on_session at 1. unfold mbind, M_bind. rewrite Hx, Hrun.
      change (s <| sessions ::= <[i := x1]> |>) with s1. by rewrite Hm. }
    assert (Hp : pending x1 = pending x).
    { rewrite (pending_core _ _ Hcore). exact (pending_completed x). }
    assert (Hsc : HttpServerSession.service_calls x1 = HttpServerSession.service_calls x).
    { change (HttpServerSession.service_calls (core x1) = HttpServerSession.service_calls x).
      rewrite Hcore. unfold stopped, tcancel. cbn. by destruct (HttpServerSession.timer_waiting x). }
    assert (Hc : HttpServerSession.socket_open x1 = false).
    { change (HttpServerSession.socket_open (core x1) = false). by rewrite Hcore. }
    intros id. specialize (Hspec id). cbn in Hspec. destruct (decide (id = i)) as [->|Hne].
    + rewrite lookup_insert_eq in Hspec. rewrite Hx.
      destruct Hspec as (x' & ? & ? & ? & ? & ? & Hclosed). exists x'. split_and!; try done.
      * eapply rtc_l; [|done]. by apply (HttpServerSession.step_event (o i) HttpServerSession.Stop _ _ _ eq_refl).
      * congruence.
      * congruence.
      * intros Hni. exfalso. apply Hni. left.
      * intros _. apply Hclosed. by right.
    + rewrite lookup_insert_ne in Hspec by done. destruct (sessions s !! id) as [y|]; [|done].
      destruct Hspec as (y' & ? & ? & ? & ? & Hsame & Hclosed). exists y'. split_and!; try done.
      * intros Hni. apply Hsame. intros Hin. apply Hni. by right.
      * intros [Hin|Ho]; apply Hclosed; [|by right]. left. apply elem_of_cons in Hin as [|]; done.
Qed.

Lemma stop_run o s :
  (∀ id, id ∈ active_sessions_ s → is_Some (sessions s !! id)) →
  ∃ m l, stop o s = (Ret tt, s <| acceptor_open := false |> <| active_sessions_ := ∅ |>
                              <| sessions := m |> <| log_ := l |>)
    ∧ ∀ id, match sessions s !! id with
            | Some x => ∃ x', m !! id = Some x' ∧ rtc (session_step id) x x'
                ∧ pending x' = pending x
                ∧ HttpServerSession.service_calls x' = HttpServerSession.service_calls x
                ∧ (id ∉ active_sessions_ s → x' = x)
                ∧ (id ∈ active_sessions_ s → HttpServerSession.socket_open x' = false)
            | None => m !! id = None
            end.
Proof.
  intros Hact. unfold stop.
  assert (Hgo : ∀ l, let s1 := s <| acceptor_open := false |> <| log_ := l |> in
    ∃ m, stop_sessions (session_os o) (elements (active_sessions_ s)) s1 = (Ret tt, s1 <| sessions := m |>)
    ∧ ∀ id, match sessions s !! id with
            | Some x => ∃ x', m !! id = Some x' ∧ rtc (session_step id) x x'
                ∧ pending x' = pending x
                ∧ HttpServerSession.service_calls x' = HttpServerSession.service_calls x
                ∧ (id ∉ active_sessions_ s → x' = x)
                ∧ (id ∈ active_sessions_ s → HttpServerSession.socket_open x' = false)
            | None => m !! id = None
            end).
  { intros l s1. destruct (stop_sessions_run (session_os o) (elements (active_sessions_ s)) s1)
      as (m & Hm & Hspec); [intros id Hid%elem_of_elements; by apply Hact|].
    exists m. split; [done|]. intros id. specialize (Hspec id). cbn in Hspec.
    destruct (sessions s !! id) as [x|]; [|done].
    destruct Hspec as (x' & ? & ? & ? & ? & Hsame & Hclosed). exists x'.
    rewrite elem_of_elements in *. split_and!; try done; auto. }
  destruct (failed (accept_cancel_ec o)), (failed (accept_close_ec o));
    run_server;
    match goal with |- context [stop_sessions _ _ ?s1] =>
      destruct (Hgo (log_ s1)) as (m & Hm & Hspec); exists m end;
    cbn -[String.append stop_sessions] in Hm |- *; rewrite Hm; eexists; (split; [reflexivity|exact Hspec]).
Qed.

(** ** The invariant *)

Definition stops (e : event) : bool := match e with StopServer _ => true | _ => false end.

Definition aborts (e : event) : bool :=
  match e with Accepted ec => bool_decide (ec = operation_aborted) | _ => false end.

Record server_inv es s : Prop := {
  sv_sessions id x : sessions s !! id = Some x → rtc (session_step id) (session_start id) x;
  sv_fresh id : is_Some (sessions s !! id) → (id < next_session s)%nat;
  sv_active id : id ∈ active_sessions_ s → is_Some (sessions s !! id);
  sv_tracked : existsb stops es = false →
    ∀ id x, sessions s !! id = Some x → id ∈ active_sessions_ s ↔ pending x = true;
  sv_accepting : (accepting s <= 1)%nat
    ∧ (existsb aborts es = false → accepting s = 1%nat)
}.

#[local] Set Default Proof Using "Type*".
Hypothesis Hmax : 0 < to_u64 (max_response_queue_size config_).

Lemma server_session_inv es s id x :
  server_inv es s → sessions s !! id = Some x → inv x.
Proof.
  intros Hinv Hx. eapply (@session_reachable_inv _ (session_env id) true); [exact Hmax|].
  by apply (sv_sessions _ _ Hinv).
Qed.

Lemma inv_accepted es s ec n :
  server_inv es s → accepting s = S n →
  ∃ s', on_accept ec (s <| accepting := n |>) = (Ret tt, s')
    ∧ server_inv (es ++ [Accepted ec]) s'.
Proof.
  intros [Hs Hf Ha Ht [Hle Hacc]] Hn. destruct (decide (ec = no_error)) as [->|Hec].
  - destruct (on_accept_run (s <| accepting := n |>)) as [l ->]. eexists. split; [done|].
    split; rewrite ?existsb_app; cbn -[failed].
    + intros id x. rewrite lookup_insert_Some. intros [[<- <-]|[_ Hx]]; [apply rtc_refl|by apply Hs].
    + intros id. rewrite lookup_insert_is_Some'. intros [->|Hx%Hf]; lia.
    + intros id. rewrite lookup_insert_is_Some', elem_of_union, elem_of_singleton.
      intros [->|Hid%Ha]; auto.
    + rewrite orb_false_r. intros Hes id x. rewrite elem_of_union, elem_of_singleton, lookup_insert_Some.
      intros [[<- <-]|[Hne Hx]]; [split; [done|by left]|].
      rewrite <- (Ht Hes id x Hx). split; [intros [->|]; done|by right].
    + rewrite orb_false_r. lia.
  - destruct (on_accept_failed ec (s <| accepting := n |>)) as [l ->];
      [by apply bool_decide_eq_true|]. eexists. split; [done|].
    split; rewrite ?existsb_app; cbn; rewrite ?orb_false_r; try done.
    case_decide as Hab; [rewrite bool_decide_eq_true_2 by done; rewrite orb_true_r; split; [lia|done]|].
    rewrite bool_decide_eq_false_2, orb_false_r by done. lia.
Qed.

Lemma inv_session es s id o e x m :
  server_inv es s → e ≠ HttpServerSession.Stop → sessions s !! id = Some x →
  @HttpServerSession.handler _ (session_env id) o e x = Some m →
  ∃ s' x1 x', (on_session id m;; if finishing x e then on_session_finish id else mret tt) s = (Ret tt, s')
    ∧ server_inv (es ++ [SessionEvent id o e]) s'
    ∧ sessions s' = <[id := x1]> (sessions s) ∧ effect o e x = Some x' ∧ core x1 = core x'.
Proof.
  intros Hinv Hne Hx Hh. pose proof (server_session_inv _ _ _ _ Hinv Hx) as Hix.
  destruct (@handler_effect _ (session_env id) o e x m Hmax Hix Hh) as (x1 & x' & Hm & He & Hcore & Hi1).
  pose proof (pending_core _ _ Hcore) as Hc. destruct Hinv as [Hs Hf Ha Ht Hacc].
  assert (Hs1 : ∀ i y, <[id:=x1]> (sessions s) !! i = Some y → rtc (session_step i) (session_start i) y).
  { intros i y. rewrite lookup_insert_Some. intros [[<- <-]|[_ Hy]]; [|by apply Hs].
    eapply rtc_r; [by apply Hs|]. by eapply HttpServerSession.step_event. }
  assert (Hrun : on_session id m s = (Ret tt, s <| sessions ::= <[id := x1]> |>)).
  { unfold on_session. by rewrite Hx, Hm. }
  assert (Hdom : ∀ i, is_Some (<[id:=x1]> (sessions s) !! i) ↔ is_Some (sessions s !! i)).
  { intros i. rewrite lookup_insert_is_Some'. split; [intros [->|]|]; eauto. }
  destruct (finishing x e) eqn:Hfin.
  - destruct (effect_finishing o e x x' He Hix Hfin) as [Hp Hp']. rewrite <- Hc in Hp'.
    destruct (on_session_finish_run id (s <| sessions ::= <[id := x1]> |>)) as [l Hl].
    eexists _, x1, x'. split; [by rewrite (M_bind_ret _ _ _ _ _ Hrun)|].
    split; [|done]. split; rewrite ?existsb_app; cbn; rewrite ?orb_false_r; try done.
    + intros i Hi%Hdom. by apply Hf.
    + intros i [Hi _]%elem_of_difference. by apply Hdom, Ha.
    + intros Hes i y. rewrite lookup_insert_Some, elem_of_difference, elem_of_singleton.
      intros [[<- <-]|[Hii Hy]]; [rewrite Hp'; naive_solver|]. rewrite <- (Ht Hes i y Hy). naive_solver.
  - pose proof (effect_pending o e x x' He Hfin) as Hp. rewrite <- Hc in Hp.
    eexists _, x1, x'. split; [by rewrite (M_bind_ret _ _ _ _ _ Hrun)|].
    split; [|done]. split; rewrite ?existsb_app; cbn; rewrite ?orb_false_r; try done.
    + intros i Hi%Hdom. by apply Hf.
    + intros i Hi. by apply Hdom, Ha.
    + intros Hes i y. rewrite lookup_insert_Some. intros [[<- <-]|[Hii Hy]]; [|by apply Ht].
      rewrite Hp. by apply Ht.
Qed.

Lemma inv_stopped es s o :
  server_inv es s → ∃ s', stop o s = (Ret tt, s') ∧ server_inv (es ++ [StopServer o]) s'.
Proof.
  intros [Hs Hf Ha Ht Hacc]. destruct (stop_run o s Ha) as (m & l & -> & Hm). eexists. split; [done|].
  split; rewrite ?existsb_app; cbn; rewrite ?orb_false_r, ?orb_true_r; try done.
  - intros id x Hx. specialize (Hm id). destruct (sessions s !! id) as [y|] eqn:Hy; [|congruence].
    destruct Hm as (x' & Hx' & Hr & _). simplify_eq. etrans; [by apply Hs|done].
  - intros id [x Hx]. specialize (Hm id). destruct (sessions s !! id) as [y|] eqn:Hy; [|congruence].
    apply Hf. eauto.
Qed.

Lemma handler_session id o e s m :
  handler (SessionEvent id o e) s = Some m →
  e ≠ HttpServerSession.Stop ∧ ∃ x m', sessions s !! id = Some x
    ∧ @HttpServerSession.handler _ (session_env id) o e x = Some m'
    ∧ m = (on_session id m';; if finishing x e then on_session_finish id else mret tt).
Proof.
  intros Hh. assert (Hne : e ≠ HttpServerSession.Stop) by by intros ->.
  assert ((x ← sessions s !! id;
           m' ← @HttpServerSession.handler _ (session_env id) o e x;
           Some (on_session id m';; if finishing x e then on_session_finish id else mret tt)) = Some m)
    as Hm by by destruct e.
  apply bind_Some in Hm as (x & Hx & Hm). apply bind_Some in Hm as (m' & Hm' & Hm). simplify_eq. eauto 6.
Qed.

(** The calls of the service a session has open, by its identity. *)
Definition calls_of id s : list HttpServerSession.service_call :=
  match sessions s !! id with Some x => HttpServerSession.service_calls x | None => [] end.

Lemma session_event_run es s id o e m :
  server_inv es s → handler (SessionEvent id o e) s = Some m →
  ∃ s', m s = (Ret tt, s') ∧ server_inv (es ++ [SessionEvent id o e]) s'
    ∧ (∀ i, i ≠ id → calls_of i s' = calls_of i s)
    ∧ match e with
      | HttpServerSession.Respond _ => calls_of id s' = tail (calls_of id s)
      | HttpServerSession.ReadDone _ _ _ => calls_of id s = []
          ∧ (calls_of id s' = [] ∨ ∃ c, calls_of id s' = [c])
      | _ => calls_of id s' = calls_of id s
      end.
Proof.
  intros Hinv Hh. destruct (handler_session id o e s m Hh) as (Hne & x & m' & Hx & Hm & ->).
  destruct (inv_session es s id o e x m' Hinv Hne Hx Hm)
    as (s' & x1 & x' & Hs & Hi & Hsess & He & Hcore). exists s'. split; [done|]. split; [done|].
  assert (Hcalls : HttpServerSession.service_calls x1 = HttpServerSession.service_calls x').
  { change (HttpServerSession.service_calls (core x1) = HttpServerSession.service_calls (core x')).
    by rewrite Hcore. }
  pose proof (server_session_inv _ _ _ _ Hinv Hx) as [Hact _ _ _].
  unfold calls_of. rewrite Hsess, Hx, lookup_insert_eq, Hcalls. split.
  { intros i Hi'. by rewrite lookup_insert_ne. }
  pose proof (effect_service_calls o e x x' He) as Hef. destruct e as [|? ? ?|? ?|?|?|]; try exact Hef.
  destruct Hef as [Hr Hef]. unfold activity in Hact. rewrite Hr in Hact.
  destruct (HttpServerSession.service_calls x) as [|c l]; [|cbn in Hact; lia].
  split; [done|]. destruct Hef as [->|[c ->]]; eauto.
Qed.

(** A session waits for one answer at most. *)
Lemma calls_of_one es s id : server_inv es s → (length (calls_of id s) <= 1)%nat.
Proof.
  intros Hinv. unfold calls_of. destruct (sessions s !! id) as [x|] eqn:Hx; [|cbn; lia].
  pose proof (server_session_inv _ _ _ _ Hinv Hx) as [Hact _ _ _]. unfold activity in Hact. lia.
Qed.

(** The events that are none of a session leave the calls as they are. *)
Lemma server_event_calls es s e m s' id :
  server_inv es s → handler e s = Some m → m s = (Ret tt, s') →
  match e with SessionEvent _ _ _ => True | _ => calls_of id s' = calls_of id s end.
Proof.
  intros [Hs Hf Ha Ht Hacc] Hh Hrun. destruct e as [ec|id' o e|o]; [|done|]; cbn [handler] in Hh.
  - destruct (accepting s) as [|n] eqn:Hn; simplify_eq.
    change (on_accept ec (s <| accepting := n |>) = (Ret tt, s')) in Hrun. unfold calls_of.
    destruct (decide (ec = no_error)) as [->|Hec].
    + destruct (on_accept_run (s <| accepting := n |>)) as [l Hl]. rewrite Hl in Hrun. simplify_eq. cbn.
      destruct (decide (id = next_session s)) as [->|Hid]; [|by rewrite lookup_insert_ne].
      rewrite lookup_insert_eq. destruct (sessions s !! next_session s) as [x|] eqn:Hx; [|done].
      assert (next_session s < next_session s)%nat; [|lia]. apply Hf. eauto.
    + destruct (on_accept_failed ec (s <| accepting := n |>)) as [l Hl];
        [by apply bool_decide_eq_true|]. rewrite Hl in Hrun. by simplify_eq.
  - simplify_eq. destruct (stop_run o s Ha) as (m' & l & Hl & Hm). rewrite Hl in Hrun. simplify_eq.
    unfold calls_of. cbn. specialize (Hm id). destruct (sessions s !! id) as [x|].
    + destruct Hm as (x' & -> & _ & _ & Hc & _). exact Hc.
    + by rewrite Hm.
Qed.

Lemma step_server_inv es s e m :
  server_inv es s → handler e s = Some m → ∃ s', m s = (Ret tt, s') ∧ server_inv (es ++ [e]) s'.
Proof.
  intros Hinv Hh. destruct e as [ec|id o e|o].
  - cbn [handler] in Hh. destruct (accepting s) as [|n] eqn:Hn; simplify_eq. by apply inv_accepted.
  - destruct (handler_session id o e s m Hh) as (Hne & x & m' & Hx & Hm & ->).
    destruct (inv_session es s id o e x m' Hinv Hne Hx Hm) as (s' & _ & _ & Hs & Hi & _). eauto.
  - cbn [handler] in Hh. simplify_eq. by apply inv_stopped.
Qed.

Lemma history_inv s0 es s : server_inv [] s0 → history s0 es s → server_inv es s.
Proof.
  intros Hi0 Hh. induction Hh as [|es e s s' _ IH Hstep]; [done|].
  destruct Hstep as [e s m s' Hm Hrun]. destruct (step_server_inv es s e m IH Hm) as (s1 & Hs1 & Hi).
  rewrite Hrun in Hs1. by simplify_eq.
Qed.

(** The server as the main program starts it. *)
Definition listening s0 : Prop := ∃ o, (ctor o;; run) members = (Ret tt, s0).

Lemma listening_start s0 :
  listening s0 → accepting s0 = 1%nat ∧ sessions s0 = ∅ ∧ active_sessions_ s0 = ∅.
Proof.
  intros [o Ho]. revert Ho. unfold ctor, check, run, do_accept, throw.
  destruct (failed (open_ec o)), (failed (set_option_ec o)), (failed (bind_ec o)),
    (failed (listen_ec o)); run_server; intros ?; by simplify_eq.
Qed.

Lemma listening_inv s0 : listening s0 → server_inv [] s0.
Proof.
  intros (Hacc & Hs & Ha)%listening_start. split; rewrite ?Hs, ?Ha, ?Hacc; try done.
  intros id [x Hx]. by apply lookup_empty_Some in Hx.
Qed.

(** Runs a sequence of events. *)
Fixpoint run_history es s : option t :=
  match es with
  | [] => Some s
  | e :: es =>
      m ← handler e s;
      match m s with (Ret tt, s) => run_history es s | _ => None end
  end.

Lemma run_history_sound s0 es es' s s' :
  history s0 es s → run_history es' s = Some s' → history s0 (es ++ es') s'.
Proof.
  revert es s. induction es' as [|e es' IH]; intros es s Hh; cbn.
  - intros [= <-]. by rewrite app_nil_r.
  - destruct (handler e s) as [m|] eqn:Hm; cbn; [|done].
    destruct (m s) as [[[]|err|] s1] eqn:Hr; try done.
    intros Hrest. rewrite cons_middle, app_assoc. apply (IH _ s1); [|done].
    eapply history_step; [done|]. by econstructor.
Qed.

(** ** Properties *)

(** C13 (invariant): whatever connections come and whatever the sessions do, no
    handler of the server is undefined or throws, and until [stop()] the set
    of active sessions is exactly the sessions whose completion handler has
    not run: none is leaked, none is removed twice. *)
Theorem server_tracks_sessions s0 es s
    (Hlisten : listening s0) (Hh : history s0 es s) :
  (∀ e m, handler e s = Some m → ∃ s', m s = (Ret tt, s'))
  ∧ (existsb stops es = false →
     ∀ id, id ∈ active_sessions_ s ↔ ∃ x, sessions s !! id = Some x ∧ pending x = true).
Proof.
  pose proof (history_inv s0 es s (listening_inv s0 Hlisten) Hh) as Hinv. split.
  - intros e m Hm. destruct (step_server_inv es s e m Hinv Hm) as (s' & Hs' & _). by exists s'.
  - intros Hes id. split.
    + intros Hid. destruct (sv_active _ _ Hinv id Hid) as [x Hx]. exists x. split; [done|].
      by apply (sv_tracked _ _ Hinv Hes id x Hx).
    + intros (x & Hx & Hp). by apply (sv_tracked _ _ Hinv Hes id x Hx).
Qed.

(** C16 (liveness): the server never has two accepts under way, and it has one
    as long as no accept was aborted: any other error of an accept, however
    often, is followed by the next accept. *)
Theorem server_keeps_accepting s0 es s
    (Hlisten : listening s0) (Hh : history s0 es s) :
  (accepting s <= 1)%nat ∧ (existsb aborts es = false → accepting s = 1%nat).
Proof. apply (history_inv s0 es s (listening_inv s0 Hlisten) Hh). Qed.

(** (functional): [stop()] returns with the acceptor and the socket of every
    active session closed, no session in the set, and the other sessions as
    they were. *)
Theorem server_stop_closes s0 es s o
    (Hlisten : listening s0) (Hh : history s0 es s) :
  ∃ s', stop o s = (Ret tt, s') ∧ acceptor_open s' = false ∧ active_sessions_ s' = ∅
    ∧ ∀ id x, sessions s !! id = Some x → ∃ x', sessions s' !! id = Some x'
        ∧ if decide (id ∈ active_sessions_ s)
          then HttpServerSession.socket_open x' = false ∧ pending x' = pending x
          else x' = x.
Proof.
  pose proof (history_inv s0 es s (listening_inv s0 Hlisten) Hh) as Hinv.
  destruct (stop_run o s (sv_active _ _ Hinv)) as (m & l & Hs & Hm).
  eexists. split; [exact Hs|]. split; [done|]. split; [done|]. intros id x Hx.
  specialize (Hm id). rewrite Hx in Hm. destruct Hm as (x' & Hx' & _ & Hp & _ & Hsame & Hclosed).
  exists x'. split; [done|]. case_decide; auto.
Qed.

End ServerProps.

(** ** Witnesses

    A server that accepts one connection; the session's first read finds the
    end of the stream, so the session closes and its completion handler runs;
    a second accept fails. *)

Definition example_server_env : ServerEnv := {|
  config_ := AppConfig_default; log_level := 3; session_address := λ id, pretty id
|}.

Definition example_acceptor : acceptor_os := {|
  open_ec := no_error; set_option_ec := no_error; bind_ec := no_error; listen_ec := no_error
|}.

Definition example_listening : t :=
  ((@ctor example_beast example_acceptor;; run) members).2.

Definition example_events : list event := [
  Accepted no_error;
  SessionEvent 0 example_os HttpServerSession.Dispatched;
  Accepted no_error;
  SessionEvent 0 example_os (HttpServerSession.ReadDone end_of_stream 0 request_default);
  SessionEvent 0 example_os HttpServerSession.Dispatched;
  Accepted (other_error 24)
].

Definition example_server : t :=
  default members (@run_history example_beast example_server_env example_events example_listening).

Lemma example_listening_ok : @listening example_beast example_listening.
Proof. exists example_acceptor. vm_compute. reflexivity. Qed.

Lemma example_history :
  @history example_beast example_server_env example_listening example_events example_server.
Proof.
  apply (@run_history_sound example_beast example_server_env eq_refl _ [] _ example_listening);
    [apply history_start|].
  vm_compute. reflexivity.
Qed.

Lemma server_tracks_sessions_witness : active_sessions_ example_server = {[ 1%nat ]}
  ∧ 1%nat ∈ active_sessions_ example_server.
Proof.
  split; [by vm_compute|].
  apply (proj2 (@server_tracks_sessions example_beast example_server_env eq_refl _ _ _
    example_listening_ok example_history) eq_refl).
  eexists. split; [vm_compute; reflexivity|]. vm_compute. reflexivity.
Defined.

Lemma server_keeps_accepting_witness : accepting example_server = 1%nat.
Proof.
  exact (proj2 (@server_keeps_accepting example_beast example_server_env eq_refl _ _ _
    example_listening_ok example_history) eq_refl).
Defined.

Lemma server_stop_closes_witness :
  ∃ s', @stop example_beast example_server_env {| accept_cancel_ec := no_error;
          accept_close_ec := no_error; session_os := λ _, example_os |} example_server = (Ret tt, s')
    ∧ active_sessions_ s' = ∅.
Proof.
  destruct (@server_stop_closes example_beast example_server_env eq_refl _ _ _
    {| accept_cancel_ec := no_error; accept_close_ec := no_error; session_os := λ _, example_os |}
    example_listening_ok example_history) as (s' & Hs' & _ & Ha & _).
  by exists s'.
Defined.
