(* ===== verification/System.v ===== *)
(** * The program at work: server, sessions, service and backend calls

    The composition of BeastHttpServer.v (with its sessions) and Backendify.v.
    The service's callback is what handle_request of
    src/core/HttpServerSession.cpp passes: a lambda that holds the session and
    calls its [send_response]. So the [outer] state of the service is the
    server, and to deliver an answer is to run the session's handler. A
    request is handed to the service in the handler that has read it. *)

From S2P Require Import Prelude Text Models Logging Metrics Http CacheInterface.
From S2P Require Import AsyncHttpClient Backendify BackendifyProps History HttpServerSession BeastHttpServer.
Import Backendify.

Module System.

(** The captured session, and the ticket of the request. *)
Record caller := Caller { session : nat; asked_for : ticket }.

(** The server, what the operating system answers during the step under way,
    and all that was answered so far. *)
Record front := Front { srv : BeastHttpServer.t; os_ : HttpServerSession.os; served : answers }.

#[global] Instance front_eta : Eta front := λ f, Front (srv f) (os_ f) (served f).

Section System.
Context `{Beast} {J : Type} `{JsonApi J}.
Context {C : Type} `{CacheInterface C} {L : Type} `{ILogger L} {S : Type} `{IStatsDClient S}.
Context `{Env} (log_level : Z) (session_address : nat -> string).

(** One configuration for the whole program. *)
#[local] Instance server_env : BeastHttpServer.ServerEnv := {|
  BeastHttpServer.config_ := config_;
  BeastHttpServer.log_level := log_level;
  BeastHttpServer.session_address := session_address
|}.

Abbreviation W := (world C L S caller front).

(** The lambda: [self->send_response(std::move(opt_res))]. A session that
    does not wait for an answer would be left alone. *)
Definition answer_session (id : nat) (r : option response) (f : front) : BeastHttpServer.t :=
  match BeastHttpServer.handler (BeastHttpServer.SessionEvent id (os_ f) (HttpServerSession.Respond r))
          (srv f) with
  | Some m => (m (srv f)).2
  | None => srv f
  end.

Definition deliver (c : caller) (r : option response) (f : front) : front :=
  f <| srv := answer_session (session c) r f |>
    <| served ::= record_answer (asked_for c) r |>.

Abbreviation callback := (send deliver).

(** The call of the service that handle_request ends with, as the [n]th
    request of the program. *)
Definition serve (n : nat) (id : nat) (c : HttpServerSession.service_call) : M W unit :=
  match c with
  | HttpServerSession.CompanyRequest req received =>
      processCompanyRequest (J := J) callback req received
        (Caller id {| number := n; asked := target req |})
  | HttpServerSession.StatusRequest =>
      processStatusRequest callback (Caller id {| number := n; asked := "/status" |})
  end.

(** The call the event has made, if it was the end of a read. *)
Definition new_call (e : BeastHttpServer.event) (s : BeastHttpServer.t)
    : option (nat * HttpServerSession.service_call) :=
  match e with
  | BeastHttpServer.SessionEvent id _ (HttpServerSession.ReadDone _ _ _) =>
      x ← BeastHttpServer.sessions s !! id;
      c ← last (HttpServerSession.service_calls x);
      Some (id, c)
  | _ => None
  end.

(** ** Events *)

Inductive event :=
  | OnServer (e : BeastHttpServer.event)
  | OnClient (o : HttpServerSession.os) (c : nat) (e : AsyncHttpClientSession.event)
  | OnPosted (o : HttpServerSession.os)
  | OnCancel (o : HttpServerSession.os).     (* [cancel_active_backend_calls()] *)

(** What the operating system answers the session that is given an answer. *)
Definition event_os (e : event) : option HttpServerSession.os :=
  match e with
  | OnServer (BeastHttpServer.SessionEvent _ o _) => Some o
  | OnServer _ => None
  | OnClient o _ _ | OnPosted o | OnCancel o => Some o
  end.

(** An answer of the service is not an event of its own. *)
Definition internal (e : BeastHttpServer.event) : bool :=
  match e with BeastHttpServer.SessionEvent _ _ (HttpServerSession.Respond _) => true | _ => false end.

(** The number of requests so far, and the program. *)
Abbreviation state := (nat * W)%type.

Definition on_server (e : BeastHttpServer.event) (p : state) : option (outcome unit * state) :=
  let '(n, w) := p in
  if internal e then None
  else
    m ← BeastHttpServer.handler e (srv (outer w));
    let '(r, s) := m (srv (outer w)) in
    let w := w <| outer ::= λ f, f <| srv := s |> |> in
    match r, new_call e s with
    | Ret _, Some (id, c) => let '(r, w) := serve n id c w in Some (r, (Datatypes.S n, w))
    | _, _ => Some (r, (n, w))
    end.

(** The handler an event runs, with how it ends: an exception leaves
    [ioc.run()] and ends the thread that ran it; the others go on. [None]: the
    event cannot happen. *)
Definition run (e : event) (p : state) : option (outcome unit * state) :=
  let '(n, w) := p in
  let w := w <| outer ::= λ f, f <| os_ ::= λ o, default o (event_os e) |> |> in
  match e with
  | OnServer e => on_server e (n, w)
  | OnClient _ c e => let '(r, w) := client_event (J := J) callback c e w in Some (r, (n, w))
  | OnPosted _ => let '(r, w) := run_posted (J := J) callback w in Some (r, (n, w))
  | OnCancel _ => let '(r, w) := cancel_active_backend_calls (J := J) callback w in Some (r, (n, w))
  end.

Fixpoint runs (es : list event) (p : state) : option (list (outcome unit) * state) :=
  match es with
  | [] => Some ([], p)
  | e :: es =>
      '(r, p) ← run e p;
      '(rs, p) ← runs es p;
      Some (r :: rs, p)
  end.

(** The timers end as documented. *)
Definition documented_event (e : event) : Prop :=
  match e with OnClient _ _ e => documented e | _ => True end.

(** ** Who waits for whom *)

(** The session has handed over a request and has no answer yet. *)
Definition waiting (id : nat) (w : W) : nat :=
  match BeastHttpServer.sessions (srv (outer w)) !! id with
  | Some x => length (HttpServerSession.service_calls x)
  | None => 0%nat
  end.

Definition call_for (id : nat) (p : AsyncHttpClientSession.t * wrapper caller) : nat :=
  if decide (session (send_response_cb_copy (original_user_callback p.2)) = id)
  then in_flight p.1 else 0%nat.

Definition failures_for (id : nat) (ps : list (completion caller * error_code)) : nat :=
  length (filter (λ p, session (send_response_cb_copy p.1) = id) ps).

(** The backend calls under way for the session, and the failures posted. *)
Definition outstanding (id : nat) (w : W) : nat :=
  (map_sum (call_for id) (clients w) + failures_for id (posted w))%nat.

End System.

End System.
