(* ===== verification/SystemProps.v ===== *)
(** * What the program guarantees to a client that waits

    The sessions of the server and the calls of the service keep step: for
    every answer the service still owes to a session, that session waits, and
    for no other; as long as no handler is left by an exception, a session that
    waits is owed an answer. The theorems hold for runs with any interleaving of
    accepts, reads, writes, timers, backend completions and shutdown. *)

From S2P Require Import Prelude Text TextFacts Models Logging Metrics Http CacheInterface.
From S2P Require Import AsyncHttpClient Backendify BackendifyProps CompletionProps ServiceProps History.
From S2P Require Import HttpServerSession SessionProps BeastHttpServer ServerProps System.
Import Backendify CompanySpec System.

Section SystemProps.
Context `{Beast} {J : Type} `{JsonApi J}.
Context {C : Type} `{CacheContract C} {L : Type} `{ILogger L} {S : Type} `{IStatsDClient S}.
Context `{Env} (log_level : Z) (session_address : nat -> string).
Context (Hmax : 0 < to_u64 (max_response_queue_size config_)).
#[local] Set Default Proof Using "Type*".

#[local] Existing Instance server_env.
Abbreviation senv := (server_env log_level session_address).
Abbreviation W := (world C L S caller front).
Abbreviation deliver := (deliver log_level session_address).
Abbreviation callback := (send deliver).
Abbreviation server_ok es s := (@server_inv _ senv es s).
Implicit Types (w : W) (id n : nat).

Lemma waiting_calls id w : waiting id w = length (calls_of id (srv (outer w))).
Proof. unfold waiting, calls_of. by destruct (_ !! id). Qed.

(** ** One answer *)

Definition is_session (c : caller) id : nat := if decide (session c = id) then 1%nat else 0%nat.

Lemma deliver_ok es c r (f : front) :
  server_ok es (srv f) → (1 <= length (calls_of (session c) (srv f)))%nat →
  (∃ es', server_ok es' (srv (deliver c r f)))
  ∧ served (deliver c r f) = record_answer (asked_for c) r (served f)
  ∧ ∀ id, (length (calls_of id (srv (deliver c r f))) + is_session c id
           = length (calls_of id (srv f)))%nat.
Proof.
  intros Hinv Hlen.
  assert (Hh : ∃ m, @BeastHttpServer.handler _ senv
    (BeastHttpServer.SessionEvent (session c) (os_ f) (HttpServerSession.Respond r)) (srv f) = Some m).
  { unfold calls_of in Hlen. cbn [BeastHttpServer.handler].
    destruct (BeastHttpServer.sessions (srv f) !! session c) as [x|]; [|cbn in Hlen; lia].
    cbn [mbind option_bind HttpServerSession.handler].
    destruct (HttpServerSession.service_calls x); [cbn in Hlen; lia|]. by eexists. }
  destruct Hh as [m Hm].
  destruct (@session_event_run _ senv Hmax es (srv f) _ _ _ m Hinv Hm) as (s' & Hs & Hi & Hother & Hself).
  assert (Hsrv : srv (deliver c r f) = s').
  { unfold System.deliver, answer_session. cbn -[BeastHttpServer.handler].
    change (BeastHttpServer.handler ?e ?s) with (@BeastHttpServer.handler _ senv e s).
    rewrite Hm, Hs. done. }
  split; [rewrite Hsrv; by eexists|]. split; [done|]. intros id. rewrite Hsrv. unfold is_session.
  case_decide as Hid.
  - subst id. cbn in Hself. rewrite Hself. destruct (calls_of _ (srv f)); cbn in *; lia.
  - by rewrite Hother, Nat.add_0_r.
Qed.

(** ** The balance *)

Implicit Types extra lost : nat -> nat.

(** Every session waits for the answers that are owed to it, [extra] ones
    included, and for those that an exception has [lost]; for no others. *)
Definition owed extra lost w : Prop :=
  ∀ id, (outstanding id w + extra id + lost id)%nat = waiting id w.

Abbreviation linked := (owed (λ _, 0%nat)).

(** A lost answer stays lost; as long as [P], none is. *)
Definition later (P : Prop) lost lost' : Prop :=
  (∀ id, (lost id <= lost' id)%nat) ∧ (P → ∀ id, lost' id = lost id).

Lemma later_refl P lost : later P lost lost.
Proof. by split. Qed.

Lemma later_trans (P Q R : Prop) lost1 lost2 lost3 :
  later P lost1 lost2 → later Q lost2 lost3 → (R → P ∧ Q) → later R lost1 lost3.
Proof.
  intros [H1' H2'] [H3' H4'] Hr. split; [intros id; specialize (H1' id); specialize (H3' id); lia|]. intros [Hp Hq]%Hr id.
  by rewrite H4', H2'.
Qed.

Lemma owed_ext extra extra' lost w w' :
  (∀ id, outstanding id w' + extra' id = outstanding id w + extra id)%nat →
  (∀ id, waiting id w' = waiting id w) → owed extra lost w → owed extra' lost w'.
Proof. intros Ho Hw Hl id. specialize (Hl id). rewrite Ho, Hw. exact Hl. Qed.

Lemma calls_eq_outstanding w w' id :
  clients w' = clients w → posted w' = posted w → outstanding id w' = outstanding id w.
Proof. intros Hc Hp. unfold outstanding. by rewrite Hc, Hp. Qed.

Definition server_fine w : Prop := ∃ es, server_ok es (srv (outer w)).

Definition returned (r : outcome unit) : Prop := r = Ret tt.

(** What a handler leaves. *)
Definition balanced r lost w' : Prop :=
  server_fine w' ∧ ∃ lost', later (returned r) lost lost' ∧ linked lost' w'.

Lemma balanced_done lost w : server_fine w → linked lost w → balanced (Ret tt) lost w.
Proof. intros Hf Hl. split; [done|]. exists lost. by split; [apply later_refl|]. Qed.

(** An answer that is owed no more, for it has been lost. *)
Lemma balanced_lost extra r lost w w' :
  (∀ id, outstanding id w' = outstanding id w) → outer w' = outer w → ¬ returned r →
  server_fine w → owed extra lost w → balanced r lost w'.
Proof.
  intros Ho Hw Hr Hf Hl. split; [unfold server_fine; by rewrite Hw|].
  exists (λ id, lost id + extra id)%nat. split; [split; [intros id; lia|by intros []%Hr]|].
  intros id. specialize (Hl id). rewrite Ho. unfold waiting in *. rewrite Hw. lia.
Qed.

Lemma answer_link c r lost w w' :
  server_fine w → owed (is_session c) lost w → outer w' = deliver c r (outer w) →
  (∀ id, outstanding id w' = outstanding id w) → server_fine w' ∧ linked lost w'.
Proof.
  intros [es Hes] Hl Ho Hout. pose proof (Hl (session c)) as Hc.
  unfold is_session in Hc at 1. rewrite decide_True in Hc by done. rewrite waiting_calls in Hc.
  destruct (deliver_ok es c r (outer w) Hes ltac:(lia)) as ([es' Hes'] & _ & Hd).
  unfold server_fine. rewrite Ho. split; [by eexists|]. intros id. specialize (Hl id). specialize (Hd id).
  rewrite waiting_calls in *. rewrite Hout, Ho. lia.
Qed.

(** ** The completion of a call *)

Lemma completion_link (k : completion caller) res ec lost w :
  server_fine w → owed (is_session (send_response_cb_copy k)) lost w →
  let '(r, w') := on_backend_response (J := J) callback k res ec w in balanced r lost w'.
Proof.
  intros Hf Hl. pose proof (completion_delivers (J := J) deliver k res ec w) as Hd.
  pose proof (completion_calls_eq (J := J) deliver k res ec w) as (_ & Hcl & _ & Hp).
  destruct (on_backend_response callback k res ec w) as [r w']. cbn [snd] in Hcl, Hp.
  assert (Hout : ∀ id, outstanding id w' = outstanding id w)
    by (intros id; by apply calls_eq_outstanding).
  destruct r as [[]|e|]; [|by eapply balanced_lost..].
  destruct Hd as [r Hr]. destruct (answer_link _ _ lost w w' Hf Hl Hr Hout). by apply balanced_done.
Qed.

Lemma effects_link (k : wrapper caller) os lost w :
  session_to_remove_on_complete k = None → (completions os <= 1)%nat →
  server_fine w →
  owed (λ id, completions os * is_session (send_response_cb_copy (original_user_callback k)) id)%nat lost w →
  let '(r, w') := run_effects (J := J) callback k os w in balanced r lost w'.
Proof.
  intros Hk. revert lost w. induction os as [|o os IH]; intros lost w Hlen Hf Hl.
  - by apply balanced_done.
  - destruct o as [level m|host service|res ec]; rewrite completions_cons in *; cbn [is_complete] in *;
      cbn [run_effects].
    + set (w1 := w <| logger_ ::= Logging.log level m |>).
      rewrite (M_bind_ret _ _ w w1 tt) by done. apply IH; [lia|exact Hf|exact Hl].
    + apply IH; [lia|exact Hf|exact Hl].
    + assert (Hz : completions os = 0%nat) by lia. rewrite Hz in *.
      unfold on_client_complete. rewrite Hk. unfold mbind, M_bind. cbn [mret M_ret].
      pose proof (completion_link (original_user_callback k) res ec lost w Hf) as Hc.
      destruct (on_backend_response callback (original_user_callback k) res ec w) as [r w1].
      destruct Hc as [Hf1 (lost1 & Hlater & Hl1)].
      { eapply owed_ext; [| |exact Hl]; [|done]. intros id. cbn. lia. }
      destruct r as [[]|e|]; [|by split; [|exists lost1]..].
      specialize (IH lost1 w1 ltac:(lia) Hf1). destruct (run_effects _ _ _ w1) as [r w2].
      destruct IH as [Hf2 (lost2 & Hlater2 & Hl2)].
      { eapply owed_ext; [| |exact Hl1]; [|done]. intros id. cbn. lia. }
      split; [done|]. exists lost2. split; [|done]. eapply later_trans; [exact Hlater|exact Hlater2|done].
Qed.

(** ** Events *)

(** The state of a run: the service's invariant of History.v, the server's of
    ServerProps.v, and the balance. *)
Record system_inv lost n w : Prop := {
  sy_service : History.inv asked_for served n w;
  sy_server : server_fine w;
  sy_linked : linked lost w
}.

(** After a handler that has ended with [r]. *)
Definition system_ok r lost n w : Prop :=
  ∃ lost', later (returned r) lost lost' ∧ system_inv lost' n w.

Lemma system_ok_same lost n w : system_inv lost n w → system_ok (Ret tt) lost n w.
Proof. exists lost. by split; [apply later_refl|]. Qed.

Lemma balanced_ok r lost n w :
  History.inv asked_for served n w → balanced r lost w → system_ok r lost n w.
Proof. intros Hs [Hf (lost' & Hlater & Hl)]. by exists lost'. Qed.

Lemma served_deliver c r f : served (deliver c r f) = record_answer (asked_for c) r (served f).
Proof. done. Qed.

Lemma call_for_is id s (k : wrapper caller) :
  call_for id (s, k) = (in_flight s * is_session (send_response_cb_copy (original_user_callback k)) id)%nat.
Proof. unfold call_for, is_session. cbn. case_decide; lia. Qed.

Lemma client_event_balanced lost n w c e :
  documented e → system_inv lost n w →
  let '(r, w') := client_event (J := J) callback c e w in balanced r lost w'.
Proof.
  intros He [Hs Hf Hl]. unfold client_event, get_state. unfold mbind at 1, M_bind at 1.
  destruct (clients w !! c) as [[s k]|] eqn:Hc; [|by apply balanced_done].
  destruct (AsyncHttpClientSession.step e s) as [[s' os]|] eqn:Hstep; [|by apply balanced_done].
  destruct (step_ok _ _ _ _ He Hstep) as [[Hcount _] _].
  destruct (inv_clients _ _ _ _ Hs _ _ _ Hc) as (_ & Hnone & _).
  set (w1 := w <| clients ::= insert c (s', k) |>). rewrite (M_bind_ret _ _ w w1 tt) by done.
  apply effects_link; [exact Hnone| |exact Hf|].
  { unfold in_flight in Hcount. destruct (AsyncHttpClientSession.pending s), (AsyncHttpClientSession.pending s'); lia. }
  eapply owed_ext; [| |exact Hl]; [|done]. intros id. unfold outstanding.
  change (clients w1) with (<[c := (s', k)]> (clients w)). change (posted w1) with (posted w).
  pose proof (map_sum_update (call_for id) (clients w) c (s', k) (s, k) Hc) as Hu.
  rewrite !call_for_is in Hu. cbn beta. rewrite <- Hcount in Hu. lia.
Qed.

Lemma client_event_inv lost n w c e :
  documented e → system_inv lost n w →
  let '(r, w') := client_event (J := J) callback c e w in system_ok r lost n w'.
Proof.
  intros He Hinv. pose proof (client_event_balanced lost n w c e He Hinv) as Hb.
  pose proof (inv_client_event (J := J) deliver asked_for served served_deliver n w c e He
    (sy_service _ _ _ Hinv)) as Hs.
  destruct (client_event callback c e w) as [r w']. by apply balanced_ok.
Qed.

Lemma posted_inv lost n w :
  system_inv lost n w → let '(r, w') := run_posted (J := J) callback w in system_ok r lost n w'.
Proof.
  intros [Hs Hf Hl].
  pose proof (inv_posted_run (J := J) deliver asked_for served served_deliver n w Hs) as Hs'.
  assert (Hbody : let '(r, w') := run_posted (J := J) callback w in balanced r lost w').
  2: { destruct (run_posted callback w) as [r w']. by apply balanced_ok. }
  clear Hs'. unfold run_posted, get_state. unfold mbind at 1, M_bind at 1.
  destruct (posted w) as [|[k ec] rest] eqn:Hq; [by apply balanced_done|].
  set (w1 := w <| posted := rest |>). rewrite (M_bind_ret _ _ w w1 tt) by done.
  apply completion_link; [exact Hf|]. eapply owed_ext; [| |exact Hl]; [|done].
  intros id. unfold outstanding, failures_for. change (posted w1) with rest.
  change (clients w1) with (clients w). rewrite Hq, filter_cons. cbn [fst]. unfold is_session.
  case_decide; cbn [length]; lia.
Qed.

Lemma cancel_all_inv lost n ns w :
  system_inv lost n w →
  let '(r, w') := cancel_all (J := J) callback ns w in system_ok r lost n w'.
Proof.
  revert lost w. induction ns as [|c ns IH]; intros lost w Hinv; cbn [cancel_all];
    [by apply system_ok_same|].
  pose proof (client_event_inv lost n w c AsyncHttpClientSession.Cancel I Hinv) as Hc.
  unfold cancel_client, mbind, M_bind.
  destruct (client_event callback c _ w) as [[[]|e|] w1]; [|exact Hc..].
  destruct Hc as (lost1 & Hlater1 & Hinv1). specialize (IH lost1 w1 Hinv1).
  destruct (cancel_all callback ns w1) as [r w2]. destruct IH as (lost2 & Hlater2 & Hinv2).
  exists lost2. split; [|done]. eapply later_trans; [exact Hlater1|exact Hlater2|done].
Qed.

(** Nothing that matters here has changed. *)
Lemma system_inv_same lost n w w' :
  system_inv lost n w → srv (outer w') = srv (outer w) → served (outer w') = served (outer w) →
  cache_ w' = cache_ w → calls_eq w w' → system_inv lost n w'.
Proof.
  intros [Hs Hf Hl] Ho Hv Hc Heq. split.
  - by apply (inv_irrelevant deliver asked_for served served_deliver n w w').
  - unfold server_fine. by rewrite Ho.
  - destruct Heq as (_ & Hcl & _ & Hp). eapply owed_ext; [| |exact Hl].
    + intros id. by rewrite (calls_eq_outstanding w w').
    + intros id. unfold waiting. by rewrite Ho.
Qed.

Lemma cancel_inv lost n w :
  system_inv lost n w →
  let '(r, w') := cancel_active_backend_calls (J := J) callback w in system_ok r lost n w'.
Proof.
  intros Hinv. unfold cancel_active_backend_calls.
  set (w1 := w <| logger_ ::= Logging.log Models.INFO "Backendify cancelling active backend calls..." |>).
  rewrite (M_bind_ret _ _ w w1 tt) by done. rewrite (M_bind_ret _ _ w1 w1 w1) by done.
  assert (Hinv1 : system_inv lost n w1) by by apply (system_inv_same lost n w).
  case_decide; [apply system_ok_same; by apply (system_inv_same lost n w1)|].
  erewrite M_bind_ret by done. apply cancel_all_inv. by apply (system_inv_same lost n w1).
Qed.

(** ** A new request *)

Abbreviation serve := (serve (J := J) (C := C) (L := L) (S := S) log_level session_address).
Abbreviation one id := (λ i, if decide (id = i) then 1%nat else 0%nat).

Lemma started_outstanding info name (k : completion caller) w w' i :
  clients w !! next_client w = None → BackendifyProps.started info name k w w' →
  outstanding i w' = (outstanding i w + is_session (send_response_cb_copy k) i)%nat.
Proof.
  intros Hfresh [_ Hs]. unfold outstanding. destruct (is_https info).
  - destruct Hs as (-> & -> & _ & _). unfold failures_for. rewrite filter_app, length_app, filter_cons.
    cbn [fst]. unfold is_session. case_decide; cbn; lia.
  - destruct Hs as (-> & _ & _ & ->). rewrite map_sum_insert by done. rewrite call_for_is.
    cbn. lia.
Qed.

Lemma client_fresh n w : History.inv asked_for served n w → clients w !! next_client w = None.
Proof.
  intros Hs. destruct (clients w !! next_client w) as [[s k]|] eqn:Hl; [|done].
  apply (inv_clients _ _ _ _ Hs) in Hl as [? _]. lia.
Qed.

Lemma company_link lost n id req received w :
  History.inv asked_for served n w → server_fine w → owed (one id) lost w →
  let '(r, w') := serve n id (HttpServerSession.CompanyRequest req received) w in
  r = Ret tt ∧ server_fine w' ∧ linked lost w'.
Proof.
  intros Hs Hf Hl. cbn [System.serve].
  set (cb := Caller id {| number := n; asked := target req |}).
  destruct (contract_get (cache_key_of (request_id (target req)) (request_country (target req)))
    _ (inv_cache _ _ _ _ Hs)) as (cached & c' & Hget & _).
  destruct (company_request_run (J := J) deliver req received cb w cached c' Hget) as (w' & -> & Hv & _).
  split; [done|].
  assert (Hanswer : ∀ r, outer w' = deliver cb r (outer w) ∧ same_calls w w' → server_fine w' ∧ linked lost w').
  { intros r (Ho & _ & _ & Hcl & _ & Hp). apply (answer_link cb r lost w); [done|exact Hl|done|].
    intros i. by apply calls_eq_outstanding. }
  destruct (company_verdict _ _ _ _ _ _) as [r| |info]; cbn [follows] in Hv; [by eapply Hanswer..|].
  destruct Hv as [Ho Hstart]. split; [unfold server_fine; by rewrite Ho|].
  eapply owed_ext; [| |exact Hl].
  - intros i. rewrite (started_outstanding _ _ _ w w' i (client_fresh n w Hs) Hstart).
    cbn [send_response_cb_copy]. unfold is_session, cb. cbn [session]. lia.
  - intros i. unfold waiting. by rewrite Ho.
Qed.

Lemma serve_inv lost n id c w :
  History.inv asked_for served n w → server_fine w → owed (one id) lost w →
  let '(r, w') := serve n id c w in r = Ret tt ∧ system_inv lost (Datatypes.S n) w'.
Proof.
  intros Hs Hf Hl. destruct c as [req received|].
  - pose proof (company_link lost n id req received w Hs Hf Hl) as Hc. cbn [System.serve] in *.
    pose proof (inv_company (J := J) deliver asked_for served served_deliver n w req received
      (Caller id {| number := n; asked := target req |}) eq_refl Hs) as Hs'.
    destruct (processCompanyRequest _ _ _ _ w) as [r w']. by destruct Hc as (-> & Hf' & Hl').
  - cbn [System.serve].
    set (cb := Caller id {| number := n; asked := "/status" |}).
    pose proof (inv_status deliver asked_for served served_deliver n w cb eq_refl Hs) as Hs'.
    assert (Hr : ∃ r w', processStatusRequest callback cb w = (Ret tt, w')
      ∧ outer w' = deliver cb r (outer w) ∧ clients w' = clients w ∧ posted w' = posted w)
      by (eexists _, (processStatusRequest callback cb w).2; split; [reflexivity|done]).
    destruct Hr as (r & w' & Hr & Ho & Hcl & Hp). rewrite Hr in *. split; [done|].
    destruct (answer_link cb r lost w w') as [Hf' Hl']; [exact Hf|exact Hl|exact Ho| |by split].
    intros i. by apply calls_eq_outstanding.
Qed.

(** ** Runs *)

Abbreviation on_server := (on_server (J := J) (C := C) (L := L) (S := S) log_level session_address).
Abbreviation run := (System.run (J := J) (C := C) (L := L) (S := S) log_level session_address).
Abbreviation runs := (System.runs (J := J) (C := C) (L := L) (S := S) log_level session_address).

(** The handlers of the server on their own: a read that ends may leave a call
    of the service to make. *)
Lemma server_link es e m s :
  server_ok es s → internal e = false → @BeastHttpServer.handler _ senv e s = Some m →
  ∃ s', m s = (Ret tt, s') ∧ server_ok (es ++ [e]) s'
    ∧ ∀ i, (length (calls_of i s) + match new_call e s' with Some (id, _) => one id i | None => 0 end)%nat
           = length (calls_of i s').
Proof.
  intros Hok Hint Hh. destruct e as [ec|id o e|o].
  - destruct (@step_server_inv _ senv Hmax es s _ m Hok Hh) as (s' & Hs' & Hok'). exists s'.
    split; [done|]. split; [done|]. intros i.
    pose proof (@server_event_calls _ senv Hmax es s _ m s' i Hok Hh Hs') as Hc. cbn in *. rewrite Hc. lia.
  - destruct (@session_event_run _ senv Hmax es s id o e m Hok Hh) as (s' & Hs' & Hok' & Hother & Hself).
    exists s'. split; [done|]. split; [done|]. intros i. unfold new_call.
    destruct (decide (id = i)) as [<-|Hi].
    + destruct e as [|? ? ?|? ?|?|?|]; try (rewrite Hself; lia); [|done].
      destruct Hself as [Hnone Hself]. rewrite Hnone. unfold calls_of in Hself.
      unfold calls_of. destruct (BeastHttpServer.sessions s' !! id) as [x|]; [|done]. cbn [mbind option_bind].
      destruct Hself as [->|[c ->]]; cbn; [done|]. by rewrite decide_True.
    + rewrite Hother by done. destruct e as [|? ? ?|? ?|?|?|]; try lia.
      destruct (BeastHttpServer.sessions s' !! id ≫= _) as [[id' c]|] eqn:Hc; [|lia].
      apply bind_Some in Hc as (x & _ & Hc). apply bind_Some in Hc as (c' & _ & [= <- <-]).
      rewrite decide_False by done. lia.
  - destruct (@step_server_inv _ senv Hmax es s _ m Hok Hh) as (s' & Hs' & Hok'). exists s'.
    split; [done|]. split; [done|]. intros i.
    pose proof (@server_event_calls _ senv Hmax es s _ m s' i Hok Hh Hs') as Hc. cbn in *. rewrite Hc. lia.
Qed.

Lemma on_server_inv lost n w e r n' w' :
  system_inv lost n w → on_server e (n, w) = Some (r, (n', w')) → r = Ret tt ∧ system_inv lost n' w'.
Proof.
  intros Hinv. unfold System.on_server. destruct (internal e) eqn:Hint; [done|].
  destruct (@BeastHttpServer.handler _ senv e (srv (outer w))) as [m|] eqn:Hh; [|done].
  cbn [mbind option_bind]. destruct (sy_server _ _ _ Hinv) as [es Hes].
  destruct (server_link es e m _ Hes Hint Hh) as (s' & -> & Hok & Hcalls).
  set (w1 := w <| outer ::= λ f, f <| srv := s' |> |>).
  assert (Hs1 : History.inv asked_for served n w1).
  { apply (inv_irrelevant deliver asked_for served served_deliver n w w1); [apply Hinv|done..]. }
  assert (Hf1 : server_fine w1) by by eexists.
  assert (Hl1 : owed (λ i, match new_call e s' with Some (id, _) => one id i | None => 0 end)%nat lost w1).
  { intros i. pose proof (sy_linked _ _ _ Hinv i) as Hl. specialize (Hcalls i).
    rewrite waiting_calls in *. change (srv (outer w1)) with s'.
    change (outstanding i w1) with (outstanding i w). lia. }
  destruct (new_call e s') as [[id c]|].
  - pose proof (serve_inv lost n id c w1 Hs1 Hf1 Hl1) as Hserve.
    destruct (serve n id c w1) as [r1 w2]. destruct Hserve as [-> Hserve]. by intros [= <- <- <-].
  - intros [= <- <- <-]. by split.
Qed.

Lemma event_ok lost n w e r n' w' :
  documented_event e → system_inv lost n w → run e (n, w) = Some (r, (n', w')) →
  system_ok r lost n' w'.
Proof.
  intros He Hinv. unfold System.run.
  set (w1 := w <| outer ::= _ |>). assert (Hinv1 : system_inv lost n w1) by by apply (system_inv_same lost n w).
  clearbody w1. destruct e as [e|o c e|o|o].
  - intros Hr. destruct (on_server_inv lost n w1 e r n' w' Hinv1 Hr) as [-> Hinv']. by apply system_ok_same.
  - pose proof (client_event_inv lost n w1 c e He Hinv1) as Hc.
    destruct (client_event callback c e w1) as [r1 w2]. by intros [= <- <- <-].
  - pose proof (posted_inv lost n w1 Hinv1) as Hc.
    destruct (run_posted callback w1) as [r1 w2]. by intros [= <- <- <-].
  - pose proof (cancel_inv lost n w1 Hinv1) as Hc.
    destruct (cancel_active_backend_calls callback w1) as [r1 w2]. by intros [= <- <- <-].
Qed.

(** No handler was left by an exception. *)
Abbreviation all_returned := (Forall returned).

Lemma runs_ok es lost n w rs n' w' :
  Forall documented_event es → system_inv lost n w → runs es (n, w) = Some (rs, (n', w')) →
  ∃ lost', later (all_returned rs) lost lost' ∧ system_inv lost' n' w'.
Proof.
  intros Hes. revert lost n w rs. induction Hes as [|e es He Hes IH]; intros lost n w rs Hinv Hr.
  - cbn in Hr. simplify_eq. exists lost. by split; [apply later_refl|].
  - cbn [System.runs] in Hr. destruct (run e (n, w)) as [[r [n1 w1]]|] eqn:Hrun; [|done].
    cbn [mbind option_bind] in Hr. destruct (runs es (n1, w1)) as [[rs1 p]|] eqn:Hruns; [|done].
    cbn [mbind option_bind] in Hr. simplify_eq.
    destruct (event_ok lost n w e r n1 w1 He Hinv Hrun) as (lost1 & Hlater1 & Hinv1).
    destruct (IH lost1 n1 w1 rs1 Hinv1 Hruns) as (lost2 & Hlater2 & Hinv2).
    exists lost2. split; [|done]. eapply later_trans; [exact Hlater1|exact Hlater2|].
    by intros []%Forall_cons.
Qed.

(** What the constructors of the main program leave, before the first event. *)
Definition ready w : Prop := History.initial served w ∧ listening (srv (outer w)).

Lemma ready_inv w0 : ready w0 → system_inv (λ _, 0%nat) 0 w0.
Proof.
  intros [Hinit Hlisten]. split.
  - by apply (initial_inv deliver asked_for served served_deliver).
  - exists []. by apply listening_inv.
  - destruct (listening_start _ Hlisten) as (_ & Hs & _).
    destruct Hinit as (c & s & l & x & Hw & _). injection Hw as <-. intros id.
    unfold outstanding, waiting. cbn in *. by rewrite Hs, lookup_empty.
Qed.

Lemma history_ok w0 es rs n w :
  ready w0 → Forall documented_event es → runs es (0%nat, w0) = Some (rs, (n, w)) →
  ∃ lost, (all_returned rs → ∀ id, lost id = 0%nat) ∧ system_inv lost n w.
Proof.
  intros Hready Hes Hruns.
  destruct (runs_ok es _ _ _ _ _ _ Hes (ready_inv w0 Hready) Hruns) as (lost & [_ Hlater] & Hinv).
  by exists lost.
Qed.

Lemma waiting_one lost n w id : system_inv lost n w → (waiting id w <= 1)%nat.
Proof.
  intros Hinv. destruct (sy_server _ _ _ Hinv) as [es Hes]. rewrite waiting_calls.
  by apply (@calls_of_one _ senv Hmax es).
Qed.

(** ** Progress *)

(** The events of a network that does its part: the pending operation of a call
    completes with what [net] has for it, or a posted handler runs. *)
Definition progress (net : AsyncHttpClientSession.io_op -> error_code * response * error_code) (e : event) : Prop :=
  match e with
  | OnClient _ _ (AsyncHttpClientSession.Io op ec res shut_ec) => net op = (ec, res, shut_ec)
  | OnPosted _ => True
  | _ => False
  end.

Abbreviation in_step := (system_inv (λ _, 0%nat)).

Lemma run_in_step n w e r n' w' :
  documented_event e → in_step n w → run e (n, w) = Some (r, (n', w')) → returned r → in_step n' w'.
Proof.
  intros He Hinv Hr Hret. destruct (event_ok _ _ _ _ _ _ _ He Hinv Hr) as (lost & [_ Hl] & [Hs Hf Hb]).
  split; [done|done|]. intros i. specialize (Hb i). by rewrite (Hl Hret) in Hb.
Qed.

Lemma in_step_waiting n w id : in_step n w → waiting id w = outstanding id w.
Proof. intros Hinv. pose proof (sy_linked _ _ _ Hinv id) as Hl. cbn in Hl. lia. Qed.

(** A schedule of the network that ends a wait, or finds an exception. *)
Definition ends_wait net id (fuel : nat) n w : Prop :=
  ∃ es rs w', (length es <= fuel)%nat ∧ Forall (progress net) es
    ∧ runs es (n, w) = Some (rs, (n, w')) ∧ (all_returned rs → waiting id w' = 0%nat).

Lemma ends_wait_now net id fuel n w : waiting id w = 0%nat → ends_wait net id fuel n w.
Proof. intros Hw. exists [], [], w. cbn. split_and!; [lia|constructor|done|done]. Qed.

(** One event first; if its handler returns, what is left of the schedule. *)
Lemma ends_wait_next net id fuel n w e r w' :
  documented_event e → progress net e → in_step n w → run e (n, w) = Some (r, (n, w')) →
  (in_step n w' → ends_wait net id fuel n w') → ends_wait net id (Datatypes.S fuel) n w.
Proof.
  intros He Hp Hinv Hr Hrest. destruct r as [[]|err|].
  - destruct Hrest as (es & rs & w2 & Hlen & Hes & Hruns & Hend); [by eapply run_in_step|].
    exists (e :: es), (Ret tt :: rs), w2. split; [cbn; lia|]. split; [by constructor|].
    split; [cbn [System.runs]; rewrite Hr; cbn [mbind option_bind]; by rewrite Hruns|].
    intros [_ Hall]%Forall_cons. by apply Hend.
  - exists [e], [Throw err], w'. split; [cbn; lia|]. split; [by repeat constructor|].
    split; [cbn [System.runs]; by rewrite Hr|]. by intros []%Forall_cons.
  - exists [e], [UB], w'. split; [cbn; lia|]. split; [by repeat constructor|].
    split; [cbn [System.runs]; by rewrite Hr|]. by intros []%Forall_cons.
Qed.

Lemma client_io lost n w c s (k : wrapper caller) op ec res shut_ec :
  system_inv lost n w → clients w !! c = Some (s, k) → AsyncHttpClientSession.pending s = Some op →
  let w' := (client_event (J := J) callback c (AsyncHttpClientSession.Io op ec res shut_ec) w).2 in
  ∃ s', clients w' = <[c := (s', k)]> (clients w) ∧ posted w' = posted w
    ∧ (remaining s' < remaining s)%nat.
Proof.
  intros Hinv Hc Hp. cbn zeta.
  destruct (AsyncHttpClientSession.step (AsyncHttpClientSession.Io op ec res shut_ec) s)
    as [[s' os]|] eqn:Hstep.
  2: { cbn [AsyncHttpClientSession.step] in Hstep. by rewrite decide_True in Hstep. }
  assert (Hdoc : documented (AsyncHttpClientSession.Io op ec res shut_ec)) by done.
  destruct (step_ok _ _ _ _ Hdoc Hstep) as [[_ Hrem] _]. cbn [is_io] in Hrem.
  set (w1 := w <| clients ::= insert c (s', k) |>).
  assert (client_event callback c (AsyncHttpClientSession.Io op ec res shut_ec) w
    = run_effects (J := J) callback k os w1) as ->.
  { unfold client_event, get_state. unfold mbind at 1, M_bind at 1. rewrite Hc, Hstep. done. }
  destruct (sy_service _ _ _ Hinv) as [_ _ Hcl _ _ Hi Hok]. destruct (Hcl _ _ _ Hc) as (_ & Hnone & Hwf).
  destruct (run_effects_history (J := J) deliver asked_for served served_deliver k os w1 Hi Hok Hnone Hwf)
    as ((_ & Hcl' & _ & Hp') & _).
  exists s'. split; [exact Hcl'|]. split; [exact Hp'|lia].
Qed.

Lemma client_ends_wait net id fuel n w c s (k : wrapper caller) :
  in_step n w → clients w !! c = Some (s, k) →
  session (send_response_cb_copy (original_user_callback k)) = id →
  in_flight s = 1%nat → (remaining s <= fuel)%nat → ends_wait net id fuel n w.
Proof.
  revert w s. induction fuel as [|fuel IH]; intros w s Hinv Hc Hid Hfl Hrem.
  - unfold in_flight, remaining in *. by destruct (AsyncHttpClientSession.pending s) as [[]|]; try lia.
  - destruct (AsyncHttpClientSession.pending s) as [op|] eqn:Hp; [|by unfold in_flight in Hfl; rewrite Hp in Hfl].
    destruct (net op) as [[ec res] shut_ec] eqn:Hnet.
    set (e := OnClient (os_ (outer w)) c (AsyncHttpClientSession.Io op ec res shut_ec)).
    set (w1 := w <| outer ::= λ f, f <| os_ ::= λ o, default o (event_os e) |> |>).
    assert (Hinv1 : in_step n w1) by by apply (system_inv_same _ n w).
    destruct (client_io _ n w1 c s k op ec res shut_ec Hinv1 Hc Hp) as (s' & Hcl & Hpo & Hrem').
    destruct (client_event callback c (AsyncHttpClientSession.Io op ec res shut_ec) w1) as [r w'] eqn:Hev. cbn [snd] in Hcl, Hpo.
    apply (ends_wait_next net id fuel n w e r w'); [done|exact Hnet|done| |].
    { unfold System.run. fold w1. subst e. cbn iota. by rewrite Hev. }
    intros Hinv'. destruct (decide (in_flight s' = 1%nat)) as [Hf|Hf].
    + apply (IH w' s'); [done| |done|done|lia]. rewrite Hcl. apply lookup_insert_eq.
    + apply ends_wait_now. rewrite (in_step_waiting n w' id Hinv'). unfold outstanding. rewrite Hcl, Hpo.
      pose proof (waiting_one _ n w id Hinv) as Hone. rewrite (in_step_waiting n w id Hinv) in Hone.
      unfold outstanding in Hone.
      pose proof (map_sum_update (call_for id) (clients w) c (s', k) (s, k) Hc) as Hu.
      rewrite !call_for_is in Hu. unfold is_session in Hu. rewrite Hid, decide_True in Hu by done.
      change (clients w1) with (clients w). change (posted w1) with (posted w).
      assert (in_flight s' = 0%nat) by (unfold in_flight in *; by destruct (AsyncHttpClientSession.pending s')).
      lia.
Qed.

Lemma posted_io n w k ec rest :
  posted w = (k, ec) :: rest →
  ∃ r w', run (OnPosted (os_ (outer w))) (n, w) = Some (r, (n, w'))
    ∧ clients w' = clients w ∧ posted w' = rest.
Proof.
  intros Hq. unfold System.run. set (w1 := w <| outer ::= _ |>).
  assert (run_posted (J := J) callback w1
    = on_backend_response (J := J) callback k response_default ec (w1 <| posted := rest |>)) as ->.
  { unfold run_posted, get_state. unfold mbind at 1, M_bind at 1. change (posted w1) with (posted w).
    by rewrite Hq. }
  pose proof (completion_calls_eq (J := J) deliver k response_default ec (w1 <| posted := rest |>))
    as (_ & Hcl & _ & Hp).
  destruct (on_backend_response _ _ _ _ _) as [r w']. by exists r, w'.
Qed.

(** A posted handler takes its turn. *)
Lemma posted_ends_wait net id n w pre (k : completion caller) ec rest :
  in_step n w → posted w = pre ++ (k, ec) :: rest → session (send_response_cb_copy k) = id →
  ends_wait net id (Datatypes.S (length pre)) n w.
Proof.
  intros Hinv Hq Hid. revert w Hinv Hq. induction pre as [|[k0 ec0] pre IH]; intros w Hinv Hq;
    destruct (posted_io n w _ _ _ Hq) as (r & w' & Hrun & Hcl & Hp);
    (eapply ends_wait_next; [| |exact Hinv|exact Hrun|]; [done|done|]); intros Hinv'.
  - apply ends_wait_now. rewrite (in_step_waiting n w' id Hinv').
    pose proof (waiting_one _ n w id Hinv) as Hone. rewrite (in_step_waiting n w id Hinv) in Hone.
    unfold outstanding, failures_for in *. rewrite Hcl, Hp. rewrite Hq in Hone. cbn [app] in Hone.
    rewrite filter_cons, decide_True in Hone by done. cbn [length] in Hone. lia.
  - by apply IH.
Qed.

Lemma map_sum_positive {A} (f : A -> nat) (m : gmap nat A) :
  (0 < map_sum f m)%nat → ∃ c x, m !! c = Some x ∧ (0 < f x)%nat.
Proof.
  unfold map_sum. intros Hpos.
  assert (∃ x, x ∈ (map_to_list m).*2 ∧ (0 < f x)%nat) as (x & Hx & Hf).
  { induction (map_to_list m).*2 as [|y l IH]; cbn in Hpos; [lia|]. destruct (f y) eqn:Hy.
    - destruct IH as (x & Hx & Hf); [done|]. exists x. split; [by right|done].
    - exists y. split; [by left|lia]. }
  apply list_elem_of_fmap in Hx as ([c y] & -> & Hin%elem_of_map_to_list). by exists c, y.
Qed.

Lemma wait_ends net n w id :
  in_step n w → waiting id w = 1%nat → ends_wait net id (4 + length (posted w)) n w.
Proof.
  intros Hinv Hw. rewrite (in_step_waiting n w id Hinv) in Hw. unfold outstanding in Hw.
  destruct (decide (0 < map_sum (call_for id) (clients w))%nat) as [Hpos|Hz].
  - apply map_sum_positive in Hpos as (c & [s k] & Hc & Hf). rewrite call_for_is in Hf.
    unfold is_session in Hf. case_decide as Hid; [|lia]. assert (Hr : (remaining s <= 4)%nat).
    { unfold remaining. destruct (AsyncHttpClientSession.pending s) as [[]|]; lia. }
    destruct (client_ends_wait net id 4 n w c s k Hinv Hc Hid) as (es & rs & w' & Hlen & Hend);
      [unfold in_flight in *; destruct (AsyncHttpClientSession.pending s); lia|done|].
    exists es, rs, w'. split; [lia|done].
  - assert (Hfail : failures_for id (posted w) ≠ 0%nat) by lia. unfold failures_for in Hfail.
    destruct (filter _ (posted w)) as [|[k ec] l] eqn:Hl; [done|].
    assert ((k, ec) ∈ filter (λ p, session (send_response_cb_copy p.1) = id) (posted w)) as Hin
      by (rewrite Hl; by left).
    apply list_elem_of_filter in Hin as [Hid Hin]. apply list_elem_of_split in Hin as (pre & rest & Hq).
    destruct (posted_ends_wait net id n w pre k ec rest Hinv Hq Hid) as (es & rs & w' & Hlen & Hend).
    exists es, rs, w'. split; [|done]. rewrite Hq, length_app. lia.
Qed.

(** ** Properties *)

(** C1 (invariant): in any interleaving of accepts, reads, writes, timers, backend
    completions and shutdown, a session has handed over one request at most,
    and a backend call (or a posted failure) is under way for it only if it
    waits for an answer; and as long as every handler has returned, a session
    that waits has a call under way: nobody is answered who did not ask, and
    nobody who asked is forgotten. *)
Theorem waiting_iff_outstanding w0 es rs n w id
    (Hready : ready w0) (Hdoc : Forall documented_event es)
    (Hrun : runs es (0%nat, w0) = Some (rs, (n, w))) :
  (outstanding id w <= waiting id w <= 1)%nat
  ∧ (all_returned rs → outstanding id w = waiting id w).
Proof.
  destruct (history_ok w0 es rs n w Hready Hdoc Hrun) as (lost & Hlost & Hinv).
  pose proof (waiting_one lost n w id Hinv). pose proof (sy_linked _ _ _ Hinv id) as Hl. cbn in Hl.
  split; [lia|]. intros Hret. rewrite (Hlost Hret) in Hl. lia.
Qed.

(** C2 (liveness): as long as every handler has returned, a session that waits is
    never stuck: whatever the network has for each operation, four completions
    of the operation its call has pending (or its turn among the posted
    failures) end the wait, or a handler on the way does not return. *)
Theorem waiting_session_is_answered w0 es rs n w id net
    (Hready : ready w0) (Hdoc : Forall documented_event es)
    (Hrun : runs es (0%nat, w0) = Some (rs, (n, w)))
    (Hret : all_returned rs) (Hwait : waiting id w = 1%nat) :
  ∃ es' rs' w', (length es' <= 4 + length (posted w))%nat ∧ Forall (progress net) es'
    ∧ runs es' (n, w) = Some (rs', (n, w')) ∧ (all_returned rs' → waiting id w' = 0%nat).
Proof.
  destruct (history_ok w0 es rs n w Hready Hdoc Hrun) as (lost & Hlost & [Hs Hf Hb]).
  apply (wait_ends net n w id); [|done]. split; [done|done|]. intros i. specialize (Hb i).
  by rewrite (Hlost Hret) in Hb.
Qed.

(** C28 (error): an exception that leaves a completion handler costs its client the
    connection: the session waits for an answer that nobody owes it any more,
    and no event that follows, a shutdown included, ends the wait. *)
Theorem lost_answer_waits_forever w0 es rs n w id es' rs' n' w'
    (Hready : ready w0) (Hdoc : Forall documented_event (es ++ es'))
    (Hrun : runs es (0%nat, w0) = Some (rs, (n, w)))
    (Hwait : waiting id w = 1%nat) (Hnone : outstanding id w = 0%nat)
    (Hrest : runs es' (n, w) = Some (rs', (n', w'))) :
  waiting id w' = 1%nat ∧ outstanding id w' = 0%nat.
Proof.
  apply Forall_app in Hdoc as [Hdoc Hdoc'].
  destruct (history_ok w0 es rs n w Hready Hdoc Hrun) as (lost & _ & Hinv).
  destruct (runs_ok es' lost n w rs' n' w' Hdoc' Hinv Hrest) as (lost' & [Hlater _] & Hinv').
  pose proof (waiting_one lost' n' w' id Hinv'). specialize (Hlater id).
  pose proof (sy_linked _ _ _ Hinv id) as Hl. pose proof (sy_linked _ _ _ Hinv' id) as Hl'.
  cbn in Hl, Hl'. lia.
Qed.

End SystemProps.
