(* ===== verification/Main.v ===== *)
(** * The main program (src/main.cpp)

    [initializeCache] and [initializeStatsDClient] choose the implementations
    behind the two interfaces; the instances of [any_cache] and [any_statsd]
    are the virtual calls. [main] is a computation over the process: the
    logger singleton with its owners, the threads not yet joined, and the
    objects it has made. What runs on the event loop is in Backendify.v,
    HttpServerSession.v and BeastHttpServer.v; [on_signal] and [on_heartbeat]
    are the two handlers main itself installs. *)

From S2P Require Import Prelude Text Models Utils Logging Metrics Http Cache CacheInterface Redis.
From S2P Require Import CircuitBreaker AsyncHttpClient Backendify BeastHttpServer.

(** ** The objects behind the interfaces *)

Inductive any_cache (R : Type) :=
  | AnyRedis (c : RedisCache.t R)
  | AnyMemory (c : InMemory.t).
#[global] Arguments AnyRedis {R}.
#[global] Arguments AnyMemory {R}.

(** A virtual call. *)
Definition on_any_cache {R A} (redis : M (RedisCache.t R) A) (memory : M InMemory.t A)
    : M (any_cache R) A := λ c,
  match c with
  | AnyRedis c => let '(r, c) := redis c in (r, AnyRedis c)
  | AnyMemory c => let '(r, c) := memory c in (r, AnyMemory c)
  end.

#[export] Instance any_cache_interface {R} `{Hiredis R} : CacheInterface (any_cache R) := {|
  CacheInterface.set k v ttl := on_any_cache (CacheInterface.set k v ttl) (CacheInterface.set k v ttl);
  CacheInterface.get k := on_any_cache (CacheInterface.get k) (CacheInterface.get k);
  CacheInterface.remove k := on_any_cache (CacheInterface.remove k) (CacheInterface.remove k);
  CacheInterface.clear := on_any_cache CacheInterface.clear CacheInterface.clear;
  CacheInterface.exists_ k := on_any_cache (CacheInterface.exists_ k) (CacheInterface.exists_ k)
|}.

Inductive any_statsd :=
  | AnyStatsD (c : StatsDClient.t)
  | AnyDummy.

Definition on_any_statsd (f : StatsDClient.t -> StatsDClient.t) (c : any_statsd) : any_statsd :=
  match c with AnyStatsD c => AnyStatsD (f c) | AnyDummy => AnyDummy end.

#[export] Instance any_statsd_client (net : UDPSender.network) : IStatsDClient any_statsd := {|
  Metrics.increment k n := on_any_statsd (StatsDClient.increment net k n);
  Metrics.decrement k n := on_any_statsd (StatsDClient.decrement net k n);
  Metrics.gauge k v := on_any_statsd (StatsDClient.gauge net k v);
  Metrics.timing k n := on_any_statsd (StatsDClient.timing net k n);
  Metrics.set k v := on_any_statsd (StatsDClient.set net k v)
|}.

(** The messages a component gives the shared logger. *)
#[export] Instance shared_logger : ILogger logs := {|
  Logging.log level m l := l ++ [(level, m)];
  Logging.getLogLevel _ := 0
|}.

Module Main.

(** What the program finds: its arguments, the configuration files, the
    environment, and what the calls of the system return. *)
Record inputs (R : Type) := {
  argv : list string;
  files : string -> option string;
  hardware_concurrency : Z;
  STATSD_SERVER : option string;
  net : UDPSender.network;
  redis : R;
  steady : nat -> Z;
  spawn : nat -> outcome unit;          (* the constructor of the [i]th std::thread *)
  acceptor : BeastHttpServer.acceptor_os;
  ioc_run : outcome unit;
  backend_calls : nat                   (* what it leaves in [active_client_sessions_] *)
}.
#[global] Arguments argv {R}.
#[global] Arguments files {R}.
#[global] Arguments hardware_concurrency {R}.
#[global] Arguments STATSD_SERVER {R}.
#[global] Arguments net {R}.
#[global] Arguments redis {R}.
#[global] Arguments steady {R}.
#[global] Arguments spawn {R}.
#[global] Arguments acceptor {R}.
#[global] Arguments ioc_run {R}.
#[global] Arguments backend_calls {R}.

(** How the process ends: [main] returns, or [std::terminate] is called. *)
Inductive status := Exit (code : Z) | Terminate.

Record proc := Proc {
  owner : Singleton.t;                  (* ConsoleLogger::instance *)
  console : ConsoleLogger.t;            (* the object it points at *)
  logger_ : option nat;                 (* the block of main's own pointer *)
  joinable : nat;                       (* threads in [ioc_threads] *)
  server : BeastHttpServer.t
}.

#[global] Instance proc_eta : Eta proc := λ p,
  Proc (owner p) (console p) (logger_ p) (joinable p) (server p).

Definition start : proc :=
  Proc Singleton.initial {| ConsoleLogger.logLevel := DEBUG; ConsoleLogger.written := [] |}
    None 0%nat BeastHttpServer.members.

Section Main.
Context {R : Type} `{Hiredis R} `{Beast}.

(** ** Choosing the implementations *)

Definition initializeCache (config_ : AppConfig) (clock : nat -> Z) (r : R) : any_cache R * logs :=
  let redis_cache := RedisCache.ctor config_ r in
  if use_redis config_ && RedisCache.isConnected redis_cache then
    (AnyRedis redis_cache,
     RedisCache.log_ redis_cache ++ [(SETUP, "Redis cache connected successfully.")])
  else
    (AnyMemory {| InMemory.cache := InMemoryCache.ctor (in_memory_cache_ttl config_)
                                      (to_u64 (in_memory_cache_max_size config_));
                  InMemory.clock := clock; InMemory.reads := 0%nat |},
     RedisCache.log_ redis_cache ++ [(SETUP, "Creating InMemoryCache.")]).

(** The state of hiredis when [initializeCache] is over: a Redis cache that
    is not returned is destroyed. *)
Definition initializeCache_redis (config_ : AppConfig) (r : R) : R :=
  let redis_cache := RedisCache.ctor config_ r in
  if use_redis config_ && RedisCache.isConnected redis_cache then RedisCache.server redis_cache
  else RedisCache.server (RedisCache.dtor redis_cache).

Definition initializeStatsDClient (net : UDPSender.network) (config : AppConfig)
    (statsd_server_value : option string) : any_statsd * logs :=
  let statsd_server_endpoint := default "" statsd_server_value in
  let read := [(DEBUG, "Linux/Unix Implementation for STATSD_SERVER env variable read");
               (SETUP, "Linux/Unix : STATSD_SERVER endpoint : " +:+ statsd_server_endpoint)] in
  let found := [(DEBUG, "STATSD_SERVER endpoint found. Creating real StatsDClient instance.")] in
  let dummy := [(CERROR, "StatsDClient failed to get created. Creating DummyStatsDClient instance.")] in
  if decide (statsd_server_endpoint = "") then (AnyDummy, read ++ dummy)
  else
    match StatsDClient.ctor net config statsd_server_endpoint with
    | Ret c => (AnyStatsD c, read ++ found ++ StatsDClient.log_ c)
    | Throw e =>
        (AnyDummy, read ++ found ++ [(CERROR, "Unhandled exception: " +:+ what e)] ++ dummy)
    | UB => (AnyDummy, read ++ found ++ dummy)
    end.

(** ** The logger of the process *)

(** [ConsoleLogger::getInstance(level)]: the first call makes the object. *)
Definition getInstance (level : LogLevel) : M proc nat := λ p,
  let '(b, o) := Singleton.getInstance_raw (owner p) in
  (Ret b,
   if Singleton.created (owner p) then p <| owner := o |>
   else p <| owner := o |>
          <| console := {| ConsoleLogger.logLevel := level; ConsoleLogger.written := [] |} |>).

(** A call on the logger: undefined when the object is gone. *)
Definition say (level : LogLevel) (m : string) : M proc unit :=
  p ← get_state;
  if Singleton.alive (owner p) then modify (λ p, p <| console ::= Logging.log level m |>)
  else lift UB.

Fixpoint say_all (ms : logs) : M proc unit :=
  match ms with
  | [] => mret tt
  | (level, m) :: ms => say level m;; say_all ms
  end.

(** A copy of a pointer of block [b] is made, or goes away. *)
Definition copy (b : nat) : M proc unit := modify (λ p, p <| owner ::= Singleton.add_ref b |>).

Definition release (b : nat) : M proc unit :=
  p ← get_state;
  o ← lift (Singleton.release b (owner p));
  modify (λ p, p <| owner := o |>).

(** [ConsoleLogger::getInstance(CERROR)->error(m);] *)
Definition temporary_error (m : string) : M proc unit :=
  b ← getInstance CERROR; say CERROR m;; release b.

(** Main's [backendify_service] is destroyed, and with the service its copy of
    the logger; but not when a backend call has been made. No client session
    ever leaves [active_client_sessions_] (History.client_sessions_never_removed),
    its [on_complete_] holds the server session that waits for the answer, and
    that one the service: a cycle, which keeps the copy for ever. *)
Definition drop_service (calls : nat) : M proc unit :=
  p ← get_state;
  match logger_ p with
  | Some b => if decide (calls = 0%nat) then release b else mret tt
  | None => mret tt
  end.

(** Main's own pointer is destroyed. The copies of the server, the cache, the
    metrics client and the handlers, which go before it or with the service,
    are left out. *)
Definition drop_logger : M proc unit :=
  p ← get_state;
  match logger_ p with
  | Some b => release b;; modify (λ p, p <| logger_ := None |>)
  | None => mret tt
  end.

(** ** Handlers installed by main *)

(** One of the I/O threads, around its [ioc.run()]. *)
Definition io_thread (i : nat) (run : outcome unit) : logs * list string :=
  let n := to_string (Z.of_nat i) in
  ([(DEBUG, "Boost.Asio I/O thread " +:+ n +:+ " started.")] ++
   match run with
   | Throw e => [(CERROR, "[IO_THREAD_DEBUG] Exception in Boost.Asio I/O thread " +:+ n
                    +:+ ": " +:+ what e)]
   | _ => []
   end ++
   [(DEBUG, "[IO_THREAD_DEBUG] Boost.Asio I/O thread " +:+ n +:+ " lambda exiting.")],
   match run with
   | Ret _ => ["[IO_THREAD_DEBUG] I/O Thread " +:+ n +:+ " ioc.run() returned."]
   | _ => []
   end).

(** The heartbeat's messages and whether it is armed again. *)
Definition on_heartbeat (ec : error_code) : logs * bool :=
  let entered := (DEBUG, "[HEARTBEAT_DEBUG] Heartbeat handler entered (std::cerr). EC: "
                           +:+ message ec) in
  if decide (ec = operation_aborted) then
    ([entered; (DEBUG, "IOContext Heartbeat timer cancelled (operation_aborted).")], false)
  else ([entered; (DEBUG, "[HEARTBEAT_DEBUG] IOContext Heartbeat Tick.")], true).

(** ** main *)

(** The banner of a debug run. *)
Definition starting (config_ : AppConfig) : string :=
  "Starting Frontend server on 0.0.0.0:" +:+ to_string (frontend_port config_) +:+ "..." +:+ nl
  +:+ "Country-Specific Backends Configured: "
  +:+ to_string (Z.of_nat (size (country_backend_map config_))) +:+ nl
  +:+ "Using Redis cache at " +:+ redis_host config_ +:+ ":" +:+ to_string (redis_port config_).

(** [ioc_threads.emplace_back(...)], [n] times from [i] on. *)
Fixpoint start_threads (create : nat -> outcome unit) (i n : nat) : M proc unit :=
  match n with
  | O => mret tt
  | S n =>
      lift (create i);;
      modify (λ p, p <| joinable ::= S |>);;
      start_threads create (S i) n
  end.

Fixpoint join_threads (n : nat) : M proc unit :=
  match n with
  | O => mret tt
  | S n =>
      say SETUP "[MAIN_DEBUG] Main thread joining an I/O thread.";;
      modify (λ p, p <| joinable ::= pred |>);;
      say SETUP "[MAIN_DEBUG] An I/O thread has joined.";;
      join_threads n
  end.

(** A method of the server, its messages handed to the logger. *)
Definition on_server {A} (m : M BeastHttpServer.t A) : M proc A := λ p,
  let '(r, s) := m (server p) in
  let ms := drop (length (BeastHttpServer.log_ (server p))) (BeastHttpServer.log_ s) in
  (say_all ms;; lift r) (p <| server := s |>).

(** From the event loop to the end of the [try] block. *)
Definition run_and_join (i : inputs R) : M proc status :=
  say SETUP "[MAIN_DEBUG] Main thread calling ioc.run(). This will block until shutdown signal.";;
  try_catch
    (say SETUP "Main thread calling ioc.run().";;
     lift (ioc_run i);;
     say SETUP "Main thread ioc.run() finished.")
    (λ e, say CERROR ("Exception in main thread ioc.run(): " +:+ what e));;
  say SETUP "[MAIN_DEBUG] Main thread ioc.run() returned.";;
  p ← get_state;
  join_threads (joinable p);;
  say SETUP "All Boost.Asio I/O threads joined. Exiting.";;
  drop_service (backend_calls i);;
  drop_logger;;
  mret (Exit 0).

(** From the loaded configuration to the event loop. *)
Definition serve (i : inputs R) (config_ : AppConfig) : M proc status :=
  let logLevel := log_level config_ in
  b ← getInstance logLevel;
  modify (λ p, p <| logger_ := Some b |>);;
  say SETUP "Configuration loaded.";;
  say SETUP (AppConfig_to_string config_);;
  let '(statsd_client, ms) := initializeStatsDClient (net i) config_ (STATSD_SERVER i) in
  say_all ms;;
  say SETUP "IStatsDClient instance created";;
  let '(cache_instance, ms) := initializeCache config_ (steady i) (redis i) in
  say_all ms;;
  say SETUP "CacheInterface created";;
  say SETUP ("Starting " +:+ to_string (num_io_threads config_) +:+ " I/O threads for Boost.Asio.");;
  start_threads (spawn i) 0 (Z.to_nat (num_io_threads config_));;
  service ← lift (Backendify.ctor (Some cache_instance) (Some statsd_client) (Some ([] : logs)) tt);
  copy b;;
  say_all (Backendify.logger_ (service : Backendify.world _ _ _ unit _));;
  on_server (BeastHttpServer.ctor (acceptor i));;
  on_server BeastHttpServer.run;;
  (if decide (LogLevel_to_int logLevel <= LogLevel_to_int DEBUG) then say DEBUG (starting config_)
   else mret tt);;
  say SETUP ("[MAIN_DEBUG] IOContext Heartbeat timer started. Backendify Beast Server setup complete. "
    +:+ "Backendify Beast Server is running on port : " +:+ to_string (frontend_port config_)
    +:+ ". Press Ctrl+C to exit.");;
  run_and_join i.

Definition body (i : inputs R) : M proc status :=
  match parseArguments (tail (argv i)) with
  | None =>
      temporary_error "Failed to parse command-line arguments for Frontend server. Exiting.";;
      mret (Exit 1)
  | Some startupArguments =>
      config_ ← lift (loadConfiguration (files i) (hardware_concurrency i) startupArguments);
      serve i config_
  end.

(** Leaving the [try] block destroys its locals, the vector of threads among
    them: a thread that is still joinable calls [std::terminate], as it does
    whenever the service has been made. *)
Definition unwind (e : exn) : M proc status :=
  p ← get_state;
  if decide (joinable p ≠ 0%nat) then mret Terminate
  else
    drop_logger;;
    temporary_error ("Unhandled exception: " +:+ what e);;
    mret (Exit 1).

Definition main (i : inputs R) : M proc status := try_catch (body i) unwind.

End Main.

(** ** The signal handler *)

Record running (W : Type) := Running {
  beast_server : BeastHttpServer.t;
  backendify_service : W;
  ioc_heartbeat_timer : bool;           (* a wait is pending *)
  work_guard : bool;
  ioc_stopped : bool;
  messages : logs
}.
#[global] Arguments Running {W}.
#[global] Arguments beast_server {W}.
#[global] Arguments backendify_service {W}.
#[global] Arguments ioc_heartbeat_timer {W}.
#[global] Arguments work_guard {W}.
#[global] Arguments ioc_stopped {W}.
#[global] Arguments messages {W}.

#[global] Instance running_eta {W} : Eta (running W) := λ r,
  Running (beast_server r) (backendify_service r) (ioc_heartbeat_timer r) (work_guard r)
    (ioc_stopped r) (messages r).

Section Signal.
Context `{Beast} `{BeastHttpServer.ServerEnv} {W : Type}.
Context (cancel_active_backend_calls : M W unit).

Definition tell (m : string) : M (running W) unit :=
  modify (λ r, r <| messages ::= λ l, l ++ [(SETUP, m)] |>).

Definition on_beast_server (m : M BeastHttpServer.t unit) : M (running W) unit := λ r,
  let '(a, s) := m (beast_server r) in (a, r <| beast_server := s |>).

Definition on_service (m : M W unit) : M (running W) unit := λ r,
  let '(a, s) := m (backendify_service r) in (a, r <| backendify_service := s |>).

Definition on_signal (o : BeastHttpServer.stop_os) (signal_number : Z) : M (running W) unit :=
  tell ("Signal " +:+ to_string signal_number +:+ " received. Shutting down...");;
  on_beast_server (BeastHttpServer.stop o);;
  on_service cancel_active_backend_calls;;
  modify (λ r, r <| ioc_heartbeat_timer := false |>);;
  modify (λ r, r <| work_guard := false |>);;
  tell "[SIGNAL_HANDLER_DEBUG] Work guard reset.";;
  modify (λ r, r <| ioc_stopped := true |>);;
  tell "[SIGNAL_HANDLER_DEBUG] Called ioc.stop().".

End Signal.

End Main.
