(* ===== verification/MainProps.v ===== *)
(** * How the program starts and ends

    [main] by its outcomes: unusable input, an acceptor that cannot be opened,
    and a run that serves. The lemmas on [talks] show that logging changes
    nothing but the console, so that the proofs step over it. *)

From S2P Require Import Prelude Text Models Utils Logging Metrics Http Cache CacheInterface Redis.
From S2P Require Import CircuitBreaker AsyncHttpClient Backendify HttpServerSession SessionProps.
From S2P Require Import BeastHttpServer ServerProps Main.
Import Main.

Section Process.
Context {R : Type} `{Hiredis R} `{Beast}.
Implicit Types (p : proc) (i : inputs R) (config : AppConfig).

(** ** What the logger's calls do to the process *)

Definition logger_alive p : Prop := Singleton.alive (owner p) = true.

(** [m] returns and does nothing but log. *)
Definition talks (m : M proc unit) : Prop :=
  ∀ p, logger_alive p → ∃ c, m p = (Ret tt, p <| console := c |>).

Lemma talks_say level m : talks (say level m).
Proof.
  intros p Hp. unfold say, get_state, mbind, M_bind. rewrite Hp. by eexists.
Qed.

Lemma talks_again m p c :
  talks m → logger_alive p → ∃ c', m (p <| console := c |>) = (Ret tt, p <| console := c' |>).
Proof.
  intros Hm Hp. set (q := p <| console := c |>). destruct (Hm q Hp) as [c' Hc']. by exists c'.
Qed.

Lemma talks_ret : talks (mret tt).
Proof. intros p _. exists (console p). by destruct p. Qed.

Lemma talks_bind m1 m2 : talks m1 → talks m2 → talks (m1;; m2).
Proof.
  intros H1 H2 p Hp. destruct (H1 p Hp) as [c1 Hc1].
  destruct (talks_again m2 p c1 H2 Hp) as [c2 Hc2].
  exists c2. rewrite (M_bind_ret _ _ _ _ _ Hc1). exact Hc2.
Qed.

Lemma talks_say_all ms : talks (say_all ms).
Proof.
  induction ms as [|[level m] ms IH]; cbn [say_all]; [apply talks_ret|].
  apply talks_bind; [apply talks_say|apply IH].
Qed.

Lemma talks_run m (k : M proc status) p (P : outcome status * proc → Prop) :
  talks m → logger_alive p → (∀ c, P (k (p <| console := c |>))) → P ((m;; k) p).
Proof.
  intros Hm Hp Hk. destruct (Hm p Hp) as [c Hc]. by rewrite (M_bind_ret _ _ _ _ _ Hc).
Qed.

Lemma start_threads_run create j n p :
  (∀ k, create k = Ret tt) →
  start_threads create j n p = (Ret tt, p <| joinable := (n + joinable p)%nat |>).
Proof.
  intros Hc. revert j p. induction n as [|n IH]; intros j p; cbn [start_threads]; [by destruct p|].
  unfold lift, modify, mbind, M_bind. rewrite Hc, IH. cbn. by rewrite Nat.add_succ_r.
Qed.


(** A method of the server that returns, or throws, with its messages. *)
Lemma on_server_run {A} (m : M BeastHttpServer.t A) p r s :
  logger_alive p → m (server p) = (r, s) →
  ∃ c, on_server m p = (r, p <| server := s |> <| console := c |>).
Proof.
  intros Hp Hm. unfold on_server. rewrite Hm.
  set (q := p <| server := s |>).
  destruct (talks_say_all (drop (length (BeastHttpServer.log_ (server p))) (BeastHttpServer.log_ s))
    q Hp) as [c Hc].
  exists c. by rewrite (M_bind_ret _ _ _ _ _ Hc).
Qed.

(** ** From the configuration to the server *)

(** The process once main and the service hold the logger. *)
Definition held p : Prop :=
  logger_ p = Some 1%nat ∧ owner p = Singleton.add_ref 1 (Singleton.getInstance_raw Singleton.initial).2.

Lemma held_alive p : held p → logger_alive p.
Proof. intros [_ Ho]. unfold logger_alive. by rewrite Ho. Qed.

Lemma num_io_threads_pos files hc args config :
  loadConfiguration files hc args = Ret config → 1 <= num_io_threads config.
Proof.
  unfold loadConfiguration. destruct (load_file files config_paths AppConfig_default) as [c|e|]; try done.
  cbn [mbind outcome_bind]. intros [= <-]. unfold updateDeductions, to_u32. cbn.
  case_decide as Hz; [done|]. pose proof (Z.mod_pos_bound (hc * number_of_threads_per_core
    (foldl add_backend c (map_entries args))) (2^32)). lia.
Qed.

(** [serve] up to the constructor of the server: the threads run by then. *)
Lemma serve_starts i config p0 (P : outcome status * proc → Prop) :
  owner p0 = Singleton.initial → joinable p0 = 0%nat → server p0 = BeastHttpServer.members →
  (∀ k, spawn i k = Ret tt) →
  (∀ p, held p → joinable p = Z.to_nat (num_io_threads config) → server p = BeastHttpServer.members →
    P ((on_server (BeastHttpServer.ctor (acceptor i));;
        on_server BeastHttpServer.run;;
        (if decide (LogLevel_to_int (log_level config) <= LogLevel_to_int DEBUG)
         then say DEBUG (starting config) else mret tt);;
        say SETUP ("[MAIN_DEBUG] IOContext Heartbeat timer started. Backendify Beast Server setup complete. "
          +:+ "Backendify Beast Server is running on port : " +:+ to_string (frontend_port config)
          +:+ ". Press Ctrl+C to exit.");;
        run_and_join i) p)) →
  P (serve i config p0).
Proof.
  intros Ho Hj Hs Hspawn Hk. destruct p0 as [o c l j s]. cbn in Ho, Hj, Hs. subst.
  unfold serve. unfold getInstance at 1, modify at 1. unfold mbind at 1 2, M_bind at 1 2. cbn [owner].
  change (Singleton.getInstance_raw Singleton.initial)
    with (1%nat, (Singleton.getInstance_raw Singleton.initial).2).
  cbn -[Singleton.getInstance_raw say_all initializeStatsDClient initializeCache start_threads say
        Backendify.ctor on_server run_and_join starting to_string Z.to_nat AppConfig_to_string].
  apply talks_run; [apply talks_say|done|]; intros c1.
  apply talks_run; [apply talks_say|done|]; intros c2.
  destruct (initializeStatsDClient (net i) config (STATSD_SERVER i)) as [statsd ms].
  apply talks_run; [apply talks_say_all|done|]; intros c3.
  apply talks_run; [apply talks_say|done|]; intros c4.
  destruct (initializeCache config (steady i) (redis i)) as [cache ms'].
  apply talks_run; [apply talks_say_all|done|]; intros c5.
  apply talks_run; [apply talks_say|done|]; intros c6.
  apply talks_run; [apply talks_say|done|]; intros c7.
  erewrite M_bind_ret by by apply start_threads_run.
  unfold Backendify.ctor, CircuitBreaker.ctor.
  cbn -[Singleton.getInstance_raw say_all on_server run_and_join starting to_string Z.to_nat].
  unfold lift at 1. unfold mbind at 1, M_bind at 1. unfold copy at 1, modify at 1. unfold mbind at 1, M_bind at 1.
  apply talks_run; [apply talks_say_all|done|]; intros c8.
  apply Hk; [done| |done]. cbn. lia.
Qed.




(** ** Properties *)

(** (safety): when the acceptor cannot be opened, bound or listened on (a
    port in use, say), main does not report the exception and return 1: the
    I/O threads are running, and unwinding past them terminates the process. *)
Theorem main_bind_failure_terminates i args config
    (Hargs : parseArguments (tail (argv i)) = Some args)
    (Hload : loadConfiguration (files i) (hardware_concurrency i) args = Ret config)
    (Hspawn : ∀ k, spawn i k = Ret tt)
    (Hfail : failed (BeastHttpServer.open_ec (acceptor i)) || failed (BeastHttpServer.set_option_ec (acceptor i))
      || failed (BeastHttpServer.bind_ec (acceptor i)) || failed (BeastHttpServer.listen_ec (acceptor i)) = true) :
  ∃ p', main i start = (Ret Terminate, p')
    ∧ joinable p' = Z.to_nat (num_io_threads config) ∧ (0 < joinable p')%nat.
Proof.
  pose proof (num_io_threads_pos _ _ _ _ Hload) as Hpos.
  unfold main, try_catch, body. rewrite Hargs, Hload. unfold lift at 1. unfold mbind at 1, M_bind at 1.
  apply serve_starts; [done..|]. intros p Hh Hj Hs.
  assert (∃ e s, BeastHttpServer.ctor (acceptor i) BeastHttpServer.members = (Throw e, s)) as (e & s & Hctor).
  { unfold BeastHttpServer.ctor, BeastHttpServer.check, BeastHttpServer.log, throw, modify, mbind, M_bind.
    destruct (failed (BeastHttpServer.open_ec _)); [by eexists _, _|].
    destruct (failed (BeastHttpServer.set_option_ec _)); [by eexists _, _|].
    destruct (failed (BeastHttpServer.bind_ec _)); [by eexists _, _|].
    destruct (failed (BeastHttpServer.listen_ec _)); [by eexists _, _|done]. }
  destruct (on_server_run (BeastHttpServer.ctor (acceptor i)) p (Throw e) s) as [c Hc];
    [by apply held_alive|by rewrite Hs|].
  rewrite (M_bind_throw _ _ _ _ _ Hc). unfold unwind, get_state, mbind, M_bind. cbn.
  rewrite decide_True by lia. eexists. split; [done|]. cbn. lia.
Qed.


(** (error): unusable arguments, or a configuration file with an unknown log
    level, end the program with status 1 and one message on standard error. *)
Theorem main_rejects_bad_input i :
  match parseArguments (tail (argv i)) with
  | None => ∃ p', main i start = (Ret (Exit 1), p') ∧ ConsoleLogger.written (console p') =
      [(ConsoleLogger.cerr, "[Error] Failed to parse command-line arguments for Frontend server. Exiting." +:+ nl)]
  | Some args =>
      ∀ e, loadConfiguration (files i) (hardware_concurrency i) args = Throw e →
      ∃ p', main i start = (Ret (Exit 1), p') ∧ ConsoleLogger.written (console p') =
        [(ConsoleLogger.cerr, "[Error] Unhandled exception: " +:+ what e +:+ nl)]
  end.
Proof.
  unfold main, body. destruct (parseArguments (tail (argv i))) as [args|].
  - intros e He. rewrite He. eexists. split; [reflexivity|]. cbn. done.
  - eexists. split; reflexivity.
Qed.

(** (functional): the cache is Redis exactly when it is wanted and the
    connection is open; otherwise it is an empty in-memory cache with the
    configured limits, and a connection that was made is closed. *)
Theorem initializeCache_choice config clock (r : R) :
  let rc := RedisCache.ctor config r in
  (initializeCache config clock r).1 =
    (if use_redis config && RedisCache.isConnected rc then AnyRedis rc
     else AnyMemory {| InMemory.cache := InMemoryCache.ctor (in_memory_cache_ttl config)
                                           (to_u64 (in_memory_cache_max_size config));
                       InMemory.clock := clock; InMemory.reads := 0%nat |})
  ∧ initializeCache_redis config r =
    (if RedisCache.isConnected rc && negb (use_redis config) then redisFree (RedisCache.server rc)
     else RedisCache.server rc).
Proof.
  cbn zeta. unfold initializeCache, initializeCache_redis, RedisCache.dtor, RedisCache.isConnected.
  destruct (use_redis config), (RedisCache.redis_context_ (RedisCache.ctor config r)); done.
Qed.

(** (error): [initializeStatsDClient] always returns a client: the real one
    when the endpoint has a colon followed by a number that [stoi] reads, the
    dummy otherwise. *)
Theorem initializeStatsDClient_total net config endpoint :
  let e := default "" endpoint in
  match (initializeStatsDClient net config endpoint).1 with
  | AnyStatsD c => ∃ k n len, find ":" e = Some k ∧ stoi (suffix_from (S k) e) = Ret (n, len)
      ∧ StatsDClient.ctor net config e = Ret c
  | AnyDummy => e = "" ∨ ∀ k n len, find ":" e = Some k → stoi (suffix_from (S k) e) ≠ Ret (n, len)
  end.
Proof.
  cbn zeta. set (e := default "" endpoint). unfold initializeStatsDClient. fold e.
  case_decide as He; [by left|]. unfold StatsDClient.ctor.
  destruct (find ":" e) as [k|]; [|right; congruence].
  destruct (stoi (suffix_from (S k) e)) as [[n len]|err|] eqn:Hs; cbn [fst].
  - exists k, n, len. auto.
  - right. intros k' n len [= <-]. congruence.
  - right. intros k' n len [= <-]. congruence.
Qed.

End Process.
