(* ===== verification/ShutdownProps.v ===== *)
(** * Shutting down

    What the signal handler of main does to the server, to its sessions, and
    to the calls the service has under way. *)

From S2P Require Import Prelude Text Models Utils Logging Metrics Http CacheInterface.
From S2P Require Import CircuitBreaker AsyncHttpClient Backendify HttpServerSession.
From S2P Require Import BeastHttpServer ServerProps Main.

Section Cancel.
Import Backendify.
Context `{Beast} {J : Type} `{JsonApi J}.
Context {C : Type} `{CacheInterface C} {L : Type} `{ILogger L} {S : Type} `{IStatsDClient S}.
Context {CB X : Type} `{Env} (send_response_cb : CB -> option response -> M (world C L S CB X) unit).
#[local] Set Default Proof Using "Type*".
Implicit Types w : world C L S CB X.

(** A client session with [cancel()] called on it. *)
Definition cancelled (x : AsyncHttpClientSession.t * wrapper CB)
    : AsyncHttpClientSession.t * wrapper CB :=
  (AsyncHttpClientSession.cancel x.1, x.2).

Lemma cancel_client_run n w :
  cancel_client (J := J) send_response_cb n w
  = (Ret tt, match clients w !! n with
             | Some x => w <| clients ::= <[n := cancelled x]> |>
             | None => w
             end).
Proof.
  unfold cancel_client, client_event, get_state, modify, mbind, M_bind.
  by destruct (clients w !! n) as [[s k]|] eqn:Hn.
Qed.

Lemma cancel_all_run ns w :
  NoDup ns →
  ∃ w', cancel_all (J := J) send_response_cb ns w = (Ret tt, w')
    ∧ w' = w <| clients := clients w' |>
    ∧ ∀ n, clients w' !! n = if decide (n ∈ ns) then cancelled <$> clients w !! n else clients w !! n.
Proof.
  revert w. induction ns as [|m ns IH]; intros w Hnd; cbn [cancel_all].
  - exists w. split; [done|]. split; [by destruct w|]. intros n. by rewrite decide_False by apply not_elem_of_nil.
  - apply NoDup_cons in Hnd as [Hm Hnd]. rewrite (M_bind_ret _ _ _ _ _ (cancel_client_run m w)).
    set (w1 := match clients w !! m with Some x => _ | None => _ end).
    destruct (IH w1 Hnd) as (w' & Hw & Hsame & Hc). exists w'. split; [exact Hw|].
    assert (Heq : w1 = w <| clients := clients w1 |>).
    { unfold w1. by destruct (clients w !! m); destruct w. }
    split; [rewrite Hsame, Heq; by destruct w|]. intros n. rewrite Hc.
    assert (Hw1 : clients w1 !! n = if decide (n = m) then cancelled <$> clients w !! n else clients w !! n).
    { unfold w1. case_decide as Hn.
      - subst n. destruct (clients w !! m) as [x|] eqn:Hx; [by cbn; rewrite lookup_insert_eq|by rewrite Hx].
      - destruct (clients w !! m); [by cbn; rewrite lookup_insert_ne|done]. }
    rewrite Hw1. destruct (decide (n = m)) as [->|Hn].
    + rewrite decide_False by done. by rewrite decide_True by left.
    + destruct (decide (n ∈ ns)); [by rewrite decide_True by by right|].
      rewrite decide_False; [done|]. by rewrite not_elem_of_cons.
Qed.

(** (functional): [cancel_active_backend_calls] cancels every call in the
    set of active sessions once, and does nothing else: no request is answered
    and no call leaves the set. *)
Theorem cancel_active_calls w :
  ∃ w', cancel_active_backend_calls (J := J) send_response_cb w = (Ret tt, w')
    ∧ outer w' = outer w ∧ cache_ w' = cache_ w
    ∧ active_client_sessions_ w' = active_client_sessions_ w
    ∧ ∀ n, clients w' !! n = if decide (n ∈ active_client_sessions_ w)
                             then cancelled <$> clients w !! n else clients w !! n.
Proof.
  unfold cancel_active_backend_calls, log at 1 2 3, modify at 1 2 3, get_state at 1, mbind, M_bind.
  cbn -[cancel_all elements String.append size]. case_decide as He.
  - eexists. split; [done|]. cbn. rewrite He. split_and!; try done.
  - match goal with |- context [cancel_all _ _ ?w1] =>
      destruct (cancel_all_run (elements (active_client_sessions_ w)) w1) as (w' & Hw & Hs & Hc) end;
      [apply NoDup_elements|].
    exists w'. split; [exact Hw|]. rewrite Hs at 1 2 3. cbn. split_and!; try done. intros n.
    rewrite Hc. cbn. destruct (decide (n ∈ active_client_sessions_ w));
      [rewrite decide_True by by apply elem_of_elements|rewrite decide_False by by rewrite elem_of_elements]; done.
Qed.

End Cancel.

Section Signal.
Import BeastHttpServer.
Context `{Beast} `{ServerEnv} {W : Type} (cancel : M W unit).
#[local] Set Default Proof Using "Type*".

(** C17 (functional): on a signal the program stops accepting, closes the socket
    of every active session, cancels the calls of the service, stops the
    heartbeat and stops the event loop; the handler itself never fails. *)
Theorem signal_shuts_down s0 es o n (r : Main.running W)
    (Hmax : 0 < to_u64 (max_response_queue_size config_))
    (Hlisten : listening s0) (Hh : history s0 es (Main.beast_server r))
    (Hcancel : ∃ w', cancel (Main.backendify_service r) = (Ret tt, w')) :
  ∃ r', Main.on_signal cancel o n r = (Ret tt, r')
    ∧ cancel (Main.backendify_service r) = (Ret tt, Main.backendify_service r')
    ∧ acceptor_open (Main.beast_server r') = false
    ∧ active_sessions_ (Main.beast_server r') = ∅
    ∧ (∀ id x, id ∈ active_sessions_ (Main.beast_server r) →
         sessions (Main.beast_server r') !! id = Some x → HttpServerSession.socket_open x = false)
    ∧ Main.ioc_heartbeat_timer r' = false ∧ Main.work_guard r' = false
    ∧ Main.ioc_stopped r' = true.
Proof.
  pose proof (history_inv Hmax s0 es _ (listening_inv Hmax s0 Hlisten) Hh) as Hinv.
  destruct (stop_run o _ (sv_active _ _ Hinv)) as (m & l & Hs & Hm).
  destruct Hcancel as [w' Hw].
  unfold Main.on_signal, Main.tell, Main.on_beast_server, Main.on_service, modify, mbind, M_bind.
  cbn -[stop String.append to_string]. rewrite Hs. cbn -[String.append to_string]. rewrite Hw.
  eexists. split; [reflexivity|]. cbn. split_and!; try done.
  intros id x Hid Hx. specialize (Hm id). destruct (sv_active _ _ Hinv id Hid) as [y Hy].
  rewrite Hy in Hm. destruct Hm as (x' & Hx' & _ & _ & _ & _ & Hc). simplify_eq. by apply Hc.
Qed.

End Signal.
