(* ===== verification/Examples.v ===== *)
(** * Concrete instances and witnesses

    The parameters of the service made concrete: a small type of JSON values
    with a reader of flat objects, a configuration with one backend, clocks,
    the in-memory cache and the logger. The theorems of BackendifyProps,
    CompletionProps, ServiceProps, History, MainProps and ShutdownProps are
    applied to them. *)

From S2P Require Import Prelude Text TextFacts Models Utils Logging Metrics CircuitBreaker Http.
From S2P Require Import Cache CacheProps CacheInterface Redis AsyncHttpClient Backendify BackendifyProps CompletionProps.
From S2P Require Import ServiceProps History HttpServerSession SessionProps BeastHttpServer ServerProps Main MainProps ShutdownProps.
Import Backendify CompanySpec.

(** ** JSON values *)

Inductive json :=
  | JNull
  | JBool (b : bool)
  | JString (s : string)
  | JObject (entries : list (string * json)).

Definition json_type_error : exn := Exn JsonTypeError "type error".

Definition entries_map (entries : list (string * json)) : gmap string json := list_to_map entries.

Definition is_quote_char (c : ascii) : bool := bool_decide (c = "034"%char).

Definition skip (s : string) : string := drop_while isspace s.

(** A string literal without escapes, from behind its first quote. *)
Definition literal_end (s : string) : option (string * string) :=
  let text := take_while (λ c, negb (is_quote_char c)) s in
  match suffix_from (String.length text) s with
  | String _ rest => Some (text, rest)
  | EmptyString => None
  end.

Definition json_value (s : string) : option (json * string) :=
  match s with
  | String "034" s => '(text, rest) ← literal_end s; Some (JString text, rest)
  | String "t" (String "r" (String "u" (String "e" rest))) => Some (JBool true, rest)
  | String "n" (String "u" (String "l" (String "l" rest))) => Some (JNull, rest)
  | _ => None
  end.

Fixpoint json_members (fuel : nat) (s : string) : option (list (string * json)) :=
  match fuel, skip s with
  | S fuel, String "034" s =>
      '(key, rest) ← literal_end s;
      match skip rest with
      | String ":" rest =>
          '(value, rest) ← json_value (skip rest);
          match skip rest with
          | String "," rest => entries ← json_members fuel rest; Some ((key, value) :: entries)
          | String "}" EmptyString => Some [(key, value)]
          | _ => None
          end
      | _ => None
      end
  | _, _ => None
  end.

Definition json_parse (s : string) : outcome json :=
  match s with
  | String "{" (String "}" EmptyString) => Ret (JObject [])
  | String "{" rest =>
      match json_members (String.length rest) rest with
      | Some entries => Ret (JObject entries)
      | None => Throw (Exn JsonParseError "parse error")
      end
  | _ => Throw (Exn JsonParseError "parse error")
  end.

Fixpoint json_text (j : json) : string :=
  match j with
  | JNull => "null"
  | JBool b => if b then "true" else "false"
  | JString s => quoted s
  | JObject entries =>
      "{" +:+ (fix members (l : list (string * json)) :=
        match l with
        | [] => ""
        | [(k, v)] => quoted k +:+ ": " +:+ json_text v
        | (k, v) :: l => quoted k +:+ ": " +:+ json_text v +:+ ", " +:+ members l
        end) entries +:+ "}"
  end.

#[export] Instance json_api : JsonApi json := {|
  null := JNull;
  of_string := JString;
  of_bool := JBool;
  parse := json_parse;
  get_value j key def :=
    match j with
    | JObject entries =>
        match entries_map entries !! key with
        | Some (JString s) => Ret s
        | Some _ => Throw json_type_error
        | None => Ret def
        end
    | _ => Throw json_type_error
    end;
  contains j key :=
    match j with JObject entries => bool_decide (is_Some (entries_map entries !! key)) | _ => false end;
  at_key j key :=
    match j with
    | JObject entries => Ret (default JNull (entries_map entries !! key))
    | _ => Throw json_type_error
    end;
  is_string j := match j with JString _ => true | _ => false end;
  get_string j := match j with JString s => Ret s | _ => Throw json_type_error end;
  set_key k v j :=
    match j with
    | JObject entries => Ret (JObject ((k, v) :: entries))
    | JNull => Ret (JObject [(k, v)])
    | _ => Throw json_type_error
    end;
  dump _ j := Ret (json_text j)
|}.

Definition members_of (j : json) : option (gmap string json) :=
  match j with
  | JNull => Some ∅
  | JObject entries => Some (entries_map entries)
  | _ => None
  end.

Lemma members_of_set k v j m :
  members_of j = Some m → ∃ j', set_key k v j = Ret j' ∧ members_of j' = Some (<[k := v]> m).
Proof. destruct j; try discriminate; intros [= <-]; by eexists. Qed.

#[export] Instance json_objects : JsonObjects json := {|
  members := members_of;
  members_null := eq_refl;
  members_set := members_of_set
|}.

(** ** The program's surroundings *)

#[export] Existing Instance example_beast.

Definition example_info : BackendUrlInfo :=
  {| url := "http://backend:9001"; backend_host := "backend"; backend_port := 9001; is_https := false |}.

Definition example_config : AppConfig :=
  AppConfig_default <| country_backend_map := {["US" := example_info]} |>.

(** The steady clock advances by a microsecond per reading; it is the first of
    January 2024. *)
#[export] Instance example_env : Env := {|
  config_ := example_config;
  steady_now i := Z.of_nat i * 1000;
  system_now i := 1704067200 * 10^9 + Z.of_nat i;
  uninit _ := "000"%char
|}.

Definition example_cache : InMemory.t :=
  {| InMemory.cache := InMemoryCache.ctor 86400 100; InMemory.clock i := Z.of_nat i * 1000; InMemory.reads := 0 |}.

#[export] Existing Instance DummyStatsDClient.client.

Abbreviation example_state := (world InMemory.t logs unit ticket answers).

(** The service before its first request. *)
Definition example_world : example_state :=
  World example_cache tt [(Models.DEBUG, "Backendify initialized")]
    {| CircuitBreaker.tripped_backends_ := ∅ |} ∅ ∅ 0 [] 0 0 [].

Definition company_req : request :=
  Request verb_get "/company?id=7&country_iso=us" 11 [] "".
Definition company_ticket : ticket := {| number := 0; asked := "/company?id=7&country_iso=us" |}.

Abbreviation callback := (send record_answer).
Abbreviation process := (processCompanyRequest (J := json) callback).

(** ** A request *)

Abbreviation example_verdict :=
  (company_verdict company_req 0 None (steady_now (steady_reads example_world))
     (steady_now (Datatypes.S (steady_reads example_world))) (circuit_breaker_ example_world)).

Lemma example_verdict_calls : example_verdict = Calls example_info.
Proof. vm_compute. reflexivity. Qed.

Lemma company_request_verdict_witness :
  example_verdict = Calls example_info
  ∧ ∃ w', process company_req 0 company_ticket example_world = (Ret tt, w')
      ∧ follows record_answer example_verdict company_req company_ticket example_world w'.
Proof.
  split; [exact example_verdict_calls|].
  apply (company_request_verdict record_answer company_req 0 company_ticket example_world None
           (CacheInterface.get "7:US" example_cache).2).
  vm_compute. reflexivity.
Defined.

(** ** The answer of a backend *)

Definition example_completion : completion ticket :=
  Completion (blank company_req) company_ticket "7:US" "7" "http://backend:9001".

Definition backend_reply (status : Z) (type : string) (b : string) : response :=
  Response 11 status None (Some type) true b (Some b).

Abbreviation complete := (on_backend_response (J := json) callback).

Lemma backend_failure_answer_witness :
  failure_reply connection_refused 200
    = Some (504, json_error "Gateway Timeout - Backend Unreachable", true)
  ∧ (∃ w', complete example_completion response_default connection_refused example_world = (Ret tt, w')
      ∧ outer w' = [(company_ticket, Some (prepare_payload (answer 504
                       (json_error "Gateway Timeout - Backend Unreachable") (blank company_req))))])
  ∧ ∃ w', complete example_completion response_default not_connected example_world = (Ret tt, w')
      ∧ circuit_breaker_ w' = circuit_breaker_ example_world.
Proof.
  split; [reflexivity|]. split.
  - destruct (backend_failure_answer (J := json) record_answer example_completion response_default
                connection_refused example_world 504 (json_error "Gateway Timeout - Backend Unreachable")
                true eq_refl) as (w' & Hw & Ho & _).
    exists w'. split; [exact Hw|exact Ho].
  - destruct (backend_failure_answer (J := json) record_answer example_completion response_default
                not_connected example_world 504 (json_error "Gateway Timeout - Backend Unreachable")
                false eq_refl) as (w' & Hw & _ & _ & _ & _ & Hb).
    exists w'. split; [exact Hw|exact Hb].
Defined.

Definition company_body : string :=
  "{" +:+ quoted "cn" +:+ ": " +:+ quoted "ACME" +:+ ", " +:+ quoted "created_on" +:+ ": "
  +:+ quoted "1990-01-01T00:00:00Z" +:+ "}".

Definition company_reply : response := backend_reply 200 "application/x-company-v1" company_body.

Definition example_company : CompanyInfo :=
  {| id := "7"; name := "ACME"; Models.version := 1; parse_success := true;
     created_on := Some "1990-01-01T00:00:00Z"; closed_on := None; tin := None; dissolved_on := None |}.

Lemma example_company_read : read_company (J := json) "7" company_reply = Ret example_company.
Proof. vm_compute. reflexivity. Qed.

Lemma example_company_dated : dated (created_on example_company) 0 = Ret (Some ("1990-01-01T00:00:00Z", false), 1%nat).
Proof. vm_compute. reflexivity. Qed.

Lemma company_answer_witness :
  ∃ j : json, members j = Some {["id" := JString "7"; "name" := JString "ACME"; "active" := JBool true]}
    ∧ ∀ b c', CacheInterface.set "7:US" (json_text j) 86400 example_cache = (Ret b, c') →
        ∃ w', complete example_completion company_reply no_error example_world = (Ret tt, w')
          ∧ outer w' = [(company_ticket, Some (prepare_payload (answer 200 (json_text j) (blank company_req))))]
          ∧ cache_ w' = c'.
Proof.
  destruct (company_answer (J := json) record_answer example_completion company_reply no_error
              example_company (Some ("1990-01-01T00:00:00Z", false)) 1 None 1 example_world
              (or_introl eq_refl) eq_refl ltac:(discriminate) example_company_read example_company_dated
              eq_refl) as (j & Hm & Hj).
  exists j. split; [rewrite Hm; reflexivity|]. intros b c' Hset.
  destruct (Hj (json_text j) b c' eq_refl Hset) as (w' & Hw & Ho & Hc & _). exists w'. auto.
Defined.

Lemma html_unreadable : unreadable (J := json) (backend_reply 200 "application/x-company-v1" "<html>").
Proof. right. left. by exists (Exn JsonParseError "parse error"). Qed.

Lemma unreadable_answer_witness :
  ∃ w', complete example_completion (backend_reply 200 "application/x-company-v1" "<html>") no_error
          example_world = (Ret tt, w')
    ∧ outer w' = [(company_ticket, Some (prepare_payload (answer 502
                     (json_error "Bad Gateway - Upstream Response Parse Error") (blank company_req))))].
Proof.
  destruct (unreadable_answer (J := json) record_answer example_completion
              (backend_reply 200 "application/x-company-v1" "<html>") no_error example_world
              (or_introl eq_refl) eq_refl html_unreadable)
    as (w' & Hw & Ho & _).
  exists w'. split; [exact Hw|exact Ho].
Defined.

Definition wrong_shape_body : string := "{" +:+ quoted "cn" +:+ ": true}".

Lemma wrong_shape_answered_200_witness :
  ∃ j : json, members j = Some {["id" := JString "7"; "name" := JString ""; "active" := JBool true]}
    ∧ ∀ b c', CacheInterface.set "7:US" (json_text j) 86400 example_cache = (Ret b, c') →
        ∃ w', complete example_completion (backend_reply 200 "application/x-company-v1" wrong_shape_body)
                no_error example_world = (Ret tt, w')
          ∧ outer w' = [(company_ticket, Some (prepare_payload (answer 200 (json_text j) (blank company_req))))].
Proof.
  destruct (wrong_shape_answered_200 (J := json) record_answer example_completion
              (backend_reply 200 "application/x-company-v1" wrong_shape_body) no_error
              (JObject [("cn", JBool true)]) json_type_error example_world
              (or_introl eq_refl) eq_refl ltac:(discriminate) eq_refl
              (or_introl (conj eq_refl eq_refl))) as (j & Hm & Hj).
  exists j. split; [exact Hm|]. intros b c' Hset.
  destruct (Hj (json_text j) b c' eq_refl Hset) as (w' & Hw & Ho & _). exists w'. auto.
Defined.

Definition bad_date_body : string :=
  "{" +:+ quoted "cn" +:+ ": " +:+ quoted "ACME" +:+ ", " +:+ quoted "created_on" +:+ ": "
  +:+ quoted "yesterday" +:+ "}".

Definition bad_date_reply : response := backend_reply 200 "application/x-company-v1" bad_date_body.

Definition bad_date_company : CompanyInfo := example_company <| created_on := Some "yesterday" |>.

Definition bad_date_exn : exn := Exn RuntimeError "Failed to parse date/time part: 'yesterday'".

Lemma bad_date_read : read_company (J := json) "7" bad_date_reply = Ret bad_date_company.
Proof. vm_compute. reflexivity. Qed.

Lemma bad_date_malformed : malformed bad_date_company 0 bad_date_exn.
Proof. left. split; [reflexivity|]. vm_compute. reflexivity. Qed.

Lemma malformed_date_no_answer_witness :
  ∃ w', complete example_completion bad_date_reply no_error example_world = (Throw bad_date_exn, w')
    ∧ outer w' = [] ∧ cache_ w' = example_cache.
Proof.
  exact (malformed_date_no_answer (J := json) record_answer example_completion bad_date_reply no_error
           bad_date_company bad_date_exn example_world (or_introl eq_refl) eq_refl
           ltac:(discriminate) bad_date_read bad_date_malformed).
Defined.

(** ** The circuit breaker *)

Definition tripped_world : example_state :=
  (complete example_completion (backend_reply 500 "text/plain" "") no_error example_world).2.

Definition second_ticket : ticket := {| number := 1; asked := "/company?id=7&country_iso=us" |}.

Lemma tripped_world_run :
  complete example_completion (backend_reply 500 "text/plain" "") no_error example_world
  = (Ret tt, tripped_world).
Proof. reflexivity. Qed.

Lemma tripped_backend_not_called_witness :
  ∃ w2, process company_req 0 second_ticket tripped_world = (Ret tt, w2)
    ∧ outer w2 = outer tripped_world ++ [(second_ticket, Some (reply company_req 504
        (json_error "Gateway Timeout - Circuit Breaker Active")))]
    ∧ clients w2 = clients tripped_world ∧ posted w2 = posted tripped_world.
Proof.
  apply (tripped_backend_not_called (J := json) record_answer example_completion
           (backend_reply 500 "text/plain" "") no_error 502
           (json_error "Bad Gateway - Upstream Server Error") example_world tripped_world company_req 0
           second_ticket example_info (CacheInterface.get "7:US" (cache_ tripped_world)).2).
  - reflexivity.
  - exact tripped_world_run.
  - split; vm_compute; discriminate.
  - vm_compute. reflexivity.
  - vm_compute. discriminate.
  - vm_compute. reflexivity.
  - reflexivity.
  - vm_compute. split; [discriminate|reflexivity].
  - vm_compute. split; [discriminate|reflexivity].
  - vm_compute. reflexivity.
Defined.

(** ** A run of the service *)

Definition requested : example_state := (process company_req 0 company_ticket example_world).2.

Definition exchange_events : list AsyncHttpClientSession.event :=
  [AsyncHttpClientSession.Io AsyncHttpClientSession.Resolving no_error response_default no_error;
   AsyncHttpClientSession.Io AsyncHttpClientSession.Connecting no_error response_default no_error;
   AsyncHttpClientSession.Io AsyncHttpClientSession.Writing no_error response_default no_error;
   AsyncHttpClientSession.Io AsyncHttpClientSession.Reading no_error company_reply no_error].

Definition run_client (w : example_state) (e : AsyncHttpClientSession.event) : example_state :=
  (client_event (J := json) callback 0 e w).2.

(** The request, and its backend's answer. *)
Definition answered : example_state := foldl run_client requested exchange_events.

Lemma example_initial : initial Datatypes.id example_world.
Proof. exists example_cache, tt, [], []. split_and!; [reflexivity|apply wf_ctor|reflexivity..]. Qed.

Abbreviation service_step :=
  (History.step (J := json) (C := InMemory.t) (L := logs) (S := unit) record_answer Datatypes.id Datatypes.id).

Lemma client_step w e : documented e → service_step (1%nat, w) (1%nat, run_client w e).
Proof. intros He. exact (step_client _ _ _ 1 w 0 e He). Qed.

Lemma client_steps es w :
  Forall documented es → rtc service_step (1%nat, w) (1%nat, foldl run_client w es).
Proof.
  revert w. induction es as [|e es IH]; intros w He; [apply rtc_refl|].
  apply Forall_cons in He as [He Hes]. eapply rtc_l; [by apply client_step|]. by apply IH.
Qed.

Lemma example_run : rtc service_step (0%nat, example_world) (1%nat, answered).
Proof.
  eapply (rtc_l _ _ (1%nat, requested)); [exact (step_company _ _ _ 0 example_world company_req 0 company_ticket eq_refl)|].
  apply (client_steps exchange_events requested).
  repeat (apply Forall_cons; split; [first [exact I|discriminate]|]). apply Forall_nil. exact I.
Qed.

Lemma answered_at_most_once_witness :
  delivered 0 (outer answered) = 1%nat ∧ map_sum (waits Datatypes.id 0) (clients answered) = 0%nat
  ∧ delivered 1 (outer answered) = 0%nat.
Proof.
  pose proof (answered_at_most_once (J := json) example_world 1 answered 0 example_initial example_run) as [H0 _].
  pose proof (answered_at_most_once (J := json) example_world 1 answered 1 example_initial example_run) as [_ H1].
  assert (Hd : delivered 0 (outer answered) = 1%nat) by (vm_compute; reflexivity).
  split; [exact Hd|]. split; [rewrite Hd in H0; lia|]. apply H1. lia.
Defined.

Definition cached_answer : option string * InMemory.t :=
  match CacheInterface.get "7:US" (cache_ answered) with (Ret o, c) => (o, c) | (_, c) => (None, c) end.

Lemma cached_answer_read : CacheInterface.get "7:US" (cache_ answered)
  = (Ret (Some (default "" cached_answer.1)), cached_answer.2).
Proof. vm_compute. reflexivity. Qed.

Lemma cache_returns_earlier_answers_witness :
  ∃ t r, (t, Some r) ∈ outer answered ∧ result_int r = 200 ∧ default "" cached_answer.1 = body r.
Proof.
  destruct (cache_returns_earlier_answers (J := json) example_world 1 answered "7:US"
              (default "" cached_answer.1) cached_answer.2 example_initial example_run cached_answer_read)
    as (t & r & Hin & Hr & _ & Hs).
  exists t, r. auto.
Defined.

Lemma client_sessions_never_removed_witness :
  active_client_sessions_ answered = {[ 0%nat ]}.
Proof.
  rewrite (client_sessions_never_removed (J := json) example_world 1 answered example_initial example_run).
  vm_compute. reflexivity.
Defined.

(** ** The program *)

Section Program.
Import Main.
#[local] Existing Instance StoringServer.hiredis.

Definition offline : UDPSender.network := {|
  UDPSender.socket := None; UDPSender.inet_pton _ := 1; UDPSender.getaddrinfo _ := 0;
  UDPSender.sendto_fails _ := false; UDPSender.errno := 0
|}.

(** A machine with a Redis server that keeps what it is given, no
    configuration file, no StatsD endpoint, the given acceptor, and a run with
    so many backend calls. *)
Definition example_inputs (os : BeastHttpServer.acceptor_os) (calls : nat) : inputs (gmap string string) := {|
  argv := ["backendify"]; files := λ _, None; hardware_concurrency := 4; STATSD_SERVER := None;
  net := offline; redis := ∅; steady := λ i, Z.of_nat i; spawn := λ _, Ret tt;
  acceptor := os; ioc_run := Ret tt; backend_calls := calls
|}.

Definition default_config : AppConfig := updateDeductions 4 AppConfig_default.

(** The address is in use. *)
Definition busy_acceptor : BeastHttpServer.acceptor_os := {|
  BeastHttpServer.open_ec := no_error; BeastHttpServer.set_option_ec := no_error;
  BeastHttpServer.bind_ec := other_error 98; BeastHttpServer.listen_ec := no_error
|}.

Lemma main_bind_failure_terminates_witness :
  ∃ p', main (example_inputs busy_acceptor 0) start = (Ret Terminate, p') ∧ joinable p' = 8%nat.
Proof.
  destruct (main_bind_failure_terminates (example_inputs busy_acceptor 0) ∅ default_config
              eq_refl eq_refl (λ _, eq_refl) eq_refl) as (p' & Hp & Hj & _).
  exists p'. split; [exact Hp|]. rewrite Hj. vm_compute. reflexivity.
Defined.


End Program.

(** ** A signal *)

(** The program with the server of ServerProps, which has one active session,
    and the service while its call is under way. *)
Definition example_running : Main.running example_state :=
  Main.Running example_server requested true true false [].

Definition example_stop_os : BeastHttpServer.stop_os := {|
  BeastHttpServer.accept_cancel_ec := no_error; BeastHttpServer.accept_close_ec := no_error;
  BeastHttpServer.session_os := λ _, example_os
|}.

Abbreviation cancel_calls := (cancel_active_backend_calls (J := json) callback).

Lemma signal_shuts_down_witness :
  ∃ r', @Main.on_signal example_beast example_server_env _ cancel_calls example_stop_os 15 example_running = (Ret tt, r')
    ∧ BeastHttpServer.active_sessions_ (Main.beast_server r') = ∅
    ∧ Main.ioc_stopped r' = true.
Proof.
  destruct (@signal_shuts_down example_beast example_server_env _ cancel_calls example_listening
              example_events example_stop_os 15 example_running
              eq_refl example_listening_ok example_history) as (r' & Hr & _ & _ & Ha & _ & _ & _ & Hs).
  - eexists. vm_compute. reflexivity.
  - exists r'. split; [exact Hr|]. split; [exact Ha|exact Hs].
Defined.
