(* ===== verification/SystemExamples.v ===== *)
(** * A run of the whole program

    A server with the service of Examples.v behind it: one connection asks for
    a company, and its backend answers; with a malformed date the answer is
    lost. The theorems of SystemProps.v are applied to these runs. *)

From S2P Require Import Prelude Text Models Utils Logging Metrics CircuitBreaker Http.
From S2P Require Import Cache CacheProps CacheInterface AsyncHttpClient Backendify BackendifyProps History.
From S2P Require Import HttpServerSession SessionProps BeastHttpServer ServerProps System SystemProps Main Examples.
Import Backendify System.

#[local] Existing Instance example_beast.

Abbreviation program := (world InMemory.t logs unit caller front).
Abbreviation address := (λ id : nat, pretty id).
Abbreviation run_program := (runs (J := json) (C := InMemory.t) (L := logs) (S := unit) 3 address).

Definition session_os : HttpServerSession.os :=
  {| HttpServerSession.now := 5; HttpServerSession.shutdown_ec := no_error;
     HttpServerSession.close_ec := no_error |}.

(** The program before its first event. *)
Definition program_start : program :=
  World example_cache tt [(Models.DEBUG, "Backendify initialized")]
    {| CircuitBreaker.tripped_backends_ := ∅ |} ∅ ∅ 0 [] 0 0
    (Front example_listening session_os []).

Lemma program_ready : ready program_start.
Proof.
  split.
  - exists example_cache, tt, [], (Front example_listening session_os []).
    split_and!; [reflexivity|apply wf_ctor|reflexivity..].
  - exact example_listening_ok.
Qed.

Lemma program_room : 0 < to_u64 (max_response_queue_size config_).
Proof. reflexivity. Qed.

(** A connection that asks for a company. *)
Definition asking : list event := [
  OnServer (BeastHttpServer.Accepted no_error);
  OnServer (BeastHttpServer.SessionEvent 0 session_os HttpServerSession.Dispatched);
  OnServer (BeastHttpServer.SessionEvent 0 session_os
    (HttpServerSession.ReadDone no_error 80 company_req))
].

(** The network answers every operation, and the backend with [res]. *)
Definition example_net (res : response) (op : AsyncHttpClientSession.io_op)
    : error_code * response * error_code :=
  match op with
  | AsyncHttpClientSession.Reading => (no_error, res, no_error)
  | _ => (no_error, response_default, no_error)
  end.

Definition answering (res : response) : list event :=
  (λ op, let '(ec, r, shut_ec) := example_net res op in
         OnClient session_os 0 (AsyncHttpClientSession.Io op ec r shut_ec))
  <$> [AsyncHttpClientSession.Resolving; AsyncHttpClientSession.Connecting;
       AsyncHttpClientSession.Writing; AsyncHttpClientSession.Reading].

(** What is left of the client, after the run of events. *)
Definition after (es : list event) (p : nat * program) : list (outcome unit) * (nat * program) :=
  default ([], p) (run_program es p).

Definition asking_state : list (outcome unit) * (nat * program) := after asking (0%nat, program_start).

Lemma asked_run : run_program asking (0%nat, program_start)
  = Some (asking_state.1, (asking_state.2.1, asking_state.2.2)).
Proof. vm_compute. reflexivity. Qed.

Lemma asking_documented res : Forall documented_event (asking ++ answering res).
Proof. repeat (apply Forall_cons_2; [exact I|]). by apply Forall_nil_2. Qed.

Lemma waiting_iff_outstanding_witness :
  waiting 0 asking_state.2.2 = 1%nat ∧ outstanding 0 asking_state.2.2 = 1%nat.
Proof.
  pose proof (proj2 (waiting_iff_outstanding (J := json) 3 address program_room program_start asking
    asking_state.1 asking_state.2.1 asking_state.2.2 0 program_ready
    (proj1 (proj1 (Forall_app _ _ _) (asking_documented response_default))) asked_run)) as Hb.
  assert (Hw : waiting 0 asking_state.2.2 = 1%nat) by (vm_compute; reflexivity).
  split; [exact Hw|]. rewrite Hb; [exact Hw|]. vm_compute. repeat constructor.
Defined.

Lemma waiting_session_is_answered_witness :
  ∃ es' rs' w', (length es' <= 4)%nat
    ∧ run_program es' (asking_state.2.1, asking_state.2.2) = Some (rs', (asking_state.2.1, w'))
    ∧ (Forall returned rs' → waiting 0 w' = 0%nat).
Proof.
  destruct (waiting_session_is_answered (J := json) 3 address program_room program_start asking
    asking_state.1 asking_state.2.1 asking_state.2.2 0 (example_net company_reply) program_ready
    (proj1 (proj1 (Forall_app _ _ _) (asking_documented response_default))) asked_run
    ltac:(vm_compute; repeat constructor) ltac:(vm_compute; reflexivity))
    as (es' & rs' & w' & Hlen & _ & H). by exists es', rs', w'.
Defined.

(** The schedule of the theorem, on this backend: the client is answered. *)
Lemma asking_answered :
  let '(rs, (_, w)) := after (asking ++ answering company_reply) (0%nat, program_start) in
  bool_decide (waiting 0 w = 0%nat) && bool_decide (length (served (outer w)) = 1%nat)
  && forallb (λ r, if r is Ret _ then true else false) rs = true.
Proof. vm_compute. reflexivity. Qed.

Definition losing_state : list (outcome unit) * (nat * program) :=
  after (asking ++ answering bad_date_reply) (0%nat, program_start).

Lemma losing_run : run_program (asking ++ answering bad_date_reply) (0%nat, program_start)
  = Some (losing_state.1, (losing_state.2.1, losing_state.2.2)).
Proof. vm_compute. reflexivity. Qed.

(** The signal handler stops the server and cancels the calls. *)
Definition stopping : list event := [
  OnServer (BeastHttpServer.StopServer {| BeastHttpServer.accept_cancel_ec := no_error;
    BeastHttpServer.accept_close_ec := no_error; BeastHttpServer.session_os := λ _, session_os |});
  OnCancel session_os
].

Definition stopped_state : list (outcome unit) * (nat * program) := after stopping losing_state.2.

Lemma stopping_run : run_program stopping (losing_state.2.1, losing_state.2.2)
  = Some (stopped_state.1, (stopped_state.2.1, stopped_state.2.2)).
Proof. vm_compute. reflexivity. Qed.

Lemma lost_answer_waits_forever_witness :
  outstanding 0 losing_state.2.2 = 0%nat ∧ waiting 0 stopped_state.2.2 = 1%nat.
Proof.
  assert (Ho : outstanding 0 losing_state.2.2 = 0%nat) by (vm_compute; reflexivity).
  assert (Hdoc : Forall documented_event ((asking ++ answering bad_date_reply) ++ stopping)).
  { apply Forall_app. split; [apply asking_documented|]. repeat (apply Forall_cons_2; [exact I|]).
    by apply Forall_nil_2. }
  split; [exact Ho|].
  exact (proj1 (lost_answer_waits_forever (J := json) 3 address program_room program_start
    (asking ++ answering bad_date_reply) losing_state.1 losing_state.2.1 losing_state.2.2 0
    stopping stopped_state.1 stopped_state.2.1 stopped_state.2.2 program_ready Hdoc losing_run
    ltac:(vm_compute; reflexivity) Ho stopping_run)).
Defined.
