(* ===== verification/HttplibTextProps.v ===== *)
(** * Splitting and trimming, and the paths of files

    [split] walks over one string with indices; the reference cuts the string
    at every delimiter and strips the blanks of each field. [is_valid_path]
    against the levels a path goes through. *)

From S2P Require Import Prelude Text TextFacts HttplibText.

(** ** The reference *)

(** What lies between the delimiters. *)
Fixpoint fields (d : ascii) (s : string) : list string :=
  match s with
  | EmptyString => [EmptyString]
  | String c s =>
      match fields d s with
      | f :: fs => if bool_decide (c = d) then EmptyString :: f :: fs else String c f :: fs
      | [] => []
      end
  end.

Fixpoint rstrip (s : string) : string :=
  match s with
  | EmptyString => EmptyString
  | String c s =>
      if is_space_or_tab c && bool_decide (rstrip s = "") then EmptyString else String c (rstrip s)
  end.

Definition strip (s : string) : string := rstrip (drop_while is_space_or_tab s).

Definition stripped_fields (d : ascii) (s : string) : list string :=
  filter (λ f, f ≠ "") (strip <$> fields d s).

(** ** Indices *)

Lemma get_app_r a b i : String.get (String.length a + i) (a +:+ b) = String.get i b.
Proof. induction a as [|c a IH]; [done|]. apply IH. Qed.

Lemma get_all_of f a b i :
  all_of f a = true → (i < String.length a)%nat → ∃ c, String.get i (a +:+ b) = Some c ∧ f c = true.
Proof.
  revert i. induction a as [|c a IH]; intros i; cbn; [lia|]. intros [Hc Ha]%andb_prop Hi.
  destruct i as [|i]; [by exists c|]. apply IH; [done|lia].
Qed.

Lemma suffix_from_length a b : suffix_from (String.length a) (a +:+ b) = b.
Proof. apply suffix_from_app. Qed.

(** ** Trimming *)

Lemma trim_right_blanks s m n :
  (m <= n)%nat →
  (∀ i, (m <= i < n)%nat → ∃ c, String.get i s = Some c ∧ is_space_or_tab c = true) →
  trim_right s n = trim_right s m.
Proof.
  induction n as [|n IH]; intros Hm Hb; [by replace m with O by lia|].
  destruct (decide (m = S n)) as [->|Hne]; [done|]. cbn [trim_right].
  destruct (Hb n ltac:(lia)) as (c & -> & ->). apply IH; [lia|]. intros i Hi. apply Hb. lia.
Qed.

Lemma trim_right_stop s m c :
  String.get m s = Some c → is_space_or_tab c = false → trim_right s (S m) = S m.
Proof. intros Hg Hc. cbn [trim_right]. by rewrite Hg, Hc. Qed.

(** A string is its stripped front and blanks. *)
Lemma rstrip_split s : ∃ w, s = rstrip s +:+ w ∧ all_of is_space_or_tab w = true
  ∧ (rstrip s = "" ∨ ∃ u c, rstrip s = u +:+ String c "" ∧ is_space_or_tab c = false).
Proof.
  induction s as [|c s (w & Hs & Hw & Hlast)]; [by exists ""; auto|]. cbn [rstrip].
  destruct (is_space_or_tab c) eqn:Hc; cbn [andb].
  - case_bool_decide as He.
    + exists (String c s). cbn [all_of String.append]. rewrite Hc, Hs, He. auto.
    + exists w. cbn [String.append]. rewrite <- Hs. split_and!; [done..|right].
      destruct Hlast as [?|(u & e & -> & He')]; [done|]. by exists (String c u), e.
  - exists w. cbn [String.append]. rewrite <- Hs. split_and!; [done..|right].
    destruct Hlast as [->|(u & e & -> & He')]; [by exists "", c|by exists (String c u), e].
Qed.

Lemma drop_while_split f s : ∃ w, s = w +:+ drop_while f s ∧ all_of f w = true.
Proof. exists (take_while f s). split; [by rewrite take_drop_while|apply all_take_while]. Qed.

Lemma length_suffix_take f s : String.length s = (String.length (take_while f s) + String.length (drop_while f s))%nat.
Proof. by rewrite <- string_length_app, take_drop_while. Qed.

(** The text one call of the callback gets. *)
Lemma piece_strip pre p post :
  piece (pre +:+ p +:+ post) (String.length pre) (String.length pre + String.length p)
  = if decide (strip p = "") then [] else [strip p].
Proof.
  unfold piece, trim, trim_left. rewrite suffix_from_app.
  destruct (drop_while_split is_space_or_tab p) as (w & Hp & Hw).
  pose proof (stops_drop_while is_space_or_tab p) as Hstop. unfold strip.
  destruct (drop_while is_space_or_tab p) as [|c q] eqn:Hq.
  - rewrite string_app_nil_r in Hp. subst w.
    rewrite (decide_True (P := rstrip "" = "")) by done. rewrite decide_False; [done|].
    assert (String.length p <= String.length (take_while is_space_or_tab (p +:+ post)))%nat.
    { clear -Hw. induction p as [|c p IH]; cbn; [lia|]. cbn in Hw.
      apply andb_prop in Hw as [-> Hw]. cbn. specialize (IH Hw). lia. }
    rewrite (trim_right_blanks _ (String.length pre)); [|lia|].
    { assert (Hle : ∀ s n, (trim_right s n <= n)%nat).
      { intros s n. induction n as [|n IH]; [done|]. cbn. destruct (String.get n s) as [x|]; [|lia].
        destruct (is_space_or_tab x); lia. }
      pose proof (Hle (pre +:+ p +:+ post) (String.length pre)). lia. }
    intros i Hi. replace i with (String.length pre + (i - String.length pre))%nat by lia.
    rewrite get_app_r. apply get_all_of; [done|lia].
  - cbn [stops] in Hstop.
    destruct (rstrip_split (String c q)) as (w2 & Hcq & Hw2 & [Hnil|(u & e & Hue & He)]).
    { cbn [rstrip] in Hnil. by rewrite Hstop in Hnil. }
    rewrite Hue. rewrite (decide_False (P := u +:+ String e "" = "")) by (by destruct u).
    rewrite Hp, string_app_assoc, take_while_app by done.
    rewrite Hue in Hcq. rewrite Hcq, !string_length_app. cbn [String.length].
    set (s := pre +:+ w +:+ _).
    assert (Hs : s = (pre +:+ w +:+ u) +:+ String e (w2 +:+ post))
      by (unfold s; by rewrite !string_app_assoc).
    rewrite (trim_right_blanks s (S (String.length (pre +:+ w +:+ u)))).
    2: { rewrite !string_length_app. lia. }
    2: { intros i Hi. rewrite !string_length_app in Hi.
         replace i with (String.length (pre +:+ w +:+ u) + S (i - S (String.length (pre +:+ w +:+ u))))%nat
           by (rewrite !string_length_app; lia).
         rewrite Hs, get_app_r. cbn [String.get]. apply get_all_of; [done|].
         rewrite !string_length_app. lia. }
    rewrite (trim_right_stop s _ e); [|by rewrite Hs, <- (Nat.add_0_r (String.length _)), get_app_r|done].
    rewrite decide_True by (rewrite !string_length_app; lia). unfold substr. f_equal.
    replace (String.length pre + String.length w)%nat with (String.length (pre +:+ w))
      by apply string_length_app.
    replace s with ((pre +:+ w) +:+ (u +:+ String e "") +:+ (w2 +:+ post))
      by (rewrite Hs, !string_app_assoc; done).
    rewrite suffix_from_app.
    replace (S (String.length (pre +:+ w +:+ u)) - String.length (pre +:+ w))%nat
      with (String.length (u +:+ String e "")) by (rewrite !string_length_app; cbn; lia).
    apply prefix_of_app.
Qed.

(** ** Splitting *)

Definition prepend (p : string) (fs : list string) : list string :=
  match fs with [] => [] | f :: fs => (p +:+ f) :: fs end.

Lemma fields_cons d s : ∃ f fs, fields d s = f :: fs.
Proof.
  induction s as [|c s (f & fs & IH)]; cbn; [by do 2 eexists|]. rewrite IH. case_bool_decide; by do 2 eexists.
Qed.

(** Text without the delimiter belongs to the first field. *)
Lemma fields_app d p s :
  all_of (λ c, negb (bool_decide (c = d))) p = true → fields d (p +:+ s) = prepend p (fields d s).
Proof.
  induction p as [|c p IH]; cbn [all_of fields String.append]; intros Hp.
  - by destruct (fields_cons d s) as (f & fs & ->).
  - apply andb_prop in Hp as [Hc%negb_true_iff Hp]. rewrite (IH Hp).
    destruct (fields_cons d s) as (f & fs & ->). cbn [prepend]. by rewrite Hc.
Qed.

Lemma fields_delimiter d p s :
  all_of (λ c, negb (bool_decide (c = d))) p = true → fields d (p +:+ String d s) = p :: fields d s.
Proof.
  intros Hp. rewrite (fields_app d p _ Hp). cbn [fields].
  destruct (fields_cons d s) as (f & fs & ->). rewrite bool_decide_eq_true_2 by done.
  cbn [prepend]. by rewrite string_app_nil_r.
Qed.

Lemma fields_last d p :
  all_of (λ c, negb (bool_decide (c = d))) p = true → fields d p = [p].
Proof.
  intros Hp. rewrite <- (string_app_nil_r p) at 1. rewrite (fields_app d p _ Hp). cbn [fields prepend].
  by rewrite string_app_nil_r.
Qed.

Lemma strip_plain s : all_of (λ c, negb (is_space_or_tab c)) s = true → strip s = s.
Proof.
  intros Hs. unfold strip. rewrite drop_while_stops.
  - induction s as [|c s IH]; [done|]. cbn [all_of rstrip] in *.
    apply andb_prop in Hs as [Hc%negb_true_iff Hs]. by rewrite Hc, (IH Hs).
  - destruct s as [|c s]; [done|]. cbn in *. by apply andb_prop in Hs as [Hc%negb_true_iff _].
Qed.

Lemma filter_strip f fs :
  filter (λ f, f ≠ "") (strip <$> (f :: fs)) =
  (if decide (strip f = "") then [] else [strip f]) ++ filter (λ f, f ≠ "") (strip <$> fs).
Proof.
  rewrite fmap_cons, filter_cons.
  destruct (decide (strip f = "")), (decide (strip f ≠ "")); by first [done|tauto].
Qed.

Lemma split_loop_fields d m rest pre mid count :
  count + Z.of_nat (String.length rest) < m →
  split_loop (pre +:+ mid +:+ rest) d m rest (String.length pre + String.length mid) (String.length pre) count
  = filter (λ f, f ≠ "") (strip <$> prepend mid (fields d rest)).
Proof.
  revert pre mid count. induction rest as [|c rest IH]; intros pre mid count Hc.
  - cbn [split_loop fields prepend]. rewrite filter_strip, app_nil_r, piece_strip, string_app_nil_r.
    case_decide as Hi; [|done]. destruct mid; [done|cbn in Hi; lia].
  - cbn [split_loop fields]. cbn [String.length] in Hc.
    destruct (fields_cons d rest) as (f & fs & Hf). rewrite Hf.
    rewrite (bool_decide_eq_true_2 (count < m)), andb_true_r by lia.
    case_bool_decide as Hd.
    + cbn [prepend]. rewrite filter_strip, piece_strip, string_app_nil_r. f_equal. subst c.
      specialize (IH (pre +:+ mid +:+ String d "") "" (count + 1) ltac:(lia)). rewrite Hf in IH.
      cbn [prepend String.append] in IH. rewrite <- IH. f_equal.
      * by rewrite !string_app_assoc.
      * rewrite !string_length_app. cbn. lia.
      * rewrite !string_length_app. cbn. lia.
    + specialize (IH pre (mid +:+ String c "") count ltac:(lia)). rewrite Hf in IH.
      cbn [prepend] in *. rewrite (string_app_assoc mid (String c "") f) in IH.
      cbn [String.append] in IH. rewrite <- IH.
      f_equal; [by rewrite !string_app_assoc|]. rewrite string_length_app. cbn. lia.
Qed.

(** (equivalence): [split] hands its callback the fields between the
    delimiters, without the blanks around them and without the empty ones. *)
Theorem split_stripped_fields s d :
  Z.of_nat (String.length s) < 2^64 - 2 → split s d = stripped_fields d s.
Proof.
  intros Hs. unfold split, split_at_most, stripped_fields.
  etrans; [apply (split_loop_fields d (2^64 - 1) s "" "" 1); lia|].
  by destruct (fields_cons d s) as (f & fs & ->).
Qed.

Lemma split_stripped_fields_witness :
  Z.of_nat (String.length "a= 1 ,, b") < 2^64 - 2
  ∧ split "a= 1 ,, b" "," = ["a= 1"; "b"].
Proof. split; [reflexivity|]. rewrite (split_stripped_fields "a= 1 ,, b" ","); reflexivity. Defined.

(** ** Paths of files *)

(** The components between the slashes. *)
Definition components (path : string) : list string := filter (λ f, f ≠ "") (fields "/" path).

(** The level a component leads to; [None]: above the root. *)
Definition descend (level : option nat) (component : string) : option nat :=
  n ← level;
  if decide (component = ".") then Some n
  else if decide (component = "..") then match n with O => None | S n => Some n end
  else Some (S n).

Definition path_level (path : string) : option nat := foldl descend (Some O) (components path).

Lemma components_slash s : components (String "/" s) = components s.
Proof.
  unfold components. cbn [fields]. by destruct (fields_cons "/" s) as (f & fs & ->).
Qed.

Lemma components_drop s : components (drop_while is_slash s) = components s.
Proof.
  induction s as [|c s IH]; [done|]. cbn [drop_while].
  destruct (is_slash c) eqn:Hc; [|done]. apply bool_decide_eq_true in Hc as ->.
  by rewrite components_slash.
Qed.

Lemma components_first p : p ≠ "" → stops is_slash p →
  components p = take_while not_slash p :: components (drop_while is_slash (drop_while not_slash p))
  ∧ take_while not_slash p ≠ "".
Proof.
  intros Hp Hstop. rewrite components_drop.
  assert (Hne : take_while not_slash p ≠ "").
  { destruct p as [|c p]; [done|]. cbn in *. unfold not_slash. by rewrite Hstop. }
  split; [|done]. unfold components at 1. rewrite <- (take_drop_while not_slash p) at 1.
  pose proof (stops_drop_while not_slash p) as Hd.
  destruct (drop_while not_slash p) as [|c r].
  - rewrite string_app_nil_r, (fields_last "/"), filter_cons_True by (done || apply all_take_while). done.
  - cbn in Hd. apply negb_false_iff, bool_decide_eq_true in Hd as ->. rewrite components_slash.
    unfold components. rewrite (fields_delimiter "/") by apply all_take_while.
    by rewrite filter_cons_True.
Qed.

Lemma descend_none cs : foldl descend None cs = None.
Proof. by induction cs. Qed.

Lemma all_of_split f g s :
  all_of f s = all_of f (take_while g s) && all_of f (drop_while g s).
Proof. by rewrite <- all_of_app, take_drop_while. Qed.

Lemma all_path_char_slashes s : all_of path_char (take_while is_slash s) = true.
Proof.
  induction s as [|c s IH]; [done|]. cbn. destruct (is_slash c) eqn:Hc; [|done]. cbn.
  apply bool_decide_eq_true in Hc as ->. by rewrite IH.
Qed.

Lemma descend_some level comp :
  descend (Some level) comp =
  if decide (comp = ".") then Some level
  else if decide (comp = "..") then match level with O => None | S n => Some n end
  else Some (S level).
Proof. done. Qed.

Lemma bool_decide_is_Some {A} (o : option A) :
  bool_decide (is_Some o) = match o with Some _ => true | None => false end.
Proof. destruct o; [by rewrite bool_decide_eq_true_2 by by eexists|by rewrite bool_decide_eq_false_2 by by intros []]. Qed.

Lemma valid_components_level fuel path level :
  (String.length path < fuel)%nat → stops is_slash path →
  valid_components fuel path level
  = all_of path_char path && bool_decide (is_Some (foldl descend (Some level) (components path))).
Proof.
  revert path level. induction fuel as [|fuel IH]; intros path level Hf Hstop; [lia|].
  destruct (decide (path = "")) as [->|Hne].
  { cbn. by rewrite bool_decide_eq_true_2 by by eexists. }
  destruct (components_first path Hne Hstop) as [Hc Hcomp]. rewrite Hc.
  rewrite (all_of_split path_char not_slash path).
  rewrite (all_of_split path_char is_slash (drop_while not_slash path)), all_path_char_slashes.
  cbn [andb foldl]. set (comp := take_while not_slash path) in *.
  set (rest := drop_while is_slash (drop_while not_slash path)) in *.
  assert (Hr : ∀ l, valid_components fuel rest l
    = all_of path_char rest && bool_decide (is_Some (foldl descend (Some l) (components rest)))).
  { intros l. apply IH; [|apply stops_drop_while].
    pose proof (length_suffix_take not_slash path). fold comp in H.
    pose proof (length_suffix_take is_slash (drop_while not_slash path)). fold rest in H0.
    destruct comp; [done|]. cbn in H. lia. }
  destruct path as [|c p]; [done|]. cbn [valid_components]. fold comp rest.
  destruct (all_of path_char comp); cbn [negb andb]; [|done].
  rewrite bool_decide_is_Some, descend_some. setoid_rewrite bool_decide_is_Some in Hr.
  destruct (decide (comp = ".")); [apply Hr|]. destruct (decide (comp = "..")); [|apply Hr].
  destruct level; [|apply Hr]. by rewrite descend_none, andb_false_r.
Qed.

(** (equivalence): a path is valid when it holds neither NUL nor a
    backslash and no prefix of its components leads above the root. *)
Theorem is_valid_path_level path :
  is_valid_path path = all_of path_char path && bool_decide (is_Some (path_level path)).
Proof.
  unfold is_valid_path, path_level. rewrite valid_components_level.
  - rewrite components_drop. rewrite (all_of_split path_char is_slash path), all_path_char_slashes. done.
  - pose proof (length_suffix_take is_slash path). lia.
  - apply stops_drop_while.
Qed.
