(* ===== verification/Regex.v ===== *)
(** * The part of [<regex>] the routes use

    An ECMAScript pattern of characters, [.], negated sets and groups without
    nesting, each but a group followed by [*] or [+] or neither. [regex_match]
    is the greedy matching of a whole text with its sub-matches. *)

From S2P Require Import Prelude Text.

Inductive atom := Char (c : ascii) | AnyChar | NotIn (cs : string).
Inductive repetition := Once | Star | Plus.

(** A group is a pair of marks in the list of pieces. *)
Inductive element := Piece (a : atom) (r : repetition) | GroupStart | GroupEnd.

Definition regex : Type := list element.

(** ** Patterns *)

(** What has a meaning of its own in a pattern. *)
Definition special (c : ascii) : bool :=
  bool_decide (c ∈ ["^"; "$"; "\"; "."; "*"; "+"; "?"; "("; ")"; "["; "]"; "{"; "}"; "|"]%char).

Definition repetition_of (s : string) : repetition * string :=
  match s with
  | String "*" s => (Star, s)
  | String "+" s => (Plus, s)
  | _ => (Once, s)
  end.

(** [None]: a pattern outside this syntax. *)
Fixpoint compile_from (fuel : nat) (in_group : bool) (s : string) : option regex :=
  match fuel with
  | O => None
  | S fuel =>
      match s with
      | EmptyString => if in_group then None else Some []
      | String "(" s => if in_group then None else cons GroupStart <$> compile_from fuel true s
      | String ")" s => if in_group then cons GroupEnd <$> compile_from fuel false s else None
      | String "." s =>
          let '(r, s) := repetition_of s in cons (Piece AnyChar r) <$> compile_from fuel in_group s
      | String "[" (String "^" s) =>
          let cs := take_while (λ c, negb (special c || bool_decide (c = "-"%char))) s in
          match suffix_from (String.length cs) s with
          | String "]" s =>
              let '(r, s) := repetition_of s in cons (Piece (NotIn cs) r) <$> compile_from fuel in_group s
          | _ => None
          end
      | String c s =>
          if special c then None
          else let '(r, s) := repetition_of s in cons (Piece (Char c) r) <$> compile_from fuel in_group s
      end
  end.

Definition compile (pattern : string) : option regex :=
  compile_from (S (String.length pattern)) false pattern.

(** ** Matching *)

(** The dot of libstdc++ leaves out the two line terminators. *)
Definition atom_matches (a : atom) (c : ascii) : bool :=
  match a with
  | Char c' => bool_decide (c = c')
  | AnyChar => negb (bool_decide (c = "010"%char) || bool_decide (c = "013"%char))
  | NotIn cs => match find c cs with Some _ => false | None => true end
  end.

(** As many characters as possible, fewer when [k] fails on the rest. *)
Fixpoint many {A} (a : atom) (k : string -> option A) (s : string) : option A :=
  match s with
  | String c s' =>
      if atom_matches a c then match many a k s' with Some r => Some r | None => k s end else k s
  | EmptyString => k s
  end.

Definition one {A} (a : atom) (k : string -> option A) (s : string) : option A :=
  match s with
  | String c s => if atom_matches a c then k s else None
  | EmptyString => None
  end.

(** The groups of a match of the whole of [s]; [start] is where the open group
    starts. *)
Fixpoint match_from (r : regex) (start s : string) : option (list string) :=
  match r with
  | [] => if decide (s = "") then Some [] else None
  | GroupStart :: r => match_from r s s
  | GroupEnd :: r =>
      cons (prefix_of (String.length start - String.length s) start) <$> match_from r s s
  | Piece a Once :: r => one a (match_from r start) s
  | Piece a Star :: r => many a (match_from r start) s
  | Piece a Plus :: r => one a (many a (match_from r start)) s
  end.

(** The sub-matches, the whole text first. *)
Definition regex_match (r : regex) (s : string) : option (list string) :=
  cons s <$> match_from r s s.

Example compile_companies :
  compile "/companies/([^/]+)" =
  Some ((λ c, Piece (Char c) Once) <$> String.list_ascii_of_string "/companies/") ≫=
    λ r, Some (r ++ [GroupStart; Piece (NotIn "/") Plus; GroupEnd]).
Proof. reflexivity. Qed.

Example match_companies :
  (compile "/companies/([^/]+)" ≫= λ r, regex_match r "/companies/12345")
  = Some ["/companies/12345"; "12345"].
Proof. reflexivity. Qed.
