(* ===== verification/RegexProps.v ===== *)
(** * What the patterns of the routes match

    A literal route, a route with one group, and the catch-all. *)

From S2P Require Import Prelude Text TextFacts Regex.

(** A pattern of plain characters. *)
Definition literal (t : string) : regex := (λ c, Piece (Char c) Once) <$> String.list_ascii_of_string t.

Lemma match_literal t r start s :
  match_from (literal t ++ r) start s =
  if starts_with t s then match_from r start (suffix_from (String.length t) s) else None.
Proof.
  revert s. induction t as [|c t IH]; intros s; [by destruct s|].
  unfold literal. cbn [String.list_ascii_of_string fmap list_fmap app match_from].
  destruct s as [|d s]; [done|]. cbn [one atom_matches starts_with String.length suffix_from].
  rewrite (bool_decide_ext (d = c) (c = d)) by done. by case_bool_decide; cbn; [apply IH|].
Qed.

Lemma match_from_end start s : match_from [] start s = if decide (s = "") then Some [] else None.
Proof. done. Qed.

Lemma literal_match t s : regex_match (literal t) s = if decide (s = t) then Some [s] else None.
Proof.
  unfold regex_match. rewrite <- (app_nil_r (literal t)), match_literal, match_from_end.
  destruct (starts_with t s) eqn:Hs.
  - apply starts_with_true in Hs. set (u := suffix_from (String.length t) s) in *. clearbody u. subst s.
    destruct (decide (u = "")) as [->|Hu]; [by rewrite string_app_nil_r, decide_True|].
    rewrite decide_False; [done|]. intros He. apply (f_equal String.length) in He.
    rewrite string_length_app in He. destruct u; [done|cbn in He; lia].
  - rewrite decide_False; [done|]. intros ->. rewrite <- (string_app_nil_r t) in Hs at 2.
    by rewrite starts_with_app in Hs.
Qed.

(** The repetition is greedy: with a continuation that takes the end only, it
    takes everything. *)
Lemma many_to_end {A} a (k : string -> option A) s :
  (∀ t, t ≠ "" → k t = None) → many a k s = if all_of (atom_matches a) s then k "" else None.
Proof.
  intros Hk. induction s as [|c s IH]; [done|]. cbn [many all_of].
  destruct (atom_matches a c); cbn [andb]; [|by apply Hk].
  rewrite IH. destruct (all_of (atom_matches a) s); [|by apply Hk]. by destruct (k ""); [|apply Hk].
Qed.

(** [.*] *)
Lemma any_match s :
  regex_match [Piece AnyChar Star] s = if all_of (atom_matches AnyChar) s then Some [s] else None.
Proof.
  unfold regex_match. cbn [match_from]. rewrite many_to_end by (intros t Ht; by rewrite decide_False).
  by destruct (all_of _ s).
Qed.

(** A prefix and a group of at least one character of a set. *)
Lemma prefix_group_match t cs s :
  regex_match (literal t ++ [GroupStart; Piece (NotIn cs) Plus; GroupEnd]) s =
  let u := suffix_from (String.length t) s in
  if starts_with t s && negb (bool_decide (u = "")) && all_of (atom_matches (NotIn cs)) u
  then Some [s; u] else None.
Proof.
  unfold regex_match. rewrite match_literal. cbv zeta.
  destruct (starts_with t s); [|done]. set (u := suffix_from (String.length t) s). cbn [andb].
  assert (Hk : ∀ v, v ≠ "" → match_from [GroupEnd] u v = None).
  { intros v Hv. cbn [match_from]. by rewrite decide_False. }
  cbn [match_from] in *. destruct u as [|c u']; [done|]. cbn [one all_of].
  rewrite bool_decide_eq_false_2 by done. cbn [negb andb].
  destruct (atom_matches (NotIn cs) c); [|done]. rewrite many_to_end by exact Hk.
  destruct (all_of _ u'); [|done]. cbn [decide String.length fmap option_fmap option_map andb].
  rewrite Nat.sub_0_r. pose proof (prefix_of_app (String c u') "") as Hp.
  rewrite string_app_nil_r in Hp. cbn [String.length] in Hp. by rewrite Hp.
Qed.
