(* ===== verification/HttplibUrl.v ===== *)
(** * Query strings, header parameters and byte ranges of httplib

    [Params] is a [std::multimap]: a list in the order of its iteration, sorted
    by key, equal keys in the order they came. A byte range is a pair of
    positions, -1 where the request leaves one out. *)

From S2P Require Import Prelude Text HttplibText.

(** ** Multimaps *)

Definition Params : Type := list (string * string).

(** [params.emplace(k, v)]: behind the entries whose key is not greater. *)
Fixpoint emplace {V} (k : string) (v : V) (params : list (string * V)) : list (string * V) :=
  match params with
  | [] => [(k, v)]
  | (k', v') :: rest =>
      if string_leb k' k then (k', v') :: emplace k v rest else (k, v) :: params
  end.

Definition param_values (key : string) (params : Params) : list string :=
  snd <$> filter (λ kv, kv.1 = key) params.

Definition has_param (key : string) (params : Params) : bool :=
  bool_decide (param_values key params ≠ []).

Definition get_param_value (key : string) (id : nat) (params : Params) : string :=
  default EmptyString (param_values key params !! id).

Definition get_param_value_count (key : string) (params : Params) : nat :=
  length (param_values key params).

(** ** Query strings *)

(** [split]'s callback: the pieces seen, and the parameters so far. *)
Definition query_piece (st : list string * Params) (kv : string) : list string * Params :=
  let '(cache, params) := st in
  if decide (kv ∈ cache) then st
  else
    let '(key, val) := divide kv "=" in
    (kv :: cache,
     if decide (key = "") then params
     else emplace (decode_url key true) (decode_url val true) params).

Definition parse_query_text (s : string) (params : Params) : Params :=
  (foldl query_piece ([], params) (split s "&")).2.

(** [it->first + "=" + encode_query_param(it->second)] *)
Definition query_pair (kv : string * string) : string := kv.1 +:+ "=" +:+ encode_query_param kv.2.

Fixpoint params_to_query_str (params : Params) : string :=
  match params with
  | [] => EmptyString
  | [kv] => query_pair kv
  | kv :: rest => query_pair kv +:+ "&" +:+ params_to_query_str rest
  end.

(** [regex_match(path, "[^?]+\?.*")]: a question mark after another character,
    and no line terminator behind it. *)
Definition has_query (path : string) : bool :=
  match find "?" path with
  | Some (S n) =>
      all_of (λ c, negb (one_of (String "010" (String "013" EmptyString)) c)) (suffix_from (S (S n)) path)
  | _ => false
  end.

Definition append_query_params (path : string) (params : Params) : string :=
  path +:+ (if has_query path then "&" else "?") +:+ params_to_query_str params.

(** ** Parameters of header fields *)

(** [s.find(p)] *)
Fixpoint find_string (p s : string) : option nat :=
  if starts_with p s then Some O
  else match s with
       | EmptyString => None
       | String _ s => S <$> find_string p s
       end.

(** [None] for [false]. *)
Definition parse_multipart_boundary (content_type : string) : option string :=
  match find_string "boundary=" content_type with
  | None => None
  | Some pos =>
      let beg := (pos + 9)%nat in
      let s := match find ";" (suffix_from pos content_type) with
               | Some n => substr beg (pos + n - beg) content_type
               | None => suffix_from beg content_type
               end in
      let boundary := trim_double_quotes_copy s in
      if decide (boundary = "") then None else Some boundary
  end.

(** The inner callback of [parse_disposition_params]. *)
Definition key_or_val (kv : string * string) (s : string) : string * string :=
  if decide (kv.1 = "") then (s, kv.2) else (kv.1, s).

Definition disposition_piece (st : list string * Params) (kv : string) : list string * Params :=
  let '(cache, params) := st in
  if decide (kv ∈ cache) then st
  else
    let '(key, val) := foldl key_or_val ("", "") (split kv "=") in
    (kv :: cache,
     if decide (key = "") then params
     else emplace (trim_double_quotes_copy key) (trim_double_quotes_copy val) params).

Definition parse_disposition_params (s : string) (params : Params) : Params :=
  (foldl disposition_piece ([], params) (split s ";")).2.

(** ** Byte ranges *)

Definition Range : Type := Z * Z.
Definition Ranges : Type := list Range.

(** [str.empty() ? -1 : std::stoll(str)] on digits; the exception of a number
    that does not fit is caught by the function's own handler. *)
Definition range_pos (str : string) : option Z :=
  match str with
  | EmptyString => Some (-1)
  | _ =>
      let '(v, _, _) := scan_digits str 0 in
      if decide (v < 2^63) then Some v else None
  end.

(** The callback on one piece; [None]: the header is not valid. *)
Definition range_piece (s : string) : option Range :=
  match find "-" s with
  | None => None
  | Some n =>
      let lhs := prefix_of n s in
      let rhs := suffix_from (S n) s in
      if negb (all_of isdigit lhs && all_of isdigit rhs) then None
      else
        first ← range_pos lhs;
        last ← range_pos rhs;
        if decide ((first = -1 ∧ last = -1) ∨ (first ≠ -1 ∧ last ≠ -1 ∧ first > last)) then None
        else Some (first, last)
  end.

Definition parse_range_header (s : string) : option Ranges :=
  if bool_decide (7 < String.length s)%nat && starts_with "bytes=" s then
    ranges ← mapM range_piece (split (suffix_from 6 s) ",");
    if decide (ranges = []) then None else Some ranges
  else None.

Definition range_text (r : Range) : string :=
  (if decide (r.1 = -1) then "" else to_string r.1) +:+ "-" +:+
  (if decide (r.2 = -1) then "" else to_string r.2).

Fixpoint join (sep : string) (ss : list string) : string :=
  match ss with
  | [] => EmptyString
  | [s] => s
  | s :: ss => s +:+ sep +:+ join sep ss
  end.

Definition make_range_header (ranges : Ranges) : string * string :=
  ("Range", "bytes=" +:+ join ", " (range_text <$> ranges)).

Definition CPPHTTPLIB_RANGE_MAX_COUNT : nat := 1024.

(** The positions of one range against the length of the content. *)
Definition resolve_range (content_len : Z) (r : Range) : Range :=
  let '(first_pos, last_pos) := r in
  let '(first_pos, last_pos) :=
    if decide (first_pos = -1 ∧ last_pos = -1) then (0, content_len) else (first_pos, last_pos) in
  let '(first_pos, last_pos) :=
    if decide (first_pos = -1) then (content_len - last_pos, content_len - 1)
    else (first_pos, last_pos) in
  if decide (last_pos = -1 ∨ last_pos >= content_len) then (first_pos, content_len - 1)
  else (first_pos, last_pos).

(** The loop of [range_error]: the resolved ranges, or [None] for an error. *)
Fixpoint resolve_ranges (content_len : Z) (rs : Ranges) (prev_first_pos prev_last_pos overlapping : Z)
    : option Ranges :=
  match rs with
  | [] => Some []
  | r :: rs =>
      let '(first_pos, last_pos) := resolve_range content_len r in
      if decide (¬ (0 <= first_pos ∧ first_pos <= last_pos ∧ last_pos <= content_len - 1)) then None
      else if decide (first_pos <= prev_first_pos) then None
      else
        let overlapping := if decide (first_pos <= prev_last_pos) then overlapping + 1 else overlapping in
        if decide (first_pos <= prev_last_pos ∧ overlapping > 2) then None
        else
          rs ← resolve_ranges content_len rs (prev_first_pos `max` first_pos) (prev_last_pos `max` last_pos)
                 overlapping;
          Some ((first_pos, last_pos) :: rs)
  end.

(** [range_error(req, res)]: whether the ranges are refused, and the ranges as
    the function leaves them when they are not. *)
Definition range_error (ranges : Ranges) (status content_len : Z) : option Ranges :=
  if decide (ranges ≠ [] ∧ 200 <= status < 300) then
    if decide (CPPHTTPLIB_RANGE_MAX_COUNT < length ranges)%nat then None
    else resolve_ranges content_len ranges (-1) (-1) 0
  else Some ranges.

(** The three assertions of [get_range_offset_and_length]. *)
Definition range_asserted (r : Range) (content_length : Z) : Prop :=
  r.1 ≠ -1 ∧ r.2 ≠ -1 ∧ 0 <= r.1 < content_length ∧ r.1 <= r.2 < content_length.

#[export] Instance range_asserted_dec r content_length : Decision (range_asserted r content_length).
Proof. unfold range_asserted. apply _. Defined.

(** [UB]: an assertion fails. *)
Definition get_range_offset_and_length (r : Range) (content_length : Z) : outcome (Z * Z) :=
  if decide (range_asserted r content_length) then Ret (r.1, r.2 - r.1 + 1) else UB.

Definition make_content_range_header_field (offset_and_length : Z * Z) (content_length : Z) : string :=
  let st := offset_and_length.1 in
  let ed := st + offset_and_length.2 - 1 in
  "bytes " +:+ to_string st +:+ "-" +:+ to_string ed +:+ "/" +:+ to_string content_length.

Definition crlf : string := String "013" (String "010" EmptyString).

(** [process_multipart_ranges_data]: [token] stands for both [stoken] and
    [ctoken], [content] for the callback that may fail. *)
Section Multipart.
Context {A : Type} (token : string -> A -> A) (content : Z -> Z -> M A bool).
Context (boundary content_type : string) (content_length : Z).

Definition multipart_header (offset_and_length : Z * Z) (a : A) : A :=
  let a := token "--" a in
  let a := token boundary a in
  let a := token crlf a in
  let a := if decide (content_type = "") then a
           else token crlf (token content_type (token "Content-Type: " a)) in
  let a := token "Content-Range: " a in
  let a := token (make_content_range_header_field offset_and_length content_length) a in
  token crlf (token crlf a).

Fixpoint multipart_parts (ranges : Ranges) : M A bool :=
  match ranges with
  | [] => mret true
  | r :: ranges =>
      offset_and_length ← lift (get_range_offset_and_length r content_length);
      modify (multipart_header offset_and_length);;
      ok ← content offset_and_length.1 offset_and_length.2;
      if negb ok then mret false else modify (token crlf);; multipart_parts ranges
  end.

Definition process_multipart_ranges_data (ranges : Ranges) : M A bool :=
  ok ← multipart_parts ranges;
  if negb ok then mret false
  else modify (λ a, token "--" (token boundary (token "--" a)));; mret true.

End Multipart.

(** What is left of the state when the function has returned. *)
Definition exec {S A} (m : M S A) (s : S) : outcome S :=
  match m s with
  | (Ret _, s) => Ret s
  | (Throw e, _) => Throw e
  | (UB, _) => UB
  end.

(** Both callbacks append to [data]. *)
Definition make_multipart_ranges_data (ranges : Ranges) (body boundary content_type : string)
    (content_length : Z) (data : string) : outcome string :=
  exec (process_multipart_ranges_data (λ t d, d +:+ t)
          (λ offset length d, (Ret true, d +:+ substr (Z.to_nat offset) (Z.to_nat length) body))
          boundary content_type content_length ranges) data.

Definition get_multipart_ranges_data_length (ranges : Ranges) (boundary content_type : string)
    (content_length : Z) : outcome Z :=
  exec (process_multipart_ranges_data (λ t n, n + Z.of_nat (String.length t))
          (λ _ length n, (Ret true, n + length)) boundary content_type content_length ranges) 0.
