(* ===== verification/HttplibRangeProps.v ===== *)
(** * Byte ranges and multipart responses

    The ranges [range_error] lets pass are the ones the assertions behind it
    need; the multipart body is as long as announced; [parse_range_header]
    reads what [make_range_header] prints. *)

From S2P Require Import Prelude Text TextFacts HttplibText HttplibTextProps HttplibUrl.

(** ** The ranges [range_error] lets through *)

(** Each range meets the assertions of [get_range_offset_and_length], and each
    starts behind the start of the one before. *)
Fixpoint in_order (content_len prev_first_pos : Z) (rs : Ranges) : Prop :=
  match rs with
  | [] => True
  | r :: rs => range_asserted r content_len ∧ prev_first_pos < r.1 ∧ in_order content_len r.1 rs
  end.

(** The ranges that start within the part covered so far. *)
Fixpoint overlaps (prev_last_pos : Z) (rs : Ranges) : Z :=
  match rs with
  | [] => 0
  | r :: rs => (if decide (r.1 <= prev_last_pos) then 1 else 0) + overlaps (prev_last_pos `max` r.2) rs
  end.

Lemma resolve_ranges_in_order n rs pf pl ov rs' :
  ov <= 2 →
  resolve_ranges n rs pf pl ov = Some rs' →
  in_order n pf rs' ∧ length rs' = length rs ∧ ov + overlaps pl rs' <= 2.
Proof.
  revert pf pl ov rs'. induction rs as [|r rs IH]; intros pf pl ov rs' Hov; cbn [resolve_ranges].
  { intros [= <-]. cbn. lia. }
  destruct (resolve_range n r) as [f l]. case_decide as Hin; [done|].
  case_decide as Hasc; [done|]. case_decide as Hmany; [done|].
  destruct (resolve_ranges n rs _ _ _) as [rs1|] eqn:Hrs; [|done]. cbn. intros [= <-].
  apply IH in Hrs as (Hord & Hlen & Hn); [|case_decide; lia].
  replace (pf `max` f) with f in Hord by lia. cbn. unfold range_asserted. cbn.
  repeat split; try lia; [done|]. case_decide; lia.
Qed.

(** (safety): ranges that [range_error] does not refuse for a successful
    response are at most 1024, ascend strictly by their first position, overlap
    at most twice, and meet the three assertions on which the cutting of the
    body rests. *)
Theorem range_error_safe ranges status content_len resolved :
  200 <= status < 300 →
  range_error ranges status content_len = Some resolved →
  length resolved = length ranges
  ∧ in_order content_len (-1) resolved
  ∧ overlaps (-1) resolved <= 2
  ∧ (length resolved <= CPPHTTPLIB_RANGE_MAX_COUNT)%nat.
Proof.
  intros Hs. unfold range_error. case_decide as Hne.
  - case_decide as Hmany; [done|]. intros (Ho & Hl & Hn)%resolve_ranges_in_order; [|lia].
    rewrite Hl. split_and!; [done..|lia|lia].
  - intros [= <-]. destruct ranges as [|r rs]; [|by destruct Hne]. cbn. split_and!; [done..|lia|lia].
Qed.

Lemma range_error_safe_witness :
  range_error [(0, 3); (-1, 5)] 206 10 = Some [(0, 3); (5, 9)]
  ∧ in_order 10 (-1) [(0, 3); (5, 9)].
Proof.
  split; [reflexivity|].
  apply (range_error_safe [(0, 3); (-1, 5)] 206 10 [(0, 3); (5, 9)]); [lia|reflexivity].
Defined.

(** ** The multipart body *)

Lemma in_order_asserted n pf rs : in_order n pf rs → Forall (λ r, range_asserted r n) rs.
Proof.
  revert pf. induction rs as [|r rs IH]; intros pf; cbn; [constructor|].
  intros (Hr & _ & Hrs). constructor; [done|by eapply IH].
Qed.

Lemma prefix_of_length n s : (n <= String.length s)%nat → String.length (prefix_of n s) = n.
Proof.
  revert s. induction n as [|n IH]; intros [|c s] Hn; cbn in *; try lia.
  rewrite IH; lia.
Qed.

Lemma suffix_from_len n s : String.length (suffix_from n s) = (String.length s - n)%nat.
Proof. revert s. induction n as [|n IH]; intros [|c s]; cbn; try done. Qed.

Lemma substr_length off len s : (off + len <= String.length s)%nat → String.length (substr off len s) = len.
Proof. intros H. unfold substr. apply prefix_of_length. rewrite suffix_from_len. lia. Qed.

Section Length.
Context (boundary content_type body : string).
Abbreviation size := (Z.of_nat (String.length body)).
Abbreviation data_token := (λ t d, d +:+ t).
Abbreviation length_token := (λ t n, n + Z.of_nat (String.length t)).

Lemma multipart_header_length ol d :
  Z.of_nat (String.length (multipart_header data_token boundary content_type size ol d))
  = multipart_header length_token boundary content_type size ol (Z.of_nat (String.length d)).
Proof. unfold multipart_header. case_decide; rewrite !string_length_app; lia. Qed.

Lemma multipart_parts_length rs d :
  Forall (λ r, range_asserted r size) rs →
  ∃ d', multipart_parts data_token
          (λ offset length d, (Ret true, d +:+ substr (Z.to_nat offset) (Z.to_nat length) body))
          boundary content_type size rs d = (Ret true, d')
    ∧ multipart_parts length_token (λ _ length n, (Ret true, n + length)) boundary content_type size rs
        (Z.of_nat (String.length d)) = (Ret true, Z.of_nat (String.length d')).
Proof.
  intros Hrs. revert d. induction Hrs as [|r rs Hr _ IH]; intros d; cbn [multipart_parts]; [by exists d|].
  unfold get_range_offset_and_length. rewrite decide_True by done.
  unfold mbind, M_bind, lift, modify. cbv beta iota. cbn [negb fst snd].
  set (h := multipart_header data_token boundary content_type size _ d).
  destruct (IH ((h +:+ substr (Z.to_nat r.1) (Z.to_nat (r.2 - r.1 + 1)) body) +:+ crlf)) as (d' & Hd & Hn).
  exists d'. split; [exact Hd|]. rewrite <- Hn. f_equal. rewrite <- multipart_header_length. fold h.
  destruct Hr as (_ & _ & H1 & H2). rewrite !string_length_app, substr_length by lia. lia.
Qed.

End Length.

(** (equivalence): for ranges that meet the assertions, the length
    [get_multipart_ranges_data_length] announces is the length of the body
    [make_multipart_ranges_data] builds. *)
Theorem multipart_length_agrees ranges body boundary content_type :
  Forall (λ r, range_asserted r (Z.of_nat (String.length body))) ranges →
  ∃ data, make_multipart_ranges_data ranges body boundary content_type
            (Z.of_nat (String.length body)) "" = Ret data
    ∧ get_multipart_ranges_data_length ranges boundary content_type (Z.of_nat (String.length body))
      = Ret (Z.of_nat (String.length data)).
Proof.
  intros Hrs. unfold get_multipart_ranges_data_length, make_multipart_ranges_data, process_multipart_ranges_data, exec.
  destruct (multipart_parts_length boundary content_type body ranges "" Hrs) as (d & Hd & Hn).
  change (Z.of_nat (String.length "")) with 0 in Hn. unfold mbind, M_bind. rewrite Hd, Hn.
  unfold modify. cbn [negb mret M_ret]. eexists. split; [reflexivity|].
  f_equal. rewrite !string_length_app. lia.
Qed.

Lemma multipart_length_agrees_witness :
  Forall (λ r, range_asserted r 5) [(0, 1); (3, 4)]
  ∧ ∃ data, make_multipart_ranges_data [(0, 1); (3, 4)] "hello" "b" "text/plain" 5 "" = Ret data
      ∧ get_multipart_ranges_data_length [(0, 1); (3, 4)] "b" "text/plain" 5
        = Ret (Z.of_nat (String.length data)).
Proof.
  assert (H : Forall (λ r, range_asserted r 5) [(0, 1); (3, 4)])
    by (repeat constructor; cbn; lia).
  split; [exact H|]. exact (multipart_length_agrees [(0, 1); (3, 4)] "hello" "b" "text/plain" H).
Defined.

(** ** The range header *)

Definition valid_range (r : Range) : Prop :=
  -1 <= r.1 < 2^63 ∧ -1 <= r.2 < 2^63 ∧ (r.1 = -1 → r.2 ≠ -1) ∧ (r.1 ≠ -1 → r.2 ≠ -1 → r.1 <= r.2).

Definition position_text (z : Z) : string := if decide (z = -1) then "" else to_string z.

Lemma position_digits z : -1 <= z → all_of isdigit (position_text z) = true.
Proof.
  intros Hz. unfold position_text. case_decide; [done|]. by apply to_string_nonneg; lia.
Qed.

Lemma range_pos_text z : -1 <= z < 2^63 → range_pos (position_text z) = Some z.
Proof.
  intros Hz. unfold position_text. case_decide as Hd; [by subst|].
  destruct (to_string_nonneg z ltac:(lia)) as (Hdig & Hval & Hne). unfold range_pos.
  pose proof (scan_digits_app (to_string z) "" 0 Hdig I) as Hscan.
  rewrite string_app_nil_r in Hscan. destruct (to_string z) as [|c s]; [done|].
  rewrite Hscan, Hval. by rewrite decide_True by lia.
Qed.

Lemma digit_not_dash : ∀ c, isdigit c = true → negb (bool_decide (c = "-"%char)) = true.
Proof. by_classes. Qed.

Lemma range_piece_text r : valid_range r → range_piece (range_text r) = Some r.
Proof.
  destruct r as [f l]. intros (Hf & Hl & Hnot & Hle). cbn [fst snd] in *.
  unfold range_text, range_piece. cbn [fst snd]. fold (position_text f) (position_text l).
  pose proof (position_digits f ltac:(lia)) as Hdf. pose proof (position_digits l ltac:(lia)) as Hdl.
  change ("-" +:+ position_text l) with (String "-" (position_text l)).
  rewrite find_app by (revert Hdf; apply all_of_impl, digit_not_dash).
  rewrite prefix_of_app, suffix_from_app_S, Hdf, Hdl. cbn [andb negb].
  rewrite !range_pos_text by done. cbn [mbind option_bind].
  by rewrite decide_False by lia.
Qed.

(** *** Lists of texts *)

Definition list_char (c : ascii) : bool := negb (is_space_or_tab c) && negb (bool_decide (c = ","%char)).

Lemma strip_blank s : strip (String " " s) = strip s.
Proof. done. Qed.

Lemma list_chars_delimiter t : all_of list_char t = true → all_of (λ c, negb (bool_decide (c = ","%char))) t = true.
Proof. apply all_of_impl. by intros c [_ ?]%andb_prop. Qed.

Lemma stripped_fields_blank s : stripped_fields "," (String " " s) = stripped_fields "," s.
Proof.
  unfold stripped_fields. cbn [fields]. destruct (fields_cons "," s) as (f & fs & ->).
  cbn [fmap list_fmap]. rewrite bool_decide_eq_false_2 by done. cbn [fmap list_fmap].
  by rewrite strip_blank.
Qed.

Lemma stripped_fields_join ts :
  Forall (λ t, all_of list_char t = true ∧ t ≠ "") ts → stripped_fields "," (join ", " ts) = ts.
Proof.
  induction 1 as [|t ts [Ht Hne] _ IH]; [done|].
  assert (Hs : strip t = t) by (apply strip_plain; revert Ht; apply all_of_impl; by intros c [? _]%andb_prop).
  destruct ts as [|t2 ts].
  - cbn [join]. unfold stripped_fields. rewrite fields_last by by apply list_chars_delimiter.
    by rewrite filter_strip, Hs, decide_False.
  - rewrite <- stripped_fields_blank in IH. unfold stripped_fields in *.
    change (join ", " (t :: t2 :: ts)) with (t +:+ String "," (String " " (join ", " (t2 :: ts)))).
    rewrite fields_delimiter by by apply list_chars_delimiter.
    by rewrite filter_strip, Hs, decide_False, IH.
Qed.

Lemma position_list_chars z : -1 <= z → all_of list_char (position_text z) = true.
Proof.
  intros Hz. pose proof (position_digits z Hz) as H. revert H. apply all_of_impl. by_classes.
Qed.

Lemma range_text_list_chars r : valid_range r → all_of list_char (range_text r) = true ∧ range_text r ≠ "".
Proof.
  intros (Hf & Hl & _). unfold range_text. fold (position_text r.1) (position_text r.2).
  rewrite !all_of_app, !position_list_chars by lia. split; [done|]. by destruct (position_text r.1).
Qed.

Lemma range_text_length r : valid_range r → (2 <= String.length (range_text r))%nat.
Proof.
  intros (Hf & Hl & Hnot & _). unfold range_text. rewrite !string_length_app. cbn [String.length].
  destruct (decide (r.1 = -1)) as [Hr|Hr].
  - rewrite decide_False by auto. destruct (to_string_nonneg r.2 ltac:(lia)) as (_ & _ & H).
    destruct (to_string r.2); [done|cbn; lia].
  - destruct (to_string_nonneg r.1 ltac:(lia)) as (_ & _ & H).
    destruct (to_string r.1); [done|cbn; lia].
Qed.

(** (roundtrip): [parse_range_header] reads back the header value
    [make_range_header] prints for ranges with at least one position each, in
    ascending order, below 2^63. *)
Theorem parse_make_range_header ranges :
  ranges ≠ [] → Forall valid_range ranges →
  Z.of_nat (String.length (make_range_header ranges).2) < 2^64 - 2 →
  parse_range_header (make_range_header ranges).2 = Some ranges.
Proof.
  intros Hne Hv Hlen. unfold make_range_header, parse_range_header in *. cbn [snd] in *.
  assert (Htexts : Forall (λ t, all_of list_char t = true ∧ t ≠ "") (range_text <$> ranges)).
  { apply Forall_fmap. eapply Forall_impl; [exact Hv|]. intros r Hr. by apply range_text_list_chars. }
  set (text := join ", " (range_text <$> ranges)) in *.
  assert (Hlong : (2 <= String.length text)%nat).
  { destruct ranges as [|r rs]; [done|]. apply Forall_cons in Hv as [Hr%range_text_length _].
    unfold text. rewrite fmap_cons. cbn [join]. destruct (range_text <$> rs); [done|].
    rewrite string_length_app. lia. }
  rewrite bool_decide_eq_true_2 by (rewrite string_length_app; cbn; lia).
  rewrite starts_with_app. cbn [andb].
  change 6%nat with (String.length "bytes="). rewrite suffix_from_app.
  pose proof (stripped_fields_join _ Htexts) as Hj. fold text in Hj.
  rewrite split_stripped_fields, Hj by (rewrite string_length_app in Hlen; lia).
  assert (mapM range_piece (range_text <$> ranges) = Some ranges) as ->.
  { apply mapM_Some_2. rewrite Forall2_fmap_l. apply Forall_Forall2_diag.
    eapply Forall_impl; [exact Hv|]. intros r Hr. by apply range_piece_text. }
  cbn [mbind option_bind]. by rewrite decide_False.
Qed.

Lemma parse_make_range_header_witness :
  parse_range_header "bytes=0-99, 200-, -5" = Some [(0, 99); (200, -1); (-1, 5)].
Proof.
  apply (parse_make_range_header [(0, 99); (200, -1); (-1, 5)]).
  - discriminate.
  - repeat constructor; cbn; lia.
  - reflexivity.
Defined.
