(* ===== verification/HttplibStream.v ===== *)
(** * Streams and the HTTP reader of httplib

    A stream is what has still to arrive, in the segments it arrives in, and
    how it ends. The functions read lines, header fields and bodies from it.
    A loop is the repetition of its [round], in which [rec] stands for the
    rounds that follow; it takes as fuel the number of bytes the stream still
    holds, which HttplibTermination.v shows to be enough. *)

From S2P Require Import Prelude Text HttplibText HttplibUrl.

(** ** Streams *)

Record stream := Stream { segments : list string; fails : bool (* ends with an error *) }.

Definition stream_of (s : string) : stream := Stream [s] false.

Fixpoint join_segments (ss : list string) : string :=
  match ss with [] => EmptyString | s :: ss => s +:+ join_segments ss end.

(** Everything that will arrive. *)
Definition remaining (strm : stream) : string := join_segments (segments strm).

(** [strm.read(ptr, size)]: some bytes of the first segment, [Some ""] at the
    end, [None] for a negative result. *)
Fixpoint read_segments (ss : list string) (fails : bool) (size : nat) : option string * list string :=
  match ss with
  | [] => ((if fails then None else Some EmptyString), [])
  | EmptyString :: ss => read_segments ss fails size
  | s :: ss => (Some (prefix_of size s), suffix_from size s :: ss)
  end.

Definition read (size : nat) (strm : stream) : option string * stream :=
  let '(r, ss) := read_segments (segments strm) (fails strm) size in (r, Stream ss (fails strm)).

(** ** stream_line_reader *)

Record line_reader := LineReader {
  fixed_buffer_ : string;               (* the bytes used of it *)
  fixed_buffer_size_ : nat;
  growable_buffer_ : string
}.

Definition line_ptr (r : line_reader) : string :=
  if decide (growable_buffer_ r = "") then fixed_buffer_ r else growable_buffer_ r.

Definition line_size (r : line_reader) : nat := String.length (line_ptr r).

Definition append (c : ascii) (r : line_reader) : line_reader :=
  if decide (String.length (fixed_buffer_ r) < fixed_buffer_size_ r - 1)%nat then
    LineReader (fixed_buffer_ r +:+ String c "") (fixed_buffer_size_ r) (growable_buffer_ r)
  else
    let g := if decide (growable_buffer_ r = "") then fixed_buffer_ r else growable_buffer_ r in
    LineReader (fixed_buffer_ r) (fixed_buffer_size_ r) (g +:+ String c "").

Definition ends_with (p s : string) : bool :=
  bool_decide (String.length p <= String.length s)%nat
  && bool_decide (suffix_from (String.length s - String.length p) s = p).

Definition end_with_crlf (r : line_reader) : bool := ends_with crlf (line_ptr r).

(** The loop of [getline], [i] bytes into the line. *)
Definition getline_round (rec : nat -> ascii -> stream -> line_reader -> bool * stream * line_reader)
    (i : nat) (prev_byte : ascii) (strm : stream) (r : line_reader) : bool * stream * line_reader :=
  match read 1 strm with
  | (None, strm) => (false, strm, r)
  | (Some EmptyString, strm) => (negb (bool_decide (i = O)), strm, r)
  | (Some (String byte _), strm) =>
      let r := append byte r in
      if bool_decide (prev_byte = "013"%char) && bool_decide (byte = "010"%char) then (true, strm, r)
      else rec (S i) byte strm r
  end.

Fixpoint getline_loop (fuel i : nat) (prev_byte : ascii) (strm : stream) (r : line_reader)
    : bool * stream * line_reader :=
  match fuel with
  | O => (negb (bool_decide (i = O)), strm, r)
  | S fuel => getline_round (getline_loop fuel) i prev_byte strm r
  end.

(** Enough fuel for what the stream holds. *)
Definition stream_fuel (strm : stream) : nat := S (String.length (remaining strm)).

Definition getline (size : nat) (strm : stream) : bool * stream * line_reader :=
  getline_loop (stream_fuel strm) 0 "000" strm (LineReader EmptyString size EmptyString).

(** ** Header fields *)

(** [std::unordered_multimap] with case-insensitive keys. libstdc++ puts an
    entry in front of those with an equal key; the order of different keys,
    which only [write_headers] sees, is an argument there. *)
Definition Headers : Type := list (string * string).

Definition emplace_header (k v : string) (headers : Headers) : Headers := (k, v) :: headers.

Definition header_values (key : string) (headers : Headers) : list string :=
  snd <$> filter (λ kv, case_equal kv.1 key = true) headers.

Definition has_header (headers : Headers) (key : string) : bool :=
  bool_decide (header_values key headers ≠ []).

(** The value is read as a C string. *)
Definition get_header_value (headers : Headers) (key def : string) (id : nat) : string :=
  match header_values key headers !! id with
  | Some v => c_str v
  | None => def
  end.

Definition get_header_value_count (headers : Headers) (key : string) : nat :=
  length (header_values key headers).

(** [strtoull] on digits: too large a number gives the greatest one. *)
Definition get_header_value_u64 (headers : Headers) (key : string) (def : Z) (id : nat) : Z * bool :=
  match header_values key headers !! id with
  | Some v =>
      if is_numeric v then
        let '(n, _, _) := scan_digits v 0 in (n `min` (2^64 - 1), false)
      else (def, true)
  | None => (def, false)
  end.

(** A line without its terminator; [None] for [false]. *)
Definition parse_header (line : string) : option (string * string) :=
  let line := prefix_of (trim_right line (String.length line)) line in
  let name := take_while (λ c, negb (bool_decide (c = ":"%char))) line in
  if negb (is_field_name name) then None
  else
    match drop_while (λ c, negb (bool_decide (c = ":"%char))) line with
    | EmptyString => None
    | String _ rest =>
        let val := drop_while is_space_or_tab rest in
        if negb (is_field_value val) then None
        else if case_equal name "Location" || case_equal name "Referer" then Some (name, val)
        else Some (name, decode_url val false)
    end.

Definition CPPHTTPLIB_HEADER_MAX_LENGTH : nat := 8192.

(** The loop of [read_headers], over the header fields read so far. *)
Definition read_headers_round (rec : stream -> Headers -> bool * stream * Headers) (strm : stream)
    (headers : Headers) : bool * stream * Headers :=
  match getline 2048 strm with
  | (false, strm, _) => (false, strm, headers)
  | (true, strm, r) =>
      if end_with_crlf r then
        if decide (line_size r = 2%nat) then (true, strm, headers)
        else if decide (CPPHTTPLIB_HEADER_MAX_LENGTH < line_size r)%nat then (false, strm, headers)
        else
          match parse_header (prefix_of (line_size r - 2) (line_ptr r)) with
          | None => (false, strm, headers)
          | Some (k, v) => rec strm (emplace_header k v headers)
          end
      else rec strm headers
  end.

Fixpoint read_headers_loop (fuel : nat) (strm : stream) (headers : Headers) : bool * stream * Headers :=
  match fuel with
  | O => (false, strm, headers)
  | S fuel => read_headers_round (read_headers_loop fuel) strm headers
  end.

Definition read_headers (strm : stream) (headers : Headers) : bool * stream * Headers :=
  read_headers_loop (stream_fuel strm) strm headers.

Definition is_chunked_transfer_encoding (headers : Headers) : bool :=
  case_equal (get_header_value headers "Transfer-Encoding" "" 0) "chunked".

(** ** Bodies *)

Definition CPPHTTPLIB_RECV_BUFSIZ : Z := 16384.

(** A receiver gets the bytes with their offset and the total length (0: not
    known), changes its state and may refuse or throw; so may a progress
    callback. The functions return what C++ returns, the receiver's state and
    the stream. *)
Definition ContentReceiverWithProgress (A : Type) : Type := string -> Z -> Z -> M A bool.
Definition Progress (A : Type) : Type := Z -> Z -> M A bool.

(** [if (progress) { if (!progress(r, len)) return false; }] *)
Definition report {A} (progress : option (Progress A)) (r len : Z) : M A bool :=
  match progress with Some progress => progress r len | None => mret true end.

Section Content.
Context {A : Type} (out : ContentReceiverWithProgress A).

Definition content_with_length_round (progress : option (Progress A)) (len : Z)
    (rec : Z -> stream -> A -> outcome bool * A * stream) (r : Z) (strm : stream) (a : A)
    : outcome bool * A * stream :=
  if decide (len <= r) then (Ret true, a, strm)
  else
    match read (Z.to_nat ((len - r) `min` CPPHTTPLIB_RECV_BUFSIZ)) strm with
    | (None, strm) | (Some EmptyString, strm) => (Ret false, a, strm)
    | (Some buf, strm) =>
        let n := Z.of_nat (String.length buf) in
        match (go ← out buf r len; if (go : bool) then report progress (r + n) len else mret false) a with
        | (Ret true, a) => rec (r + n) strm a
        | (result, a) => (result, a, strm)
        end
    end.

Fixpoint content_with_length (progress : option (Progress A)) (fuel : nat) (len r : Z) (strm : stream) (a : A)
    : outcome bool * A * stream :=
  match fuel with
  | O => (Ret false, a, strm)
  | S fuel => content_with_length_round progress len (content_with_length progress fuel len) r strm a
  end.

Definition read_content_with_length (progress : option (Progress A)) (strm : stream) (len : Z) (a : A)
    : outcome bool * A * stream :=
  content_with_length progress (stream_fuel strm) len 0 strm a.

Definition skip_round (len : Z) (rec : Z -> stream -> stream) (r : Z) (strm : stream) : stream :=
  if decide (len <= r) then strm
  else
    match read (Z.to_nat ((len - r) `min` CPPHTTPLIB_RECV_BUFSIZ)) strm with
    | (None, strm) | (Some EmptyString, strm) => strm
    | (Some buf, strm) => rec (r + Z.of_nat (String.length buf)) strm
    end.

Fixpoint skip_with_length (fuel : nat) (len r : Z) (strm : stream) : stream :=
  match fuel with
  | O => strm
  | S fuel => skip_round len (skip_with_length fuel len) r strm
  end.

Definition skip_content_with_length (strm : stream) (len : Z) : stream :=
  skip_with_length (stream_fuel strm) len 0 strm.

Definition content_without_length_round (rec : Z -> stream -> A -> outcome bool * A * stream) (r : Z)
    (strm : stream) (a : A) : outcome bool * A * stream :=
  match read (Z.to_nat CPPHTTPLIB_RECV_BUFSIZ) strm with
  | (None, strm) => (Ret false, a, strm)
  | (Some EmptyString, strm) => (Ret true, a, strm)
  | (Some buf, strm) =>
      match out buf r 0 a with
      | (Ret true, a) => rec (r + Z.of_nat (String.length buf)) strm a
      | (result, a) => (result, a, strm)
      end
  end.

Fixpoint content_without_length (fuel : nat) (r : Z) (strm : stream) (a : A) : outcome bool * A * stream :=
  match fuel with
  | O => (Ret false, a, strm)
  | S fuel => content_without_length_round (content_without_length fuel) r strm a
  end.

Definition read_content_without_length (strm : stream) (a : A) : outcome bool * A * stream :=
  content_without_length (stream_fuel strm) 0 strm a.

(** *** Chunked transfer coding *)

(** The hexadecimal digits at the front, and how many they are. *)
Fixpoint scan_hex_digits (s : string) (acc : Z) : Z * nat :=
  match s with
  | String c s =>
      match hex_value c with
      | Some v => let '(n, k) := scan_hex_digits s (acc * 16 + v) in (n, S k)
      | None => (acc, O)
      end
  | EmptyString => (acc, O)
  end.

(** A prefix 0x with a digit behind it. *)
Definition skip_hex_prefix (s : string) : string :=
  match s with
  | String "0" (String x s') =>
      if (bool_decide (x = "x"%char) || bool_decide (x = "X"%char))
         && negb (bool_decide ((scan_hex_digits s' 0).2 = O)) then s' else s
  | _ => s
  end.

(** [std::strtoul(s, &end, 16)]: [None] when [end] is [s]. *)
Definition strtoul16 (s : string) : option Z :=
  let '(sign, _, s) := scan_sign (drop_while isspace s) in
  match scan_hex_digits (skip_hex_prefix s) 0 with
  | (_, O) => None
  | (n, _) => if decide (2^64 <= n) then Some (2^64 - 1) else Some (to_u64 (sign * n))
  end.

(** The loop over the chunks, with the line of the first one read: [true] when
    the chunk of size zero has been read. *)
Definition chunks_round (rec : string -> stream -> A -> outcome bool * A * stream) (line : string)
    (strm : stream) (a : A) : outcome bool * A * stream :=
  match strtoul16 (c_str line) with
  | None => (Ret false, a, strm)
  | Some chunk_len =>
      if decide (chunk_len = 2^64 - 1) then (Ret false, a, strm)
      else if decide (chunk_len = 0) then (Ret true, a, strm)
      else
        match read_content_with_length None strm chunk_len a with
        | (Ret true, a, strm) =>
            match getline 16 strm with
            | (false, strm, _) => (Ret false, a, strm)
            | (true, strm, r) =>
                if negb (bool_decide (c_str (line_ptr r) = crlf)) then (Ret false, a, strm)
                else
                  match getline 16 strm with
                  | (false, strm, _) => (Ret false, a, strm)
                  | (true, strm, r) => rec (line_ptr r) strm a
                  end
            end
        | refused => refused
        end
  end.

Fixpoint chunks (fuel : nat) (line : string) (strm : stream) (a : A) : outcome bool * A * stream :=
  match fuel with
  | O => (Ret false, a, strm)
  | S fuel => chunks_round (chunks fuel) line strm a
  end.

(** The trailer section: fields are added, a line that is none is skipped. The
    code forms the pointer two bytes before the end of the line also when the
    line is shorter, at the end of the connection: it lies before the buffer
    then, and [parse_header] finds nothing in a range that ends before it
    begins, as it does in the empty one here. *)
Definition trailers_round (rec : string -> stream -> Headers -> bool * stream * Headers) (line : string)
    (strm : stream) (headers : Headers) : bool * stream * Headers :=
  if decide (c_str line = crlf) then (true, strm, headers)
  else if decide (CPPHTTPLIB_HEADER_MAX_LENGTH < String.length line)%nat then (false, strm, headers)
  else
    let headers :=
      match parse_header (prefix_of (String.length line - 2) line) with
      | Some (k, v) => emplace_header k v headers
      | None => headers
      end in
    match getline 16 strm with
    | (false, strm, _) => (false, strm, headers)
    | (true, strm, r) => rec (line_ptr r) strm headers
    end.

Fixpoint trailers (fuel : nat) (line : string) (strm : stream) (headers : Headers) : bool * stream * Headers :=
  match fuel with
  | O => (false, strm, headers)
  | S fuel => trailers_round (trailers fuel) line strm headers
  end.

(** The fields of a trailer section stay in [headers] when it is refused. *)
Definition read_content_chunked (strm : stream) (headers : Headers) (a : A)
    : outcome bool * A * Headers * stream :=
  match getline 16 strm with
  | (false, strm, _) => (Ret false, a, headers, strm)
  | (true, strm, r) =>
      match chunks (stream_fuel strm) (line_ptr r) strm a with
      | (Ret true, a, strm) =>
          match getline 16 strm with
          | (false, strm, _) => (Ret true, a, headers, strm)
          | (true, strm, r) =>
              let '(ok, strm, headers) := trailers (S (stream_fuel strm)) (line_ptr r) strm headers in
              (Ret ok, a, headers, strm)
          end
      | (result, a, strm) => (result, a, headers, strm)
      end
  end.

End Content.

(** ** Writing *)

Definition write_request_line (method path : string) : string :=
  method +:+ " " +:+ path +:+ " HTTP/1.1" +:+ crlf.

Definition write_response_line (status : Z) : string :=
  "HTTP/1.1 " +:+ to_string status +:+ " " +:+ status_message status +:+ crlf.

Fixpoint write_headers (headers : Headers) : string :=
  match headers with
  | [] => crlf
  | (k, v) :: headers => k +:+ ": " +:+ v +:+ crlf +:+ write_headers headers
  end.
