(* ===== verification/HttplibStreamProps.v ===== *)
(** * Reading lines and header fields

    [getline] against a reference on the plain text of the stream, and
    [read_headers] against [write_headers]. *)

From S2P Require Import Prelude Text TextFacts HttplibText HttplibUrl HttplibStream.

(** ** Reading a byte *)

Lemma read_segments_one c rest ss b :
  join_segments ss = String c rest →
  ∃ ss', read_segments ss b 1 = (Some (String c ""), ss') ∧ join_segments ss' = rest.
Proof.
  induction ss as [|s ss IH]; intros Hs; [done|]. destruct s as [|c' s]; [by apply IH|].
  cbn in Hs. simplify_eq. by eexists.
Qed.

Lemma read_segments_end ss b :
  join_segments ss = "" → read_segments ss b 1 = ((if b then None else Some ""), []).
Proof. induction ss as [|[|c s] ss IH]; [done|apply IH|done]. Qed.

Lemma read_one c rest strm :
  remaining strm = String c rest →
  ∃ strm', read 1 strm = (Some (String c ""), strm') ∧ remaining strm' = rest ∧ fails strm' = fails strm.
Proof.
  intros Hs. unfold read. destruct (read_segments_one c rest (segments strm) (fails strm) Hs) as (ss & -> & Hr).
  by exists (Stream ss (fails strm)).
Qed.

Lemma read_end strm :
  remaining strm = "" →
  read 1 strm = ((if fails strm then None else Some ""), Stream [] (fails strm)).
Proof. intros Hs. unfold read. by rewrite read_segments_end. Qed.

(** ** The line buffer *)

(** The growable buffer is used once the fixed one is full. *)
Definition reader_ok (r : line_reader) : Prop :=
  growable_buffer_ r ≠ "" → ¬ (String.length (fixed_buffer_ r) < fixed_buffer_size_ r - 1)%nat.

Lemma app_not_empty s c : s +:+ String c "" ≠ "".
Proof. by destruct s. Qed.

Lemma append_spec c r :
  reader_ok r → line_ptr (append c r) = line_ptr r +:+ String c "" ∧ reader_ok (append c r).
Proof.
  destruct r as [fixed size growable]. unfold reader_ok, append, line_ptr. cbn. intros Hr.
  destruct (decide (String.length fixed < size - 1)%nat) as [Hroom|Hroom]; cbn.
  - destruct (decide (growable = "")) as [Hg|Hg]; [split; [done|by intros []]|by destruct (Hr Hg)].
  - split; [|done]. rewrite decide_False by apply app_not_empty. by case_decide.
Qed.

(** ** Lines *)

(** The text up to the first CR LF, that included, what is behind it, and
    whether there is one; [prev] is the byte before. *)
Fixpoint plain_line (prev : ascii) (s : string) : string * string * bool :=
  match s with
  | EmptyString => (EmptyString, EmptyString, false)
  | String c s =>
      if bool_decide (prev = "013"%char) && bool_decide (c = "010"%char) then (String c "", s, true)
      else let '(line, rest, ended) := plain_line c s in (String c line, rest, ended)
  end.

Lemma getline_loop_plain fuel i prev strm r :
  reader_ok r →
  (String.length (remaining strm) < fuel)%nat →
  let '(line, rest, ended) := plain_line prev (remaining strm) in
  ∃ strm' r',
    getline_loop fuel i prev strm r =
      (ended || negb (fails strm) && negb (bool_decide (i = O ∧ line = "")), strm', r')
    ∧ line_ptr r' = line_ptr r +:+ line ∧ remaining strm' = rest ∧ fails strm' = fails strm.
Proof.
  revert i prev strm r. induction fuel as [|fuel IH]; intros i prev strm r Hr Hf; [lia|].
  destruct (remaining strm) as [|c s] eqn:Hs; cbn [plain_line getline_loop]; try unfold getline_round.
  - rewrite (read_end _ Hs). destruct (fails strm) eqn:Hb; cbn.
    + do 2 eexists. by rewrite string_app_nil_r.
    + exists (Stream [] false), r. rewrite string_app_nil_r. repeat split. do 2 f_equal.
      by destruct i.
  - destruct (read_one _ _ _ Hs) as (strm' & -> & Hs' & Hb).
    destruct (append_spec c r Hr) as [Happ Hr'].
    destruct (bool_decide (prev = "013"%char) && bool_decide (c = "010"%char)).
    + exists strm', (append c r). done.
    + specialize (IH (S i) c strm' (append c r) Hr' ltac:(rewrite Hs'; cbn in Hf; lia)).
      rewrite Hs' in IH. destruct (plain_line c s) as [[line rest] ended].
      destruct IH as (strm2 & r2 & Heq & Hline & Hrest & Hf2). exists strm2, r2.
      rewrite Heq, Hb. split_and!; [by rewrite !bool_decide_false by naive_solver|by rewrite Hline, Happ, string_app_assoc|done|by rewrite Hf2].
Qed.

(** (equivalence): whatever segments the bytes arrive in and whatever the
    size of the fixed buffer, [getline] takes the text up to the first CR LF
    from the stream. It succeeds when there is one, or when the connection
    ends without an error behind some bytes. *)
Theorem getline_plain size strm :
  let '(line, rest, ended) := plain_line "000" (remaining strm) in
  ∃ strm' r,
    getline size strm = (ended || negb (fails strm) && negb (bool_decide (line = "")), strm', r)
    ∧ line_ptr r = line ∧ remaining strm' = rest ∧ fails strm' = fails strm.
Proof.
  pose proof (getline_loop_plain (stream_fuel strm) 0 "000" strm (LineReader "" size "")
    ltac:(by intros []) ltac:(unfold stream_fuel; lia)) as Hl.
  destruct (plain_line "000" (remaining strm)) as [[line rest] ended].
  destruct Hl as (strm' & r & Heq & Hline & Hrest). exists strm', r.
  unfold getline. rewrite Heq.
  by rewrite (bool_decide_ext (0%nat = 0%nat ∧ line = "") (line = "")) by naive_solver.
Qed.

(** ** Text without line terminators *)

Definition line_char (c : ascii) : bool := negb (one_of (String "013" (String "010" EmptyString)) c).

Lemma line_char_cr c : line_char c = true → bool_decide (c = "013"%char) = false.
Proof. intros H. apply bool_decide_eq_false. by intros ->. Qed.

Lemma line_char_lf c : line_char c = true → bool_decide (c = "010"%char) = false.
Proof. intros H. apply bool_decide_eq_false. by intros ->. Qed.

Lemma plain_line_app prev l rest :
  all_of line_char l = true → plain_line prev (l +:+ crlf +:+ rest) = (l +:+ crlf, rest, true).
Proof.
  revert prev. induction l as [|c l IH]; intros prev; cbn [all_of].
  - intros _. cbn. by rewrite andb_false_r.
  - intros [Hc Hl]%andb_prop. rewrite !string_app_cons. cbn [plain_line].
    rewrite (line_char_lf _ Hc), andb_false_r, (IH _ Hl). done.
Qed.

(** A line that ends with CR LF. *)
Lemma getline_line size strm l rest :
  remaining strm = l +:+ crlf +:+ rest → all_of line_char l = true →
  ∃ strm' r, getline size strm = (true, strm', r)
    ∧ line_ptr r = l +:+ crlf ∧ remaining strm' = rest ∧ fails strm' = fails strm.
Proof.
  intros Hs Hl. pose proof (getline_loop_plain (stream_fuel strm) 0 "000" strm (LineReader "" size "")
    ltac:(by intros []) ltac:(unfold stream_fuel; lia)) as Hg.
  rewrite Hs, (plain_line_app _ _ _ Hl) in Hg. exact Hg.
Qed.

Lemma ends_with_app s p : ends_with p (s +:+ p) = true.
Proof.
  unfold ends_with. rewrite string_length_app, andb_true_iff, !bool_decide_eq_true.
  split; [lia|]. replace (_ + _ - _)%nat with (String.length s) by lia. apply suffix_from_app.
Qed.

Lemma line_end l r : line_ptr r = l +:+ crlf →
  end_with_crlf r = true ∧ line_size r = (String.length l + 2)%nat
  ∧ prefix_of (line_size r - 2) (line_ptr r) = l.
Proof.
  intros Hr. unfold end_with_crlf, line_size. rewrite Hr, ends_with_app, string_length_app.
  cbn [String.length crlf]. split_and!; [done..|].
  replace (_ + 2 - 2)%nat with (String.length l) by lia. apply prefix_of_app.
Qed.

(** ** Field syntax *)

Lemma token_char_line : ∀ c, is_token_char c = true → line_char c = true.
Proof. by_classes. Qed.

Lemma token_char_colon : ∀ c, is_token_char c = true → negb (bool_decide (c = ":"%char)) = true.
Proof. by_classes. Qed.

Lemma vchar_not_space : ∀ c, is_field_vchar c = true → negb (is_space_or_tab c) = true.
Proof. by_classes. Qed.

Definition field_char (c : ascii) : bool := is_space_or_tab c || is_field_vchar c.

Lemma field_char_line : ∀ c, field_char c = true → line_char c = true.
Proof. by_classes. Qed.

Lemma vchar_field_char c : is_field_vchar c = true → field_char c = true.
Proof. unfold field_char. intros ->. apply orb_true_r. Qed.

Lemma field_name_chars k : is_field_name k = true → k ≠ "" ∧ all_of is_token_char k = true.
Proof. by destruct k. Qed.

Lemma field_rest_last s : field_rest s = true →
  all_of field_char s = true ∧ ∃ u c, s = u +:+ String c "" ∧ is_field_vchar c = true.
Proof.
  induction s as [|c s IH]; [done|]. destruct s as [|d s].
  - cbn. intros Hc. rewrite (vchar_field_char _ Hc). split; [done|]. by exists "", c.
  - intros [Hc Hs]%andb_prop. destruct (IH Hs) as (Ha & u & e & Heq & He).
    cbn [all_of]. cbn [all_of] in Ha. unfold field_char at 1. rewrite Hc, Ha. split; [done|].
    exists (String c u), e. by rewrite Heq.
Qed.

(** A field value that is not empty starts and ends with a visible character. *)
Lemma field_value_shape v : is_field_value v = true →
  all_of field_char v = true ∧ stops is_space_or_tab v
  ∧ (v = "" ∨ ∃ u c, v = u +:+ String c "" ∧ is_field_vchar c = true).
Proof.
  destruct v as [|c v]; [cbn; auto|]. unfold is_field_value.
  assert (Hall : is_field_content (String c v) = is_field_vchar c && (bool_decide (v = "") || field_rest v)).
  { destruct v as [|d [|e v]]; cbn [is_field_content field_rest]; [|done..].
    by rewrite bool_decide_eq_true_2, andb_true_r. }
  rewrite Hall. intros [Hc Hv]%andb_prop. pose proof (vchar_not_space _ Hc) as Hs%negb_true_iff.
  split_and!; cbn [all_of stops]; [rewrite (vchar_field_char _ Hc)|done|right].
  - apply orb_prop in Hv as [->%bool_decide_eq_true|Hr]; [done|]. by destruct (field_rest_last _ Hr) as [-> _].
  - apply orb_prop in Hv as [->%bool_decide_eq_true|Hr]; [by exists "", c|].
    destruct (field_rest_last _ Hr) as (_ & u & d & -> & Hd). by exists (String c u), d.
Qed.

(** ** Header fields *)

Lemma string_get_app u c t : String.get (String.length u) (u +:+ String c t) = Some c.
Proof. induction u as [|x u IH]; [done|]. apply IH. Qed.

Lemma trim_right_last s u c :
  s = u +:+ String c "" → is_space_or_tab c = false → trim_right s (String.length s) = String.length s.
Proof.
  intros -> Hc. rewrite string_length_app, Nat.add_comm. cbn [String.length Nat.add trim_right].
  by rewrite string_get_app, Hc.
Qed.

Definition plain_field (k : string) : bool := negb (case_equal k "Location" || case_equal k "Referer").

(** A field as [write_headers] prints it, after the trailing blanks are cut. *)
Lemma parse_header_body k sp v :
  is_field_name k = true → is_field_value v = true → all_of is_space_or_tab sp = true →
  plain_field k = true →
  match drop_while (λ c, negb (bool_decide (c = ":"%char))) (k +:+ String ":" (sp +:+ v)) with
  | String _ rest => drop_while is_space_or_tab rest = v
  | EmptyString => False
  end ∧ take_while (λ c, negb (bool_decide (c = ":"%char))) (k +:+ String ":" (sp +:+ v)) = k.
Proof.
  intros [_ Hk]%field_name_chars (_ & Hv & _)%field_value_shape Hsp _.
  assert (Hc : all_of (λ c, negb (bool_decide (c = ":"%char))) k = true)
    by (revert Hk; apply all_of_impl, token_char_colon).
  rewrite drop_while_app, take_while_app by done. split; [by apply drop_while_app|done].
Qed.

Lemma parse_header_field k v :
  is_field_name k = true → is_field_value v = true → plain_field k = true →
  parse_header (k +:+ ": " +:+ v) = Some (k, decode_url v false).
Proof.
  intros Hk Hv Hp. pose proof (field_value_shape _ Hv) as (_ & _ & Hshape). unfold parse_header.
  assert (∃ sp, all_of is_space_or_tab sp = true ∧
    prefix_of (trim_right (k +:+ ": " +:+ v) (String.length (k +:+ ": " +:+ v))) (k +:+ ": " +:+ v)
    = k +:+ String ":" (sp +:+ v)) as (sp & Hsp & ->).
  { destruct Hshape as [->|(u & c & -> & Hc)].
    - exists "". split; [done|]. rewrite string_app_nil_r, string_length_app.
      replace (k +:+ ": ") with ((k +:+ ":") +:+ " ") by apply string_app_assoc.
      replace (String.length k + String.length ": ")%nat with (S (String.length (k +:+ ":")))
        by (rewrite string_length_app; cbn; lia).
      cbn [trim_right]. rewrite string_get_app. cbn [is_space_or_tab one_of].
      change (is_space_or_tab " ") with true. cbv iota.
      rewrite string_length_app, Nat.add_comm. cbn [Nat.add String.length trim_right].
      rewrite (string_app_assoc k ":" " "). cbn [String.append]. rewrite string_get_app.
      cbn [is_space_or_tab]. change (is_space_or_tab ":") with false. cbv iota.
      replace (k +:+ String ":" " ") with ((k +:+ ":") +:+ " ") by apply string_app_assoc.
      replace (S (String.length k)) with (String.length (k +:+ ":"))
        by (rewrite string_length_app; cbn; lia).
      apply prefix_of_app.
    - exists " ". split; [done|].
      replace (k +:+ ": " +:+ u +:+ String c "") with ((k +:+ ": " +:+ u) +:+ String c "")
        by (by rewrite !string_app_assoc).
      rewrite (trim_right_last _ (k +:+ ": " +:+ u) c) by (done || by apply negb_true_iff, vchar_not_space).
      rewrite <- (string_app_nil_r ((k +:+ ": " +:+ u) +:+ String c "")) at 2.
      rewrite prefix_of_app. by rewrite !string_app_assoc. }
  destruct (parse_header_body k sp v Hk Hv Hsp Hp) as [Hd ->]. rewrite Hk. cbn [negb].
  destruct (drop_while _ _) as [|c rest]; [done|]. rewrite Hd, Hv. cbn [negb].
  unfold plain_field in Hp. apply negb_true_iff in Hp. by rewrite Hp.
Qed.

(** ** Header tables *)

Lemma header_values_cons key kv hs :
  header_values key (kv :: hs) =
  if case_equal kv.1 key then kv.2 :: header_values key hs else header_values key hs.
Proof. unfold header_values. cbn. by destruct (case_equal kv.1 key). Qed.

Lemma header_values_absent n hs :
  Forall (λ kv : string * string, case_equal kv.1 n = false) hs → header_values n hs = [].
Proof. induction 1 as [|kv hs Hkv _ IH]; [done|]. by rewrite header_values_cons, Hkv. Qed.

(** ** Header blocks *)

(** What a sender may put into a header block: names and values in the syntax
    of fields, within the limit on a line, and no Location or Referer, which
    are not decoded. *)
Definition sendable (kv : string * string) : Prop :=
  is_field_name kv.1 = true ∧ is_field_value kv.2 = true ∧ plain_field kv.1 = true
  ∧ (String.length (kv.1 +:+ ": " +:+ kv.2) + 2 <= CPPHTTPLIB_HEADER_MAX_LENGTH)%nat.

Definition decoded (kv : string * string) : string * string := (kv.1, decode_url kv.2 false).

Lemma field_line_chars k v :
  is_field_name k = true → is_field_value v = true → all_of line_char (k +:+ ": " +:+ v) = true.
Proof.
  intros [_ Hk]%field_name_chars (Hv & _)%field_value_shape. rewrite !all_of_app.
  apply (all_of_impl _ line_char) in Hk; [|apply token_char_line].
  apply (all_of_impl _ line_char) in Hv; [|apply field_char_line]. by rewrite Hk, Hv.
Qed.

Lemma read_headers_loop_sent fuel hs rest strm acc :
  Forall sendable hs →
  remaining strm = write_headers hs +:+ rest →
  (String.length (remaining strm) < fuel)%nat →
  ∃ strm', read_headers_loop fuel strm acc = (true, strm', reverse (decoded <$> hs) ++ acc)
    ∧ remaining strm' = rest ∧ fails strm' = fails strm.
Proof.
  revert hs strm acc. induction fuel as [|fuel IH]; intros hs strm acc Hhs Hs Hf; [lia|].
  destruct hs as [|[k v] hs]; cbn [read_headers_loop write_headers] in *; unfold read_headers_round.
  - destruct (getline_line 2048 strm "" rest Hs) as (strm' & r & -> & Hr & Hrest); [done|].
    destruct (line_end "" r Hr) as (-> & -> & _). by exists strm'.
  - apply Forall_cons in Hhs as [(Hk & Hv & Hp & Hlen) Hhs]. cbn [fst snd] in *.
    assert (Hs' : remaining strm = (k +:+ ": " +:+ v) +:+ crlf +:+ (write_headers hs +:+ rest))
      by (rewrite Hs, !string_app_assoc; done).
    destruct (getline_line 2048 strm _ _ Hs' (field_line_chars _ _ Hk Hv)) as (strm' & r & -> & Hr & Hrest & Hb).
    destruct (line_end _ r Hr) as (-> & Hsize & ->). rewrite Hsize.
    destruct (field_name_chars k Hk) as [Hne _].
    rewrite decide_False by (destruct k; [done|cbn; lia]). rewrite decide_False by lia.
    rewrite (parse_header_field _ _ Hk Hv Hp). unfold emplace_header.
    destruct (IH hs strm' ((k, decode_url v false) :: acc) Hhs Hrest) as (strm2 & -> & Hrest2 & Hb2).
    { rewrite Hrest. rewrite Hs', !string_length_app in Hf. rewrite string_length_app. cbn in Hf. lia. }
    exists strm2. rewrite fmap_cons, reverse_cons, <- app_assoc, <- Hb. done.
Qed.

Lemma read_headers_sent hs rest strm :
  Forall sendable hs → remaining strm = write_headers hs +:+ rest →
  ∃ strm', read_headers strm [] = (true, strm', reverse (decoded <$> hs))
    ∧ remaining strm' = rest ∧ fails strm' = fails strm.
Proof.
  intros Hhs Hs. destruct (read_headers_loop_sent (stream_fuel strm) hs rest strm [] Hhs Hs)
    as (strm' & Hr & Hrest); [unfold stream_fuel; lia|].
  exists strm'. unfold read_headers. rewrite Hr, app_nil_r. done.
Qed.

(** ** URL coding *)

Lemma percent_decodes_all : ∀ c,
  (match percent c with
   | String _ s => bool_decide (from_hex_to_i (String "%" s) 1 2 = Some (code c))
                   && bool_decide (chr (code c) = c)
                   && negb (bool_decide (String.get 0 s = Some "u"%char))
   | EmptyString => false
   end) = true.
Proof. by_characters. Qed.

Lemma hex_digits_app s cnt val t n : hex_digits s cnt val = Some n → hex_digits (s +:+ t) cnt val = Some n.
Proof.
  revert cnt val. induction s as [|c s IH]; intros [|cnt] val; cbn; try done; [by destruct t|].
  case_decide; [done|]. destruct (is_hex c); [|done]. cbn. apply IH.
Qed.

Lemma decode_percent plus c t : decode_chars plus 0 (percent c +:+ t) = String c (decode_chars plus 0 t).
Proof.
  pose proof (percent_decodes_all c) as Hc. unfold percent in *.
  set (a := nth_char HEX (code c / 16)) in *. set (b := nth_char HEX (code c mod 16)) in *.
  apply andb_prop in Hc as [[H1%bool_decide_eq_true H2%bool_decide_eq_true]%andb_prop H3%negb_true_iff].
  apply bool_decide_eq_false in H3. cbn [String.append decode_chars].
  rewrite bool_decide_eq_true_2, bool_decide_eq_false_2 by done. cbn [negb andb].
  rewrite decide_False by done.
  assert (from_hex_to_i (String "%" (String a (String b t))) 1 2 = Some (code c)) as ->.
  { unfold from_hex_to_i in *. cbn [suffix_from] in *.
    destruct (decide _) in H1; [done|]. rewrite decide_False by (cbn; lia).
    exact (hex_digits_app (String a (String b "")) 2 0 t _ H1). }
  by rewrite H2.
Qed.

Lemma query_char_kept_plain : ∀ c,
  query_char_kept c = true → negb (bool_decide (c = "%"%char) || bool_decide (c = "+"%char)) = true.
Proof. by_classes. Qed.

Lemma decode_plain plus c t :
  negb (bool_decide (c = "%"%char) || bool_decide (c = "+"%char)) = true →
  decode_chars plus 0 (String c t) = String c (decode_chars plus 0 t).
Proof.
  intros [H1 H2]%negb_true_iff%orb_false_iff. cbn [decode_chars]. by rewrite H1, H2, andb_false_r.
Qed.

(** (roundtrip): [decode_url] gives back every string [encode_query_param]
    has encoded, whether or not a plus sign stands for a space. *)
Theorem decode_encode_query_param plus s : decode_url (encode_query_param s) plus = s.
Proof.
  unfold decode_url. induction s as [|c s IH]; [done|]. cbn [encode_query_param].
  destruct (query_char_kept c) eqn:Hc.
  - rewrite string_app_cons, decode_plain by by apply query_char_kept_plain. cbn [String.append]. by rewrite IH.
  - by rewrite decode_percent, IH.
Qed.

(** A value without a percent sign is its own decoding. *)
Lemma decode_url_plain s :
  all_of (λ c, negb (bool_decide (c = "%"%char))) s = true → decode_url s false = s.
Proof.
  unfold decode_url. induction s as [|c s IH]; [done|]. cbn [all_of decode_chars].
  intros [Hc%negb_true_iff Hs]%andb_prop. by rewrite Hc, (IH Hs).
Qed.

Lemma decoded_plain hs :
  Forall (λ kv, all_of (λ c, negb (bool_decide (c = "%"%char))) kv.2 = true) hs → decoded <$> hs = hs.
Proof.
  induction 1 as [|[k v] hs Hv _ IH]; [done|]. rewrite fmap_cons, IH. unfold decoded. cbn [fst snd].
  by rewrite decode_url_plain.
Qed.

(** (roundtrip): [read_headers] reads the header block [write_headers]
    printed: every field arrives, the newest in front, and what follows the
    block stays in the stream. Values with a percent sign are decoded on the
    way. *)
Theorem read_written_headers hs rest strm :
  Forall sendable hs →
  Forall (λ kv, all_of (λ c, negb (bool_decide (c = "%"%char))) kv.2 = true) hs →
  remaining strm = write_headers hs +:+ rest →
  ∃ strm', read_headers strm [] = (true, strm', reverse hs)
    ∧ remaining strm' = rest ∧ fails strm' = fails strm.
Proof.
  intros Hhs Hplain Hs. destruct (read_headers_sent _ _ _ Hhs Hs) as (strm' & Hr & Hrest).
  rewrite (decoded_plain _ Hplain) in Hr. by exists strm'.
Qed.

Definition example_headers : Headers := [("Host", "localhost:9001"); ("Accept", ""); ("X-Id", "a b")].

Lemma example_sendable : Forall sendable example_headers.
Proof. repeat (constructor; [repeat split; apply (bool_decide_unpack _); vm_compute; exact I|]). constructor. Qed.

Lemma read_written_headers_witness :
  ∃ strm', read_headers (Stream ["Host: local"; "host:9001" +:+ crlf +:+ "Accept: " +:+ crlf;
                                  "X-Id: a b" +:+ crlf +:+ crlf +:+ "body"] false) [] =
             (true, strm', reverse example_headers)
    ∧ remaining strm' = "body" ∧ fails strm' = false.
Proof.
  apply (read_written_headers example_headers "body").
  - exact example_sendable.
  - repeat constructor.
  - reflexivity.
Defined.
