(* ===== verification/HttplibContent.v ===== *)
(** * Content providers of httplib

    A response may leave its body to a content provider, a function that is
    called with a data sink until the body has been written. The writing end
    of a connection ([wire]), the sinks, and the three loops that call a
    provider: with a length ([write_content]), up to the close of the
    connection ([write_content_without_length]) and in the chunked transfer
    coding ([write_content_chunked]). *)

From S2P Require Import Prelude Text HttplibText HttplibUrl HttplibStream.

(** The results of a client's operations, of which the loops use three. *)
Inductive Error :=
  | Success | Unknown | Connection | BindIPAddress | Read | Write | ExceedRedirectCount | Canceled
  | SSLConnection | SSLLoadingCerts | SSLServerVerification | SSLServerHostnameVerification
  | UnsupportedMultipartBoundaryChars | Compression | ConnectionTimeout | ProxyConnection
  | SSLPeerCouldBeClosed_.

#[export] Instance Error_eq_dec : EqDecision Error.
Proof. solve_decision. Defined.

(** [to_string(error)] *)
Definition error_text (error : Error) : string :=
  match error with
  | Success => "Success (no error)"
  | Connection => "Could not establish connection"
  | BindIPAddress => "Failed to bind IP address"
  | Read => "Failed to read connection"
  | Write => "Failed to write connection"
  | ExceedRedirectCount => "Maximum redirect count exceeded"
  | Canceled => "Connection handling canceled"
  | SSLConnection => "SSL connection failed"
  | SSLLoadingCerts => "SSL certificate loading failed"
  | SSLServerVerification => "SSL server verification failed"
  | SSLServerHostnameVerification => "SSL server hostname verification failed"
  | UnsupportedMultipartBoundaryChars => "Unsupported HTTP multipart boundary characters"
  | Compression => "Compression failed"
  | ConnectionTimeout => "Connection timed out"
  | ProxyConnection => "Proxy connection failed"
  | Unknown => "Unknown"
  | SSLPeerCouldBeClosed_ => "Invalid"
  end.

(** A call of an empty [std::function]. *)
Definition bad_function_call : exn := Exn OtherStdException "bad_function_call".

(** ** The writing end of a connection *)

Section Wire.
Context {W : Type}.

(** [stopping] are the answers of [is_shutting_down()] to come: [true] behind
    the last one. [writable] are those of [wait_writable()]: [false] behind the
    last one. The world is what the handlers and the providers work on. *)
Record wire := Wire {
  sent : string;               (* written to the connection so far *)
  room : option nat;           (* the bytes it still takes, when it breaks *)
  stopping : list bool;
  writable : list bool;
  world : W
}.

#[export] Instance wire_eta : Eta wire := λ w,
  Wire (sent w) (room w) (stopping w) (writable w) (world w).

(** [write_data]: all of [d], or what the connection takes before it breaks. *)
Definition write_data (d : string) : M wire bool := λ w,
  match room w with
  | None => (Ret true, w <| sent ::= λ s, s +:+ d |>)
  | Some n =>
      (Ret (bool_decide (String.length d <= n)%nat),
       w <| sent ::= λ s, s +:+ prefix_of n d |> <| room := Some (n - String.length d)%nat |>)
  end.

Definition is_shutting_down : M wire bool := λ w,
  match stopping w with
  | [] => (Ret true, w)
  | b :: bs => (Ret b, w <| stopping := bs |>)
  end.

Definition wait_writable : M wire bool := λ w,
  match writable w with
  | [] => (Ret false, w)
  | b :: bs => (Ret b, w <| writable := bs |>)
  end.

(** ** Providers and sinks *)

(** What a provider does in one call: the operations of the sink in their
    order, each with what follows its answer, down to the result and the world
    it leaves. *)
Inductive feed :=
  | Return (r : outcome bool) (w : W)
  | SinkWrite (d : string) (k : bool -> feed)
  | SinkIsWritable (k : bool -> feed)
  | SinkDone (k : feed)
  | SinkDoneWithTrailer (trailer : Headers) (k : feed).

Definition ContentProvider : Type := Z -> Z -> W -> feed.
Definition ContentProviderWithoutLength : Type := Z -> W -> feed.

Definition ContentProviderAdapter (provider : ContentProviderWithoutLength) : ContentProvider :=
  λ offset _, provider offset.

Record DataSink {S : Type} := Sink {
  write : string -> M S bool;
  is_writable : M S bool;
  done : M S unit;
  done_with_trailer : Headers -> M S unit
}.
Arguments DataSink : clear implicits.

(** The local variables of the loops. *)
Record locals := Locals { offset : Z; data_available : bool; ok : bool }.

#[export] Instance locals_eta : Eta locals := λ p, Locals (offset p) (data_available p) (ok p).

Abbreviation L := (M (locals * wire)).

Fixpoint run_feed (sink : DataSink (locals * wire)) (f : feed) : L bool :=
  match f with
  | Return r w => global (modify (λ x, x <| world := w |>));; lift r
  | SinkWrite d k => b ← write sink d; run_feed sink (k b)
  | SinkIsWritable k => b ← is_writable sink; run_feed sink (k b)
  | SinkDone k => done sink;; run_feed sink k
  | SinkDoneWithTrailer trailer k => done_with_trailer sink trailer;; run_feed sink k
  end.

(** [if (!write_data(...)) { ok = false; }] *)
Definition write_or_fail (d : string) : L unit :=
  b ← global (write_data d);
  if (b : bool) then mret tt else update_local (λ p, p <| ok := false |>).

Definition get_ok : L bool := p ← get_local; mret (ok p).

Definition advance (d : string) (p : locals) : locals :=
  p <| offset ::= λ o, o + Z.of_nat (String.length d) |>.

Definition length_sink : DataSink (locals * wire) := {|
  write d :=
    o ← get_ok;
    (if (o : bool) then
       b ← global (write_data d);
       update_local (if (b : bool) then advance d else λ p, p <| ok := false |>)
     else mret tt);;
    get_ok;
  is_writable := global wait_writable;
  done := throw bad_function_call;
  done_with_trailer _ := throw bad_function_call
|}.

Definition close_sink : DataSink (locals * wire) := {|
  write d :=
    o ← get_ok;
    (if (o : bool) then update_local (advance d);; write_or_fail d else mret tt);;
    get_ok;
  is_writable := global wait_writable;
  done := update_local (λ p, p <| data_available := false |>);
  done_with_trailer _ := throw bad_function_call
|}.

(** One chunk; the compressor is the one that copies. *)
Definition chunk (payload : string) : string :=
  from_i_to_hex (Z.of_nat (String.length payload)) +:+ crlf +:+ payload +:+ crlf.

Fixpoint write_trailer (trailer : Headers) : L unit :=
  match trailer with
  | [] => mret tt
  | (k, v) :: trailer => write_or_fail (k +:+ ": " +:+ v +:+ crlf);; write_trailer trailer
  end.

Definition finish_chunks (trailer : option Headers) : L unit :=
  o ← get_ok;
  if negb o then mret tt
  else
    update_local (λ p, p <| data_available := false |>);;
    write_or_fail ("0" +:+ crlf);;
    write_trailer (default [] trailer);;
    write_or_fail crlf.

Definition chunked_sink : DataSink (locals * wire) := {|
  write d :=
    o ← get_ok;
    (if (o : bool) then
       update_local (λ p, advance d p <| data_available := negb (bool_decide (d = "")) |>);;
       if decide (d = "") then mret tt else write_or_fail (chunk d)
     else mret tt);;
    get_ok;
  is_writable := global wait_writable;
  done := finish_chunks None;
  done_with_trailer trailer := finish_chunks (Some trailer)
|}.

(** ** The loops *)

(** [while (again && !is_shutting_down())]: every round asks the provider for
    [asked] bytes. *)
Section Loop.
Context (sink : DataSink (locals * wire)) (provider : ContentProvider).
Context (again : locals -> bool) (asked : locals -> Z).

Definition call_provider : L bool := λ s,
  run_feed sink (provider (offset s.1) (asked s.1) (world s.2)) s.

Fixpoint provide (fuel : nat) : L Error :=
  p ← get_local;
  if negb (again p) then mret Success
  else
    match fuel with
    | O => mret Success
    | S fuel =>
        stop ← global is_shutting_down;
        if (stop : bool) then mret Success
        else
          ready ← global wait_writable;
          if negb ready then mret Write
          else
            more ← call_provider;
            if negb more then mret Canceled
            else
              o ← get_ok;
              if negb o then mret Write else provide fuel
    end.

End Loop.

(** A block with the local variables [s]: enough rounds for the answers left. *)
Definition run_loop (loop : nat -> L Error) (s : locals) : M wire Error := λ w,
  let '(r, (_, w)) := loop (S (length (stopping w))) (s, w) in (r, w).

Definition succeeded (m : M wire Error) : M wire bool := e ← m; mret (bool_decide (e = Success)).

Definition write_content_error (provider : ContentProvider) (offset' length : Z) : M wire Error :=
  let end_offset := offset' + length in
  run_loop (provide length_sink provider (λ p, bool_decide (offset p < end_offset))
              (λ p, end_offset - offset p)) (Locals offset' true true).

Definition write_content (provider : ContentProvider) (offset' length : Z) : M wire bool :=
  succeeded (write_content_error provider offset' length).

Definition write_content_without_length (provider : ContentProvider) : M wire bool :=
  succeeded (run_loop (provide close_sink provider data_available (λ _, 0)) (Locals 0 true true)).

Definition write_content_chunked_error (provider : ContentProvider) : M wire Error :=
  run_loop (provide chunked_sink provider data_available (λ _, 0)) (Locals 0 true true).

Definition write_content_chunked (provider : ContentProvider) : M wire bool :=
  succeeded (write_content_chunked_error provider).

(** A token is one [strm.write], whose result is ignored, where the content goes
    through the loop of [write_data]; on this wire a write takes all of its
    bytes until the connection breaks, so that both are the same. *)
Definition write_multipart_ranges_data (ranges : Ranges) (boundary content_type : string)
    (content_length : Z) (provider : ContentProvider) : M wire bool :=
  process_multipart_ranges_data (λ token w, (write_data token w).2) (write_content provider)
    boundary content_type content_length ranges.

End Wire.

Arguments wire : clear implicits.
Arguments feed : clear implicits.
Arguments ContentProvider : clear implicits.
Arguments ContentProviderWithoutLength : clear implicits.
