(* ===== verification/HttplibMultipart.v ===== *)
(** * MultipartFormDataParser of httplib

    The incremental parser of multipart/form-data bodies. [buf] is the live
    part of its buffer. A step of the state machine returns or goes round the
    loop again; the fuel of [parse_loop] is twice the bytes in the buffer and a
    constant, since every second round takes bytes away. *)

From S2P Require Import Prelude Text HttplibText HttplibUrl HttplibStream.

Record MultipartFormData := FormData {
  file_name : string;
  content : string;
  filename : string;
  file_content_type : string
}.

#[export] Instance MultipartFormData_eta : Eta MultipartFormData := λ f,
  FormData (file_name f) (content f) (filename f) (file_content_type f).

Module MultipartFormDataParser.

Record t := Parser {
  boundary_ : string;
  state_ : Z;
  is_valid_ : bool;
  file_ : MultipartFormData;
  buf : string
}.

#[global] Instance t_eta : Eta t := λ p,
  Parser (boundary_ p) (state_ p) (is_valid_ p) (file_ p) (buf p).

Definition dash_ : string := "--".
Definition crlf_ : string := crlf.
Definition dash_boundary_crlf_ (p : t) : string := dash_ +:+ boundary_ p +:+ crlf_.
Definition crlf_dash_boundary_ (p : t) : string := crlf_ +:+ dash_ +:+ boundary_ p.

(** A new parser after [set_boundary]. *)
Definition set_boundary (boundary : string) : t := Parser boundary 0 false (FormData "" "" "" "") "".

Definition buf_size (p : t) : nat := String.length (buf p).
Definition buf_find (s : string) (p : t) : nat := default (buf_size p) (find_string s (buf p)).
Definition buf_start_with (s : string) (p : t) : bool := starts_with s (buf p).
Definition buf_erase (n : nat) (p : t) : t := p <| buf ::= suffix_from n |>.
Definition buf_append (data : string) (p : t) : t := p <| buf ::= λ b, b +:+ data |>.

Definition clear_file_info (p : t) : t :=
  p <| file_ ::= λ f, FormData "" (content f) "" "" |>.

(** The rest of [s] behind [prefix], letters compared without case. *)
Fixpoint strip_case_ignore (prefix s : string) : option string :=
  match prefix, s with
  | EmptyString, _ => Some s
  | String c prefix, String c' s =>
      if decide (to_lower c = to_lower c') then strip_case_ignore prefix s else None
  | _, _ => None
  end.

(** The last group of a header's pattern, any characters up to the end of the
    text: no line terminators. *)
Definition dot_star (s : string) : option string :=
  if all_of (λ c, negb (one_of (String "010" (String "013" EmptyString)) c)) s then Some s else None.

(** The pattern of a Content-Disposition header: its name, space, form-data,
    space and the rest, without case. *)
Definition match_content_disposition (header : string) : option string :=
  s ← strip_case_ignore "Content-Disposition:" header;
  s ← strip_case_ignore "form-data;" (drop_while isspace s);
  dot_star (drop_while isspace s).

(** A value with the prefix of RFC 5987, without case. *)
Definition match_rfc5987 (s : string) : option string :=
  s ← strip_case_ignore "UTF-8''" s;
  if decide (s = "") then None else dot_star s.

(** [None]: the header is refused. *)
Definition header_line (header : string) (f : MultipartFormData) : option MultipartFormData :=
  _ ← parse_header header;
  match strip_case_ignore "Content-Type:" header with
  | Some rest => Some (f <| file_content_type := trim_copy rest |>)
  | None =>
      match match_content_disposition header with
      | None => Some f
      | Some m =>
          let params := parse_disposition_params m [] in
          name ← param_values "name" params !! 0%nat;
          let f := f <| file_name := name |> in
          let f := match param_values "filename" params !! 0%nat with
                   | Some n => f <| filename := n |>
                   | None => f
                   end in
          match param_values "filename*" params !! 0%nat with
          | None => Some f
          | Some n => m2 ← match_rfc5987 n; Some (f <| filename := decode_url m2 false |>)
          end
      end
  end.

Section Parse.
Context {A : Type}.
Context (content_callback : string -> M A bool).
Context (header_callback : MultipartFormData -> M A bool).

(** [Return r]: [parse] returns, or leaves with an exception. *)
Inductive round := Again (p : t) (a : A) | Return (r : outcome bool) (p : t) (a : A).

Definition refuse (p : t) (a : A) : round := Return (Ret false) (p <| is_valid_ := false |>) a.

(** What a callback has answered: go on with [p], or refuse. *)
Definition answered (answer : outcome bool * A) (refused : t) (next : A -> round) : round :=
  match answer with
  | (Ret true, a) => next a
  | (Ret false, a) => refuse refused a
  | (r, a) => Return r refused a
  end.

(** The loop of state 2 over the header lines in the buffer. *)
Definition headers_round (rec : t -> A -> round) (p : t) (a : A) : round :=
  match find_string crlf_ (buf p) with
  | None => Return (Ret true) p a
  | Some O =>
      answered (header_callback (file_ p) a) p (Again (buf_erase 2 p <| state_ := 3 |>))
  | Some pos =>
      match header_line (prefix_of pos (buf p)) (file_ p) with
      | None => refuse p a
      | Some f => rec (buf_erase (pos + 2) (p <| file_ := f |>)) a
      end
  end.

Fixpoint headers_loop (fuel : nat) (p : t) (a : A) : round :=
  match fuel with
  | O => Return (Ret true) p a
  | S fuel => headers_round (headers_loop fuel) p a
  end.

(** One round of the [switch]. *)
Definition parse_round (p : t) (a : A) : round :=
  match state_ p with
  | 0 =>
      let p := buf_erase (buf_find (dash_boundary_crlf_ p) p) p in
      if decide (buf_size p < String.length (dash_boundary_crlf_ p))%nat then Return (Ret true) p a
      else if negb (buf_start_with (dash_boundary_crlf_ p) p) then Return (Ret false) p a
      else Again (buf_erase (String.length (dash_boundary_crlf_ p)) p <| state_ := 1 |>) a
  | 1 => Again (clear_file_info p <| state_ := 2 |>) a
  | 2 =>
      if decide (CPPHTTPLIB_HEADER_MAX_LENGTH < buf_find crlf_ p)%nat then Return (Ret false) p a
      else headers_loop (S (buf_size p)) p a
  | 3 =>
      let delimiter := crlf_dash_boundary_ p in
      if decide (buf_size p < String.length delimiter)%nat then Return (Ret true) p a
      else
        match find_string delimiter (buf p) with
        | Some pos =>
            answered (content_callback (prefix_of pos (buf p)) a) p
              (Again (buf_erase (pos + String.length delimiter) p <| state_ := 4 |>))
        | None =>
            let len := (buf_size p - String.length delimiter)%nat in
            if decide (len = O) then Return (Ret true) p a
            else
              answered (content_callback (prefix_of len (buf p)) a) p
                (Return (Ret true) (buf_erase len p))
        end
  | 4 =>
      if decide (buf_size p < 2)%nat then Return (Ret true) p a
      else if buf_start_with crlf_ p then Again (buf_erase 2 p <| state_ := 1 |>) a
      else if buf_start_with dash_ p then Again (p <| is_valid_ := true |> <| buf := "" |>) a
      else Return (Ret true) p a
  | _ => Again p a
  end.

(** The loop around it; [rec] stands for the rounds that follow. *)
Definition loop_round (rec : t -> A -> outcome bool * t * A) (p : t) (a : A) : outcome bool * t * A :=
  if decide (buf_size p = O) then (Ret true, p, a)
  else
    match parse_round p a with
    | Again p a => rec p a
    | Return r p a => (r, p, a)
    end.

Fixpoint parse_loop (fuel : nat) (p : t) (a : A) : outcome bool * t * A :=
  match fuel with
  | O => (Ret false, p, a)
  | S fuel => loop_round (parse_loop fuel) p a
  end.

Definition parse (data : string) (p : t) (a : A) : outcome bool * t * A :=
  let p := buf_append data p in
  parse_loop (2 * buf_size p + 2) p a.

End Parse.

End MultipartFormDataParser.

(** ** The serializer *)

Definition random_chars : string := "0123456789ABCDEFGHIJKLMNOPQRSTUVWXYZabcdefghijklmnopqrstuvwxyz".

(** [engine i] is the [i]th number the engine gives. *)
Fixpoint random_string (engine : nat -> Z) (first length : nat) : string :=
  match length with
  | O => ""
  | S length =>
      String (default "0"%char
                (String.get (Z.to_nat (engine first mod Z.of_nat (String.length random_chars))) random_chars))
        (random_string engine (S first) length)
  end.

Definition make_multipart_data_boundary (engine : nat -> Z) : string :=
  "--cpp-httplib-multipart-data-" +:+ random_string engine 0 16.

Definition quote_mark : string := String "034" EmptyString.

Definition serialize_multipart_formdata_item_begin (item : MultipartFormData) (boundary : string) : string :=
  "--" +:+ boundary +:+ crlf
  +:+ "Content-Disposition: form-data; name=" +:+ quote_mark +:+ file_name item +:+ quote_mark
  +:+ (if decide (filename item = "") then ""
       else "; filename=" +:+ quote_mark +:+ filename item +:+ quote_mark)
  +:+ crlf
  +:+ (if decide (file_content_type item = "") then ""
       else "Content-Type: " +:+ file_content_type item +:+ crlf)
  +:+ crlf.

Definition serialize_multipart_formdata_item_end : string := crlf.

Definition serialize_multipart_formdata_finish (boundary : string) : string :=
  "--" +:+ boundary +:+ "--" +:+ crlf.

Definition serialize_multipart_formdata_get_content_type (boundary : string) : string :=
  "multipart/form-data; boundary=" +:+ boundary.

Fixpoint serialize_multipart_items (items : list MultipartFormData) (boundary : string) : string :=
  match items with
  | [] => ""
  | item :: items =>
      serialize_multipart_formdata_item_begin item boundary
      +:+ (content item +:+ serialize_multipart_formdata_item_end)
      +:+ serialize_multipart_items items boundary
  end.

Definition serialize_multipart_formdata (items : list MultipartFormData) (boundary : string)
    (finish : bool) : string :=
  serialize_multipart_items items boundary
  +:+ (if finish then serialize_multipart_formdata_finish boundary else "").
