(* ===== verification/HttplibMultipartProps.v ===== *)
(** * Form data, written and read

    What [serialize_multipart_formdata] writes is what MultipartFormDataParser
    reads: the same items in the same order. *)

From S2P Require Import Prelude Text TextFacts HttplibText HttplibTextProps HttplibUrl HttplibStream HttplibStreamProps HttplibMultipart.
Import MultipartFormDataParser.

(** ** Searching *)

Lemma find_string_cons_None p c s :
  find_string p (String c s) = None → starts_with p (String c s) = false ∧ find_string p s = None.
Proof.
  cbn [find_string]. destruct (starts_with p (String c s)); [done|].
  destruct (find_string p s); [done|by split].
Qed.

Lemma find_string_here p s : find_string p (p +:+ s) = Some O.
Proof. destruct s as [|c s]; destruct p as [|d p]; cbn [String.append find_string]; try done;
  by rewrite <- string_app_cons, starts_with_app. Qed.

(** A match of [d] that would have to reach [c] has ended before. *)
Lemma starts_with_before c d u w :
  all_of (λ x, negb (bool_decide (x = c))) d = true →
  starts_with d (u +:+ String c w) = true → starts_with d u = true.
Proof.
  revert u. induction d as [|x d IH]; intros [|y u]; cbn; try done.
  - intros [Hx%negb_true_iff%bool_decide_eq_false _]%andb_prop [Hc%bool_decide_eq_true _]%andb_prop. done.
  - intros [_ Hd]%andb_prop [-> Hs]%andb_prop. by apply IH.
Qed.

(** The first occurrence of a text whose first character does not come again. *)
Lemma find_string_first c d s rest :
  all_of (λ x, negb (bool_decide (x = c))) d = true → find_string (String c d) s = None →
  find_string (String c d) (s +:+ String c d +:+ rest) = Some (String.length s).
Proof.
  intros Hd. induction s as [|e s IH]; intros Hs;
    [exact (find_string_here (String c d) rest)|].
  apply find_string_cons_None in Hs as [Hno Hs]. cbn [String.append find_string String.length].
  assert (starts_with (String c d) (String e (s +:+ String c (d +:+ rest))) = false) as Hno'.
  { apply not_true_iff_false. intros H. cbn [starts_with] in H, Hno.
    apply andb_prop in H as [He H]. rewrite He in Hno. cbn [andb] in Hno.
    by rewrite (starts_with_before c d s (d +:+ rest) Hd H) in Hno. }
  cbn [String.append] in *. rewrite Hno'. by rewrite (IH Hs).
Qed.

Lemma find_string_absent c d s : all_of (λ x, negb (bool_decide (x = c))) s = true → find_string (String c d) s = None.
Proof.
  induction s as [|x s IH]; [done|]. cbn [all_of]. intros [Hx%negb_true_iff%bool_decide_eq_false Hs]%andb_prop.
  cbn [find_string starts_with]. rewrite bool_decide_eq_false_2 by congruence. cbn [andb].
  by rewrite (IH Hs).
Qed.

Lemma find_crlf l rest : all_of line_char l = true → find_string crlf (l +:+ crlf +:+ rest) = Some (String.length l).
Proof.
  intros Hl. apply (find_string_first "013" (String "010" "")); [done|]. apply find_string_absent.
  revert Hl. apply all_of_impl. intros c Hc. by rewrite (line_char_cr c Hc).
Qed.

(** ** Field values and blanks *)

Lemma field_rest_snoc u c : all_of field_char u = true → is_field_vchar c = true → field_rest (u +:+ String c "") = true.
Proof.
  intros Hu Hc. induction u as [|x u IH]; [exact Hc|]. cbn [all_of] in Hu. apply andb_prop in Hu as [Hx Hu].
  cbn [String.append]. destruct (u +:+ String c "") as [|y s] eqn:Hs; [by destruct u|].
  cbn [field_rest]. unfold field_char in Hx. rewrite Hx. by apply IH.
Qed.

Lemma field_value_ends x u c :
  is_field_vchar x = true → all_of field_char u = true → is_field_vchar c = true →
  is_field_value (String x (u +:+ String c "")) = true.
Proof.
  intros Hx Hu Hc. pose proof (field_rest_snoc u c Hu Hc) as Hr. unfold is_field_value.
  destruct (u +:+ String c "") as [|y [|z s]] eqn:Hs; [by destruct u| |].
  - cbn [is_field_content field_rest] in *. by rewrite Hx, Hr.
  - cbn [is_field_content]. by rewrite Hx, Hr.
Qed.

Lemma rstrip_snoc u c : is_space_or_tab c = false → rstrip (u +:+ String c "") = u +:+ String c "".
Proof.
  intros Hc. induction u as [|x u IH]; cbn [String.append rstrip]; [by rewrite Hc|]. rewrite IH.
  rewrite bool_decide_eq_false_2, andb_false_r; [done|]. by destruct u.
Qed.

(** A text that ends and starts with something visible. *)
Lemma strip_ends x u c :
  is_space_or_tab x = false → is_space_or_tab c = false →
  strip (String x (u +:+ String c "")) = String x (u +:+ String c "").
Proof.
  intros Hx Hc. unfold strip. rewrite drop_while_stops by (cbn; by rewrite Hx).
  exact (rstrip_snoc (String x u) c Hc).
Qed.

Lemma strip_blanks w s : all_of is_space_or_tab w = true → strip (w +:+ s) = strip s.
Proof.
  intros Hw. unfold strip. f_equal. induction w as [|c w IH]; [done|]. cbn [all_of] in Hw.
  apply andb_prop in Hw as [Hc Hw]. cbn [String.append drop_while]. rewrite Hc. by apply IH.
Qed.

Lemma unquote n : trim_double_quotes_copy (quote_mark +:+ n +:+ quote_mark) = n.
Proof.
  change (quote_mark +:+ n +:+ quote_mark) with (String "034" (n +:+ quote_mark)).
  unfold trim_double_quotes_copy. set (s := String "034" (n +:+ quote_mark)).
  change (String.get 0 s) with (Some "034"%char).
  assert (Hlen : String.length s = (String.length n + 2)%nat)
    by (unfold s; cbn; rewrite string_length_app; cbn; lia).
  assert (Hlast : String.get (String.length s - 1) s = Some "034"%char).
  { rewrite Hlen. replace (String.length n + 2 - 1)%nat with (S (String.length n)) by lia.
    unfold s. cbn [String.get]. apply string_get_app. }
  rewrite Hlast, Hlen. rewrite bool_decide_eq_true_2 by lia. cbn [andb].
  change (is_quote "034") with true. cbn [andb].
  replace (String.length n + 2 - 2)%nat with (String.length n) by lia.
  unfold substr, s. change (suffix_from 1 (String "034" (n +:+ quote_mark))) with (n +:+ quote_mark).
  apply prefix_of_app.
Qed.

(** ** The parameters of a disposition *)

(** What a name or a file name may hold: no quote, semicolon or equals sign,
    which the parser takes for the end of the value whether quoted or not. *)
Definition form_char (c : ascii) : bool :=
  field_char c && negb (one_of (String "034" ";=") c).

Definition quoted (n : string) : string := quote_mark +:+ n +:+ quote_mark.

Lemma form_char_free : ∀ c, form_char c = true →
  negb (bool_decide (c = ";"%char)) && negb (bool_decide (c = "="%char)) = true.
Proof. apply ascii_impl. vm_compute. reflexivity. Qed.

Lemma form_chars_free d n : d = ";"%char ∨ d = "="%char → all_of form_char n = true →
  all_of (λ c, negb (bool_decide (c = d))) (quoted n) = true.
Proof.
  intros Hd Hn. unfold quoted. rewrite !all_of_app.
  assert (all_of (λ c, negb (bool_decide (c = d))) quote_mark = true) as -> by by destruct Hd as [->| ->].
  rewrite andb_true_r. cbn [andb]. revert Hn. apply all_of_impl. intros c Hc%form_char_free.
  apply andb_prop in Hc as [H1 H2]. by destruct Hd as [->| ->].
Qed.

Lemma strip_quoted k n : k ≠ "" → stops is_space_or_tab k → strip (k +:+ quoted n) = k +:+ quoted n.
Proof.
  destruct k as [|x k]; [done|]. intros _ Hx. unfold quoted. cbn [String.append].
  replace (k +:+ quote_mark +:+ n +:+ quote_mark) with ((k +:+ quote_mark +:+ n) +:+ quote_mark)
    by (by rewrite !string_app_assoc).
  apply strip_ends; [|done]. cbn in Hx. exact Hx.
Qed.

Definition short (s : string) : Prop := Z.of_nat (String.length s) < 2^64 - 2.

Lemma strip_quotes n : strip (quoted n) = quoted n.
Proof. exact (strip_ends "034" n "034" eq_refl eq_refl). Qed.

Lemma split_key_value k n :
  short (k +:+ "=" +:+ quoted n) → k ≠ "" → strip k = k →
  all_of (λ c, negb (bool_decide (c = "="%char))) k = true → all_of form_char n = true →
  split (k +:+ "=" +:+ quoted n) "=" = [k; quoted n].
Proof.
  intros Hs Hk Hstrip Hfree Hn. rewrite split_stripped_fields by done. unfold stripped_fields.
  change (k +:+ "=" +:+ quoted n) with (k +:+ String "=" (quoted n)).
  rewrite fields_delimiter by done. rewrite fields_last by (apply form_chars_free; auto).
  cbn [fmap list_fmap]. rewrite Hstrip, strip_quotes. rewrite filter_cons_True by done.
  by rewrite filter_cons_True by discriminate.
Qed.

Lemma disposition_key_value cache params k n :
  short (k +:+ "=" +:+ quoted n) → k ≠ "" → strip k = k →
  all_of (λ c, negb (bool_decide (c = "="%char))) k = true → all_of form_char n = true →
  trim_double_quotes_copy k = k → k +:+ "=" +:+ quoted n ∉ cache →
  disposition_piece (cache, params) (k +:+ "=" +:+ quoted n)
  = ((k +:+ "=" +:+ quoted n) :: cache, emplace k n params).
Proof.
  intros Hs Hk Hstrip Hfree Hn Hq Hc. unfold disposition_piece. rewrite decide_False by done.
  rewrite split_key_value by done.
  assert (foldl key_or_val ("", "") [k; quoted n] = (k, quoted n)) as ->.
  { cbn [foldl]. unfold key_or_val at 2. rewrite decide_True by done. unfold key_or_val. cbn [fst snd].
    by rewrite decide_False. }
  rewrite decide_False by done. rewrite Hq. unfold quoted. by rewrite unquote.
Qed.

Definition params_text (name filename : string) : string :=
  "name=" +:+ quoted name +:+ (if decide (filename = "") then "" else "; filename=" +:+ quoted filename).

Definition form_params (name filename : string) : Params :=
  (if decide (filename = "") then [] else [("filename", filename)]) ++ [("name", name)].

Lemma short_app_l a b : short (a +:+ b) → short a.
Proof. unfold short. rewrite string_length_app. lia. Qed.

Lemma short_app_r a b : short (a +:+ b) → short b.
Proof. unfold short. rewrite string_length_app. lia. Qed.

Lemma split_params name filename :
  short (params_text name filename) → all_of form_char name = true → all_of form_char filename = true →
  split (params_text name filename) ";"
  = ("name=" +:+ quoted name) :: (if decide (filename = "") then [] else ["filename=" +:+ quoted filename]).
Proof.
  intros Hs Hn Hf. rewrite split_stripped_fields by done. unfold stripped_fields, params_text.
  assert (Hname : all_of (λ c, negb (bool_decide (c = ";"%char))) ("name=" +:+ quoted name) = true).
  { rewrite all_of_app. rewrite form_chars_free by auto. done. }
  destruct (decide (filename = "")) as [->|Hfn].
  - rewrite string_app_nil_r. rewrite fields_last by done. cbn [fmap list_fmap].
    rewrite strip_quoted by done. by rewrite filter_cons_True by discriminate.
  - replace ("name=" +:+ quoted name +:+ "; filename=" +:+ quoted filename)
      with (("name=" +:+ quoted name) +:+ String ";" (" filename=" +:+ quoted filename))
      by (by rewrite string_app_assoc).
    rewrite fields_delimiter by done. rewrite fields_last.
    2: { rewrite all_of_app. rewrite form_chars_free by auto. done. }
    cbn [fmap list_fmap]. rewrite strip_quoted by done.
    change (" filename=" +:+ quoted filename) with (" " +:+ "filename=" +:+ quoted filename).
    rewrite strip_blanks, strip_quoted by done. rewrite !filter_cons_True by discriminate. done.
Qed.

Lemma read_params name filename :
  short (params_text name filename) → all_of form_char name = true → all_of form_char filename = true →
  parse_disposition_params (params_text name filename) [] = form_params name filename.
Proof.
  intros Hs Hn Hf. unfold parse_disposition_params. rewrite split_params by done.
  pose proof (short_app_l ("name=" +:+ quoted name) _ ltac:(by rewrite string_app_assoc)) as Hs1.
  assert (Hname : disposition_piece ([], []) ("name=" +:+ quoted name)
    = (["name=" +:+ quoted name], [("name", name)]))
    by (apply (disposition_key_value [] [] "name" name); done || by apply not_elem_of_nil).
  unfold form_params, params_text in *. destruct (decide (filename = "")) as [->|Hfn].
  - change ((disposition_piece ([], []) ("name=" +:+ quoted name)).2 = [("name", name)]). by rewrite Hname.
  - change ((disposition_piece (disposition_piece ([], []) ("name=" +:+ quoted name))
      ("filename" +:+ "=" +:+ quoted filename)).2 = [("filename", filename); ("name", name)]).
    rewrite Hname.
    refine (f_equal snd (disposition_key_value ["name=" +:+ quoted name] [("name", name)] "filename" filename
      _ _ _ _ _ _ _)); [|done|done|done|done|done|].
    + apply (short_app_r "; "). apply (short_app_r (quoted name)). apply (short_app_r "name="). exact Hs.
    + rewrite list_elem_of_singleton. intros [=].
Qed.

(** ** Header lines *)

Definition disposition_line (name filename : string) : string :=
  "Content-Disposition: form-data; " +:+ params_text name filename.

Lemma form_char_field : ∀ c, form_char c = true → field_char c = true.
Proof. intros c [Hc _]%andb_prop. exact Hc. Qed.

Lemma form_chars_field n : all_of form_char n = true → all_of field_char n = true.
Proof. apply all_of_impl, form_char_field. Qed.

Lemma params_text_end name filename :
  all_of form_char name = true → all_of form_char filename = true →
  ∃ u, params_text name filename = u +:+ quote_mark ∧ all_of field_char u = true.
Proof.
  intros Hn%form_chars_field Hf%form_chars_field. unfold params_text, quoted. case_decide.
  - exists ("name=" +:+ quote_mark +:+ name). split; [by rewrite string_app_nil_r, !string_app_assoc|].
    by rewrite !all_of_app, Hn.
  - exists ("name=" +:+ (quote_mark +:+ name +:+ quote_mark) +:+ "; filename=" +:+ quote_mark +:+ filename).
    split; [by rewrite !string_app_assoc|]. by rewrite !all_of_app, Hn, Hf.
Qed.

Lemma params_text_lines name filename :
  all_of form_char name = true → all_of form_char filename = true →
  all_of line_char (params_text name filename) = true.
Proof.
  intros Hn Hf. destruct (params_text_end name filename Hn Hf) as (u & -> & Hu). rewrite all_of_app.
  rewrite andb_true_r. revert Hu. apply all_of_impl, field_char_line.
Qed.

Lemma dot_star_line s : all_of line_char s = true → dot_star s = Some s.
Proof.
  intros Hs. unfold dot_star.
  assert (all_of (λ c, negb (one_of (String "010" (String "013" EmptyString)) c)) s = true) as ->; [|done].
  revert Hs. apply all_of_impl, ascii_impl. vm_compute. reflexivity.
Qed.

Lemma disposition_header c name filename :
  short (params_text name filename) → all_of form_char name = true → all_of form_char filename = true →
  header_line (disposition_line name filename) (FormData "" c "" "") = Some (FormData name c filename "").
Proof.
  intros Hs Hn Hf. unfold header_line, disposition_line.
  assert (Hp : is_Some (parse_header ("Content-Disposition: form-data; " +:+ params_text name filename))).
  { destruct (params_text_end name filename Hn Hf) as (u & -> & Hu).
    change ("Content-Disposition: form-data; " +:+ u +:+ quote_mark)
      with ("Content-Disposition" +:+ ": " +:+ (String "f" ("orm-data; " +:+ u +:+ quote_mark))).
    rewrite parse_header_field; [by eexists|done| |done].
    rewrite <- string_app_assoc. apply field_value_ends; [done| |done]. by rewrite all_of_app, Hu. }
  destruct Hp as [x ->]. cbn [mbind option_bind].
  change (strip_case_ignore "Content-Type:" ("Content-Disposition: form-data; " +:+ params_text name filename))
    with (@None string). cbv iota.
  change (match_content_disposition ("Content-Disposition: form-data; " +:+ params_text name filename))
    with (dot_star (params_text name filename)).
  rewrite dot_star_line by by apply params_text_lines. rewrite read_params by done.
  unfold form_params. by case_decide; subst.
Qed.

Lemma trim_copy_strip s : strip s ≠ "" → trim_copy s = strip s.
Proof.
  intros Hs. pose proof (piece_strip "" s "") as Hp. rewrite string_app_nil_r in Hp.
  rewrite decide_False in Hp by done. unfold piece, trim_copy in *. cbn [String.append String.length Nat.add] in Hp.
  destruct (trim s 0 (String.length s)) as [first second]. case_decide; [|done].
  rewrite decide_True by lia. by injection Hp.
Qed.

Lemma strip_field_value t : is_field_value t = true → strip t = t.
Proof.
  intros (_ & Hstop & [->|(u & c & -> & Hc)])%field_value_shape; [done|]. unfold strip.
  rewrite drop_while_stops by done. apply rstrip_snoc. by apply negb_true_iff, vchar_not_space.
Qed.

Lemma content_type_header f t :
  is_field_value t = true → t ≠ "" →
  header_line ("Content-Type: " +:+ t) f = Some (f <| file_content_type := t |>).
Proof.
  intros Ht Hne. unfold header_line.
  change ("Content-Type: " +:+ t) with ("Content-Type" +:+ ": " +:+ t).
  rewrite parse_header_field by done. cbn [mbind option_bind].
  change (strip_case_ignore "Content-Type:" ("Content-Type" +:+ ": " +:+ t)) with (Some (" " +:+ t)). cbv iota.
  assert (Hstrip : strip (" " +:+ t) = t) by by rewrite strip_blanks, strip_field_value.
  rewrite trim_copy_strip by by rewrite Hstrip. by rewrite Hstrip.
Qed.

(** ** An item *)

(** The items that can be read back: the length is that of the parser's limit,
    and the content does not hold the delimiter. *)
Record readable (boundary : string) (item : MultipartFormData) : Prop := {
  rd_name : all_of form_char (file_name item) = true;
  rd_filename : all_of form_char (filename item) = true;
  rd_content_type : is_field_value (file_content_type item) = true;
  rd_length : (String.length (disposition_line (file_name item) (filename item))
               <= CPPHTTPLIB_HEADER_MAX_LENGTH)%nat;
  rd_content : find_string (crlf +:+ "--" +:+ boundary) (content item) = None
}.

Lemma readable_short b item : readable b item → short (params_text (file_name item) (filename item)).
Proof.
  intros [_ _ _ Hl _]. unfold disposition_line in Hl. rewrite string_length_app in Hl. unfold short.
  assert (Hmax : CPPHTTPLIB_HEADER_MAX_LENGTH = Z.to_nat 8192) by by vm_compute. lia.
Qed.

(** The lines in front of the content, without the empty one. *)
Definition head_lines (item : MultipartFormData) : string :=
  disposition_line (file_name item) (filename item) +:+ crlf
  +:+ (if decide (file_content_type item = "") then ""
       else ("Content-Type: " +:+ file_content_type item) +:+ crlf).

Lemma item_begin_lines item b :
  serialize_multipart_formdata_item_begin item b = ("--" +:+ b +:+ crlf) +:+ head_lines item +:+ crlf.
Proof.
  unfold serialize_multipart_formdata_item_begin, head_lines, disposition_line, params_text, quoted.
  repeat case_decide; rewrite ?string_app_nil_r, !string_app_assoc; reflexivity.
Qed.

(** ** The rounds of the parser *)

Section Rounds.
Context {A : Type}.
Context (content_callback : string -> M A bool) (header_callback : MultipartFormData -> M A bool).

(** The two callbacks of an item: its head, without the content, and its
    content in one piece. *)
Definition deliver_item (item : MultipartFormData) : M A bool :=
  ok ← header_callback (FormData (file_name item) "" (filename item) (file_content_type item));
  if (ok : bool) then content_callback (content item) else mret false.

Fixpoint deliver_items (items : list MultipartFormData) : M A bool :=
  match items with
  | [] => mret true
  | item :: items => ok ← deliver_item item; if (ok : bool) then deliver_items items else mret false
  end.

(** Both callbacks have accepted. *)
Lemma accepted_first {m : M A bool} {k : M A bool} {a a' : A} :
  (ok ← m; if (ok : bool) then k else mret false) a = (Ret true, a') →
  ∃ a1, m a = (Ret true, a1) ∧ k a1 = (Ret true, a').
Proof.
  unfold mbind, M_bind. destruct (m a) as [[[]|e|] a1]; [|done..]. intros Hk. by exists a1.
Qed.

Abbreviation parse_loop := (parse_loop content_callback header_callback).
Abbreviation parse_round := (parse_round content_callback header_callback).
Abbreviation headers_loop := (headers_loop header_callback).

Lemma parse_again fuel p a p' a' :
  parse_round p a = Again p' a' → buf p ≠ "" → parse_loop (S fuel) p a = parse_loop fuel p' a'.
Proof.
  intros Hr Hb. cbn [HttplibMultipart.MultipartFormDataParser.parse_loop]. unfold MultipartFormDataParser.loop_round. rewrite decide_False.
  - by rewrite Hr.
  - unfold buf_size. by destruct (buf p).
Qed.

(** One header line. *)
Lemma headers_next fuel b v f l rest f' a :
  all_of line_char l = true → l ≠ "" → header_line l f = Some f' →
  headers_loop (S fuel) (Parser b 2 v f (l +:+ crlf +:+ rest)) a
  = headers_loop fuel (Parser b 2 v f' rest) a.
Proof.
  intros Hl Hne Hh. cbn [HttplibMultipart.MultipartFormDataParser.headers_loop]. unfold MultipartFormDataParser.headers_round. cbn [buf].
  unfold crlf_. rewrite find_crlf by done. destruct (String.length l) as [|k] eqn:Hk; [by destruct l|].
  rewrite <- Hk, prefix_of_app. cbn [file_]. rewrite Hh.
  assert (suffix_from (String.length l + 2) (l +:+ crlf +:+ rest) = rest) as Hrest.
  2: { unfold buf_erase. cbn [update_field file_ buf boundary_ state_ is_valid_]. by rewrite Hrest. }
  replace (String.length l + 2)%nat with (String.length (l +:+ crlf)) by (rewrite string_length_app; cbn; lia).
  rewrite <- string_app_assoc. apply suffix_from_app.
Qed.

Lemma headers_end fuel b v f rest a a' :
  header_callback f a = (Ret true, a') →
  headers_loop (S fuel) (Parser b 2 v f (crlf +:+ rest)) a = Again (Parser b 3 v f rest) a'.
Proof. intros Ha. cbn. unfold MultipartFormDataParser.headers_round. cbn. by rewrite Ha. Qed.

Lemma headers_item fuel b v item rest a a' :
  readable b item →
  header_callback (FormData (file_name item) "" (filename item) (file_content_type item)) a = (Ret true, a') →
  headers_loop (3 + fuel) (Parser b 2 v (FormData "" "" "" "") (head_lines item +:+ crlf +:+ rest)) a
  = Again (Parser b 3 v (FormData (file_name item) "" (filename item) (file_content_type item)) rest) a'.
Proof.
  intros Hr Ha. pose proof Hr as [Hn Hf Ht Hl Hc]. unfold head_lines. rewrite !string_app_assoc.
  cbn [Nat.add]. erewrite headers_next;
    [| |done|by apply disposition_header; [eapply readable_short|..]].
  2: { unfold disposition_line. rewrite all_of_app. by rewrite params_text_lines. }
  case_decide as Hct.
  - rewrite Hct in *. cbn [String.append]. by apply headers_end.
  - rewrite !string_app_assoc. replace ("Content-Type: " +:+ file_content_type item +:+ crlf +:+ crlf +:+ rest)
      with (("Content-Type: " +:+ file_content_type item) +:+ crlf +:+ crlf +:+ rest) by apply string_app_assoc.
    erewrite headers_next; [| |done|by apply content_type_header].
    + by apply headers_end.
    + rewrite all_of_app. destruct (field_value_shape _ Ht) as (Hfc & _). cbn [andb].
      assert (all_of line_char (file_content_type item) = true) as ->; [|done].
      revert Hfc. apply all_of_impl, field_char_line.
Qed.

Definition boundary_ok (b : string) : Prop := is_multipart_boundary_chars_valid b = true.

Lemma boundary_char : ∀ c, isalnum c || one_of "-_" c = true → negb (bool_decide (c = "013"%char)) = true.
Proof. apply ascii_impl. vm_compute. reflexivity. Qed.

Abbreviation delimiter b := (crlf +:+ "--" +:+ b).

Lemma find_delimiter b s rest :
  boundary_ok b → find_string (delimiter b) s = None →
  find_string (delimiter b) (s +:+ delimiter b +:+ rest) = Some (String.length s).
Proof.
  intros Hb Hs. apply (find_string_first "013" (String "010" ("--" +:+ b))); [|exact Hs].
  cbn. revert Hb. apply all_of_impl, boundary_char.
Qed.

Lemma head_lines_first item rest : ∃ k, String.length (head_lines item +:+ rest) = (3 + k)%nat.
Proof. unfold head_lines, disposition_line. rewrite !string_app_assoc. by eexists. Qed.

Lemma headers_round b v item rest a a' :
  readable b item →
  header_callback (FormData (file_name item) "" (filename item) (file_content_type item)) a = (Ret true, a') →
  parse_round (Parser b 2 v (FormData "" "" "" "") (head_lines item +:+ crlf +:+ rest)) a
  = Again (Parser b 3 v (FormData (file_name item) "" (filename item) (file_content_type item)) rest) a'.
Proof.
  intros Hr Ha. pose proof Hr as [Hn Hf _ Hl _]. unfold HttplibMultipart.MultipartFormDataParser.parse_round.
  cbn [state_]. rewrite decide_False.
  - unfold buf_size. cbn [buf]. destruct (head_lines_first item (crlf +:+ rest)) as [k ->].
    by apply (headers_item (S k)).
  - unfold buf_find. cbn [buf]. unfold head_lines, crlf_. rewrite !string_app_assoc.
    rewrite find_crlf; [exact (proj1 (Nat.le_ngt _ _) Hl)|]. unfold disposition_line. rewrite all_of_app.
    by rewrite params_text_lines.
Qed.

Lemma content_round b v f s rest a a' :
  boundary_ok b → find_string (delimiter b) s = None → content_callback s a = (Ret true, a') →
  parse_round (Parser b 3 v f (s +:+ delimiter b +:+ rest)) a = Again (Parser b 4 v f rest) a'.
Proof.
  intros Hb Hs Ha. unfold HttplibMultipart.MultipartFormDataParser.parse_round. cbn [state_].
  change (crlf_dash_boundary_ (Parser b 3 v f (s +:+ delimiter b +:+ rest))) with (delimiter b).
  rewrite decide_False by (unfold buf_size; cbn [buf]; rewrite !string_length_app; lia).
  cbn [buf]. rewrite find_delimiter by done. rewrite prefix_of_app, Ha. unfold buf_erase. cbn [buf].
  assert (suffix_from (String.length s + String.length (delimiter b)) (s +:+ delimiter b +:+ rest) = rest) as Hrest.
  { rewrite <- string_length_app, <- (string_app_assoc s (delimiter b) rest). apply suffix_from_app. }
  cbn [update_field buf boundary_ state_ is_valid_ file_]. by rewrite Hrest.
Qed.

(** An item, from its head to the delimiter behind its content. *)
Lemma item_rounds fuel b v f item rest a a' :
  boundary_ok b → readable b item → content f = "" → deliver_item item a = (Ret true, a') →
  parse_loop (3 + fuel) (Parser b 1 v f (head_lines item +:+ crlf +:+ content item +:+ delimiter b +:+ rest)) a
  = parse_loop fuel (Parser b 4 v (FormData (file_name item) "" (filename item) (file_content_type item)) rest) a'.
Proof.
  intros Hb Hr Hf (a1 & Ha1 & Ha')%accepted_first. cbn [Nat.add].
  assert (Hne : ∀ s, head_lines item +:+ s ≠ "") by done.
  rewrite (parse_again _ _ a (Parser b 2 v (FormData "" "" "" "")
    (head_lines item +:+ crlf +:+ content item +:+ delimiter b +:+ rest)) a); [|destruct f; cbn in Hf; by subst|done].
  erewrite parse_again; [|by apply headers_round|done].
  erewrite parse_again; [|by apply content_round; [| apply Hr|]|].
  - done.
  - cbn [buf]. by destruct (content item).
Qed.

(** What follows the delimiter behind an item. *)
Fixpoint tail_text (b : string) (items : list MultipartFormData) : string :=
  match items with
  | [] => "--" +:+ crlf
  | item :: items =>
      crlf +:+ head_lines item +:+ crlf +:+ content item +:+ delimiter b +:+ tail_text b items
  end.

Lemma serialized_tail b item items :
  serialize_multipart_formdata (item :: items) b true
  = ("--" +:+ b +:+ crlf) +:+ head_lines item +:+ crlf +:+ content item +:+ delimiter b +:+ tail_text b items.
Proof.
  revert item. induction items as [|next items IH]; intros item.
  - unfold serialize_multipart_formdata, serialize_multipart_formdata_finish.
    cbn [serialize_multipart_items tail_text]. rewrite item_begin_lines, !string_app_assoc. done.
  - etrans; [|specialize (IH next); cbn [tail_text]].
    + instantiate (1 := serialize_multipart_formdata_item_begin item b +:+ (content item +:+ crlf)
        +:+ serialize_multipart_formdata (next :: items) b true).
      unfold serialize_multipart_formdata.
      change (serialize_multipart_items (item :: next :: items) b)
        with (serialize_multipart_formdata_item_begin item b +:+ (content item +:+ crlf)
              +:+ serialize_multipart_items (next :: items) b).
      generalize (serialize_multipart_items (next :: items) b) as s. intros s. by rewrite !string_app_assoc.
    + rewrite IH, item_begin_lines, !string_app_assoc. done.
Qed.

Lemma parse_tail b v f items fuel a a' :
  boundary_ok b → Forall (readable b) items → content f = "" → deliver_items items a = (Ret true, a') →
  (4 * length items + 2 <= fuel)%nat →
  ∃ p, parse_loop fuel (Parser b 4 v f (tail_text b items)) a = (Ret true, p, a') ∧ is_valid_ p = true.
Proof.
  intros Hb Hr. revert v f fuel a. induction Hr as [|item items Hi Hr IH]; intros v f fuel a Hf Ha Hfuel;
    (destruct fuel as [|fuel]; [cbn in Hfuel; lia|]).
  - cbn in Ha. injection Ha as ->. eexists. cbn [tail_text].
    rewrite (parse_again _ _ a' (Parser b 4 true f "") a') by done.
    split; [by destruct fuel as [|fuel]; [cbn in Hfuel; lia|]|done].
  - cbn [deliver_items] in Ha. apply accepted_first in Ha as (a1 & Ha1 & Ha). cbn [tail_text].
    rewrite (parse_again _ _ a (Parser b 1 v f (head_lines item +:+ crlf +:+ content item
      +:+ delimiter b +:+ tail_text b items)) a) by done.
    cbn [length] in Hfuel. replace fuel with (3 + (fuel - 3))%nat by lia.
    rewrite (item_rounds _ _ _ _ _ _ _ a1) by done. apply IH; [done|done|lia].
Qed.

Lemma tail_length b items : (2 * length items + 4 <= String.length (tail_text b items))%nat.
Proof.
  induction items as [|item items IH]; [by cbn; lia|]. cbn [tail_text length].
  rewrite !string_length_app. change (String.length crlf) with 2%nat. lia.
Qed.

(** The opening delimiter. *)
Lemma opening_round b f rest a :
  parse_round (Parser b 0 false f (("--" +:+ b +:+ crlf) +:+ rest)) a = Again (Parser b 1 false f rest) a.
Proof.
  unfold HttplibMultipart.MultipartFormDataParser.parse_round. cbn [state_].
  set (p := Parser b 0 false f _). change (dash_boundary_crlf_ p) with ("--" +:+ b +:+ crlf).
  assert (buf_erase (buf_find ("--" +:+ b +:+ crlf) p) p = p) as ->.
  { unfold buf_find, p. cbn [buf]. by rewrite find_string_here. }
  change (dash_boundary_crlf_ p) with ("--" +:+ b +:+ crlf).
  rewrite decide_False by (unfold buf_size, p; cbn [buf]; rewrite !string_length_app; lia).
  unfold buf_start_with, p. cbn [buf]. rewrite starts_with_app. cbn [negb]. unfold buf_erase.
  cbn [update_field buf boundary_ state_ is_valid_ file_]. by rewrite suffix_from_app.
Qed.

End Rounds.

(** ** Properties *)

(** C22 (roundtrip): the parser reads what the serializer has written: in one
    call it accepts the body, and its callbacks get every item in order, its
    name, file name and content type first and then its content; if the names
    hold no quote, semicolon, equals sign or control character, the content
    types are field values, the first header line is within the limit and no
    content holds the delimiter. *)
Theorem parse_serialized {A} content_callback header_callback item items b (a a' : A)
    (Hb : boundary_ok b) (Hr : Forall (readable b) (item :: items))
    (Ha : deliver_items content_callback header_callback (item :: items) a = (Ret true, a')) :
  ∃ p, parse content_callback header_callback (serialize_multipart_formdata (item :: items) b true)
         (set_boundary b) a = (Ret true, p, a')
    ∧ is_valid_ p = true.
Proof.
  apply Forall_cons in Hr as [Hi Hr]. cbn [deliver_items] in Ha. apply accepted_first in Ha as (a1 & Ha1 & Ha).
  unfold parse. rewrite serialized_tail.
  set (rest := head_lines item +:+ crlf +:+ content item +:+ (crlf +:+ "--" +:+ b) +:+ tail_text b items).
  change (buf_append (("--" +:+ b +:+ crlf) +:+ rest) (set_boundary b))
    with (Parser b 0 false (FormData "" "" "" "") (("--" +:+ b +:+ crlf) +:+ rest)).
  assert (Hfuel : ∃ k, (2 * buf_size (Parser b 0 false (FormData "" "" "" "") (("--" +:+ b +:+ crlf) +:+ rest)) + 2
                       = S (3 + k) ∧ 4 * length items + 2 <= k)%nat).
  { set (n := buf_size _). assert (Hn : (2 * length items + 4 <= n)%nat).
    { unfold n, buf_size, rest. cbn [buf]. rewrite !string_length_app. pose proof (tail_length b items). lia. }
    exists (2 * n - 2)%nat. lia. }
  destruct Hfuel as (k & -> & Hk).
  erewrite parse_again; [|apply opening_round|done]. unfold rest.
  rewrite (item_rounds content_callback header_callback k b false _ item _ a a1) by done.
  by apply parse_tail.
Qed.

(** ** A form of two fields, a file among them *)

Definition example_form : list MultipartFormData := [
  FormData "comment" ("two" +:+ crlf +:+ "lines") "" "";
  FormData "upload" "--x" "a b.txt" "text/plain; charset=utf-8"
].

Definition collect_head (f : MultipartFormData) : M (list MultipartFormData) bool := λ a,
  (Ret true, a ++ [f]).

Definition collect_content (s : string) : M (list MultipartFormData) bool := λ a,
  match last a with
  | Some f => (Ret true, removelast a ++ [f <| content ::= λ c, c +:+ s |>])
  | None => (Ret false, a)
  end.

Lemma example_form_readable : Forall (readable "x-y_1") example_form.
Proof.
  repeat (apply Forall_cons_2; [split; vm_compute; try reflexivity; repeat constructor|]).
  by apply Forall_nil_2.
Qed.

Lemma parse_serialized_witness :
  ∃ p, parse collect_content collect_head (serialize_multipart_formdata example_form "x-y_1" true)
         (set_boundary "x-y_1") [] = (Ret true, p, example_form) ∧ is_valid_ p = true.
Proof.
  exact (parse_serialized collect_content collect_head _ _ "x-y_1" [] example_form eq_refl
    example_form_readable eq_refl).
Defined.
