(* ===== verification/HttplibTermination.v ===== *)
(** * The reading loops of httplib end

    The loops over a stream and over the buffer of the multipart parser are
    given fuel. Every round takes a byte away (or, in the parser, every second
    one), so the fuel they get is enough: the result is that of as many rounds,
    whatever would follow them, and what the loop gives when it runs out of
    fuel is never seen. *)

From S2P Require Import Prelude Text TextFacts HttplibText HttplibUrl HttplibStream HttplibStreamProps.
From S2P Require Import HttplibMultipart.

(** ** What a read takes *)

Abbreviation left := (λ strm, String.length (remaining strm)).

Lemma prefix_suffix_length n s :
  (String.length (prefix_of n s) + String.length (suffix_from n s) = String.length s)%nat.
Proof. revert n. induction s as [|c s IH]; intros [|n]; cbn; [done..|]. by rewrite IH. Qed.

Lemma read_segments_left ss b n r ss' :
  read_segments ss b n = (r, ss') →
  (String.length (join_segments ss') + String.length (default "" r) = String.length (join_segments ss))%nat.
Proof.
  induction ss as [|[|c s] ss IH]; cbn [read_segments]; [by destruct b; intros [= <- <-]|exact IH|].
  intros [= <- <-]. cbn [join_segments default]. rewrite !string_length_app.
  pose proof (prefix_suffix_length n (String c s)). cbn [from_option id]. lia.
Qed.

Lemma read_left n strm r strm' :
  read n strm = (r, strm') → (left strm' + String.length (default "" r) = left strm)%nat.
Proof.
  unfold read. destruct (read_segments _ _ _) as [r' ss] eqn:Hr. intros [= <- <-].
  exact (read_segments_left _ _ _ _ _ Hr).
Qed.

Lemma read_shrinks n strm c buf strm' :
  read n strm = (Some (String c buf), strm') → (left strm' < left strm)%nat.
Proof. intros Hr%read_left. cbn in Hr. lia. Qed.

Lemma plain_line_length prev s line rest ended :
  plain_line prev s = (line, rest, ended) →
  (String.length line + String.length rest = String.length s)%nat ∧ (ended = true → line ≠ "").
Proof.
  revert prev line rest. induction s as [|c s IH]; intros prev line rest; cbn [plain_line].
  - by intros [= <- <- <-].
  - destruct (_ && _); [by intros [= <- <- <-]|]. destruct (plain_line c s) as [[l r] e] eqn:Hl.
    intros [= <- <- <-]. destruct (IH _ _ _ Hl) as [Hlen _]. cbn. split; [lia|done].
Qed.

Lemma getline_shrinks size strm strm' r :
  getline size strm = (true, strm', r) → (left strm' < left strm)%nat.
Proof.
  intros Hg. pose proof (getline_loop_plain (stream_fuel strm) 0 "000" strm (LineReader "" size "")
    ltac:(by intros []) ltac:(unfold stream_fuel; lia)) as Hp. fold (getline size strm) in Hp.
  destruct (plain_line "000" (remaining strm)) as [[line rest] ended] eqn:Hl.
  apply plain_line_length in Hl as [Hlen Hne]. destruct Hp as (s1 & r1 & Heq & _ & Hrest & _).
  rewrite Hg in Heq. injection Heq as Ht -> ->. rewrite Hrest.
  destruct line as [|c line]; [|cbn in Hlen; lia].
  destruct ended; [by destruct (Hne eq_refl)|]. cbn in Ht. by rewrite andb_false_r in Ht.
Qed.

(** A round that leaves less in the stream may be followed by anything that
    agrees on less. *)
Ltac by_rounds IH :=
  repeat (case_match; try done); simplify_eq; try (apply IH);
  repeat match goal with
  | H : read _ _ = (Some (String _ _), _) |- _ => apply read_shrinks in H
  | H : getline _ _ = (true, _, _) |- _ => apply getline_shrinks in H
  end; lia.

Lemma getline_rounds rec k f i prev strm r :
  (left strm < k)%nat → (left strm < f)%nat →
  rounds k getline_round rec i prev strm r = getline_loop f i prev strm r.
Proof.
  revert f i prev strm r. induction k as [|k IH]; intros [|f] i prev strm r H1 H2; [lia..|].
  cbn [rounds getline_loop]. unfold getline_round at 1 3. by_rounds IH.
Qed.

Lemma read_headers_rounds rec k f strm hs :
  (left strm < k)%nat → (left strm < f)%nat →
  rounds k read_headers_round rec strm hs = read_headers_loop f strm hs.
Proof.
  revert f strm hs. induction k as [|k IH]; intros [|f] strm hs H1 H2; [lia..|].
  cbn [rounds read_headers_loop]. unfold read_headers_round at 1 3. by_rounds IH.
Qed.

Lemma trailers_rounds rec k f line strm hs :
  (left strm < k)%nat → (left strm < f)%nat →
  rounds k trailers_round rec line strm hs = trailers f line strm hs.
Proof.
  revert f line strm hs. induction k as [|k IH]; intros [|f] line strm hs H1 H2; [lia..|].
  cbn [rounds trailers]. unfold trailers_round at 1 3. by_rounds IH.
Qed.

Lemma skip_rounds rec k f len r strm :
  (left strm < k)%nat → (left strm < f)%nat →
  rounds k (skip_round len) rec r strm = skip_with_length f len r strm.
Proof.
  revert f r strm. induction k as [|k IH]; intros [|f] r strm H1 H2; [lia..|].
  cbn [rounds skip_with_length]. unfold skip_round at 1 3. by_rounds IH.
Qed.

(** ** Bodies *)

Section Content.
Context {A : Type} (out : ContentReceiverWithProgress A).

Lemma content_with_length_rounds progress rec k f len r strm a :
  (left strm < k)%nat → (left strm < f)%nat →
  rounds k (content_with_length_round out progress len) rec r strm a
  = content_with_length out progress f len r strm a.
Proof.
  revert f r strm a. induction k as [|k IH]; intros [|f] r strm a H1 H2; [lia..|].
  cbn [rounds content_with_length]. unfold content_with_length_round at 1 3. by_rounds IH.
Qed.

Lemma content_without_length_rounds rec k f r strm a :
  (left strm < k)%nat → (left strm < f)%nat →
  rounds k (content_without_length_round out) rec r strm a = content_without_length out f r strm a.
Proof.
  revert f r strm a. induction k as [|k IH]; intros [|f] r strm a H1 H2; [lia..|].
  cbn [rounds content_without_length]. unfold content_without_length_round at 1 3. by_rounds IH.
Qed.

Lemma content_with_length_left progress f len r strm a a' strm' :
  content_with_length out progress f len r strm a = (Ret true, a', strm') → (left strm' <= left strm)%nat.
Proof.
  revert r strm a. induction f as [|f IH]; intros r strm a; cbn [content_with_length]; [done|].
  unfold content_with_length_round. case_decide; [by intros [= -> ->]|].
  destruct (read _ strm) as [[[|c buf]|] s1] eqn:Hr; [done| |done].
  destruct (mbind (M := M A) _ _ a) as [[[]|e|] a1]; [|done..]. intros Hc%IH. apply read_shrinks in Hr. lia.
Qed.

Lemma chunks_rounds rec k f line strm a :
  (left strm < k)%nat → (left strm < f)%nat →
  rounds k (chunks_round out) rec line strm a = chunks out f line strm a.
Proof.
  revert f line strm a. induction k as [|k IH]; intros [|f] line strm a H1 H2; [lia..|].
  cbn [rounds chunks]. unfold chunks_round at 1 3. destruct (strtoul16 _); [|done]. do 2 (case_decide; [done|]).
  destruct (read_content_with_length out None strm _ a) as [[[[]|e|] a'] s1] eqn:Hc; [|done..].
  apply content_with_length_left in Hc. by_rounds IH.
Qed.

(** C23 (termination): the loops that read a line, header fields, a body of known
    length, a body up to the end of the connection, the chunks of a body and
    its trailers end by themselves: each within as many rounds as the stream
    has bytes, and one. [rec] is what would follow these rounds: it may be
    anything, for it is never reached, whatever the stream holds, in whatever
    segments, and however the connection ends. *)
Theorem reading_loops_end progress size strm (hs : Headers) line len (a : A) :
  let k := stream_fuel strm in
  (∀ rec, rounds k getline_round rec 0%nat "000"%char strm (LineReader "" size "") = getline size strm)
  ∧ (∀ rec, rounds k read_headers_round rec strm hs = read_headers strm hs)
  ∧ (∀ rec, rounds k (content_with_length_round out progress len) rec 0 strm a
            = read_content_with_length out progress strm len a)
  ∧ (∀ rec, rounds k (skip_round len) rec 0 strm = skip_content_with_length strm len)
  ∧ (∀ rec, rounds k (content_without_length_round out) rec 0 strm a = read_content_without_length out strm a)
  ∧ (∀ rec, rounds k (chunks_round out) rec line strm a = chunks out k line strm a)
  ∧ (∀ rec, rounds k trailers_round rec line strm hs = trailers (S k) line strm hs).
Proof.
  cbv zeta. unfold getline, read_headers, read_content_with_length, skip_content_with_length,
    read_content_without_length, stream_fuel.
  split_and!; intros rec;
    [apply getline_rounds|apply read_headers_rounds|apply content_with_length_rounds|apply skip_rounds
    |apply content_without_length_rounds|apply chunks_rounds|apply trailers_rounds]; lia.
Qed.

End Content.

(** ** The multipart parser *)

Section Multipart.
Import MultipartFormDataParser.
Context {A : Type} (content_callback : string -> M A bool).
Context (header_callback : MultipartFormData -> M A bool).

Abbreviation headers_loop := (headers_loop header_callback).
Abbreviation parse_round := (parse_round content_callback header_callback).
Abbreviation headers_round := (headers_round header_callback).
Abbreviation loop_round := (loop_round content_callback header_callback).
Abbreviation parse_loop := (parse_loop content_callback header_callback).

(** Twice the bytes, and one round more where a round takes none. *)
Definition most_rounds (p : t) : nat := (2 * buf_size p + if (state_ p =? 1)%Z then 1 else 0)%nat.

Definition state_ok (p : t) : Prop := 0 <= state_ p <= 4.

Lemma suffix_from_le n s : (String.length (suffix_from n s) <= String.length s)%nat.
Proof. pose proof (prefix_suffix_length n s). lia. Qed.

Lemma suffix_from_lt n s : (0 < n)%nat → s ≠ "" → (String.length (suffix_from n s) < String.length s)%nat.
Proof.
  destruct n as [|n], s as [|c s]; cbn; intros Hn Hs; [lia..|done|].
  pose proof (suffix_from_le n s). lia.
Qed.

(** The rounds of the loop over the header lines, and the loop with its fuel. *)
Lemma headers_rounds rec k f p a :
  (buf_size p < k)%nat → (buf_size p < f)%nat →
  rounds k headers_round rec p a = headers_loop f p a.
Proof.
  revert f p a. induction k as [|k IH]; intros [|f] p a H1 H2; [lia..|].
  cbn [rounds MultipartFormDataParser.headers_loop]. unfold MultipartFormDataParser.headers_round at 1 3.
  destruct (find_string crlf_ (buf p)) as [[|pos]|] eqn:Hf; [done| |done].
  destruct (header_line _ _) as [fm|]; [|done].
  assert (Hlt : (buf_size (buf_erase (S pos + 2) (p <| file_ := fm |>)) < buf_size p)%nat).
  { apply suffix_from_lt; [lia|]. intros Hb. cbn in Hb. by rewrite Hb in Hf. }
  apply IH; lia.
Qed.

Lemma headers_loop_again f p a p' a' :
  headers_loop f p a = Again p' a' → (buf_size p' < buf_size p)%nat ∧ state_ p' = 3.
Proof.
  revert p a. induction f as [|f IH]; intros p a; cbn [MultipartFormDataParser.headers_loop]; [done|].
  unfold MultipartFormDataParser.headers_round.
  destruct (find_string crlf_ (buf p)) as [[|pos]|] eqn:Hf; [| |done].
  - unfold answered. destruct (header_callback _ a) as [[[]|e|] a1]; [|done..]. intros [= <- <-]. split; [|done].
    apply (suffix_from_lt 2); [lia|]. intros Hb. cbn in Hb. by rewrite Hb in Hf.
  - destruct (header_line _ _) as [fm|]; [|done]. intros [Hlt Hs]%IH. split; [|done].
    pose proof (suffix_from_le (S pos + 2) (buf p)). unfold buf_size, buf_erase in *. cbn in *. lia.
Qed.

Lemma dash_boundary_length p : (4 <= String.length (dash_boundary_crlf_ p))%nat.
Proof. unfold dash_boundary_crlf_, dash_, crlf_. rewrite !string_length_app. cbn. lia. Qed.

(** Erasing a delimiter that fits in behind anything else. *)
Lemma erase_delimiter k n s :
  (0 < n)%nat → ¬ (String.length (suffix_from k s) < n)%nat →
  (String.length (suffix_from n (suffix_from k s)) < String.length s)%nat.
Proof.
  intros Hn Hlen. pose proof (suffix_from_le k s).
  enough (String.length (suffix_from n (suffix_from k s)) < String.length (suffix_from k s))%nat by lia.
  apply suffix_from_lt; [done|]. intros He. rewrite He in Hlen. cbn in Hlen. lia.
Qed.

Lemma rounds_in p s : state_ p = s → most_rounds p = (2 * buf_size p + if (s =? 1)%Z then 1 else 0)%nat.
Proof. by intros <-. Qed.

Lemma rounds_erased p p' n s :
  buf p' = suffix_from n (buf p) → state_ p' = s →
  most_rounds p' = (2 * String.length (suffix_from n (buf p)) + if (s =? 1)%Z then 1 else 0)%nat.
Proof. intros Hb Hs. by rewrite (rounds_in _ _ Hs), <- Hb. Qed.

Lemma parse_round_ends p a p' a' :
  state_ok p → buf p ≠ "" → parse_round p a = Again p' a' → state_ok p' ∧ (most_rounds p' < most_rounds p)%nat.
Proof.
  intros Hok Hb. unfold state_ok in Hok.
  assert (Hs : state_ p = 0 ∨ state_ p = 1 ∨ state_ p = 2 ∨ state_ p = 3 ∨ state_ p = 4) by lia.
  unfold MultipartFormDataParser.parse_round.
  destruct Hs as [Hs|[Hs|[Hs|[Hs|Hs]]]]; rewrite Hs, (rounds_in _ _ Hs); cbv zeta.
  - case_decide as Hlen; [done|]. destruct (negb _); [done|]. intros [= <- <-].
    split; [done|]. pose proof (dash_boundary_length p). set (k := buf_find _ p) in *.
    pose proof (erase_delimiter k (String.length (dash_boundary_crlf_ p)) (buf p) ltac:(lia) Hlen).
    rewrite (rounds_erased (buf_erase k p) _ (String.length (dash_boundary_crlf_ p)) 1) by done. change (0 =? 1) with false.
    change (1 =? 1) with true. unfold buf_size. change (buf (buf_erase k p)) with (suffix_from k (buf p)).
    change (dash_boundary_crlf_ (buf_erase k p)) with (dash_boundary_crlf_ p). lia.
  - intros [= <- <-]. split; [done|]. unfold most_rounds, buf_size. cbn. lia.
  - case_decide; [done|]. intros [Hlt Hs']%headers_loop_again. split; [unfold state_ok; lia|].
    rewrite (rounds_in _ _ Hs'). cbn -[Nat.mul]. lia.
  - case_decide; [done|]. destruct (find_string _ _) as [pos|] eqn:Hf.
    + unfold answered. destruct (content_callback _ a) as [[[]|e|] a1]; [|done..]. intros [= <- <-]. split; [done|].
      rewrite (rounds_erased p _ (pos + String.length (crlf_dash_boundary_ p)) 4) by done.
      pose proof (suffix_from_lt (pos + String.length (crlf_dash_boundary_ p)) (buf p)
        ltac:(cbn; lia) Hb). change (4 =? 1) with false. change (3 =? 1) with false. unfold buf_size. lia.
    + case_decide; [done|]. unfold answered. by destruct (content_callback _ a) as [[[]|e|] a1].
  - case_decide as Hlen; [done|]. destruct (buf_start_with crlf_ p).
    + intros [= <- <-]. split; [done|]. rewrite (rounds_erased p _ 2 1) by done. unfold buf_size in *.
      pose proof (prefix_suffix_length 2 (buf p)). destruct (buf p) as [|? [|? s]]; cbn in *; lia.
    + destruct (buf_start_with dash_ p); [|done]. intros [= <- <-]. split; [unfold state_ok; cbn; lia|].
      rewrite (rounds_in _ 4) by exact Hs. unfold buf_size in *. cbn. lia.
Qed.

Lemma parse_rounds rec k f p a :
  state_ok p → (most_rounds p < k)%nat → (most_rounds p < f)%nat →
  rounds k loop_round rec p a = parse_loop f p a.
Proof.
  revert f p a. induction k as [|k IH]; intros [|f] p a Hok H1 H2; [lia..|].
  cbn [rounds MultipartFormDataParser.parse_loop]. unfold MultipartFormDataParser.loop_round at 1 3.
  case_decide as Hb; [done|].
  destruct (parse_round p a) as [p' a'|b p' a'] eqn:Hr; [|done].
  assert (buf p ≠ "") by (intros He; apply Hb; unfold buf_size; by rewrite He).
  apply parse_round_ends in Hr as [Hok' Hlt]; [|done..]. apply IH; [done|lia..].
Qed.

(** C24 (termination): a call of the multipart parser returns, whatever the
    data and the state it finds: its loop ends by itself within two rounds per
    byte of the buffer, and two, and the loop over the header lines within one
    per byte, and one. [rec] is what would follow these rounds: it may be
    anything, for it is never reached. *)
Theorem multipart_parse_ends data p a
    (Hstate : 0 <= state_ p <= 4) :
  let q := buf_append data p in
  (∀ rec, rounds (2 * buf_size q + 2) loop_round rec q a
          = parse content_callback header_callback data p a)
  ∧ (∀ rec p a, rounds (S (buf_size p)) headers_round rec p a = headers_loop (S (buf_size p)) p a).
Proof.
  cbv zeta. split; intros rec.
  - unfold parse. cbv zeta. apply parse_rounds; [exact Hstate|unfold most_rounds; destruct (_ =? 1); lia..].
  - intros q b. apply headers_rounds; lia.
Qed.

End Multipart.

Definition example_part : string :=
  "--x" +:+ crlf +:+ "Content-Type: text/plain" +:+ crlf +:+ crlf +:+ "a" +:+ crlf +:+ "--x--".

Definition collect (s : string) : M string bool := λ a, (Ret true, a +:+ s).
Definition accept_part (f : MultipartFormData) : M string bool := mret true.

Lemma multipart_parse_ends_witness :
  let p := MultipartFormDataParser.set_boundary "x" in
  let q := MultipartFormDataParser.buf_append example_part p in
  rounds (2 * MultipartFormDataParser.buf_size q + 2)
    (MultipartFormDataParser.loop_round collect accept_part) (λ p a, (UB, p, a)) q ""
  = MultipartFormDataParser.parse collect accept_part example_part p ""
  ∧ (MultipartFormDataParser.parse collect accept_part example_part p "").2 = "a".
Proof.
  cbv zeta. split; [|vm_compute; reflexivity].
  exact (proj1 (multipart_parse_ends collect accept_part example_part
    (MultipartFormDataParser.set_boundary "x") "" ltac:(split; discriminate)) _).
Defined.
