(* ===== verification/HttplibContentProps.v ===== *)
(** * Content providers write what their readers read

    The chunked transfer coding: what [write_content_chunked] sends for a
    provider that speaks in any number of calls is read back by
    [read_content_chunked], whatever segments it arrives in. With a length,
    [write_content] sends exactly the bytes asked for, and a body left to a
    provider gives the bytes of a body held in the response. *)

From S2P Require Import Prelude Text TextFacts HttplibText HttplibUrl HttplibRangeProps HttplibStream.
From S2P Require Import HttplibStreamProps HttplibTermination HttplibContent.

(** ** Hexadecimal numbers *)

Definition hex_char (c : ascii) : bool := isdigit c || in_range "a" "f" c.

Lemma hex_value_char d : 0 <= d < 16 → hex_value (nth_char charset d) = Some d ∧ hex_char (nth_char charset d) = true.
Proof.
  intros Hd. assert (Hin : d ∈ seqZ 0 16) by (apply elem_of_seqZ; lia). clear Hd.
  assert (Hall : Forall (λ d, hex_value (nth_char charset d) = Some d ∧ hex_char (nth_char charset d) = true) (seqZ 0 16))
    by (apply (bool_decide_unpack _); vm_compute; exact I).
  by eapply Forall_forall in Hall.
Qed.

(** The digits [hex_loop] puts in front. *)
Lemma hex_loop_digits fuel n acc :
  (0 < fuel)%nat → 0 <= n < 16 ^ Z.of_nat fuel →
  ∃ ds, hex_loop fuel n acc = ds +:+ acc ∧ ds ≠ "" ∧ all_of hex_char ds = true
    ∧ ∀ s v, scan_hex_digits (ds +:+ s) v =
        let '(m, k) := scan_hex_digits s (v * 16 ^ Z.of_nat (String.length ds) + n) in
        (m, (String.length ds + k)%nat).
Proof.
  revert n acc. induction fuel as [|fuel IH]; intros n acc Hf Hn; [lia|]. cbn [hex_loop].
  assert (Hland : Z.land n 15 = n mod 16) by (change 15 with (Z.ones 4); by rewrite Z.land_ones).
  rewrite Hland, Z.shiftr_div_pow2 by lia. change (2 ^ 4) with 16.
  pose proof (Z.mod_pos_bound n 16 ltac:(lia)) as Hmod. destruct (hex_value_char _ Hmod) as [Hv Hc].
  set (c := nth_char charset (n mod 16)) in *. pose proof (Z.div_mod n 16 ltac:(lia)) as Hdm.
  case_decide as Hd.
  - destruct fuel as [|fuel].
    { change (16 ^ Z.of_nat 1) with 16 in Hn. assert (n / 16 = 0) by (apply Z.div_small; lia). lia. }
    destruct (IH (n / 16) (String c acc)) as (ds & Heq & Hne & Hall & Hscan); [lia| |].
    { split; [lia|]. apply Z.div_lt_upper_bound; [lia|].
      replace (Z.of_nat (S (S fuel))) with (Z.of_nat (S fuel) + 1) in Hn by lia.
      rewrite Z.pow_add_r in Hn by lia. lia. }
    exists (ds +:+ String c ""). rewrite Heq, string_app_assoc, all_of_app, Hall. cbn [all_of]. rewrite Hc.
    split_and!; [done|by destruct ds|done|]. intros s v. rewrite string_app_assoc, Hscan.
    cbn [String.append scan_hex_digits]. rewrite Hv, string_length_app. cbn [String.length].
    replace (Z.of_nat (String.length ds + 1)) with (Z.of_nat (String.length ds) + 1) by lia.
    rewrite Z.pow_add_r by lia.
    replace ((v * 16 ^ Z.of_nat (String.length ds) + n / 16) * 16 + n mod 16)
      with (v * (16 ^ Z.of_nat (String.length ds) * 16 ^ 1) + n) by lia.
    destruct (scan_hex_digits s _) as [m k]. f_equal. lia.
  - assert (Hz : n / 16 = 0) by lia. exists (String c ""). cbn [all_of]. rewrite Hc.
    split_and!; [done..|]. intros s v. cbn [String.append scan_hex_digits String.length]. rewrite Hv.
    change (16 ^ Z.of_nat 1) with 16. replace (n mod 16) with n by lia.
    by destruct (scan_hex_digits s _) as [m k].
Qed.

Lemma hex_char_front : ∀ c, hex_char c = true →
  negb (isspace c) && negb (bool_decide (c = "+"%char)) && negb (bool_decide (c = "-"%char)) = true.
Proof. by_classes. Qed.

Lemma hex_char_not_x : ∀ c, hex_char c = true → negb (bool_decide (c = "x"%char) || bool_decide (c = "X"%char)) = true.
Proof. by_classes. Qed.

Lemma hex_char_not_nul : ∀ c, hex_char c = true → negb (bool_decide (code c = 0)) = true.
Proof. by_classes. Qed.

Lemma hex_char_line : ∀ c, hex_char c = true → line_char c = true.
Proof. by_classes. Qed.

Lemma scan_sign_none c s : c ≠ "+"%char → c ≠ "-"%char → scan_sign (String c s) = (1, O, String c s).
Proof. destruct c as [[] [] [] [] [] [] [] []]; try done; by intros ? ?. Qed.

Lemma no_hex_prefix c d s :
  negb (bool_decide (d = "x"%char) || bool_decide (d = "X"%char)) = true →
  skip_hex_prefix (String c (String d s)) = String c (String d s).
Proof.
  intros Hd%negb_true_iff. unfold skip_hex_prefix.
  destruct c as [[] [] [] [] [] [] [] []]; try done. by rewrite Hd.
Qed.

(** A number as [from_i_to_hex] prints it, on a line of its own. *)
Lemma strtoul16_hex n :
  0 <= n < 2^64 →
  let line := from_i_to_hex n +:+ crlf in
  c_str line = line ∧ all_of line_char (from_i_to_hex n) = true ∧ strtoul16 line = Some n.
Proof.
  intros Hn. cbv zeta. unfold from_i_to_hex.
  destruct (hex_loop_digits 16 n "") as (ds & -> & Hne & Hall & Hscan); [lia|exact Hn|].
  rewrite string_app_nil_r. split_and!.
  - apply (take_while_all (λ c, negb (bool_decide (code c = 0)))). rewrite all_of_app.
    by rewrite (all_of_impl _ _ _ hex_char_not_nul Hall).
  - exact (all_of_impl _ _ _ hex_char_line Hall).
  - destruct ds as [|c ds]; [done|]. assert (Hcd := Hall). cbn [all_of] in Hcd. apply andb_prop in Hcd as [Hc Hds].
    pose proof (hex_char_front c Hc) as [[Hs%negb_true_iff Hp%negb_true_iff]%andb_prop Hm%negb_true_iff]%andb_prop.
    apply bool_decide_eq_false in Hp, Hm.
    unfold strtoul16. rewrite string_app_cons. cbn [drop_while]. rewrite Hs, scan_sign_none by done.
    assert (skip_hex_prefix (String c (ds +:+ crlf)) = String c ds +:+ crlf) as ->.
    { destruct ds as [|d ds]; [by apply no_hex_prefix|]. cbn [all_of] in Hds. apply andb_prop in Hds as [Hd _].
      by apply no_hex_prefix, hex_char_not_x. }
    rewrite Hscan. change (scan_hex_digits crlf _) with (0 * 16 ^ Z.of_nat (String.length (String c ds)) + n, O).
    cbn [String.length Nat.add]. rewrite decide_False by lia. f_equal. unfold to_u64.
    rewrite Z.mod_small by lia. lia.
Qed.

(** ** The trailer section *)

Lemma token_char_not_nul_cr : ∀ c, is_token_char c = true →
  negb (bool_decide (code c = 0)) && negb (bool_decide (c = "013"%char)) = true.
Proof. by_classes. Qed.

Lemma trailers_read t fuel strm rest hs :
  Forall sendable t → remaining strm = write_headers t +:+ rest →
  ∃ s1 r, getline 16 strm = (true, s1, r) ∧ ((String.length (remaining s1) < fuel)%nat →
    ∃ s2, trailers fuel (line_ptr r) s1 hs = (true, s2, reverse (decoded <$> t) ++ hs)
      ∧ remaining s2 = rest ∧ fails s2 = fails strm).
Proof.
  intros Ht. revert fuel strm hs. induction Ht as [|[k v] t (Hk & Hv & Hp & Hlen) _ IH]; intros fuel strm hs Hs.
  - destruct (getline_line 16 strm "" rest Hs eq_refl) as (s1 & r1 & Hg & Hr & Hrest & Hf).
    exists s1, r1. split; [done|]. intros Hfuel. exists s1. destruct fuel as [|fuel]; [lia|].
    cbn [trailers]. unfold trailers_round. rewrite Hr. rewrite decide_True by done. done.
  - cbn [fst snd] in *. cbn [write_headers] in Hs.
    assert (Hs' : remaining strm = (k +:+ ": " +:+ v) +:+ crlf +:+ (write_headers t +:+ rest))
      by (rewrite Hs, !string_app_assoc; done).
    destruct (getline_line 16 strm _ _ Hs' (field_line_chars _ _ Hk Hv)) as (s1 & r1 & Hg & Hr & Hrest & Hf).
    exists s1, r1. split; [done|]. intros Hfuel. destruct fuel as [|fuel]; [lia|]. cbn [trailers]. unfold trailers_round.
    destruct (line_end _ r1 Hr) as (_ & Hsize & Hline). unfold line_size in *. rewrite Hline.
    rewrite (parse_header_field _ _ Hk Hv Hp). rewrite decide_False.
    2: { rewrite Hr. destruct (field_name_chars k Hk) as [Hne Hall]. destruct k as [|c k]; [done|].
         cbn [all_of] in Hall. apply andb_prop in Hall as [Hc _].
         pose proof (token_char_not_nul_cr c Hc) as [H1 H2%negb_true_iff%bool_decide_eq_false]%andb_prop.
         unfold c_str. rewrite !string_app_cons. cbn [take_while]. rewrite H1. intros [= ? _]. done. }
    rewrite decide_False by (rewrite Hsize; lia). unfold emplace_header.
    destruct (IH fuel s1 ((k, decode_url v false) :: hs) Hrest) as (s2 & r2 & Hg2 & Hk2). rewrite Hg2.
    destruct Hk2 as (s3 & -> & Hrest3 & Hf3).
    { apply getline_shrinks in Hg2. lia. }
    exists s3. rewrite fmap_cons, reverse_cons, <- app_assoc, Hf3. done.
Qed.

(** ** Reading the chunks *)

Lemma string_app_split (a b c d : string) :
  a +:+ b = c +:+ d → (String.length a <= String.length c)%nat → ∃ e, c = a +:+ e ∧ b = e +:+ d.
Proof.
  revert c. induction a as [|x a IH]; intros c; cbn; [intros -> _; by exists c|].
  destruct c as [|y c]; cbn; [lia|]. intros [= -> Heq] Hlen.
  destruct (IH c Heq) as (e & -> & ->); [lia|]. by exists e.
Qed.

Lemma read_segments_some n ss b :
  (0 < n)%nat → join_segments ss ≠ "" →
  ∃ c buf ss', read_segments ss b n = (Some (String c buf), ss')
    ∧ join_segments ss = String c buf +:+ join_segments ss' ∧ (String.length (String c buf) <= n)%nat.
Proof.
  intros Hn. induction ss as [|[|c s] ss IH]; intros Hs; [done|by apply IH|]. destruct n as [|n]; [lia|].
  do 3 eexists. cbn [read_segments prefix_of suffix_from join_segments]. split; [reflexivity|]. split.
  - rewrite <- (prefix_suffix n s) at 1. by rewrite !string_app_cons, string_app_assoc.
  - cbn. pose proof (prefix_of_le n s). lia.
Qed.

Lemma read_some n strm :
  (0 < n)%nat → remaining strm ≠ "" →
  ∃ c buf strm', read n strm = (Some (String c buf), strm')
    ∧ remaining strm = String c buf +:+ remaining strm'
    ∧ (String.length (String c buf) <= n)%nat ∧ fails strm' = fails strm.
Proof.
  intros Hn Hs. destruct (read_segments_some n (segments strm) (fails strm) Hn Hs) as (c & buf & ss & Hr & Hj & Hl).
  exists c, buf, (Stream ss (fails strm)). unfold read. by rewrite Hr.
Qed.

Definition chunks_text (ds : list string) : string := join_segments (chunk <$> ds).

(** What fits into a chunk. *)
Definition chunkable (d : string) : Prop := d ≠ "" ∧ Z.of_nat (String.length d) < 2^64 - 1.

Lemma chunks_text_cons d ds rest :
  chunks_text (d :: ds) +:+ rest
  = from_i_to_hex (Z.of_nat (String.length d)) +:+ crlf +:+ (d +:+ crlf +:+ (chunks_text ds +:+ rest)).
Proof. unfold chunks_text. cbn [fmap list_fmap join_segments]. unfold chunk. by rewrite !string_app_assoc. Qed.

(** A receiver that takes everything, in the states [I] in which it does. *)
Section Reading.
Context {A : Type} (out : ContentReceiverWithProgress A) (acc : string -> A -> A) (I : A -> Prop).
Context (Hout : ∀ s off len a, I a → out s off len a = (Ret true, acc s a)) (Hacc : ∀ s a, I a → I (acc s a)).
Context (Hnil : ∀ a, acc "" a = a) (Happ : ∀ s t a, acc t (acc s a) = acc (s +:+ t) a).
#[local] Set Default Proof Using "Type*".

Lemma content_reads progress fuel len r strm a d rest :
  (∀ r len a, I a → report progress r len a = (Ret true, a)) → I a →
  remaining strm = d +:+ rest → len - r = Z.of_nat (String.length d) →
  (String.length (remaining strm) < fuel)%nat →
  ∃ strm', content_with_length out progress fuel len r strm a = (Ret true, acc d a, strm')
    ∧ remaining strm' = rest ∧ fails strm' = fails strm.
Proof.
  intros Hp. revert r strm a d. induction fuel as [|fuel IH]; intros r strm a d Ha Hs Hlen Hf; [lia|].
  cbn [content_with_length]. unfold content_with_length_round. destruct d as [|x d].
  - rewrite decide_True by (cbn in Hlen; lia). exists strm. by rewrite Hnil.
  - rewrite decide_False by (cbn in Hlen; lia).
    destruct (read_some (Z.to_nat ((len - r) `min` CPPHTTPLIB_RECV_BUFSIZ)) strm)
      as (c & buf & s1 & -> & Hrem & Hbuf & Hfail); [unfold CPPHTTPLIB_RECV_BUFSIZ; cbn in Hlen; lia|by rewrite Hs|].
    unfold mbind, M_bind. rewrite Hout, Hp by auto. rewrite Hs in Hrem.
    destruct (string_app_split (String c buf) (remaining s1) (String x d) rest) as (e & He & Hrest);
      [done|lia|]. rewrite Hs, Hrem, string_length_app in Hf. cbn [String.length] in Hf.
    destruct (IH (r + Z.of_nat (String.length (String c buf))) s1 (acc (String c buf) a) e (Hacc _ _ Ha) Hrest)
      as (s2 & -> & Hr2 & Hf2); [|lia|].
    { rewrite He, string_length_app in Hlen. lia. }
    exists s2. rewrite Happ, <- He, Hf2. done.
Qed.

Lemma chunks_read ds strm a rest :
  I a → Forall chunkable ds → remaining strm = chunks_text ds +:+ ("0" +:+ crlf) +:+ rest →
  ∃ s1 r, getline 16 strm = (true, s1, r) ∧ ∀ fuel, (String.length (remaining s1) < fuel)%nat →
    ∃ s2, chunks out fuel (line_ptr r) s1 a = (Ret true, acc (join_segments ds) a, s2)
      ∧ remaining s2 = rest ∧ fails s2 = fails strm.
Proof.
  intros Ha Hds. revert strm a Ha. induction Hds as [|d ds [Hne Hlen] _ IH]; intros strm a Ha Hs.
  - rewrite string_app_assoc in Hs. destruct (getline_line 16 strm "0" rest Hs eq_refl) as (s1 & r & Hg & Hr & Hrest & Hf).
    exists s1, r. split; [done|]. intros [|fuel] Hfuel; [lia|]. exists s1. cbn [chunks]. unfold chunks_round. rewrite Hr.
    change (strtoul16 (c_str ("0" +:+ crlf))) with (Some 0). cbv iota. rewrite decide_False by done.
    rewrite decide_True by done. cbn [join_segments]. by rewrite Hnil.
  - rewrite chunks_text_cons in Hs. set (n := Z.of_nat (String.length d)) in *.
    destruct (strtoul16_hex n) as (Hc & Hline & Hn); [lia|].
    destruct (getline_line 16 strm _ _ Hs Hline) as (s1 & r & Hg & Hr & Hrest & Hf).
    exists s1, r. split; [done|]. intros [|fuel] Hfuel; [lia|]. cbn [chunks]. unfold chunks_round. rewrite Hr, Hc, Hn.
    assert (n ≠ 0) by (subst n; destruct d; [done|cbn; lia]).
    rewrite decide_False by lia. rewrite decide_False by done.
    destruct (content_reads None (stream_fuel s1) n 0 s1 a d _ ltac:(done) Ha Hrest)
      as (s2 & Hread & Hrest2 & Hf2); [lia|unfold stream_fuel; lia|]. unfold read_content_with_length. rewrite Hread.
    destruct (getline_line 16 s2 "" _ Hrest2 eq_refl) as (s3 & r3 & -> & -> & Hrest3 & Hf3).
    change (negb (bool_decide (c_str ("" +:+ crlf) = crlf))) with false. cbv iota.
    destruct (IH s3 (acc d a) (Hacc _ _ Ha) Hrest3) as (s4 & r4 & Hg4 & Hk). rewrite Hg4.
    destruct (Hk fuel) as (s5 & -> & Hrest5 & Hf5).
    { apply getline_shrinks in Hg4. rewrite Hrest, Hrest3 in *. rewrite !string_length_app in Hfuel.
      rewrite !string_length_app in Hg4. cbn [String.length crlf] in *. lia. }
    exists s5. rewrite Happ, Hf5, Hf3, Hf2. done.
Qed.

(** A whole body. *)
Definition chunked_text (ds : list string) (t : Headers) : string :=
  chunks_text ds +:+ ("0" +:+ crlf) +:+ write_headers t.

Lemma chunked_read ds t strm hs a rest :
  I a → Forall chunkable ds → Forall sendable t → remaining strm = chunked_text ds t +:+ rest →
  ∃ s2, read_content_chunked out strm hs a
        = (Ret true, acc (join_segments ds) a, reverse (decoded <$> t) ++ hs, s2)
    ∧ remaining s2 = rest ∧ fails s2 = fails strm.
Proof.
  intros Ha Hds Ht Hs. unfold chunked_text in Hs.
  assert (Hs' : remaining strm = chunks_text ds +:+ ("0" +:+ crlf) +:+ (write_headers t +:+ rest))
    by by rewrite Hs, !string_app_assoc.
  destruct (chunks_read ds strm a _ Ha Hds Hs') as (s1 & r & Hg & Hk). unfold read_content_chunked. rewrite Hg.
  destruct (Hk (stream_fuel s1)) as (s2 & -> & Hrest2 & Hf2); [unfold stream_fuel; lia|].
  destruct (trailers_read t (S (stream_fuel s2)) s2 rest hs Ht Hrest2) as (s3 & r3 & Hg3 & Hk3). rewrite Hg3.
  assert (Hfuel : S (stream_fuel s3) = S (stream_fuel s3)) by done.
  destruct (trailers_read t (S (stream_fuel s3)) s2 rest hs Ht Hrest2) as (s3' & r3' & Hg3' & Hk3').
  rewrite Hg3 in Hg3'. simplify_eq.
  destruct Hk3' as (s4 & -> & Hrest4 & Hf4); [unfold stream_fuel; lia|].
  exists s4. by rewrite Hf4, Hf2.
Qed.

End Reading.

(** ** Writing the chunks *)

Section Speaking.
Context {W : Type}.

(** A call of a provider that writes the pieces [ds], none of them empty, and
    then returns, or says first that it is done, with a trailer or without. *)
Inductive speaks : feed W -> list string -> option Headers -> W -> Prop :=
  | speaks_more w : speaks (Return (Ret true) w) [] None w
  | speaks_write d k ds e w : d ≠ "" → speaks (k true) ds e w → speaks (SinkWrite d k) (d :: ds) e w
  | speaks_done w : speaks (SinkDone (Return (Ret true) w)) [] (Some []) w
  | speaks_trailer t w : speaks (SinkDoneWithTrailer t (Return (Ret true) w)) [] (Some t) w.

Definition extent (ds : list string) : Z := Z.of_nat (String.length (join_segments ds)).

(** [n] calls, the last of which says that it is done. *)
Inductive delivers (provider : ContentProvider W) : Z -> W -> list string -> Headers -> W -> nat -> Prop :=
  | delivers_last o w ds t w' :
      speaks (provider o 0 w) ds (Some t) w' → delivers provider o w ds t w' 1
  | delivers_more o w ds w1 ds' t w' n :
      speaks (provider o 0 w) ds None w1 → delivers provider (o + extent ds) w1 ds' t w' n →
      delivers provider o w (ds ++ ds') t w' (S n).

Lemma join_segments_app (a b : list string) :
  join_segments (a ++ b) = join_segments a +:+ join_segments b.
Proof. induction a as [|s a IH]; [done|]. cbn. by rewrite IH, string_app_assoc. Qed.

Lemma extent_cons d ds : extent (d :: ds) = Z.of_nat (String.length d) + extent ds.
Proof. unfold extent. cbn [join_segments]. rewrite string_length_app. lia. Qed.

(** What one call leaves on the connection. *)
Definition spoken (ds : list string) (e : option Headers) : string :=
  chunks_text ds +:+ match e with Some t => ("0" +:+ crlf) +:+ write_headers t | None => "" end.

Lemma write_data_open d (x : wire W) : room x = None → write_data d x = (Ret true, x <| sent ::= λ s, s +:+ d |>).
Proof. unfold write_data. by intros ->. Qed.

Lemma write_or_fail_open d p (x : wire W) :
  room x = None → write_or_fail d (p, x) = (Ret tt, (p, x <| sent ::= λ s, s +:+ d |>)).
Proof.
  intros Hx. unfold write_or_fail, mbind, M_bind, global. cbn [snd fst]. by rewrite write_data_open.
Qed.

Lemma write_trailer_open t p (x : wire W) :
  room x = None →
  (write_trailer t;; write_or_fail crlf) (p, x) = (Ret tt, (p, x <| sent ::= λ s, s +:+ write_headers t |>)).
Proof.
  revert x. induction t as [|[k v] t IH]; intros x Hx; cbn [write_trailer write_headers].
  - unfold mbind, M_bind, mret, M_ret. by apply write_or_fail_open.
  - unfold mbind, M_bind in *. rewrite write_or_fail_open by done.
    rewrite IH by done. destruct x. cbn -[crlf String.append]. by rewrite !string_app_assoc.
Qed.

Lemma finish_chunks_open t p (x : wire W) :
  room x = None → ok p = true →
  finish_chunks t (p, x)
  = (Ret tt, (p <| data_available := false |>,
              x <| sent ::= λ s, s +:+ ("0" +:+ crlf) +:+ write_headers (default [] t) |>)).
Proof.
  intros Hx Hp. unfold finish_chunks, get_ok, get_local, update_local, mbind, M_bind, mret, M_ret.
  cbn [fst snd]. rewrite Hp. cbn [negb]. rewrite write_or_fail_open by done.
  etrans; [by apply write_trailer_open|].
  destruct x. cbn -[crlf String.append]. by rewrite !string_app_assoc.
Qed.

Lemma chunked_write_open d p (x : wire W) :
  room x = None → ok p = true → d ≠ "" →
  write chunked_sink d (p, x)
  = (Ret true, (Locals (offset p + Z.of_nat (String.length d)) true true, x <| sent ::= λ s, s +:+ chunk d |>)).
Proof.
  intros Hx Hp Hd. cbn [write chunked_sink].
  unfold get_ok, get_local, update_local, mbind, M_bind, mret, M_ret. cbn [fst snd]. rewrite Hp.
  rewrite decide_False, bool_decide_eq_false_2 by done. rewrite write_or_fail_open by done.
  destruct p. cbn in Hp. by subst.
Qed.

Lemma speaks_chunks f ds e w' p (x : wire W) :
  speaks f ds e w' → room x = None → ok p = true →
  run_feed chunked_sink f (p, x)
  = (Ret true, (Locals (offset p + extent ds)
                  (match e, ds with None, [] => data_available p | None, _ => true | Some _, _ => false end) true,
                x <| sent ::= λ s, s +:+ spoken ds e |> <| world := w' |>)).
Proof.
  intros Hf. revert p x. induction Hf as [w|d k ds e w Hd _ IH|w|t w]; intros p x Hx Hp; cbn [run_feed].
  - destruct p, x. cbn in *. subst. unfold extent, spoken. cbn. by rewrite Z.add_0_r, string_app_nil_r.
  - unfold mbind, M_bind. rewrite chunked_write_open by done.
    rewrite IH by done. destruct x. cbn [offset data_available].
    rewrite extent_cons, Z.add_assoc. unfold spoken, chunks_text. cbn [fmap list_fmap join_segments].
    destruct e, ds; cbn -[crlf String.append chunk write_headers]; by rewrite ?string_app_assoc.
  - unfold mbind, M_bind. cbn [done chunked_sink]. rewrite finish_chunks_open by done.
    destruct p, x. cbn in *. subst. unfold extent. cbn. by rewrite Z.add_0_r.
  - unfold mbind, M_bind. cbn [done_with_trailer chunked_sink]. rewrite finish_chunks_open by done.
    destruct p, x. cbn in *. subst. unfold extent. cbn. by rewrite Z.add_0_r.
Qed.

(** A round of a loop that is not stopped. *)
Lemma provide_round sink provider again asked fuel p (x : wire W) st wr :
  again p = true → stopping x = false :: st → writable x = true :: wr →
  provide sink provider again asked (S fuel) (p, x)
  = (more ← call_provider sink provider asked;
     if negb more then mret Canceled
     else o ← get_ok; if negb o then mret Write else provide sink provider again asked fuel)
      (p, x <| stopping := st |> <| writable := wr |>).
Proof.
  intros Hp Hst Hwr. destruct x as [snt rm st0 wr0 w]. cbn in Hst, Hwr. subst.
  cbn [provide]. unfold mbind, M_bind, get_local, mret, M_ret. cbn [fst snd]. rewrite Hp. reflexivity.
Qed.

(** What a loop leaves on the connection. *)
Definition passed (text : string) (st wr : list bool) (w : W) (x : wire W) : wire W :=
  Wire (sent x +:+ text) (room x) st wr w.

Lemma provide_delivers provider o w ds t w' n :
  delivers provider o w ds t w' n →
  ∀ fuel x st wr, room x = None → world x = w →
    stopping x = replicate n false ++ st → writable x = replicate n true ++ wr → (n <= fuel)%nat →
    ∃ p, provide chunked_sink provider data_available (λ _, 0) fuel (Locals o true true, x)
         = (Ret Success, (p, passed (chunked_text ds t) st wr w' x)).
Proof.
  induction 1 as [o w ds t w' Hs|o w ds w1 ds' t w' n Hs Hd IH]; intros fuel x st wr Hx Hw Hst Hwr Hf;
    (destruct fuel as [|fuel]; [lia|]); subst w;
    (erewrite provide_round; [|reflexivity|exact Hst|exact Hwr]);
    unfold mbind, M_bind, call_provider, get_ok, get_local, mret, M_ret; cbn [fst snd offset].
  - destruct x as [snt rm st0 wr0 w]. cbn [update_field world] in *.
    erewrite speaks_chunks by done. cbn [negb ok fst].
    destruct fuel as [|fuel]; cbn [provide]; unfold mbind, M_bind, get_local; by eexists.
  - destruct x as [snt rm st0 wr0 w]. cbn [update_field world] in *.
    erewrite speaks_chunks by done. cbn [negb ok fst offset data_available].
    destruct (IH fuel (Wire (snt +:+ spoken ds None) rm (replicate n false ++ st) (replicate n true ++ wr) w1) st wr)
      as [p Hp]; [done..|lia|]. exists p.
    replace (match ds with [] => true | _ => true end) with true by by destruct ds.
    etrans; [exact Hp|]. unfold passed. cbn [sent room]. do 2 f_equal. f_equal.
    unfold chunked_text, spoken, chunks_text. rewrite fmap_app, join_segments_app, string_app_nil_r.
    by rewrite !string_app_assoc.
Qed.

End Speaking.

(** ** Properties *)

(** C40 (roundtrip): the chunked transfer coding of a provider's content is read
    back. A provider that delivers its content in any number of calls and any
    pieces, and then says that it is done, with a trailer or without, makes
    [write_content_chunked] succeed, with one call of the provider per round
    and no more; and [read_content_chunked] gives a receiver the whole content
    and the trailer's fields, whatever segments the text arrives in, and leaves
    what follows it. *)
Theorem chunked_content_arrives {W A} (provider : ContentProvider W) ds t w' n (x : wire W) st wr
    (out : ContentReceiverWithProgress A) (acc : string -> A -> A)
    (Hd : delivers provider 0 (world x) ds t w' n)
    (Hroom : room x = None) (Hst : stopping x = replicate n false ++ st)
    (Hwr : writable x = replicate n true ++ wr)
    (Hds : Forall chunkable ds) (Ht : Forall sendable t)
    (Hout : ∀ s off len a, out s off len a = (Ret true, acc s a)) (Hnil : ∀ a, acc "" a = a)
    (Happ : ∀ s1 s2 a, acc s2 (acc s1 a) = acc (s1 +:+ s2) a) :
  ∃ text, write_content_chunked provider x = (Ret true, passed text st wr w' x)
    ∧ ∀ strm hs a rest, remaining strm = text +:+ rest →
      ∃ strm', read_content_chunked out strm hs a
               = (Ret true, acc (join_segments ds) a, reverse (decoded <$> t) ++ hs, strm')
        ∧ remaining strm' = rest.
Proof.
  exists (chunked_text ds t). split.
  - destruct (provide_delivers _ _ _ _ _ _ _ Hd (S (length (stopping x))) x st wr) as [p Hp];
      [done..|rewrite Hst, length_app, length_replicate; lia|].
    unfold write_content_chunked, write_content_chunked_error, succeeded, run_loop, mbind, M_bind.
    by rewrite Hp.
  - intros strm hs a rest Hs. destruct (chunked_read out acc (λ _, True) ltac:(auto) ltac:(done) Hnil Happ ds t strm hs a rest
      ltac:(done) Hds Ht Hs) as (s2 & Hr & Hrest & _). by exists s2.
Qed.

(** A provider with two pieces in its first call, and one and a trailer in the
    second. *)
Definition example_provider : ContentProvider nat := λ _ _ w,
  match w with
  | O => SinkWrite "hello, " (λ _, SinkWrite "chunked" (λ _, Return (Ret true) 1%nat))
  | _ => SinkWrite " world" (λ _, SinkDoneWithTrailer [("X-Sum", "42")] (Return (Ret true) 2%nat))
  end.

Definition take_all : ContentReceiverWithProgress string := λ s _ _ a, (Ret true, a +:+ s).

Lemma chunked_content_arrives_witness :
  ∃ text, write_content_chunked example_provider (Wire "" None [false; false] [true; true] 0%nat)
          = (Ret true, passed text [] [] 2%nat (Wire "" None [false; false] [true; true] 0%nat))
    ∧ ∀ strm hs a rest, remaining strm = text +:+ rest →
      ∃ strm', read_content_chunked take_all strm hs a
               = (Ret true, a +:+ "hello, chunked world", [("X-Sum", "42")] ++ hs, strm')
        ∧ remaining strm' = rest.
Proof.
  apply (chunked_content_arrives example_provider ["hello, "; "chunked"; " world"] [("X-Sum", "42")] 2%nat 2%nat
    (Wire "" None [false; false] [true; true] 0%nat) [] [] take_all (λ s a, a +:+ s)).
  - apply (delivers_more example_provider 0 0%nat ["hello, "; "chunked"] 1%nat).
    + do 2 (apply speaks_write; [discriminate|]). apply speaks_more.
    + apply delivers_last. apply speaks_write; [discriminate|]. apply speaks_trailer.
  - reflexivity.
  - reflexivity.
  - reflexivity.
  - repeat (constructor; [split; [discriminate|vm_compute; reflexivity]|]). constructor.
  - constructor; [|constructor]. repeat split; apply (bool_decide_unpack _); vm_compute; exact I.
  - reflexivity.
  - apply string_app_nil_r.
  - intros s1 s2 a. apply string_app_assoc.
Defined.
