(* ===== verification/HttplibMessage.v ===== *)
(** * Requests, responses and routes of httplib

    The two messages as a server's handler sees them, with the operations of
    Response, and the matchers of routes. The function [is_connection_closed]
    of a request is left out. *)

From S2P Require Import Prelude Text HttplibText Regex HttplibUrl HttplibStream HttplibMultipart.
From S2P Require Import HttplibContent.

(** ** Requests and responses *)

Record Request := Req {
  method : string;
  path : string;
  params : Params;
  headers : Headers;
  body : string;
  remote_addr : string;
  remote_port : Z;
  local_addr : string;
  local_port : Z;
  version : string;
  target : string;
  files : list (string * MultipartFormData);
  ranges : Ranges;
  matches : list string;
  path_params : list (string * string)
}.

#[export] Instance Request_eta : Eta Request := λ r,
  Req (method r) (path r) (params r) (headers r) (body r) (remote_addr r) (remote_port r)
    (local_addr r) (local_port r) (version r) (target r) (files r) (ranges r) (matches r)
    (path_params r).

Definition request_default : Request := Req "" "" [] [] "" "" (-1) "" (-1) "" "" [] [] [] [].

(** The body of a response is a string or is left to a content provider; the
    releaser is called when the response is destroyed. *)
Record Response {W : Type} := Res {
  status : Z;
  res_headers : Headers;
  res_body : string;
  content_length_ : Z;
  content_provider_ : option (ContentProvider W);
  content_provider_resource_releaser_ : option (bool -> W -> W);
  is_chunked_content_provider_ : bool;
  content_provider_success_ : bool;
  file_content_path_ : string;
  file_content_content_type_ : string
}.
Arguments Response : clear implicits.

#[export] Instance Response_eta W : Eta (Response W) := λ r,
  Res W (status r) (res_headers r) (res_body r) (content_length_ r) (content_provider_ r)
    (content_provider_resource_releaser_ r) (is_chunked_content_provider_ r)
    (content_provider_success_ r) (file_content_path_ r) (file_content_content_type_ r).
Arguments Res {W}.

(** A response without provider and file. *)
Definition plain_response {W} (status : Z) (headers : Headers) (body : string) : Response W :=
  Res status headers body 0 None None false false "" "".

Definition response_default {W} : Response W := plain_response (-1) [] "".

(** [set_header] of both. *)
Definition set_header (key val : string) (headers : Headers) : Headers :=
  if is_field_name key && is_field_value val then emplace_header key val headers else headers.

Definition request_header (key : string) (req : Request) : string :=
  get_header_value (headers req) key "" 0.

Definition is_multipart_form_data (req : Request) : bool :=
  starts_with "multipart/form-data" (request_header "Content-Type" req).

(** The files of a request under a name: the first, or an empty one; all. *)
Definition has_file (key : string) (req : Request) : bool :=
  bool_decide (key ∈ (files req).*1).

Definition get_file_values (key : string) (req : Request) : list MultipartFormData :=
  (filter (λ kv, kv.1 = key) (files req)).*2.

Definition get_file_value (key : string) (req : Request) : MultipartFormData :=
  default (FormData "" "" "" "") (get_file_values key req !! 0%nat).

Definition response_has_header {W} (key : string) (res : Response W) : bool :=
  has_header (res_headers res) key.

Definition response_header_value {W} (key def : string) (id : nat) (res : Response W) : string :=
  get_header_value (res_headers res) key def id.

Definition response_header_value_count {W} (key : string) (res : Response W) : nat :=
  get_header_value_count (res_headers res) key.

Definition erase_header (key : string) (headers : Headers) : Headers :=
  filter (λ kv, case_equal kv.1 key = false) headers.

(** [headers.erase(headers.find(key))] *)
Fixpoint erase_first (key : string) (headers : Headers) : Headers :=
  match headers with
  | [] => []
  | kv :: rest => if case_equal kv.1 key then rest else kv :: erase_first key rest
  end.

Definition set_content {W} (s content_type : string) (res : Response W) : Response W :=
  res <| res_body := s |>
      <| res_headers ::= λ h, set_header "Content-Type" content_type (erase_header "Content-Type" h) |>.

Definition set_redirect {W} (url : string) (stat : Z) (res : Response W) : Response W :=
  if is_field_value url then
    res <| res_headers ::= set_header "Location" url |>
        <| status := if decide (300 <= stat < 400) then stat else 302 |>
  else res.

Definition response_set_header {W} (key val : string) (res : Response W) : Response W :=
  res <| res_headers ::= set_header key val |>.

(** The overload with a length. *)
Definition set_content_provider {W} (in_length : Z) (content_type : string) (provider : ContentProvider W)
    (resource_releaser : option (bool -> W -> W)) (res : Response W) : Response W :=
  let res := response_set_header "Content-Type" content_type res <| content_length_ := in_length |> in
  let res := if decide (0 < in_length) then res <| content_provider_ := Some provider |> else res in
  res <| content_provider_resource_releaser_ := resource_releaser |>
      <| is_chunked_content_provider_ := false |>.

(** The one without, and [set_chunked_content_provider]. *)
Definition set_unsized_content_provider {W} (chunked : bool) (content_type : string)
    (provider : ContentProviderWithoutLength W) (resource_releaser : option (bool -> W -> W))
    (res : Response W) : Response W :=
  response_set_header "Content-Type" content_type res
    <| content_length_ := 0 |> <| content_provider_ := Some (ContentProviderAdapter provider) |>
    <| content_provider_resource_releaser_ := resource_releaser |>
    <| is_chunked_content_provider_ := chunked |>.

Definition set_content_provider_without_length {W} :
    string -> ContentProviderWithoutLength W -> option (bool -> W -> W) -> Response W -> Response W :=
  set_unsized_content_provider false.

Definition set_chunked_content_provider {W} :
    string -> ContentProviderWithoutLength W -> option (bool -> W -> W) -> Response W -> Response W :=
  set_unsized_content_provider true.

(** [None]: the overload without a content type. *)
Definition set_file_content {W} (path : string) (content_type : option string) (res : Response W) : Response W :=
  let res := res <| file_content_path_ := path |> in
  match content_type with
  | Some content_type => res <| file_content_content_type_ := content_type |>
  | None => res
  end.

(** [~Response()] *)
Definition release {W} (res : Response W) (w : W) : W :=
  match content_provider_resource_releaser_ res with
  | Some resource_releaser => resource_releaser (content_provider_success_ res) w
  | None => w
  end.

(** ** Matchers *)

Definition separator : ascii := "/".

Inductive Matcher :=
  | PathParamsMatcher (static_fragments_ param_names_ : list string)
  | RegexMatcher (regex_ : regex).

(** [pattern.find(s, from)] *)
Definition find_from (s : string) (from : nat) (pattern : string) : option nat :=
  (λ n, (from + n)%nat) <$> find_string s (suffix_from from pattern).

Definition find_char_from (c : ascii) (from : nat) (pattern : string) : option nat :=
  (λ n, (from + n)%nat) <$> find c (suffix_from from pattern).

(** The loop of the constructor: the fragments and names still to come. *)
Fixpoint path_params_loop (fuel : nat) (pattern : string) (last_param_end : nat) (names : list string)
    : outcome (list string * list string) :=
  match fuel with
  | O => UB
  | S fuel =>
      match find_from "/:" (last_param_end - 1) pattern with
      | None =>
          Ret (if decide (last_param_end < String.length pattern)%nat
               then [suffix_from last_param_end pattern] else [], [])
      | Some marker_pos =>
          let fragment := substr last_param_end (marker_pos - last_param_end + 1) pattern in
          let param_name_start := (marker_pos + 2)%nat in
          let sep_pos := default (String.length pattern) (find_char_from separator param_name_start pattern) in
          let param_name := substr param_name_start (sep_pos - param_name_start) pattern in
          if decide (param_name ∈ names) then
            Throw (Exn InvalidArgument ("Encountered path parameter '" +:+ param_name
              +:+ "' multiple times in route pattern '" +:+ pattern +:+ "'."))
          else
            '(fragments, param_names) ←
              path_params_loop fuel pattern (S sep_pos) (names ++ [param_name]);
            Ret (fragment :: fragments, param_name :: param_names)
      end
  end.

(** [UB]: a regular expression outside the syntax of Regex.v. *)
Definition make_matcher (pattern : string) : outcome Matcher :=
  match find_string "/:" pattern with
  | Some _ =>
      '(fragments, names) ← path_params_loop (S (String.length pattern)) pattern 0 [];
      Ret (PathParamsMatcher fragments names)
  | None => match compile pattern with Some r => Ret (RegexMatcher r) | None => UB end
  end.

(** [std::strncmp] of the fragment's length: both stop at a NUL. *)
Definition fragment_at (fragment path : string) (starting_pos : nat) : bool :=
  bool_decide (c_str (prefix_of (String.length fragment) (suffix_from starting_pos path)) = c_str fragment).

(** The loop of [PathParamsMatcher::match] over the fragments left. *)
Fixpoint match_fragments (fragments names : list string) (path : string) (starting_pos : nat)
    (found : list (string * string)) : bool * list (string * string) :=
  match fragments with
  | [] => (bool_decide (String.length path <= starting_pos)%nat, found)
  | fragment :: fragments =>
      if decide (String.length path < starting_pos + String.length fragment)%nat then (false, found)
      else if negb (fragment_at fragment path starting_pos) then (false, found)
      else
        let starting_pos := (starting_pos + String.length fragment)%nat in
        match names with
        | [] => match_fragments fragments [] path starting_pos found
        | param_name :: names =>
            let sep_pos := default (String.length path) (find_char_from separator starting_pos path) in
            match_fragments fragments names path (S sep_pos)
              (found ++ [(param_name, substr starting_pos (sep_pos - starting_pos) path)])
        end
  end.

(** [matcher->match(request)] *)
Definition match_request (m : Matcher) (req : Request) : bool * Request :=
  match m with
  | PathParamsMatcher fragments names =>
      let '(b, found) := match_fragments fragments names (path req) 0 [] in
      (b, req <| matches := [] |> <| path_params := found |>)
  | RegexMatcher r =>
      let m := regex_match r (path req) in
      (bool_decide (is_Some m), req <| path_params := [] |> <| matches := default [] m |>)
  end.
