(* ===== verification/HttplibServer.v ===== *)
(** * The server of httplib

    The handling of one request on a connection: the request line, the headers,
    the body, the files below the mount points, the dispatch to a handler and
    the response with its byte ranges; then the connection loop. The server is
    built without TLS and compression. The settings that only reach the
    operating system (address family, time-outs, socket options) are kept and
    used no further.

    [exchange] is the state one request works on; the computations are in the
    monad [M] of the prelude, so that a handler's exception keeps what it did
    to the request and the response. A failing [assert] is [UB]: the program
    ends there. *)

From S2P Require Import Prelude Text HttplibText Regex HttplibUrl HttplibStream HttplibMultipart.
From S2P Require Import HttplibContent HttplibMessage.
Import MultipartFormDataParser (set_boundary, is_valid_).

(** ** The platform *)

Inductive file_kind := Directory | RegularFile | OtherFile.

(** What the server finds in the world, and what the library leaves to chance:
    the iteration order of a header table, and the boundary
    [make_multipart_data_boundary] draws. *)
Class Platform (W : Type) := {
  order : Headers -> Headers;
  random_boundary : string;
  file_stat : W -> string -> option file_kind;      (* [stat] on a C string *)
  mmap : W -> string -> option string               (* [None]: not open *)
}.

(** ** The server *)

Section Server.
Context {W : Type} {platform : Platform W}.

(** A handler sees the request, changes the response and the world. *)
Definition Handler : Type := Request -> M (Response W * W) unit.

Inductive HandlerResponse := Handled | Unhandled.

Definition HandlerWithResponse : Type := Request -> M (Response W * W) HandlerResponse.
Definition ExceptionHandler : Type := Request -> exn -> M (Response W * W) unit.
Definition Expect100ContinueHandler : Type := Request -> M (Response W * W) Z.
Definition Logger : Type := Request -> Response W -> M W unit.

(** The state of one request. *)
Record exchange := Exchange {
  req : Request;
  res : Response W;
  input : stream;
  out : wire W
}.

#[export] Instance exchange_eta : Eta exchange := λ x,
  Exchange (req x) (res x) (input x) (out x).

Abbreviation X := (M exchange).

(** A content reader, with a receiver for a body and with two for the parts of
    a form. The handler that has it changes the response and the world. *)
Record ContentReader := Reader {
  reader_ : (string -> M W bool) -> X bool;
  multipart_reader_ : (MultipartFormData -> M W bool) -> (string -> M W bool) -> X bool
}.

Definition HandlerWithContentReader : Type := ContentReader -> X unit.

Definition Handlers : Type := list (Matcher * Handler).
Definition HandlersForContentReader : Type := list (Matcher * HandlerWithContentReader).

Record MountPointEntry := MountPoint {
  mount_point : string;
  base_dir : string;
  mount_headers : Headers
}.

(** What the server passes on to its sockets; the time-outs are seconds and
    microseconds. [None]: [default_socket_options]. *)
Record socket_settings := SocketSettings {
  read_timeout_ : Z * Z;
  write_timeout_ : Z * Z;
  idle_interval_ : Z * Z;
  address_family_ : Z;
  tcp_nodelay_ : bool;
  ipv6_v6only_ : bool;
  socket_options_ : option (Z -> W -> W)
}.

#[export] Instance socket_settings_eta : Eta socket_settings := λ c,
  SocketSettings (read_timeout_ c) (write_timeout_ c) (idle_interval_ c) (address_family_ c)
    (tcp_nodelay_ c) (ipv6_v6only_ c) (socket_options_ c).

(** [AF_UNSPEC] of POSIX systems. *)
Definition AF_UNSPEC : Z := 0.

Definition socket_settings_default : socket_settings :=
  SocketSettings (5, 0) (5, 0) (0, 0) AF_UNSPEC false false None.

(** [header_writer_] gives what it returns and what it writes; [None] is
    [detail::write_headers]. *)
Record Server := Srv {
  get_handlers_ : Handlers;
  post_handlers_ : Handlers;
  put_handlers_ : Handlers;
  patch_handlers_ : Handlers;
  delete_handlers_ : Handlers;
  options_handlers_ : Handlers;
  post_handlers_for_content_reader_ : HandlersForContentReader;
  put_handlers_for_content_reader_ : HandlersForContentReader;
  patch_handlers_for_content_reader_ : HandlersForContentReader;
  delete_handlers_for_content_reader_ : HandlersForContentReader;
  base_dirs_ : list MountPointEntry;
  file_extension_and_mimetype_map_ : gmap string string;
  default_file_mimetype_ : string;
  file_request_handler_ : option Handler;
  error_handler_ : option HandlerWithResponse;
  exception_handler_ : option ExceptionHandler;
  pre_routing_handler_ : option HandlerWithResponse;
  post_routing_handler_ : option Handler;
  expect_100_continue_handler_ : option Expect100ContinueHandler;
  logger_ : option Logger;
  default_headers_ : Headers;
  header_writer_ : option (Headers -> Z * string);
  keep_alive_max_count_ : nat;
  keep_alive_timeout_sec_ : Z;
  payload_max_length_ : Z;
  sockets_ : socket_settings
}.

#[export] Instance Server_eta : Eta Server := λ s,
  Srv (get_handlers_ s) (post_handlers_ s) (put_handlers_ s) (patch_handlers_ s) (delete_handlers_ s)
    (options_handlers_ s) (post_handlers_for_content_reader_ s) (put_handlers_for_content_reader_ s)
    (patch_handlers_for_content_reader_ s) (delete_handlers_for_content_reader_ s) (base_dirs_ s)
    (file_extension_and_mimetype_map_ s) (default_file_mimetype_ s) (file_request_handler_ s)
    (error_handler_ s) (exception_handler_ s) (pre_routing_handler_ s) (post_routing_handler_ s)
    (expect_100_continue_handler_ s) (logger_ s) (default_headers_ s) (header_writer_ s)
    (keep_alive_max_count_ s) (keep_alive_timeout_sec_ s) (payload_max_length_ s)
    (sockets_ s).

Definition server_default : Server :=
  Srv [] [] [] [] [] [] [] [] [] [] [] ∅ "application/octet-stream" None None None None None None None
    [] None 100 5 (2^64 - 1) socket_settings_default.

(** ** Settings *)

Definition Get (pattern : string) (handler : Handler) (s : Server) : outcome Server :=
  m ← make_matcher pattern; Ret (s <| get_handlers_ ::= λ hs, hs ++ [(m, handler)] |>).

Definition Post (pattern : string) (handler : Handler) (s : Server) : outcome Server :=
  m ← make_matcher pattern; Ret (s <| post_handlers_ ::= λ hs, hs ++ [(m, handler)] |>).

Definition Put (pattern : string) (handler : Handler) (s : Server) : outcome Server :=
  m ← make_matcher pattern; Ret (s <| put_handlers_ ::= λ hs, hs ++ [(m, handler)] |>).

Definition Patch (pattern : string) (handler : Handler) (s : Server) : outcome Server :=
  m ← make_matcher pattern; Ret (s <| patch_handlers_ ::= λ hs, hs ++ [(m, handler)] |>).

Definition Delete (pattern : string) (handler : Handler) (s : Server) : outcome Server :=
  m ← make_matcher pattern; Ret (s <| delete_handlers_ ::= λ hs, hs ++ [(m, handler)] |>).

Definition Options (pattern : string) (handler : Handler) (s : Server) : outcome Server :=
  m ← make_matcher pattern; Ret (s <| options_handlers_ ::= λ hs, hs ++ [(m, handler)] |>).

Definition PostReader (pattern : string) (handler : HandlerWithContentReader) (s : Server) : outcome Server :=
  m ← make_matcher pattern;
  Ret (s <| post_handlers_for_content_reader_ ::= λ hs, hs ++ [(m, handler)] |>).

Definition PutReader (pattern : string) (handler : HandlerWithContentReader) (s : Server) : outcome Server :=
  m ← make_matcher pattern;
  Ret (s <| put_handlers_for_content_reader_ ::= λ hs, hs ++ [(m, handler)] |>).

Definition PatchReader (pattern : string) (handler : HandlerWithContentReader) (s : Server) : outcome Server :=
  m ← make_matcher pattern;
  Ret (s <| patch_handlers_for_content_reader_ ::= λ hs, hs ++ [(m, handler)] |>).

Definition DeleteReader (pattern : string) (handler : HandlerWithContentReader) (s : Server) : outcome Server :=
  m ← make_matcher pattern;
  Ret (s <| delete_handlers_for_content_reader_ ::= λ hs, hs ++ [(m, handler)] |>).

Definition set_mount_point (w : W) (mnt dir : string) (headers : Headers) (s : Server) : bool * Server :=
  match file_stat w (c_str dir) with
  | Some Directory =>
      let mnt := if decide (mnt = "") then "/" else mnt in
      if starts_with "/" mnt
      then (true, s <| base_dirs_ ::= λ es, es ++ [MountPoint mnt dir headers] |>)
      else (false, s)
  | _ => (false, s)
  end.

Definition set_base_dir (w : W) (dir mnt : string) (s : Server) : bool * Server :=
  set_mount_point w mnt dir [] s.

Fixpoint remove_entry (mnt : string) (es : list MountPointEntry) : option (list MountPointEntry) :=
  match es with
  | [] => None
  | e :: es => if decide (mount_point e = mnt) then Some es else es ← remove_entry mnt es; Some (e :: es)
  end.

Definition remove_mount_point (mnt : string) (s : Server) : bool * Server :=
  match remove_entry mnt (base_dirs_ s) with
  | Some es => (true, s <| base_dirs_ := es |>)
  | None => (false, s)
  end.

Definition set_file_extension_and_mimetype_mapping (ext mime : string) (s : Server) : Server :=
  s <| file_extension_and_mimetype_map_ ::= <[ext := mime]> |>.

Definition set_default_file_mimetype (mime : string) (s : Server) : Server :=
  s <| default_file_mimetype_ := mime |>.

Definition set_file_request_handler (handler : Handler) (s : Server) : Server :=
  s <| file_request_handler_ := Some handler |>.

(** The two overloads of [set_error_handler_core]. *)
Definition set_error_handler_with_response (handler : HandlerWithResponse) (s : Server) : Server :=
  s <| error_handler_ := Some handler |>.

Definition set_error_handler (handler : Handler) (s : Server) : Server :=
  s <| error_handler_ := Some (λ req, handler req;; mret Handled) |>.

Definition set_exception_handler (handler : ExceptionHandler) (s : Server) : Server :=
  s <| exception_handler_ := Some handler |>.

Definition set_pre_routing_handler (handler : HandlerWithResponse) (s : Server) : Server :=
  s <| pre_routing_handler_ := Some handler |>.

Definition set_post_routing_handler (handler : Handler) (s : Server) : Server :=
  s <| post_routing_handler_ := Some handler |>.

Definition set_logger (logger : Logger) (s : Server) : Server := s <| logger_ := Some logger |>.

Definition set_expect_100_continue_handler (handler : Expect100ContinueHandler) (s : Server) : Server :=
  s <| expect_100_continue_handler_ := Some handler |>.

Definition set_default_headers (headers : Headers) (s : Server) : Server :=
  s <| default_headers_ := headers |>.

Definition set_header_writer (writer : Headers -> Z * string) (s : Server) : Server :=
  s <| header_writer_ := Some writer |>.

Definition set_keep_alive_max_count (count : nat) (s : Server) : Server :=
  s <| keep_alive_max_count_ := count |>.

Definition set_keep_alive_timeout (sec : Z) (s : Server) : Server := s <| keep_alive_timeout_sec_ := sec |>.

Definition set_payload_max_length (length : Z) (s : Server) : Server := s <| payload_max_length_ := length |>.

(** The settings of the sockets. *)
Definition set_address_family (family : Z) (s : Server) : Server :=
  s <| sockets_ ::= λ c, c <| address_family_ := family |> |>.

Definition set_tcp_nodelay (on : bool) (s : Server) : Server :=
  s <| sockets_ ::= λ c, c <| tcp_nodelay_ := on |> |>.

Definition set_ipv6_v6only (on : bool) (s : Server) : Server :=
  s <| sockets_ ::= λ c, c <| ipv6_v6only_ := on |> |>.

Definition set_socket_options (socket_options : Z -> W -> W) (s : Server) : Server :=
  s <| sockets_ ::= λ c, c <| socket_options_ := Some socket_options |> |>.

Definition set_read_timeout (sec usec : Z) (s : Server) : Server :=
  s <| sockets_ ::= λ c, c <| read_timeout_ := (sec, usec) |> |>.

Definition set_write_timeout (sec usec : Z) (s : Server) : Server :=
  s <| sockets_ ::= λ c, c <| write_timeout_ := (sec, usec) |> |>.

Definition set_idle_interval (sec usec : Z) (s : Server) : Server :=
  s <| sockets_ ::= λ c, c <| idle_interval_ := (sec, usec) |> |>.

(** ** Steps of a request *)

Definition on_wire {A} (m : M (wire W) A) : X A := λ x,
  let '(r, o) := m (out x) in (r, x <| out := o |>).

(** [handler(req, res)] *)
Definition call_handler {A} (h : Request -> M (Response W * W) A) : X A := λ x,
  let '(r, (s, w)) := h (req x) (res x, world (out x)) in
  (r, x <| res := s |> <| out ::= λ o, o <| world := w |> |>).

Definition call_if_set (h : option Handler) : X unit :=
  match h with Some h => call_handler h | None => mret tt end.

(** [h && h(req, res) == HandlerResponse::Handled] *)
Definition handled_by (h : option HandlerWithResponse) : X bool :=
  match h with
  | Some h => r ← call_handler h; mret (match r with Handled => true | Unhandled => false end)
  | None => mret false
  end.

(** [res.status = n] *)
Definition set_status (n : Z) : X unit := modify (λ x, x <| res ::= λ r, r <| status := n |> |>).

(** ** Responses *)

(** Several ranges: the content type of the parts, taken from the response, the
    boundary, and the response with the content type of the whole. *)
Definition byteranges_header (req : Request) (res : Response W) : string * string * Response W :=
  if bool_decide (1 < length (ranges req))%nat && bool_decide (status res = 206) then
    (default "" (header_values "Content-Type" (res_headers res) !! 0%nat), random_boundary,
     res <| res_headers ::= λ h,
       set_header "Content-Type" ("multipart/byteranges; boundary=" +:+ random_boundary)
         (erase_first "Content-Type" h) |>)
  else ("", "", res).

Definition set_content_length (n : Z) : Response W -> Response W :=
  response_set_header "Content-Length" (to_string n).

Definition set_content_range (offset_and_length : Z * Z) (size : Z) : Response W -> Response W :=
  response_set_header "Content-Range" (make_content_range_header_field offset_and_length size).

(** [apply_ranges] on a body that is left to a provider. *)
Definition apply_ranges_to_provider (req : Request) (content_type boundary : string) (res : Response W)
    : outcome (Response W) :=
  if decide (0 < content_length_ res) then
    if decide (status res ≠ 206) then Ret (set_content_length (content_length_ res) res)
    else
      match ranges req with
      | [] => Ret (set_content_length (content_length_ res) res)
      | [r] =>
          offset_and_length ← get_range_offset_and_length r (content_length_ res);
          Ret (set_content_length offset_and_length.2
                 (set_content_range offset_and_length (content_length_ res) res))
      | rs =>
          length ← get_multipart_ranges_data_length rs boundary content_type (content_length_ res);
          Ret (set_content_length length res)
      end
  else if bool_decide (is_Some (content_provider_ res)) && is_chunked_content_provider_ res
  then Ret (response_set_header "Transfer-Encoding" "chunked" res)
  else Ret res.

(** [apply_ranges] on a body held in the response. *)
Definition apply_ranges_to_body (req : Request) (content_type boundary : string) (res : Response W)
    : outcome (Response W) :=
  let size := Z.of_nat (String.length (res_body res)) in
  res ←
    (if decide (status res ≠ 206) then Ret res
     else
       match ranges req with
       | [] => Ret res
       | [r] =>
           offset_and_length ← get_range_offset_and_length r size;
           Ret (set_content_range offset_and_length size res
                  <| res_body ::= substr (Z.to_nat offset_and_length.1) (Z.to_nat offset_and_length.2) |>)
       | rs =>
           data ← make_multipart_ranges_data rs (res_body res) boundary content_type size "";
           Ret (res <| res_body := data |>)
       end);
  Ret (set_content_length (Z.of_nat (String.length (res_body res))) res).

(** The content type of the parts, the boundary and the response. *)
Definition apply_ranges (req : Request) (res : Response W) : outcome (string * string * Response W) :=
  let '(content_type, boundary, res) := byteranges_header req res in
  res ← (if decide (res_body res = "") then apply_ranges_to_provider req content_type boundary res
         else apply_ranges_to_body req content_type boundary res);
  Ret (content_type, boundary, res).

Definition keep_alive_text (s : Server) : string :=
  "timeout=" +:+ to_string (keep_alive_timeout_sec_ s) +:+ ", max="
  +:+ to_string (Z.of_nat (keep_alive_max_count_ s)).

Definition has_content (res : Response W) : bool :=
  negb (bool_decide (res_body res = "")) || bool_decide (0 < content_length_ res)
  || bool_decide (is_Some (content_provider_ res)).

(** The additional headers of [write_response_core]. *)
Definition more_headers (s : Server) (close_connection : bool) (req : Request) (content : bool) (h : Headers)
    : Headers :=
  let h :=
    if close_connection || bool_decide (request_header "Connection" req = "close")
    then set_header "Connection" "close" h else set_header "Keep-Alive" (keep_alive_text s) h in
  let h := if content && negb (has_header h "Content-Type") then set_header "Content-Type" "text/plain" h else h in
  let h := if negb content && negb (has_header h "Content-Length") then set_header "Content-Length" "0" h else h in
  if bool_decide (method req = "HEAD") && negb (has_header h "Accept-Ranges")
  then set_header "Accept-Ranges" "bytes" h else h.

Definition additional_headers (s : Server) (close_connection : bool) (req : Request) (res : Response W)
    : Response W :=
  res <| res_headers ::= more_headers s close_connection req (has_content res) |>.

Definition write_content_with_provider (provider : ContentProvider W) (req : Request) (res : Response W)
    (boundary content_type : string) : M (wire W) bool :=
  let n := content_length_ res in
  if decide (0 < n) then
    match ranges req with
    | [] => write_content provider 0 n
    | [r] =>
        offset_and_length ← lift (get_range_offset_and_length r n);
        write_content provider offset_and_length.1 offset_and_length.2
    | rs => write_multipart_ranges_data rs boundary content_type n provider
    end
  else if is_chunked_content_provider_ res then write_content_chunked provider
  else write_content_without_length provider.

(** What [header_writer_] returns, and what it has written to the buffer. *)
Definition written_headers (s : Server) (headers : Headers) : Z * string :=
  match header_writer_ s with
  | Some writer => writer headers
  | None => let text := write_headers (order headers) in (Z.of_nat (String.length text), text)
  end.

(** The body, or the content of the provider. *)
Definition write_body (content_type boundary : string) : X bool :=
  x ← get_state;
  if bool_decide (method (req x) = "HEAD") then mret true
  else if negb (bool_decide (res_body (res x) = "")) then on_wire (write_data (res_body (res x)))
  else
    match content_provider_ (res x) with
    | None => mret true
    | Some provider =>
        ok ← on_wire (write_content_with_provider provider (req x) (res x) boundary content_type);
        (if (ok : bool) then modify (λ x, x <| res ::= λ r, r <| content_provider_success_ := true |> |>)
         else mret tt);;
        mret ok
    end.

Definition log_response (s : Server) : X unit :=
  match logger_ s with
  | Some logger => x ← get_state; call_handler (λ req, global (logger req (res x)))
  | None => mret tt
  end.

Definition write_response_core (s : Server) (close_connection need_apply_ranges : bool) : X bool :=
  x ← get_state;
  lift (if decide (status (res x) = -1) then UB else Ret tt);;
  handled ← (if decide (400 <= status (res x)) then handled_by (error_handler_ s) else mret false);
  x ← get_state;
  '(content_type, boundary, r) ←
    (if need_apply_ranges || handled then lift (apply_ranges (req x) (res x))
     else mret ("", "", res x));
  modify (λ x, x <| res := additional_headers s close_connection (req x) r |>);;
  call_if_set (post_routing_handler_ s);;
  x ← get_state;
  let '(count, text) := written_headers s (res_headers (res x)) in
  if decide (count = 0) then mret false
  else
    on_wire (write_data (write_response_line (status (res x)) +:+ text));;
    ret ← write_body content_type boundary;
    log_response s;;
    mret ret.

Definition write_response (s : Server) (close_connection : bool) : X bool :=
  modify (λ x, x <| req ::= λ r, r <| ranges := [] |> |>);;
  write_response_core s close_connection false.

Definition write_response_with_content (s : Server) (close_connection : bool) : X bool :=
  write_response_core s close_connection true.

(** ** Reading the body *)

Definition CPPHTTPLIB_MULTIPART_FORM_DATA_FILE_MAX_COUNT : nat := 1024.
Definition CPPHTTPLIB_FORM_URL_ENCODED_PAYLOAD_MAX_LENGTH : nat := 8192.

(** The content codings no decompressor is built in for. *)
Definition unsupported_encoding (encoding : string) : bool :=
  bool_decide (encoding = "gzip") || bool_decide (encoding = "deflate")
  || bool_decide (is_Some (find_string "br" encoding)) || bool_decide (encoding = "zstd").

(** [detail::read_content] on a message's headers: the result, the receiver's
    state, the headers, the stream, and the status set for [false]. *)
Definition read_content_into {A} (out : ContentReceiverWithProgress A) (progress : option (Progress A))
    (decompress : bool) (payload_max_length : Z) (headers : Headers) (strm : stream) (a : A) : outcome bool * A * Headers * stream * Z :=
  if decompress && unsupported_encoding (get_header_value headers "Content-Encoding" "" 0)
  then (Ret false, a, headers, strm, 415)
  else if is_chunked_transfer_encoding headers then (read_content_chunked out strm headers a, 400)
  else if negb (has_header headers "Content-Length") then
    let '(r, a, strm) := read_content_without_length out strm a in (r, a, headers, strm, 400)
  else
    let '(len, is_invalid_value) := get_header_value_u64 headers "Content-Length" (2^64 - 1) 0 in
    if (is_invalid_value : bool) then (Ret false, a, headers, strm, 400)
    else if decide (payload_max_length < len)
    then (Ret false, a, headers, skip_content_with_length strm len, 413)
    else if decide (0 < len)
    then let '(r, a, strm) := read_content_with_length out progress strm len a in (r, a, headers, strm, 400)
    else (Ret true, a, headers, strm, 400).

(** The three receivers [read_content_core] is given. *)
Record receivers {A : Type} := Receivers {
  receiver : string -> M A bool;
  multipart_head : MultipartFormData -> M A bool;
  multipart_receiver : string -> M A bool
}.
Arguments receivers : clear implicits.

Definition null_receiver {A B} : B -> M A bool := λ _, throw bad_function_call.

(** [out]: the parser is a local variable. *)
Definition receive {A} (multipart : bool) (rs : receivers A) (buf : string)
    : M (MultipartFormDataParser.t * A) bool :=
  if multipart then λ '(p, a),
    let '(r, p, a) := MultipartFormDataParser.parse (multipart_receiver rs) (multipart_head rs) buf p a in
    (r, (p, a))
  else global (receiver rs buf).

Definition read_content_core {A} (rs : receivers A) (s : Server) : M (A * exchange) bool := λ '(a, x),
  let r := req x in
  let refused code a x := (Ret false, (a, x <| res ::= λ r, r <| status := code |> |>)) in
  let multipart := is_multipart_form_data r in
  match (if multipart then parse_multipart_boundary (request_header "Content-Type" r) else Some "") with
  | None => refused 400 a x
  | Some boundary =>
      if bool_decide (method r = "DELETE") && negb (has_header (headers r) "Content-Length")
      then (Ret true, (a, x))
      else
        let '(result, (p, a), hs, strm, code) :=
          read_content_into (λ buf _ _, receive multipart rs buf) None true (payload_max_length_ s) (headers r) (input x)
            (set_boundary boundary, a) in
        let x := x <| req ::= λ r, r <| headers := hs |> |> <| input := strm |> in
        match result with
        | Ret true =>
            if is_multipart_form_data (req x) && negb (is_valid_ p)
            then refused 400 a x else (Ret true, (a, x))
        | Ret false => refused code a x
        | failure => (failure, (a, x))
        end
  end.

(** What the receivers of [Server::read_content] fill: the body, the files, the
    entry [cur] points to (the last one of its name) and [file_count]. *)
Record filling := Filling {
  received : string;
  parts : list (string * MultipartFormData);
  cur : option string;
  file_count : nat
}.

#[export] Instance filling_eta : Eta filling := λ r,
  Filling (received r) (parts r) (cur r) (file_count r).

(** [cur->second.content.append(buf, n)] *)
Fixpoint append_content (name data : string) (fs : list (string * MultipartFormData))
    : list (string * MultipartFormData) :=
  match fs with
  | [] => []
  | (k, f) :: rest =>
      if bool_decide (k = name) && bool_decide (name ∉ fst <$> rest)
      then (k, f <| content ::= λ c, c +:+ data |>) :: rest
      else (k, f) :: append_content name data rest
  end.

(** An iterator that has not been set must not be used. *)
Definition filling_receivers : receivers filling := {|
  receiver buf := modify (λ r, r <| received ::= λ b, b +:+ buf |>);; mret true;
  multipart_head file := λ r,
    if decide (file_count r = CPPHTTPLIB_MULTIPART_FORM_DATA_FILE_MAX_COUNT)
    then (Ret false, r <| file_count ::= S |>)
    else (Ret true, r <| file_count ::= S |> <| parts ::= emplace (file_name file) file |>
                      <| cur := Some (file_name file) |>);
  multipart_receiver buf := λ r,
    match cur r with
    | Some name => (Ret true, r <| parts ::= append_content name buf |>)
    | None => (UB, r)
    end
|}.

Definition read_content (s : Server) : X bool :=
  ok ← (λ x,
    let start := Filling (body (req x)) (files (req x)) None 0 in
    let '(r, (f, x)) := read_content_core filling_receivers s (start, x) in
    (r, x <| req ::= λ r, r <| body := received f |> <| files := parts f |> |>));
  if negb ok then mret false
  else
    x ← get_state;
    if starts_with "application/x-www-form-urlencoded" (request_header "Content-Type" (req x)) then
      if decide (CPPHTTPLIB_FORM_URL_ENCODED_PAYLOAD_MAX_LENGTH < String.length (body (req x)))%nat
      then set_status 413;; mret false
      else
        modify (λ x, x <| req ::= λ r, r <| params ::= parse_query_text (body r) |> |>);;
        mret true
    else mret true.

Definition read_content_with_content_receiver (rs : receivers W) (s : Server) : X bool := λ x,
  let '(r, (w, x)) := read_content_core rs s (world (out x), x) in
  (r, x <| out ::= λ o, o <| world := w |> |>).

(** The reader [routing] makes. *)
Definition content_reader (s : Server) : ContentReader := {|
  reader_ receiver :=
    read_content_with_content_receiver (Receivers W receiver null_receiver null_receiver) s;
  multipart_reader_ header receiver :=
    read_content_with_content_receiver (Receivers W null_receiver header receiver) s
|}.

(** ** Files *)

(** Hands out [content]; a range outside of it must not be asked for. *)
Definition file_provider (content : string) : ContentProvider W := λ offset length w,
  if decide (0 <= offset ∧ 0 <= length ∧ offset + length <= Z.of_nat (String.length content))
  then SinkWrite (substr (Z.to_nat offset) (Z.to_nat length) content) (λ _, Return (Ret true) w)
  else Return UB w.

Definition set_file_provider (s : Server) (path content_type content : string) (res : Response W) : Response W :=
  let content_type :=
    if decide (content_type = "")
    then find_content_type path (file_extension_and_mimetype_map_ s) (default_file_mimetype_ s)
    else content_type in
  set_content_provider (Z.of_nat (String.length content)) content_type (file_provider content) None res.

Definition add_headers (hs : Headers) (res : Response W) : Response W :=
  foldl (λ res kv, response_set_header kv.1 kv.2 res) res hs.

Definition update_res (f : Response W -> Response W) : X unit := modify (λ x, x <| res ::= f |>).

(** The path of a file, and the [sub_path] it comes from. *)
Definition mounted_path (e : MountPointEntry) (path : string) : option (string * string) :=
  if negb (starts_with (mount_point e) path) then None
  else
    let sub_path := "/" +:+ suffix_from (String.length (mount_point e)) path in
    if negb (is_valid_path sub_path) then None
    else
      let file := base_dir e +:+ sub_path in
      Some (sub_path, if ends_with "/" file then file +:+ "index.html" else file).

(** The loop of [handle_file_request] over the mount points. *)
Fixpoint file_request (s : Server) (head : bool) (es : list MountPointEntry) : X bool :=
  match es with
  | [] => mret false
  | e :: es =>
      x ← get_state;
      match mounted_path e (path (req x)) with
      | None => file_request s head es
      | Some (sub_path, file) =>
          match file_stat (world (out x)) (c_str file) with
          | Some Directory => update_res (set_redirect (sub_path +:+ "/") 301);; mret true
          | Some RegularFile =>
              update_res (add_headers (order (mount_headers e)));;
              match mmap (world (out x)) (c_str file) with
              | None => mret false
              | Some content =>
                  update_res (set_file_provider s file "" content);;
                  (if head then mret tt else call_if_set (file_request_handler_ s));;
                  mret true
              end
          | _ => file_request s head es
          end
      end
  end.

Definition handle_file_request (s : Server) (head : bool) : X bool := file_request s head (base_dirs_ s).

(** ** Routing *)

Definition expect_content (req : Request) : bool :=
  bool_decide (method req ∈ ["POST"; "PUT"; "PATCH"; "DELETE"])
  || (has_header (headers req) "Content-Length"
      && bool_decide (0 < (get_header_value_u64 (headers req) "Content-Length" 0 0).1))
  || is_chunked_transfer_encoding (headers req).

(** The loop of [dispatch_request] and [dispatch_request_for_content_reader]:
    the first route that matches the request as the ones before have left it. *)
Fixpoint dispatch {H} (run : H -> X unit) (handlers : list (Matcher * H)) : X bool :=
  match handlers with
  | [] => mret false
  | (matcher, handler) :: handlers =>
      x ← get_state;
      let '(matched, r) := match_request matcher (req x) in
      modify (λ x, x <| req := r |>);;
      if (matched : bool) then run handler;; mret true else dispatch run handlers
  end.

Definition dispatch_request : Handlers -> X bool := dispatch call_handler.

Definition dispatch_request_for_content_reader (s : Server) : HandlersForContentReader -> X bool :=
  dispatch (λ handler, handler (content_reader s)).

Definition handlers_for (s : Server) (method : string) : option Handlers :=
  if decide (method = "GET" ∨ method = "HEAD") then Some (get_handlers_ s)
  else if decide (method = "POST") then Some (post_handlers_ s)
  else if decide (method = "PUT") then Some (put_handlers_ s)
  else if decide (method = "DELETE") then Some (delete_handlers_ s)
  else if decide (method = "OPTIONS") then Some (options_handlers_ s)
  else if decide (method = "PATCH") then Some (patch_handlers_ s)
  else None.

Definition reader_handlers_for (s : Server) (method : string) : HandlersForContentReader :=
  if decide (method = "POST") then post_handlers_for_content_reader_ s
  else if decide (method = "PUT") then put_handlers_for_content_reader_ s
  else if decide (method = "PATCH") then patch_handlers_for_content_reader_ s
  else if decide (method = "DELETE") then delete_handlers_for_content_reader_ s
  else [].

(** The regular handlers. *)
Definition dispatch_regular (s : Server) : X bool :=
  x ← get_state;
  match handlers_for s (method (req x)) with
  | Some handlers => dispatch_request handlers
  | None => set_status 400;; mret false
  end.

(** Behind the file handler. *)
Definition route_content (s : Server) : X bool :=
  x ← get_state;
  if expect_content (req x) then
    dispatched ← dispatch_request_for_content_reader s (reader_handlers_for s (method (req x)));
    if (dispatched : bool) then mret true
    else
      ok ← read_content s;
      if negb ok then mret false else dispatch_regular s
  else dispatch_regular s.

Definition routing (s : Server) : X bool :=
  handled ← handled_by (pre_routing_handler_ s);
  if (handled : bool) then mret true
  else
    x ← get_state;
    let is_head_request := bool_decide (method (req x) = "HEAD") in
    served ← (if bool_decide (method (req x) = "GET") || is_head_request
              then handle_file_request s is_head_request else mret false);
    if (served : bool) then mret true else route_content s.

(** ** One request *)

Definition request_methods : list string :=
  ["GET"; "HEAD"; "POST"; "PUT"; "DELETE"; "CONNECT"; "OPTIONS"; "TRACE"; "PATCH"; "PRI"].

(** The callback of [split]: the first three words. *)
Definition request_words (words : list string) (r : Request) : Request :=
  let word i old := default old (words !! i) in
  r <| method ::= word 0%nat |> <| target ::= word 1%nat |> <| version ::= word 2%nat |>.

(** A refused line leaves in the request what was read of it. *)
Definition parse_request_line (s : string) (r : Request) : bool * Request :=
  let s := c_str s in
  if negb (ends_with crlf s) then (false, r)
  else
    let words := split (prefix_of (String.length s - 2) s) " " in
    let r := request_words words r in
    if decide (length words ≠ 3%nat) then (false, r)
    else if decide (method r ∉ request_methods) then (false, r)
    else if decide (version r ≠ "HTTP/1.1" ∧ version r ≠ "HTTP/1.0") then (false, r)
    else
      let r := r <| target ::= take_while (λ c, negb (bool_decide (c = "#"%char))) |> in
      let '(lhs, rhs) := divide (target r) "?" in
      (true, r <| path := decode_url lhs false |> <| params ::= parse_query_text rhs |>).

Definition CPPHTTPLIB_REQUEST_URI_MAX_LENGTH : nat := 8192.

(** The line terminators of [what()] are written out. *)
Fixpoint escape_what (s : string) : string :=
  match s with
  | EmptyString => EmptyString
  | String "013" s => "\r" +:+ escape_what s
  | String "010" s => "\n" +:+ escape_what s
  | String c s => String c (escape_what s)
  end.

Definition routed_or_500 (s : Server) : X bool :=
  try_catch (routing s) (λ e,
    match exception_handler_ s with
    | Some h => call_handler (λ req, h req e);; mret true
    | None =>
        set_status 500;;
        update_res (response_set_header "EXCEPTION_WHAT" (escape_what (c_str (what e))));;
        mret false
    end).

(** The four addresses of a connection. *)
Record addresses := Addresses { remote : string * Z; local : string * Z }.

Definition set_addresses (a : addresses) (r : Request) : Request :=
  r <| remote_addr := (remote a).1 |> <| remote_port := (remote a).2 |>
    <| local_addr := (local a).1 |> <| local_port := (local a).2 |>
    <| headers ::= λ h,
      set_header "LOCAL_PORT" (to_string (local a).2)
        (set_header "LOCAL_ADDR" (local a).1
          (set_header "REMOTE_PORT" (to_string (remote a).2)
            (set_header "REMOTE_ADDR" (remote a).1 h))) |>.

Definition closes_connection (r : Request) : bool :=
  bool_decide (request_header "Connection" r = "close")
  || (bool_decide (version r = "HTTP/1.0")
      && negb (bool_decide (request_header "Connection" r = "Keep-Alive"))).

(** The interim response to an Expect field: [false] when the handler refuses
    the request. *)
Definition continue_100 (s : Server) : X bool :=
  x ← get_state;
  if bool_decide (request_header "Expect" (req x) = "100-continue") then
    code ← (match expect_100_continue_handler_ s with Some h => call_handler h | None => mret 100 end);
    if decide (code = 100 ∨ code = 417)
    then on_wire (write_data (write_response_line code));; on_wire (write_data crlf);; mret true
    else mret false
  else mret true.

Definition clear_content (r : Response W) : Response W :=
  r <| res_body := "" |> <| content_length_ := 0 |> <| content_provider_ := None |>.

(** The content length [range_error] compares with. *)
Definition represented_length (r : Response W) : Z :=
  if decide (content_length_ r = 0) then Z.of_nat (String.length (res_body r)) else content_length_ r.

(** The response of a request that has been routed, from its ranges on. *)
Definition write_ranged (s : Server) (close_connection : bool) : X bool :=
  x ← get_state;
  match range_error (ranges (req x)) (status (res x)) (represented_length (res x)) with
  | None =>
      update_res (λ r, clear_content r <| status := 416 |>);; write_response s close_connection
  | Some rs =>
      modify (λ x, x <| req ::= λ r, r <| ranges := rs |> |>);;
      write_response_with_content s close_connection
  end.

(** The file of [set_file_content]. *)
Definition write_routed (s : Server) (close_connection : bool) : X bool :=
  x ← get_state;
  (if decide (status (res x) = -1)
   then set_status (if decide (ranges (req x) = []) then 200 else 206) else mret tt);;
  let file := file_content_path_ (res x) in
  if decide (file = "") then write_ranged s close_connection
  else
    match mmap (world (out x)) (c_str file) with
    | None => update_res (λ r, clear_content r <| status := 404 |>);; write_response s close_connection
    | Some content =>
        update_res (set_file_provider s file (file_content_content_type_ (res x)) content);;
        write_ranged s close_connection
    end.

Definition write_unrouted (s : Server) (close_connection : bool) : X bool :=
  x ← get_state;
  (if decide (status (res x) = -1) then set_status 404 else mret tt);;
  write_response s close_connection.

(** From the range header on: the request is in place. The result, and whether
    the connection is to be closed. *)
Definition answer_request (s : Server) (close_connection closed : bool) : X (bool * bool) :=
  x ← get_state;
  match (if has_header (headers (req x)) "Range"
         then parse_range_header (request_header "Range" (req x)) else Some []) with
  | None => set_status 416;; b ← write_response s close_connection; mret (b, closed)
  | Some rs =>
      modify (λ x, x <| req ::= λ r, r <| ranges := rs |> |>);;
      go ← continue_100 s;
      if negb go then b ← write_response s true; mret (b, true)
      else
        routed ← routed_or_500 s;
        b ← (if (routed : bool) then write_routed s close_connection
             else write_unrouted s close_connection);
        mret (b, closed)
  end.

(** [~Response()] of the response. *)
Definition released {A} (m : X A) : X A :=
  a ← m;
  modify (λ x, x <| out ::= λ o, o <| world ::= release (res x) |> |>);;
  mret a.

(** Behind the request line and the headers, which have been read or not. *)
Definition handle_request (s : Server) (a : addresses) (close_connection ok : bool) : X (bool * bool) :=
  x ← get_state;
  if negb ok then
    set_status 400;; b ← write_response s close_connection; mret (b, false)
  else if decide (CPPHTTPLIB_REQUEST_URI_MAX_LENGTH < String.length (target (req x)))%nat then
    modify (λ x, x <| input := (read_headers (input x) []).1.2 |>);;
    set_status 414;; b ← write_response s close_connection; mret (b, false)
  else
    modify (λ x, x <| req ::= set_addresses a |>);;
    answer_request s close_connection (closes_connection (req x)).

(** The result of [process_request] and its [connection_closed]. *)
Definition process_request (s : Server) (a : addresses) (close_connection : bool) : X (bool * bool) :=
  x ← get_state;
  match getline 2048 (input x) with
  | (false, strm, _) => modify (λ x, x <| input := strm |>);; mret (false, false)
  | (true, strm, reader) =>
      let '(parsed, r) := parse_request_line (line_ptr reader) request_default in
      let '(ok, strm, hs) :=
        if (parsed : bool) then read_headers strm [] else (false, strm, []) in
      modify (λ x, x <| req := r <| headers := hs |> |> <| input := strm |>
                     <| res := response_default <| res_headers := default_headers_ s |> |>);;
      released (handle_request s a close_connection ok)
  end.

(** ** A connection *)

(** [process_server_socket_core]: each request gets a [SocketStream] of its
    own, [arrivals] is what each of them delivers; the list ends when
    [keep_alive] gives up waiting. The result of the last request. *)
Fixpoint process_server_socket_core (s : Server) (a : addresses) (count : nat) (ret : bool)
    (arrivals : list stream) : X bool :=
  match count, arrivals with
  | S count', strm :: arrivals =>
      modify (λ x, x <| input := strm |>);;
      '(ret, connection_closed) ← process_request s a (bool_decide (count = 1%nat));
      if negb ret || connection_closed then mret ret
      else process_server_socket_core s a count' ret arrivals
  | _, _ => mret ret
  end.

Definition process_server_socket (s : Server) (a : addresses) (arrivals : list stream) : X bool :=
  if decide (keep_alive_max_count_ s = O) then lift UB
  else process_server_socket_core s a (keep_alive_max_count_ s) false arrivals.

(** A connection before its first request. *)
Definition connection (o : wire W) : exchange :=
  Exchange request_default response_default (Stream [] false) o.

End Server.

Arguments Handler : clear implicits.
Arguments Handlers : clear implicits.
Arguments Server : clear implicits.
Arguments exchange : clear implicits.
