(* ===== verification/HttplibServerProps.v ===== *)
(** * What httplib's server promises for files and ranges

    What a body that is left to a content provider gives, beside the same body
    held in the response, with byte ranges and without; the files that are
    served lie below the mount points. *)

From S2P Require Import Prelude Text TextFacts HttplibText HttplibTextProps HttplibUrl HttplibRangeProps.
From S2P Require Import HttplibStream HttplibStreamProps HttplibContent HttplibContentProps HttplibMessage HttplibServer.

(** ** A provider that has a content *)

Section Files.
Context {W : Type}.

Abbreviation size content := (Z.of_nat (String.length content)).

(** A call that writes [text], in whatever pieces, and returns. *)
Inductive hands_over : feed W -> string -> W -> Prop :=
  | hands_over_end w : hands_over (Return (Ret true) w) "" w
  | hands_over_write d k text w : hands_over (k true) text w → hands_over (SinkWrite d k) (d +:+ text) w.

(** Every call hands over what it is asked for. *)
Definition serves (content : string) (provider : ContentProvider W) : Prop := ∀ o n w,
  0 <= o → 0 < n → o + n <= size content →
  hands_over (provider o n w) (substr (Z.to_nat o) (Z.to_nat n) content) w.

Lemma file_provider_serves content : serves content (file_provider content).
Proof.
  intros o n w Ho Hn Hsize. unfold file_provider. rewrite decide_True by lia.
  rewrite <- (string_app_nil_r (substr _ _ _)) at 2. constructor. constructor.
Qed.

Lemma length_write_open d p (x : wire W) :
  room x = None → ok p = true →
  write length_sink d (p, x) = (Ret true, (advance d p, x <| sent ::= λ s, s +:+ d |>)).
Proof.
  intros Hx Hp. cbn [write length_sink].
  unfold get_ok, get_local, update_local, global, mbind, M_bind, mret, M_ret. cbn [fst snd]. rewrite Hp.
  rewrite write_data_open by done. destruct p. cbn in Hp. by subst.
Qed.

Lemma advance_nil p : advance "" p = p.
Proof. destruct p as [o av k]. unfold advance. cbn. by rewrite Z.add_0_r. Qed.

Lemma advance_app d text p : advance (d +:+ text) p = advance text (advance d p).
Proof.
  destruct p as [o av k]. unfold advance. cbn. by rewrite string_length_app, Nat2Z.inj_add, Z.add_assoc.
Qed.

Lemma hands_over_run f text w p (x : wire W) :
  hands_over f text w → room x = None → ok p = true →
  run_feed length_sink f (p, x) = (Ret true, (advance text p, x <| sent ::= λ s, s +:+ text |> <| world := w |>)).
Proof.
  intros Hf. revert p x. induction Hf as [w|d k text w _ IH]; intros p [snt rm st wr w0] Hroom Hp; cbn in Hroom; subst rm.
  - rewrite advance_nil. cbn. by rewrite string_app_nil_r.
  - cbn [run_feed]. unfold mbind at 1, M_bind at 1. rewrite length_write_open by done. rewrite IH by done.
    rewrite advance_app. cbn. by rewrite string_app_assoc.
Qed.

Lemma write_content_served content provider o n (x : wire W) st wr :
  serves content provider → 0 <= o → 0 < n → o + n <= size content →
  room x = None → stopping x = false :: st → writable x = true :: wr →
  write_content provider o n x
  = (Ret true, passed (substr (Z.to_nat o) (Z.to_nat n) content) st wr (world x) x).
Proof.
  intros Hserve Ho Hn Hsize Hroom Hst Hwr.
  unfold write_content, write_content_error, succeeded, run_loop, mbind, M_bind.
  rewrite Hst. cbn [length].
  erewrite provide_round; [|by rewrite bool_decide_eq_true_2 by (cbn; lia)|exact Hst|exact Hwr].
  unfold mbind, M_bind, call_provider. cbn [fst snd offset]. replace (o + n - o) with n by lia.
  destruct x as [snt rm st0 wr0 w]. cbn in Hroom. subst rm. cbn [update_field sent room stopping writable world].
  rewrite (hands_over_run _ (substr (Z.to_nat o) (Z.to_nat n) content) w) by (done || by apply Hserve).
  unfold get_ok, get_local. cbn [provide negb mbind M_bind fst snd].
  assert (Hend : bool_decide (offset (advance (substr (Z.to_nat o) (Z.to_nat n) content) (Locals o true true)) < o + n)
    = false) by (cbn; rewrite substr_length by lia; apply bool_decide_eq_false; lia).
  unfold mbind, M_bind, mret, M_ret, get_local. cbn [fst snd ok advance update_field negb].
  cbn in Hend. destruct (length st); cbn [provide]; unfold mbind, M_bind, get_local; cbn; by rewrite Hend.
Qed.

(** Tokens of a multipart body on a connection that holds. *)
Definition wire_token (token : string) (x : wire W) : wire W := (write_data token x).2.

Lemma multipart_header_wire boundary content_type n ol (x : wire W) :
  room x = None →
  multipart_header wire_token boundary content_type n ol x
  = x <| sent ::= λ s, s +:+ multipart_header (λ t d, d +:+ t) boundary content_type n ol "" |>.
Proof.
  intros Hx. destruct x as [snt rm st wr w]. cbn in Hx. subst. unfold multipart_header, wire_token, write_data.
  case_decide; cbn [update_field sent room stopping writable world snd]; by rewrite !string_app_assoc.
Qed.

Lemma multipart_header_data boundary content_type n ol d :
  multipart_header (λ t d, d +:+ t) boundary content_type n ol d
  = d +:+ multipart_header (λ t d, d +:+ t) boundary content_type n ol "".
Proof. unfold multipart_header. case_decide; by rewrite !string_app_assoc. Qed.

(** The parts of a body, built in a string and written by a provider. *)
Lemma multipart_parts_agree boundary content_type content provider rs s0 d0 (x : wire W) st wr :
  serves content provider → Forall (λ r, range_asserted r (size content)) rs → room x = None → sent x = s0 +:+ d0 →
  stopping x = replicate (length rs) false ++ st → writable x = replicate (length rs) true ++ wr →
  ∃ d, multipart_parts (λ t d, d +:+ t)
         (λ o n d, (Ret true, d +:+ substr (Z.to_nat o) (Z.to_nat n) content))
         boundary content_type (size content) rs d0 = (Ret true, d)
    ∧ multipart_parts wire_token (write_content provider)
        boundary content_type (size content) rs x = (Ret true, Wire (s0 +:+ d) None st wr (world x)).
Proof.
  intros Hserve Hrs. revert d0 x. induction Hrs as [|r rs Hr Hrs IH]; intros d0 x Hroom Hsent Hst Hwr; cbn [multipart_parts].
  - exists d0. split; [done|]. destruct x. cbn in *. by subst.
  - unfold get_range_offset_and_length. rewrite decide_True by done.
    unfold mbind, M_bind, lift, modify. cbn [fst snd].
    rewrite multipart_header_wire by done. rewrite multipart_header_data.
    destruct x as [snt rm st0 wr0 w]. cbn in Hroom, Hsent, Hst, Hwr. subst.
    cbn [update_field sent room stopping writable world].
    set (h := multipart_header (λ t d, d +:+ t) boundary content_type (size content) _ "").
    destruct Hr as (H1 & H2 & H3 & H4). erewrite write_content_served; [|exact Hserve|lia..|done|done|done].
    cbn [negb passed sent room stopping writable world]. unfold passed, wire_token, write_data.
    cbn [sent room stopping writable world update_field snd].
    set (d1 := ((d0 +:+ h) +:+ substr (Z.to_nat r.1) (Z.to_nat (r.2 - r.1 + 1)) content) +:+ crlf).
    destruct (IH d1 (Wire (s0 +:+ d1) None (replicate (length rs) false ++ st) (replicate (length rs) true ++ wr) w))
      as (d & Hd & Hw); [done..|].
    exists d. split; [exact Hd|]. cbn [world] in Hw. rewrite <- Hw. do 2 f_equal.
    unfold d1. by rewrite !string_app_assoc.
Qed.

Lemma multipart_data_agrees boundary content_type content rs :
  Forall (λ r, range_asserted r (size content)) rs →
  ∃ text, make_multipart_ranges_data rs content boundary content_type (size content) "" = Ret text
    ∧ get_multipart_ranges_data_length rs boundary content_type (size content) = Ret (size text)
    ∧ text ≠ ""
    ∧ ∀ provider (x : wire W) st wr, serves content provider →
        room x = None → stopping x = replicate (length rs) false ++ st →
        writable x = replicate (length rs) true ++ wr →
        write_multipart_ranges_data rs boundary content_type (size content) provider x
        = (Ret true, passed text st wr (world x) x).
Proof.
  intros Hrs. destruct (multipart_parts_length boundary content_type content rs "" Hrs) as (d & Hd & Hl).
  exists (d +:+ "--" +:+ boundary +:+ "--").
  unfold make_multipart_ranges_data, get_multipart_ranges_data_length, write_multipart_ranges_data,
    process_multipart_ranges_data, exec, mbind, M_bind. change (λ token w, (write_data token w).2) with wire_token.
  change 0 with (Z.of_nat (String.length "")). rewrite Hd, Hl. unfold modify. cbn [negb mret M_ret].
  split_and!; [by rewrite !string_app_assoc|f_equal; rewrite !string_length_app; lia|by destruct d|].
  intros provider x st wr Hserve Hroom Hst Hwr.
  destruct (multipart_parts_agree boundary content_type content provider rs (sent x) "" x st wr) as (d' & Hd' & Hw);
    [done..|by rewrite string_app_nil_r|done|done|].
  rewrite Hd in Hd'. injection Hd' as <-. rewrite Hw. unfold wire_token, passed.
  destruct x. cbn in Hroom. subst. cbn. by rewrite !string_app_assoc.
Qed.

(** ** A body or a provider *)

Context {platform : Platform W}.

(** The response [r] with a content in its body, or left to a provider. *)
Definition with_body (text : string) (r : Response W) : Response W := r <| res_body := text |>.

Definition with_content (content : string) (provider : ContentProvider W) (r : Response W) : Response W :=
  r <| content_length_ := size content |> <| content_provider_ := Some provider |>.

(** No content yet. *)
Definition bare (r : Response W) : Prop :=
  res_body r = "" ∧ content_length_ r = 0 ∧ content_provider_ r = None.

(** A server that does not touch a response once it has been routed. *)
Definition quiet_server (s : Server W) : Prop :=
  error_handler_ s = None ∧ post_routing_handler_ s = None ∧ logger_ s = None.

Lemma write_response_quiet s close (x : exchange W) :
  quiet_server s → status (res x) ≠ -1 →
  write_response_with_content s close x =
  match apply_ranges (req x) (res x) with
  | Ret (content_type, boundary, r) =>
      let r := additional_headers s close (req x) r in
      let '(count, text) := written_headers s (res_headers r) in
      if decide (count = 0) then (Ret false, x <| res := r |>)
      else
        (on_wire (write_data (write_response_line (status r) +:+ text));; write_body content_type boundary)
          (x <| res := r |>)
  | Throw e => (Throw e, x)
  | UB => (UB, x)
  end.
Proof.
  intros (He & Hp & Hl) Hst. unfold write_response_with_content, write_response_core.
  rewrite He, Hp. unfold log_response. rewrite Hl. cbn [handled_by call_if_set].
  unfold mbind, M_bind, get_state, lift, modify, mret, M_ret. rewrite decide_False by done.
  replace (if decide (400 <= status (res x)) then λ w, (Ret false, w) else λ w, (Ret false, w))
    with (λ w : exchange W, (Ret (A := bool) false, w)) by by case_decide.
  cbn [orb]. destruct (apply_ranges (req x) (res x)) as [[[ct bd] r]|e|]; [|done..].
  destruct x as [q r0 inp o]. cbn [update_field req res].
  destruct (written_headers s _) as [count text]. case_decide; [done|].
  destruct (on_wire _ _) as [[b|e|] x1]; [|done..].
  by destruct (write_body ct bd x1) as [[b'|e|] x2].
Qed.

(** What a response puts behind its header. *)
Definition body_sent (q : Request) (text : string) : string :=
  if decide (method q = "HEAD") then "" else text.

Lemma body_written q text (r : Response W) inp (o : wire W) line content_type boundary :
  room o = None → text ≠ "" →
  ∃ x', (on_wire (write_data line);; write_body content_type boundary) (Exchange q (with_body text r) inp o)
        = (Ret true, x')
    ∧ sent (out x') = sent o +:+ line +:+ body_sent q text ∧ world (out x') = world o.
Proof.
  destruct o as [snt rm st wr w]. intros Hroom Hne. cbn in Hroom. subst rm.
  unfold write_body, mbind, M_bind, on_wire, write_data, get_state, body_sent. cbn.
  destruct (decide (method q = "HEAD")) as [Hm|Hm].
  - rewrite bool_decide_eq_true_2 by done. eexists. split; [reflexivity|]. cbn. by rewrite string_app_nil_r.
  - rewrite bool_decide_eq_false_2 by done. cbn.
    rewrite bool_decide_eq_false_2 by done. eexists. split; [reflexivity|]. cbn. by rewrite !string_app_assoc.
Qed.

(** A response without content. *)
Lemma bare_written s close (x : exchange W) :
  quiet_server s → bare (res x) → status (res x) ≠ -1 → ∃ b x', write_response s close x = (Ret b, x').
Proof.
  intros (He & Hp & Hl) (Hb & _ & Hprov) Hst. unfold write_response, write_response_core.
  rewrite He, Hp. unfold log_response. rewrite Hl. cbn [handled_by call_if_set].
  unfold mbind, M_bind, get_state, lift, modify, mret, M_ret. cbn [update_field res req]. rewrite decide_False by done.
  replace (if decide (400 <= status (res x)) then λ w, (Ret false, w) else λ w, (Ret false, w))
    with (λ w : exchange W, (Ret (A := bool) false, w)) by by case_decide.
  cbn [orb]. destruct x as [q r inp o]. cbn [update_field req res] in *.
  destruct (written_headers s _) as [count text]. case_decide; [by do 2 eexists|].
  unfold on_wire, write_data. cbn [out update_field].
  destruct (room o); cbn; unfold write_body, mbind, M_bind, get_state; cbn;
    (case_bool_decide; [by do 2 eexists|]); rewrite Hb, Hprov; cbn; by do 2 eexists.
Qed.

Section Provided.
Context (content : string) (provider : ContentProvider W).
Context (Hne : content ≠ "") (Hserve : serves content provider).

Abbreviation with_provider := (with_content content provider).

Lemma substr_all : substr 0 (String.length content) content = content.
Proof using.
  unfold substr. cbn [suffix_from]. rewrite <- (string_app_nil_r content) at 2. apply prefix_of_app.
Qed.

Lemma content_positive : 0 < size content.
Proof using Hne. clear Hserve. destruct content; cbn; [done|lia]. Qed.

(** What the ranges make of the content: the whole, a part, or several. *)
Definition cut (rs : Ranges) (boundary content_type : string) : outcome string :=
  match rs with
  | [] => Ret content
  | [r] => Ret (substr (Z.to_nat r.1) (Z.to_nat (r.2 - r.1 + 1)) content)
  | rs => make_multipart_ranges_data rs content boundary content_type (size content) ""
  end.

(** The provider writes it for a request with these ranges. *)
Definition gets (q : Request) (boundary content_type text : string) : Prop :=
  text ≠ "" ∧ ∀ r (x : wire W) st wr, room x = None →
    stopping x = replicate (Nat.max 1 (length (ranges q))) false ++ st →
    writable x = replicate (Nat.max 1 (length (ranges q))) true ++ wr →
    write_content_with_provider provider q (with_provider r) boundary content_type x
    = (Ret true, passed text st wr (world x) x).

Lemma provider_writes q (r : Response W) boundary content_type :
  write_content_with_provider provider q (with_provider r) boundary content_type =
  match ranges q with
  | [] => write_content provider 0 (size content)
  | [r] =>
      offset_and_length ← lift (get_range_offset_and_length r (size content));
      write_content provider offset_and_length.1 offset_and_length.2
  | rs => write_multipart_ranges_data rs boundary content_type (size content) provider
  end.
Proof using Hne.
  unfold write_content_with_provider. change (content_length_ (with_provider r)) with (size content).
  by rewrite decide_True by apply content_positive.
Qed.

Lemma gets_cut q boundary content_type :
  Forall (λ r, range_asserted r (size content)) (ranges q) →
  ∃ text, cut (ranges q) boundary content_type = Ret text ∧ gets q boundary content_type text.
Proof using Hne Hserve.
  pose proof content_positive as Hsize. intros Hres. unfold gets.
  destruct (ranges q) as [|rg [|rg2 rgs]] eqn:Hrg.
  - exists content. split_and!; [done..|]. intros r x st wr Hroom Hst Hwr. cbn in Hst, Hwr. rewrite provider_writes, Hrg.
    erewrite write_content_served; [|exact Hserve|lia..|exact Hroom|exact Hst|exact Hwr]. rewrite Nat2Z.id.
    change (Z.to_nat 0) with 0%nat. by rewrite substr_all.
  - apply Forall_inv in Hres. eexists. split; [done|]. destruct Hres as (H1 & H2 & H3 & H4). split.
    + intros He. apply (f_equal String.length) in He. rewrite substr_length in He by lia. cbn in He. lia.
    + intros r x st wr Hroom Hst Hwr. cbn in Hst, Hwr. rewrite provider_writes, Hrg.
      unfold get_range_offset_and_length, mbind, M_bind, lift.
      rewrite (decide_True (P := range_asserted _ _)) by exact (conj H1 (conj H2 (conj H3 H4))).
      apply write_content_served; [exact Hserve|cbn; lia..|done|done|done].
  - destruct (multipart_data_agrees boundary content_type content _ Hres) as (text & Ht & _ & Htne & Hw).
    exists text. split_and!; [exact Ht|done|]. intros r x st wr Hroom Hst Hwr. rewrite provider_writes, Hrg. by apply Hw.
Qed.

Definition with_headers (hs : Headers) (r : Response W) : Response W := r <| res_headers := hs |>.

(** The two branches of [apply_ranges] set the same headers; the body is cut
    with the status 206 only, and what the provider will write always. *)
Lemma ranges_agree q boundary content_type (r : Response W) :
  bare r → Forall (λ r, range_asserted r (size content)) (ranges q) →
  ∃ hs text,
    cut (ranges q) boundary content_type = Ret text ∧ gets q boundary content_type text
    ∧ apply_ranges_to_body q content_type boundary (with_body content r)
      = Ret (with_body (if decide (status r = 206) then text else content) (with_headers hs r))
    ∧ apply_ranges_to_provider q content_type boundary (with_provider r)
      = Ret (with_provider (with_headers hs r)).
Proof using Hne Hserve.
  destruct r as [code h body n prov rel chunked succ fp fct]. intros (Hb & Hn & Hprov) Hres.
  cbn in Hb, Hn, Hprov. subst. pose proof content_positive as Hsize.
  destruct (gets_cut q boundary content_type Hres) as (text & Hcut & Hgets).
  enough (∃ hs, apply_ranges_to_body q content_type boundary (with_body content _)
      = Ret (with_body (if decide (code = 206) then text else content) (with_headers hs _))
    ∧ apply_ranges_to_provider q content_type boundary (with_provider _) = Ret (with_provider (with_headers hs _)))
    as (hs & H1 & H2) by (exists hs, text; by split_and!).
  unfold apply_ranges_to_body, apply_ranges_to_provider. cbn.
  rewrite (decide_True (P := 0 < size content)) by done.
  destruct (decide (code = 206)) as [->|Hcode].
  - rewrite (decide_False (P := ¬ _)) by tauto. destruct (ranges q) as [|rg [|rg2 rgs]] eqn:Hrg.
    + injection Hcut as <-. eexists. split; reflexivity.
    + apply Forall_inv in Hres. unfold get_range_offset_and_length. injection Hcut as <-.
      rewrite (decide_True (P := range_asserted _ _)) by done. cbn. eexists.
      split; [done|]. destruct Hres as (H1 & H2 & H3 & H4). by rewrite substr_length, Z2Nat.id by lia.
    + destruct (multipart_data_agrees boundary content_type content _ Hres) as (text' & Ht & Hl & _).
      cbn [cut] in Hcut. rewrite Hcut in Ht. injection Ht as <-. rewrite Hcut, Hl. cbn. eexists. split; reflexivity.
  - rewrite (decide_True (P := ¬ _)) by tauto. cbn. rewrite (decide_True (P := code ≠ 206)) by done.
    eexists. split; reflexivity.
Qed.

(** What [apply_ranges] makes of both, and what the provider then writes. *)
Lemma apply_ranges_agree q (r : Response W) :
  bare r → Forall (λ r, range_asserted r (size content)) (ranges q) →
  ∃ content_type boundary hs text,
    (status r ≠ 206 → content_type = "" ∧ boundary = "")
    ∧ cut (ranges q) boundary content_type = Ret text ∧ gets q boundary content_type text
    ∧ apply_ranges q (with_body content r)
      = Ret (content_type, boundary, with_body (if decide (status r = 206) then text else content) (with_headers hs r))
    ∧ apply_ranges q (with_provider r)
      = Ret (content_type, boundary, with_provider (with_headers hs r)).
Proof using Hne Hserve.
  intros Hb Hres. unfold apply_ranges.
  assert (Hh : ∃ content_type boundary hs,
    (status r ≠ 206 → content_type = "" ∧ boundary = "")
    ∧ byteranges_header q (with_body content r) = (content_type, boundary, with_body content (with_headers hs r))
    ∧ byteranges_header q (with_provider r)
      = (content_type, boundary, with_provider (with_headers hs r))).
  { unfold byteranges_header. cbn [with_body with_provider status update_field].
    destruct (_ && bool_decide (_ = 206)) eqn:H206.
    - apply andb_prop in H206 as [_ H206%bool_decide_eq_true]. do 3 eexists. split; [done|]. split; reflexivity.
    - exists "", "", (res_headers r). by destruct r. }
  destruct Hh as (ct & bd & hs & H206 & -> & ->). cbn [with_body with_provider with_headers res_body update_field].
  rewrite decide_False by done. rewrite decide_True by apply Hb.
  destruct (ranges_agree q bd ct (with_headers hs r)) as (hs' & text & Hcut & Hgets & H1 & H2); [done..|].
  exists ct, bd, hs', text. split_and!; [done..| |].
  - by etrans; [apply (f_equal (λ o, res ← o; Ret (ct, bd, res)) H1)|].
  - by etrans; [apply (f_equal (λ o, res ← o; Ret (ct, bd, res)) H2)|].
Qed.

Lemma has_content_of text (r : Response W) :
  text ≠ "" → has_content (with_body text r) = true ∧ has_content (with_provider r) = true.
Proof using Hne.
  intros Ht. unfold has_content. cbn. rewrite (bool_decide_eq_false_2 (text = "")) by done. split; [done|].
  rewrite (bool_decide_eq_true_2 (0 < size content)) by by apply content_positive. by rewrite orb_true_r.
Qed.

Lemma provider_written q text (r : Response W) inp (o : wire W) line content_type boundary st wr :
  let n := Nat.max 1 (length (ranges q)) in
  room o = None → stopping o = replicate n false ++ st → writable o = replicate n true ++ wr →
  res_body r = "" → gets q boundary content_type text →
  ∃ x', (on_wire (write_data line);; write_body content_type boundary) (Exchange q (with_provider r) inp o)
        = (Ret true, x')
    ∧ sent (out x') = sent o +:+ line +:+ body_sent q text ∧ world (out x') = world o.
Proof using.
  cbv zeta. destruct o as [snt rm st0 wr0 w]. intros Hroom Hst Hwr Hb [_ Hw].
  cbn [room stopping writable] in *. subst rm st0 wr0. unfold mbind at 1, M_bind at 1.
  unfold on_wire at 1, write_data at 1. cbn [out room update_field sent stopping writable world].
  unfold write_body, get_state, mbind, M_bind, body_sent. cbn [req res out input].
  destruct (decide (method q = "HEAD")) as [Hm|Hm].
  - rewrite bool_decide_eq_true_2 by done. eexists. split; [reflexivity|]. cbn. by rewrite string_app_nil_r.
  - rewrite bool_decide_eq_false_2 by done.
    change (res_body (with_provider r)) with (res_body r).
    rewrite (bool_decide_eq_true_2 (res_body r = "")) by done. cbn [negb].
    change (content_provider_ (with_provider r)) with (Some provider). cbv iota. unfold on_wire. cbn [out].
    rewrite (Hw r (Wire (snt +:+ line) None _ _ w) st wr) by done. eexists. split; [reflexivity|].
    cbn. by rewrite !string_app_assoc.
Qed.

(** The two responses, for ranges that [range_error] has resolved. *)
Lemma resolved_responses s close (x : exchange W) st wr :
  let n := Nat.max 1 (length (ranges (req x))) in
  quiet_server s → bare (res x) → status (res x) ≠ -1 →
  Forall (λ r, range_asserted r (size content)) (ranges (req x)) → room (out x) = None →
  stopping (out x) = replicate n false ++ st → writable (out x) = replicate n true ++ wr →
  ∃ b x1 x2 text boundary content_type,
    write_response_with_content s close (x <| res ::= with_body content |>) = (Ret b, x1)
    ∧ write_response_with_content s close (x <| res ::= with_provider |>) = (Ret b, x2)
    ∧ world (out x1) = world (out x2)
    ∧ (status (res x) ≠ 206 → content_type = "" ∧ boundary = "")
    ∧ cut (ranges (req x)) boundary content_type = Ret text
    ∧ if b : bool then ∃ head,
        sent (out x1) = sent (out x) +:+ head
          +:+ body_sent (req x) (if decide (status (res x) = 206) then text else content)
        ∧ sent (out x2) = sent (out x) +:+ head +:+ body_sent (req x) text
      else sent (out x1) = sent (out x2).
Proof using Hne Hserve.
  cbv zeta. intros Hs Hb Hcode Hres Hroom Hst Hwr.
  destruct (apply_ranges_agree (req x) (res x) Hb Hres) as (ct & bd & hs & text & H206 & Hcut & Hgets & H1 & H2).
  rewrite !write_response_quiet by done. destruct x as [q r inp [snt rm st0 wr0 w]].
  cbn [req res out update_field room stopping writable sent world] in *. subst rm st0 wr0. rewrite H1, H2.
  set (whole := if decide (status r = 206) then text else content).
  assert (Hwhole : whole ≠ "") by (unfold whole; case_decide; [apply Hgets|done]).
  unfold additional_headers.
  destruct (has_content_of whole (with_headers hs r) Hwhole) as [-> ->].
  set (h := more_headers s close q true hs).
  change ((with_body whole (with_headers hs r)) <| res_headers ::= more_headers s close q true |>)
    with (with_body whole (with_headers h r)).
  change ((with_provider (with_headers hs r)) <| res_headers ::= more_headers s close q true |>)
    with (with_provider (with_headers h r)).
  change (res_headers (with_body whole (with_headers h r))) with h.
  change (res_headers (with_provider (with_headers h r))) with h.
  destruct (written_headers s h) as [count heads]. destruct (decide (count = 0)).
  { exists false. do 2 eexists. exists text, bd, ct. by split_and!. }
  change (status (with_body whole (with_headers h r))) with (status r).
  change (status (with_provider (with_headers h r))) with (status r).
  set (line := write_response_line (status r) +:+ heads).
  set (o := Wire snt None _ _ w).
  destruct (body_written q whole (with_headers h r) inp o line ct bd eq_refl Hwhole) as (x1 & Hx1 & Hs1 & Hw1).
  destruct (provider_written q text (with_headers h r) inp o line ct bd st wr)
    as (x2 & Hx2 & Hs2 & Hw2); [done..|apply Hb|done|].
  exists true, x1, x2, text, bd, ct. split_and!; [exact Hx1|exact Hx2|by rewrite Hw1, Hw2|done..|].
  exists line. by split.
Qed.

(** C38 (equivalence): on a server without hooks, a content left to a provider
    that hands over what it is asked for, beside the same content held in the
    body. With no ranges, with the status 206 and with ranges that are refused
    the two responses are the same byte for byte: headers, Content-Length and
    Content-Range, and the body, whole, cut to a range, or in the parts of
    several ranges. With ranges and another successful status, which only a
    handler sets, they differ: the header is the same and announces the whole
    content, which the body holds, but the provider is asked for the ranges
    only. *)
Theorem provider_answers_as_body s close (x : exchange W) st wr :
  let n := Nat.max 1 (length (ranges (req x))) in
  quiet_server s → bare (res x) → status (res x) ≠ -1 → room (out x) = None →
  stopping (out x) = replicate n false ++ st → writable (out x) = replicate n true ++ wr →
  ranges (req x) = [] ∨ 200 <= status (res x) < 300 →
  ∃ b x1 x2,
    write_ranged s close (x <| res ::= with_body content |>) = (Ret b, x1)
    ∧ write_ranged s close (x <| res ::= with_provider |>) = (Ret b, x2)
    ∧ world (out x1) = world (out x2)
    ∧ match range_error (ranges (req x)) (status (res x)) (size content) with
      | Some rs =>
          if decide (b = true ∧ rs ≠ [] ∧ status (res x) ≠ 206) then
            ∃ head text, cut rs "" "" = Ret text
              ∧ sent (out x1) = sent (out x) +:+ head +:+ body_sent (req x) content
              ∧ sent (out x2) = sent (out x) +:+ head +:+ body_sent (req x) text
          else sent (out x1) = sent (out x2)
      | None => sent (out x1) = sent (out x2)
      end.
Proof using Hne Hserve.
  cbv zeta. intros Hs Hb Hcode Hroom Hst Hwr Hok. unfold write_ranged, mbind, M_bind, get_state.
  assert (Hl : represented_length (with_body content (res x)) = size content
    ∧ represented_length (with_provider (res x)) = size content).
  { unfold represented_length. cbn. destruct Hb as (_ & -> & _). rewrite decide_True by done. split; [done|].
    pose proof content_positive. by rewrite decide_False by lia. }
  destruct Hl as [Hl1 Hl2]. destruct x as [q r inp o]. cbn [req res out update_field] in *. rewrite Hl1, Hl2.
  change (status (with_body content r)) with (status r). change (status (with_provider r)) with (status r).
  destruct (range_error (ranges q) (status r) (size content)) as [rs|] eqn:Hr.
  - assert (Hrs : Forall (λ r, range_asserted r (size content)) rs ∧ length rs = length (ranges q)).
    { unfold range_error in Hr. case_decide as Hany.
      - case_decide; [done|]. apply resolve_ranges_in_order in Hr as (Hord & Hlen & _); [|lia].
        split; [by eapply in_order_asserted|done].
      - injection Hr as <-. destruct (ranges q); [done|]. destruct Hany, Hok; by split. }
    destruct Hrs as [Hasserted Hlen]. set (q' := q <| ranges := rs |>).
    destruct (resolved_responses s close (Exchange q' r inp o) st wr)
      as (b & x1 & x2 & text & bd & ct & H1 & H2 & Hw & H206 & Hcut & Hsent); [done..|cbn; by rewrite Hlen|cbn; by rewrite Hlen|].
    exists b, x1, x2. split_and!; [exact H1|exact H2|exact Hw|]. cbn [req res out ranges update_field] in *.
    destruct (decide (b = true ∧ rs ≠ [] ∧ status r ≠ 206)) as [(-> & _ & Hc)|Hc].
    + destruct (H206 Hc) as [-> ->]. rewrite decide_False in Hsent by done.
      destruct Hsent as (head & Hs1 & Hs2). by exists head, text.
    + destruct b; [|done]. destruct Hsent as (head & -> & ->). case_decide; [done|].
      destruct rs; [by injection Hcut as ->|]. by destruct Hc.
  - destruct (bare_written s close (Exchange q (r <| status := 416 |>) inp o)) as (b & x' & Hx'); [done..|].
    exists b, x', x'. destruct r as [code h body n prov rel chunked succ fp fct]. destruct Hb as (Hb1 & Hb2 & Hb3).
    cbn in Hb1, Hb2, Hb3. subst. split_and!; [exact Hx'|exact Hx'|done..].
Qed.

End Provided.

(** ** Files below the mount points *)

Lemma mounted_path_safe e path sub file :
  mounted_path e path = Some (sub, file) →
  path = mount_point e +:+ suffix_from (String.length (mount_point e)) path
  ∧ sub = "/" +:+ suffix_from (String.length (mount_point e)) path
  ∧ all_of path_char sub = true ∧ is_Some (path_level sub)
  ∧ (file = base_dir e +:+ sub ∨ file = base_dir e +:+ sub +:+ "index.html").
Proof.
  unfold mounted_path. destruct (starts_with (mount_point e) path) eqn:Hs; [|done]. cbn [negb].
  apply starts_with_true in Hs. set (rest := suffix_from _ path) in *.
  destruct (is_valid_path ("/" +:+ rest)) eqn:Hv; [|done]. cbn [negb]. intros [= <- <-].
  rewrite is_valid_path_level in Hv. apply andb_prop in Hv as [Hc Hl%bool_decide_eq_true].
  split_and!; [done..|]. destruct (ends_with _ _); [right; by rewrite string_app_assoc|by left].
Qed.

(** [x'] is what the file request leaves of [x]: a redirect to a directory or
    the content of a file, the directory [base_dir e] of a mount point followed
    by what follows the mount point in the request's path. *)
Definition served_below (s : Server W) (x x' : exchange W) : Prop :=
  ∃ e sub file, e ∈ base_dirs_ s
    ∧ path (req x) = mount_point e +:+ suffix_from (String.length (mount_point e)) (path (req x))
    ∧ sub = "/" +:+ suffix_from (String.length (mount_point e)) (path (req x))
    ∧ all_of path_char sub = true ∧ is_Some (path_level sub)
    ∧ (file = base_dir e +:+ sub ∨ file = base_dir e +:+ sub +:+ "index.html")
    ∧ (file_stat (world (out x)) (c_str file) = Some Directory
         ∧ x' = x <| res ::= set_redirect (sub +:+ "/") 301 |>
       ∨ file_stat (world (out x)) (c_str file) = Some RegularFile
         ∧ ∃ content, mmap (world (out x)) (c_str file) = Some content
           ∧ x' = x <| res ::= add_headers (order (mount_headers e)) |>
                    <| res ::= set_file_provider s file "" content |>).

(** C39 (safety): a file is served from below a mount point only. Whatever the path
    of the request, the file that is asked for is the directory of a mount
    point followed by a path without NUL and backslash no prefix of which
    leads above that directory, or the [index.html] in it; a directory is
    answered with a redirect, a file that can be opened with its content. *)
Theorem served_files_below_mounts s head (x x' : exchange W)
    (Hh : file_request_handler_ s = None) (Hrun : handle_file_request s head x = (Ret true, x')) :
  served_below s x x'.
Proof.
  unfold served_below. unfold handle_file_request in Hrun. revert Hrun. generalize (base_dirs_ s) as es.
  induction es as [|e es IH]; cbn [file_request]; [done|].
  unfold mbind, M_bind, get_state. destruct (mounted_path e (path (req x))) as [[sub file]|] eqn:Hm.
  2: { intros Hrun. destruct (IH Hrun) as (e' & sub & file & He & Hrest). exists e', sub, file.
       split; [by right|exact Hrest]. }
  destruct (mounted_path_safe _ _ _ _ Hm) as (H1 & H2 & H3 & H4 & H5).
  destruct (file_stat (world (out x)) (c_str file)) as [[| |]|] eqn:Hf.
  - cbn. intros [= <-]. exists e, sub, file. split_and!; [by left|done..|]. by left.
  - unfold update_res, modify. cbn [mret M_ret].
    destruct (mmap (world (out x)) (c_str file)) as [content|] eqn:Hc; [|done].
    assert (Hhead : (if head then mret tt else call_if_set (file_request_handler_ s)) = mret (M := M (exchange W)) tt)
      by (rewrite Hh; by destruct head).
    rewrite Hhead. cbn. intros [= <-]. exists e, sub, file. split_and!; [by left|done..|]. right. eauto.
  - intros Hrun. destruct (IH Hrun) as (e' & sub' & file' & He & Hrest). exists e', sub', file'.
    split; [by right|exact Hrest].
  - intros Hrun. destruct (IH Hrun) as (e' & sub' & file' & He & Hrest). exists e', sub', file'.
    split; [by right|exact Hrest].
Qed.

End Files.

(** ** A directory with one file *)

Definition example_files : Platform unit := {|
  order h := h;
  random_boundary := "b";
  file_stat _ path :=
    if decide (path = "/srv/a.txt") then Some RegularFile
    else if decide (path = "/srv//d") then Some Directory else None;
  mmap _ path := if decide (path = "/srv/a.txt") then Some "hello world" else None
|}.

Definition example_mounts (mnt : string) : Server unit :=
  server_default <| base_dirs_ := [MountPoint mnt "/srv" []] |>.

Definition example_get (path : string) (rs : Ranges) (code : Z) : exchange unit :=
  Exchange (request_default <| method := "GET" |> <| HttplibMessage.path := path |> <| ranges := rs |>)
    (plain_response code [] "") (Stream [] false)
    (Wire "" None [false; false] [true; true] tt).

Definition example_served : exchange unit :=
  (handle_file_request (platform := example_files) (example_mounts "/") false (example_get "/a.txt" [] (-1))).2.

Lemma served_files_below_mounts_witness :
  res_headers (res example_served) = [("Content-Type", "text/plain")]
  ∧ content_length_ (res example_served) = 11
  ∧ served_below (platform := example_files) (example_mounts "/") (example_get "/a.txt" [] (-1)) example_served.
Proof.
  split; [vm_compute; reflexivity|]. split; [vm_compute; reflexivity|].
  apply (served_files_below_mounts (platform := example_files) (example_mounts "/") false
    (example_get "/a.txt" [] (-1)) example_served); reflexivity.
Defined.

(** Two ranges of a file, and a range of it with a status the handler has set. *)
Lemma provider_answers_as_body_witness :
  let partial := example_get "/a.txt" [(0, 3); (6, 10)] 206 in
  let whole := example_get "/a.txt" [(0, 3)] 200 in
  let provided := with_content "hello world" (file_provider "hello world") in
  (∃ b x1 x2,
    write_ranged (platform := example_files) server_default false (partial <| res ::= with_body "hello world" |>) = (Ret b, x1)
    ∧ write_ranged (platform := example_files) server_default false (partial <| res ::= provided |>) = (Ret b, x2)
    ∧ sent (out x1) = sent (out x2))
  ∧ ∃ x1 x2 head,
    write_ranged (platform := example_files) server_default false (whole <| res ::= with_body "hello world" |>) = (Ret true, x1)
    ∧ write_ranged (platform := example_files) server_default false (whole <| res ::= provided |>) = (Ret true, x2)
    ∧ sent (out x1) = head +:+ "hello world" ∧ sent (out x2) = head +:+ "hell".
Proof.
  cbv zeta. split.
  - destruct (provider_answers_as_body (platform := example_files) "hello world" (file_provider "hello world")
      ltac:(discriminate) (file_provider_serves _) server_default false (example_get "/a.txt" [(0, 3); (6, 10)] 206) [] [])
      as (b & x1 & x2 & H1 & H2 & _ & Hs); try reflexivity; [by split_and!|by split_and!|discriminate|by right|].
    change (range_error _ _ _) with (Some [(0, 3); (6, 10)]) in Hs. cbv iota in Hs.
    rewrite decide_False in Hs by (by intros (_ & _ & [])).
    exists b, x1, x2. exact (conj H1 (conj H2 Hs)).
  - destruct (provider_answers_as_body (platform := example_files) "hello world" (file_provider "hello world")
      ltac:(discriminate) (file_provider_serves _) server_default false (example_get "/a.txt" [(0, 3)] 200) [false] [true])
      as (b & x1 & x2 & H1 & H2 & _ & Hs); try reflexivity; [by split_and!|by split_and!|discriminate|by right|].
    assert (b = true) as -> by (vm_compute in H1; congruence).
    change (range_error _ _ _) with (Some [(0, 3)]) in Hs. cbv iota in Hs. rewrite decide_True in Hs by done.
    destruct Hs as (head & text & Hcut & Hs1 & Hs2). injection Hcut as <-. exists x1, x2, head.
    split; [exact H1|]. split; [exact H2|]. split; [exact Hs1|exact Hs2].
Defined.

(** (error): the redirect for a directory has lost the mount point. Below a
    mount point without a slash at its end the target begins with two slashes,
    which a client reads as the name of another host. *)
Example redirect_leaves_the_host :
  res_headers (res (handle_file_request (platform := example_files) (example_mounts "/files") false
    (example_get "/files/d" [] (-1))).2) = [("Location", "//d/")].
Proof. vm_compute. reflexivity. Qed.

(** (error): a handler that sets the status 200 itself and leaves the content to
    a provider announces the whole content for a request with a range, and
    sends the range. *)
Example announced_length_is_not_sent :
  let x := (write_response_with_content (platform := example_files) server_default false
    ((example_get "/a.txt" [(0, 3)] 200) <| res ::= with_content "hello world" (file_provider "hello world") |>)).2 in
  header_values "Content-Length" (res_headers (res x)) = ["11"] ∧ ends_with (crlf +:+ "hell") (sent (out x)) = true.
Proof. vm_compute. done. Qed.

(** (error): with any status but a successful one the ranges have not been
    resolved, and the assertion of [get_range_offset_and_length] fails. *)
Example unresolved_range_aborts :
  (write_routed (platform := example_files) server_default false
    ((example_get "/a.txt" [(-1, 5)] 404) <| res ::= with_content "hello world" (file_provider "hello world") |>)).1 = UB.
Proof. vm_compute. reflexivity. Qed.
