(* ===== verification/HttplibSafety.v ===== *)
(** * httplib's server processes every request to its end

    The handling of a request never fails an assertion, never uses an iterator
    that is not set and lets no exception out, whatever bytes the client sends,
    if the handlers fill the body of their responses (and leave no content to a
    provider or a file) and there are no error and expect-continue handlers. *)

From S2P Require Import Prelude Text HttplibText HttplibUrl HttplibRangeProps HttplibStream HttplibMultipart.
From S2P Require Import HttplibContent HttplibMessage HttplibServer HttplibServerProps.

(** ** Computations that return *)

(** Started in [P], [m] returns, in [Q]. *)
Definition returns {S A} (P : S -> Prop) (m : M S A) (Q : A -> S -> Prop) : Prop :=
  ∀ s, P s → ∃ a s', m s = (Ret a, s') ∧ Q a s'.

(** It may also throw, in [E]. *)
Definition no_ub {S A} (P : S -> Prop) (m : M S A) (Q : A -> S -> Prop) (E : S -> Prop) : Prop :=
  ∀ s, P s → match m s with (Ret a, s') => Q a s' | (Throw _, s') => E s' | (UB, _) => False end.

Section Rules.
Context {S : Type}.
Implicit Types P : S -> Prop.

Lemma returns_ret {A} P (a : A) (Q : A -> S -> Prop) : (∀ s, P s → Q a s) → returns P (mret a) Q.
Proof. intros H s Hs. exists a, s. split; [done|by apply H]. Qed.

Lemma returns_get P (Q : S -> S -> Prop) : (∀ s, P s → Q s s) → returns P get_state Q.
Proof. intros H s Hs. exists s, s. split; [done|by apply H]. Qed.

Lemma returns_modify P f (Q : unit -> S -> Prop) : (∀ s, P s → Q tt (f s)) → returns P (modify f) Q.
Proof. intros H s Hs. exists tt, (f s). split; [done|by apply H]. Qed.

Lemma returns_bind {A B} P R (Q : B -> S -> Prop) (m : M S A) (k : A -> M S B) :
  returns P m R → (∀ a, returns (R a) (k a) Q) → returns P (m ≫= k) Q.
Proof.
  intros Hm Hk s Hs. destruct (Hm s Hs) as (a & s1 & Heq & Hr). destruct (Hk a s1 Hr) as (b & s2 & Heq2 & Hq).
  exists b, s2. split; [|done]. unfold mbind, M_bind. by rewrite Heq.
Qed.

Lemma returns_weaken {A} P P' (Q Q' : A -> S -> Prop) (m : M S A) :
  returns P m Q → (∀ s, P' s → P s) → (∀ a s, Q a s → Q' a s) → returns P' m Q'.
Proof. intros Hm HP HQ s Hs. destruct (Hm s (HP s Hs)) as (a & s' & ? & ?). exists a, s'. auto. Qed.

Lemma no_ub_returns {A} P (m : M S A) Q E : returns P m Q → no_ub P m Q E.
Proof. intros Hm s Hs. by destruct (Hm s Hs) as (a & s' & -> & Hq). Qed.

Lemma no_ub_bind {A B} P R Q E (m : M S A) (k : A -> M S B) :
  no_ub P m R E → (∀ a, no_ub (R a) (k a) Q E) → no_ub P (m ≫= k) Q E.
Proof.
  intros Hm Hk s Hs. specialize (Hm s Hs). unfold mbind, M_bind.
  destruct (m s) as [[a|e|] s1]; [|done..]. by apply Hk.
Qed.

Lemma returns_catch {A} P (Q : A -> S -> Prop) E (m : M S A) h :
  no_ub P m Q E → (∀ e, returns E (h e) Q) → returns P (try_catch m h) Q.
Proof.
  intros Hm Hh s Hs. specialize (Hm s Hs). unfold try_catch.
  destruct (m s) as [[a|e|] s1]; [by exists a, s1|by apply Hh|done].
Qed.

End Rules.

(** ** Reading a body *)

(** With callbacks whose results are [ok] and keep [I], so is the reading. *)
Section Reading.
Context {A : Type} (ok : outcome bool -> Prop) (I : A -> Prop).
Context (out : ContentReceiverWithProgress A) (progress : option (Progress A)).

Definition good {T} (r : outcome bool * A * T) : Prop := ok r.1.1 ∧ I r.1.2.
Definition callback_good (r : outcome bool * A) : Prop := ok r.1 ∧ I r.2.

Context (Hok : ∀ b, ok (Ret b)) (Hout : ∀ buf off len a, I a → callback_good (out buf off len a)).
Context (Hprogress : ∀ r len a, I a → callback_good (report progress r len a)).
#[local] Set Default Proof Using "Type*".

Lemma good_ret {T} b a (s : T) : I a → good (Ret b, a, s).
Proof. intros Ha. split; [apply Hok|exact Ha]. Qed.

#[local] Hint Resolve good_ret : core.

Lemma content_with_length_good p fuel len r strm a :
  (∀ r len a, I a → callback_good (report p r len a)) →
  I a → good (content_with_length out p fuel len r strm a).
Proof.
  intros Hp. revert r strm a. induction fuel as [|fuel IH]; intros r strm a Ha; cbn [content_with_length]; [auto|].
  unfold content_with_length_round. case_decide; [auto|].
  destruct (read _ strm) as [[[|c buf]|] s1]; [auto| |auto].
  destruct (Hout (String c buf) r len a Ha) as [Ho Ha']. unfold mbind, M_bind.
  destruct (out _ _ _ a) as [[[]|e|] a1]; [|by split..].
  destruct (Hp (r + Z.of_nat (String.length (String c buf))) len a1 Ha') as [Hr Ha2].
  destruct (report _ _ _ a1) as [[[]|e|] a2]; [by apply IH|by split..].
Qed.

Lemma content_without_length_good fuel r strm a : I a → good (content_without_length out fuel r strm a).
Proof.
  revert r strm a. induction fuel as [|fuel IH]; intros r strm a Ha; cbn [content_without_length]; [auto|].
  unfold content_without_length_round.
  destruct (read _ strm) as [[[|c buf]|] s1]; [auto| |auto].
  destruct (Hout (String c buf) r 0 a Ha) as [Ho Ha']. destruct (out _ _ _ a) as [[[]|e|] a1]; [by apply IH|by split..].
Qed.

Lemma chunks_good fuel line strm a : I a → good (chunks out fuel line strm a).
Proof.
  revert line strm a. induction fuel as [|fuel IH]; intros line strm a Ha; cbn [chunks]; [auto|].
  unfold chunks_round.
  destruct (strtoul16 _) as [n|]; [|auto]. do 2 (case_decide; [auto|]).
  destruct (content_with_length_good None (stream_fuel strm) n 0 strm a) as [Hb Ha']; [intros; split; [apply Hok|done]|done|].
  unfold read_content_with_length. destruct (content_with_length _ _ _ _ _ _ _) as [[[[]|e|] a'] s1]; [|by split..].
  destruct (getline 16 s1) as [[[] s2] r2]; [|auto]. destruct (negb _); [auto|].
  destruct (getline 16 s2) as [[[] s3] r3]; [by apply IH|auto].
Qed.

(** The reading ends by itself. *)
Ltac kept := split; [apply Hok|done].

Lemma read_content_into_good decompress max hs strm a :
  I a → let '(r, a', _, _, _) := read_content_into out progress decompress max hs strm a in ok r ∧ I a'.
Proof.
  intros Ha. unfold read_content_into. destruct (_ && unsupported_encoding _); [kept|].
  destruct (is_chunked_transfer_encoding hs).
  - unfold read_content_chunked. destruct (getline 16 strm) as [[[] s1] r1]; [|kept].
    destruct (chunks_good (stream_fuel s1) (line_ptr r1) s1 a Ha) as [Hb Ha'].
    destruct (chunks _ _ _ _ _) as [[[[]|e|] a'] s2]; [|by split..].
    destruct (getline 16 s2) as [[[] s3] r3]; [|kept]. destruct (trailers _ _ _ _) as [[b s4] hs']. kept.
  - destruct (negb _).
    + destruct (content_without_length_good (stream_fuel strm) 0 strm a Ha) as [Hb Ha'].
      unfold read_content_without_length. by destruct (content_without_length _ _ _ _ _) as [[r a'] s1].
    + destruct (get_header_value_u64 hs _ _ _) as [len []]; [kept|].
      case_decide; [kept|]. case_decide; [|kept].
      destruct (content_with_length_good progress (stream_fuel strm) len 0 strm a) as [Hb Ha']; [done..|].
      unfold read_content_with_length. by destruct (content_with_length _ _ _ _ _ _ _) as [[r a'] s1].
Qed.

End Reading.

(** ** The form-data parser with the receivers of [read_content] *)

Section Parser.
Import MultipartFormDataParser.

(** The parser hands out content only behind a head, which has set [cur]. *)
Definition cursor_set (p : t) (f : filling) : Prop := state_ p = 3 → is_Some (cur f).

Definition round_ok (r : round) : Prop :=
  match r with
  | Again p f => cursor_set p f
  | MultipartFormDataParser.Return r p f => (∃ b, r = Ret b) ∧ cursor_set p f
  end.

Abbreviation head := (multipart_head filling_receivers).
Abbreviation part := (multipart_receiver filling_receivers).

Lemma returned_ok b p f : state_ p ≠ 3 → round_ok (MultipartFormDataParser.Return (Ret b) p f).
Proof. intros Hp. split; [by eexists|]. by intros Heq. Qed.

Lemma headers_loop_ok fuel p f : state_ p ≠ 3 → round_ok (headers_loop head fuel p f).
Proof.
  revert p f. induction fuel as [|fuel IH]; intros p f Hp; cbn [headers_loop]; [by apply returned_ok|].
  unfold headers_round.
  destruct (find_string _ _) as [[|pos]|]; [| |by apply returned_ok].
  - unfold answered. cbn [multipart_head filling_receivers]. case_decide; [by apply returned_ok|].
    intros _. by eexists.
  - destruct (header_line _ _) as [fm|]; [by apply IH|by apply returned_ok].
Qed.

Lemma parse_round_ok p f : cursor_set p f → round_ok (parse_round part head p f).
Proof.
  intros Hc. unfold parse_round.
  assert (Hs : state_ p = 3 ∨ state_ p ≠ 3) by lia.
  assert (Hret : ∀ b p', state_ p' = state_ p → round_ok (MultipartFormDataParser.Return (Ret b) p' f)).
  { intros b p' Hp'. split; [by eexists|]. unfold cursor_set. by rewrite Hp'. }
  destruct (state_ p) as [|[[|[]|]|[[]|[]|]|]|] eqn:Hst; try exact Hc; cbv zeta.
  - case_decide; [by apply Hret|]. destruct (negb _); [by apply Hret|done].
  - unfold cursor_set in Hc. rewrite Hst in Hc. destruct (Hc eq_refl) as [name Hn].
    unfold answered. cbn [multipart_receiver filling_receivers].
    case_decide; [by apply Hret|]. destruct (find_string _ _) as [pos|]; [by rewrite Hn|].
    case_decide; [by apply Hret|]. rewrite Hn. split; [by eexists|]. intros _. by eexists.
  - case_decide; [by apply Hret|]. destruct (buf_start_with crlf_ p); [done|].
    destruct (buf_start_with dash_ p); [|by apply Hret]. unfold round_ok, cursor_set. cbn. by rewrite Hst.
  - case_decide; [by apply Hret|]. apply headers_loop_ok. by rewrite Hst.
  - done.
Qed.

Lemma parse_loop_ok fuel p f :
  cursor_set p f →
  let '(r, p', f') := parse_loop part head fuel p f in (∃ b, r = Ret b) ∧ cursor_set p' f'.
Proof.
  revert p f. induction fuel as [|fuel IH]; intros p f Hc; cbn [parse_loop]; [by split; [eexists|]|].
  unfold loop_round. case_decide; [by split; [eexists|]|].
  pose proof (parse_round_ok p f Hc) as Hr. destruct (parse_round _ _ p f) as [p' f'|r p' f']; [by apply IH|exact Hr].
Qed.

Definition receiving (s : t * filling) : Prop := cursor_set s.1 s.2.

Lemma receive_ok multipart buf : returns receiving (receive multipart filling_receivers buf) (λ _, receiving).
Proof.
  intros [p f] Hc. unfold receive. destruct multipart.
  - pose proof (parse_loop_ok (2 * buf_size (buf_append buf p) + 2) (buf_append buf p) f Hc) as Hl.
    unfold parse. destruct (parse_loop _ _ _ _ _) as [[r p'] f']. destruct Hl as [[b ->] Hc'].
    by exists b, (p', f').
  - by eexists _, _.
Qed.

End Parser.

(** ** The request *)

Section Server.
Context {W : Type} {platform : Platform W}.

(** A response that is its body and nothing else. *)
Definition body_only (r : Response W) : Prop :=
  content_provider_ r = None ∧ content_length_ r = 0 ∧ file_content_path_ r = "".

Definition plain (x : exchange W) : Prop := body_only (res x).

(** [m] returns and leaves such a response. *)
Definition stays_plain {A} (m : M (exchange W) A) : Prop := returns plain m (λ _, plain).

Lemma plain_ret {A} (a : A) : stays_plain (mret a).
Proof. by apply returns_ret. Qed.

Lemma plain_get : stays_plain get_state.
Proof. by apply returns_get. Qed.

Lemma plain_modify f : (∀ x, plain x → plain (f x)) → stays_plain (modify f).
Proof. intros Hf. by apply returns_modify. Qed.

Lemma plain_bind {A B} (m : M (exchange W) A) (k : A -> M (exchange W) B) :
  stays_plain m → (∀ a, stays_plain (k a)) → stays_plain (m ≫= k).
Proof. intros Hm Hk. by eapply returns_bind. Qed.

Lemma plain_on_wire {A} (m : M (wire W) A) :
  returns (λ _, True) m (λ _ _, True) → stays_plain (on_wire m).
Proof.
  intros Hm x Hx. destruct (Hm (out x) I) as (a & o & Heq & _). unfold on_wire. rewrite Heq.
  by exists a, (x <| out := o |>).
Qed.

Lemma plain_write_data d : stays_plain (on_wire (write_data d)).
Proof.
  apply plain_on_wire. intros o _. unfold write_data. destruct (room o); by do 2 eexists.
Qed.

Lemma plain_set_status n : stays_plain (set_status n).
Proof. by apply plain_modify. Qed.

#[local] Hint Resolve plain_ret plain_get plain_modify plain_write_data plain_set_status : core.

(** Walks through code that only touches the request and the plain fields. *)
Ltac plainly :=
  repeat first
    [ progress intros
    | done
    | apply plain_bind
    | match goal with |- stays_plain (if ?b then _ else _) => destruct b end
    | match goal with |- stays_plain (match ?x with _ => _ end) => destruct x end
    | solve [auto] ].

Lemma read_core_ok s :
  stays_plain (λ x : exchange W,
    let start := Filling (body (req x)) (files (req x)) None 0 in
    let '(r, (f, x)) := read_content_core filling_receivers s (start, x) in
    (r, x <| req ::= λ r, r <| body := received f |> <| files := parts f |> |>)).
Proof.
  intros x Hx. cbv zeta. unfold read_content_core.
  set (multipart := is_multipart_form_data (req x)).
  destruct (if multipart then _ else _) as [boundary|]; [|by do 2 eexists].
  destruct (_ && _); [by do 2 eexists|].
  assert (Hout : ∀ buf (off len : Z) (a : _ * filling), receiving a →
    callback_good (λ r, ∃ b, r = Ret b) receiving (receive multipart filling_receivers buf a)).
  { intros buf _ _ a Ha. destruct (receive_ok multipart buf a Ha) as (b & a' & -> & Ha'). by split; [eexists|]. }
  pose proof (read_content_into_good _ receiving _ None (λ b, ex_intro _ b eq_refl) Hout
    (λ _ _ _ Ha, conj (ex_intro _ true eq_refl) Ha) true (payload_max_length_ s)
    (headers (req x)) (input x) (MultipartFormDataParser.set_boundary boundary,
      Filling (body (req x)) (files (req x)) None 0) ltac:(done)) as Hr.
  destruct (read_content_into _ _ _ _ _ _ _) as [[[[r [p f]] hs] strm] code]. destruct Hr as [[b ->] _].
  destruct b; [|by do 2 eexists]. destruct (_ && _); by do 2 eexists.
Qed.

Lemma read_content_ok s : stays_plain (read_content s).
Proof. unfold read_content. apply plain_bind; [apply read_core_ok|]. plainly. Qed.

(** ** Handlers *)

(** What the handlers have to keep: they do not run into undefined behaviour
    and leave a plain response, even when they throw. *)
Definition handler_ok {A} (h : Request -> M (Response W * W) A) : Prop :=
  ∀ q, no_ub (λ rw, body_only rw.1) (h q) (λ _ rw, body_only rw.1) (λ rw, body_only rw.1).

(** A handler that lets no exception out either. *)
Definition handler_returns {A} (h : Request -> M (Response W * W) A) : Prop :=
  ∀ q, returns (λ rw, body_only rw.1) (h q) (λ _ rw, body_only rw.1).

Definition may_throw {A} (m : M (exchange W) A) : Prop := no_ub plain m (λ _, plain) plain.

Lemma may_throw_plain {A} (m : M (exchange W) A) : stays_plain m → may_throw m.
Proof. intros Hm. by apply no_ub_returns. Qed.

Lemma may_throw_bind {A B} (m : M (exchange W) A) (k : A -> M (exchange W) B) :
  may_throw m → (∀ a, may_throw (k a)) → may_throw (m ≫= k).
Proof. intros Hm Hk. by eapply no_ub_bind. Qed.

Lemma call_handler_ok {A} (h : Request -> M (Response W * W) A) : handler_ok h → may_throw (call_handler h).
Proof.
  intros Hh x Hx. specialize (Hh (req x) (res x, world (out x)) Hx). unfold call_handler.
  by destruct (h (req x) (res x, world (out x))) as [[a|e|] [r w]].
Qed.

Lemma call_handler_returns {A} (h : Request -> M (Response W * W) A) :
  handler_returns h → stays_plain (call_handler h).
Proof.
  intros Hh x Hx. destruct (Hh (req x) (res x, world (out x)) Hx) as (a & [r w] & Heq & Hr).
  unfold call_handler. rewrite Heq. by do 2 eexists.
Qed.

Definition routes_ok (hs : Handlers W) : Prop := Forall (λ mh, handler_ok mh.2) hs.

(** The servers the theorems are about. *)
Record server_ok (s : Server W) : Prop := {
  routes_all_ok : ∀ method hs, handlers_for s method = Some hs → routes_ok hs;
  no_readers : ∀ method, reader_handlers_for s method = [];
  no_mounts : base_dirs_ s = [];
  pre_routing_ok : ∀ h, pre_routing_handler_ s = Some h → handler_ok h;
  exception_ok : ∀ h e, exception_handler_ s = Some h → handler_returns (λ q, h q e);
  post_routing_ok : ∀ h, post_routing_handler_ s = Some h → handler_returns h;
  logger_ok : ∀ l, logger_ s = Some l → ∀ q r, returns (λ _, True) (l q r) (λ _ _, True);
  no_error_handler : error_handler_ s = None;
  no_expect_handler : expect_100_continue_handler_ s = None
}.

Lemma dispatch_ok hs : routes_ok hs → may_throw (dispatch_request hs).
Proof.
  induction 1 as [|[m h] hs Hh _ IH]; unfold dispatch_request; cbn [dispatch]; [by apply may_throw_plain|].
  apply may_throw_bind; [by apply may_throw_plain|]. intros x. destruct (match_request m (req x)) as [b r].
  apply may_throw_bind; [by apply may_throw_plain, plain_modify|]. intros _. destruct b; [|exact IH].
  apply may_throw_bind; [by apply call_handler_ok|]. intros _. by apply may_throw_plain.
Qed.

Lemma routing_ok s : server_ok s → may_throw (routing s).
Proof.
  intros Hs. unfold routing. apply may_throw_bind.
  { unfold handled_by. destruct (pre_routing_handler_ s) as [h|] eqn:Hp; [|by apply may_throw_plain].
    apply may_throw_bind; [apply call_handler_ok; by eapply pre_routing_ok|]. intros r. by apply may_throw_plain. }
  intros handled. destruct handled; [by apply may_throw_plain|].
  apply may_throw_bind; [by apply may_throw_plain|]. intros x. apply may_throw_bind.
  { unfold handle_file_request. rewrite no_mounts by done. apply may_throw_plain.
    cbn [file_request]. destruct (_ || _); apply plain_ret. }
  intros served. destruct served; [by apply may_throw_plain|].
  assert (Hregular : may_throw (dispatch_regular s)).
  { unfold dispatch_regular. apply may_throw_bind; [by apply may_throw_plain|]. intros y.
    destruct (handlers_for s _) as [hs|] eqn:Hh; [eapply dispatch_ok, routes_all_ok; done|].
    apply may_throw_plain. plainly. }
  unfold route_content. apply may_throw_bind; [by apply may_throw_plain|]. intros y.
  destruct (expect_content _); [|done].
  rewrite no_readers by done. unfold dispatch_request_for_content_reader. cbn [dispatch].
  apply may_throw_bind; [by apply may_throw_plain|]. intros d.
  destruct d; [by apply may_throw_plain|]. apply may_throw_bind; [apply may_throw_plain, read_content_ok|].
  intros ok. destruct ok; cbn [negb]; [exact Hregular|]. by apply may_throw_plain.
Qed.

Lemma routed_ok s : server_ok s → stays_plain (routed_or_500 s).
Proof.
  intros Hs. unfold routed_or_500. eapply returns_catch; [by apply routing_ok|]. intros e.
  destruct (exception_handler_ s) as [h|] eqn:He.
  - apply plain_bind; [by apply call_handler_returns; eapply exception_ok|]. plainly.
  - plainly. by apply plain_modify.
Qed.

(** ** The response *)

(** The ranges that [apply_ranges] cuts the body with. *)
Definition ranges_fit (x : exchange W) : Prop :=
  status (res x) = 206 →
  Forall (λ r, range_asserted r (Z.of_nat (String.length (res_body (res x))))) (ranges (req x)).

Lemma apply_ranges_plain q (r : Response W) :
  body_only r →
  (status r = 206 → Forall (λ rg, range_asserted rg (Z.of_nat (String.length (res_body r)))) (ranges q)) →
  ∃ content_type boundary r', apply_ranges q r = Ret (content_type, boundary, r') ∧ body_only r'.
Proof.
  intros (Hp & Hn & Hf) Hfit. unfold apply_ranges.
  assert (Hh : ∃ ct bd hs, byteranges_header q r = (ct, bd, r <| res_headers := hs |>)).
  { unfold byteranges_header. destruct (_ && _); [by do 3 eexists|]. exists "", "", (res_headers r). by destruct r. }
  destruct Hh as (ct & bd & hs & ->). destruct r as [code h text n prov rel chunked succ fp fct].
  cbn in Hp, Hn, Hf, Hfit. subst. cbn [update_field res_body].
  case_decide as Hb.
  - unfold apply_ranges_to_provider. cbn. by do 3 eexists.
  - unfold apply_ranges_to_body. cbn. destruct (decide (code ≠ 206)) as [Hc|Hc]; [by do 3 eexists|].
    destruct (decide (code = 206)) as [He|]; [|by destruct Hc]. specialize (Hfit He).
    destruct (ranges q) as [|rg [|rg2 rgs]]; [by do 3 eexists|..].
    + apply Forall_inv in Hfit. unfold get_range_offset_and_length.
      rewrite (decide_True (P := range_asserted _ _)) by exact Hfit. by do 3 eexists.
    + destruct (multipart_data_agrees (W := W) bd ct text _ Hfit) as (data & -> & _). by do 3 eexists.
Qed.

(** A status is set. *)
Definition ready (x : exchange W) : Prop := plain x ∧ status (res x) ≠ -1.

Lemma plain_write_body ct bd : stays_plain (write_body ct bd).
Proof.
  intros x Hx. unfold write_body, mbind, M_bind, get_state. destruct (bool_decide (method _ = _)); [by do 2 eexists|].
  destruct (negb _); [by apply plain_write_data|]. destruct Hx as [Hp Hx]. rewrite Hp. by do 2 eexists.
Qed.

Lemma plain_call_if_set h :
  (∀ h', h = Some h' → handler_returns h') → stays_plain (call_if_set h).
Proof. intros Hh. destruct h as [h|]; [|apply plain_ret]. by apply call_handler_returns, Hh. Qed.

Lemma plain_log s : server_ok s → stays_plain (log_response s).
Proof.
  intros Hs. unfold log_response. destruct (logger_ s) as [l|] eqn:Hl; [|apply plain_ret].
  apply plain_bind; [done|]. intros x. apply call_handler_returns. intros q [r w] Hr. unfold global. cbn [fst snd].
  destruct (logger_ok s Hs l Hl q (res x) w I) as (a & w' & -> & _). by do 2 eexists.
Qed.

Lemma write_core_returns s close need :
  server_ok s →
  returns (λ x, ready x ∧ (need = true → ranges_fit x)) (write_response_core s close need) (λ _, plain).
Proof.
  intros Hs x [[Hx Hst] Hfit]. unfold write_response_core. rewrite no_error_handler by done.
  cbn [handled_by]. unfold mbind at 1, M_bind at 1, get_state at 1. unfold mbind at 1, M_bind at 1, lift at 1.
  rewrite decide_False by done.
  replace (if decide (400 <= status (res x)) then mret false else mret false)
    with (mret (M := M (exchange W)) false) by by case_decide.
  unfold mbind at 1, M_bind at 1, mret at 1, M_ret at 1. unfold mbind at 1, M_bind at 1, get_state at 1.
  rewrite orb_false_r.
  assert (Hr : ∃ ct bd r, (if need then lift (apply_ranges (req x) (res x)) else mret ("", "", res x)) x
    = (Ret (ct, bd, r), x) ∧ body_only r).
  { destruct need; [|by do 3 eexists]. destruct (apply_ranges_plain (req x) (res x) Hx) as (ct & bd & r & Hr & Hb).
    - intros He. by apply Hfit.
    - exists ct, bd, r. unfold lift. by rewrite Hr. }
  destruct Hr as (ct & bd & r & Hr & Hb). unfold mbind at 1, M_bind at 1. rewrite Hr.
  set (k := modify _ ≫= _). enough (Hk : stays_plain k) by by apply Hk. subst k.
  apply plain_bind.
  { apply plain_modify. by intros y _. }
  intros _. apply plain_bind; [apply plain_call_if_set, post_routing_ok; done|]. intros _.
  apply plain_bind; [done|]. intros y. destruct (written_headers s _) as [count text].
  case_decide; [apply plain_ret|]. apply plain_bind; [done|]. intros _. apply plain_bind; [apply plain_write_body|].
  intros b. apply plain_bind; [by apply plain_log|]. by intros _.
Qed.

Lemma write_response_returns s close : server_ok s → returns ready (write_response s close) (λ _, plain).
Proof.
  intros Hs. unfold write_response. eapply returns_bind.
  - apply (returns_modify _ _ (λ _, ready)). by intros x Hx.
  - intros []. eapply returns_weaken; [by apply (write_core_returns s close false)|by split|done].
Qed.

Lemma range_error_fit rs code n resolved :
  range_error rs code n = Some resolved → code = 206 → Forall (λ r, range_asserted r n) resolved.
Proof.
  intros Hr Hcode. subst code. unfold range_error in Hr. case_decide as Hne.
  - case_decide; [done|]. apply resolve_ranges_in_order in Hr as [Hord _]; [|lia]. by eapply in_order_asserted.
  - injection Hr as <-. destruct rs; [done|]. by destruct Hne.
Qed.

Lemma write_ranged_returns s close : server_ok s → returns ready (write_ranged s close) (λ _, plain).
Proof.
  intros Hs x [Hx Hst]. unfold write_ranged. unfold mbind at 1, M_bind at 1, get_state at 1.
  destruct (range_error _ _ _) as [rs|] eqn:Hr.
  - unfold mbind, M_bind, modify. apply (write_core_returns s close true Hs). split; [done|].
    intros _ He. eapply range_error_fit in Hr; [|done]. unfold represented_length in Hr.
    destruct Hx as (_ & Hn & _). rewrite decide_True in Hr by done. exact Hr.
  - unfold update_res, mbind, M_bind, modify. apply (write_response_returns s close Hs). split; [|done].
    by destruct Hx as (_ & _ & Hf).
Qed.

Lemma write_routed_returns s close : server_ok s → stays_plain (write_routed s close).
Proof.
  intros Hs x Hx. unfold write_routed. unfold mbind at 1, M_bind at 1, get_state at 1.
  rewrite decide_True by apply Hx.
  assert (Hset : ∃ y, (if decide (status (res x) = -1)
    then set_status (if decide (ranges (req x) = []) then 200 else 206) else mret tt) x = (Ret tt, y) ∧ ready y).
  { case_decide as Hst; [|by exists x]. eexists. split; [reflexivity|]. split; [done|]. cbn. by case_decide. }
  destruct Hset as (y & Hy & Hready). unfold mbind, M_bind. rewrite Hy. by apply write_ranged_returns.
Qed.

Lemma write_unrouted_returns s close : server_ok s → stays_plain (write_unrouted s close).
Proof.
  intros Hs x Hx. unfold write_unrouted. unfold mbind at 1, M_bind at 1, get_state at 1.
  assert (Hset : ∃ y, (if decide (status (res x) = -1) then set_status 404 else mret tt) x = (Ret tt, y) ∧ ready y).
  { case_decide as Hst; [|by exists x]. eexists. by split. }
  destruct Hset as (y & Hy & Hready). unfold mbind, M_bind. rewrite Hy. by apply write_response_returns.
Qed.

(** An error response with a status of its own. *)
Lemma refuse_returns {A} s close code (a : bool -> A) :
  server_ok s → code ≠ -1 → stays_plain (set_status code;; b ← write_response s close; mret (a b)).
Proof.
  intros Hs Hc. eapply returns_bind.
  - apply (returns_modify _ _ (λ _, ready)). intros x Hx. by split.
  - intros []. eapply returns_bind; [by apply write_response_returns|]. intros b. by apply plain_ret.
Qed.

Lemma continue_returns s : server_ok s → returns plain (continue_100 s) (λ go x, go = true ∧ plain x).
Proof.
  intros Hs x Hx. unfold continue_100. rewrite no_expect_handler by done.
  unfold mbind, M_bind, get_state. destruct (bool_decide _); [|by do 2 eexists].
  destruct (plain_write_data (write_response_line 100) x Hx) as (b1 & x1 & H1 & Hx1).
  destruct (plain_write_data crlf x1 Hx1) as (b2 & x2 & H2 & Hx2).
  cbn [mret M_ret]. rewrite decide_True by by left. rewrite H1, H2. by do 2 eexists.
Qed.

Lemma answer_request_returns s close closed : server_ok s → stays_plain (answer_request s close closed).
Proof.
  intros Hs. unfold answer_request. apply plain_bind; [done|]. intros x.
  destruct (if has_header _ _ then _ else _) as [rs|]; [|by apply (refuse_returns s close 416 (λ b, (b, closed)))].
  apply plain_bind; [by apply plain_modify|]. intros _.
  eapply returns_bind; [by apply continue_returns|]. intros go y [-> Hy]. cbn [negb]. revert y Hy.
  change (stays_plain (routed ← routed_or_500 s;
    b ← (if (routed : bool) then write_routed s close else write_unrouted s close); mret (b, closed))).
  apply plain_bind; [by apply routed_ok|]. intros routed. apply plain_bind; [|done].
  destruct routed; [by apply write_routed_returns|by apply write_unrouted_returns].
Qed.

Lemma handle_request_returns s a close ok : server_ok s → stays_plain (handle_request s a close ok).
Proof.
  intros Hs. unfold handle_request. apply plain_bind; [done|]. intros x.
  destruct (negb ok); [by apply (refuse_returns s close 400 (λ b, (b, false)))|].
  case_decide.
  - apply plain_bind; [by apply plain_modify|]. intros _. by apply (refuse_returns s close 414 (λ b, (b, false))).
  - apply plain_bind; [by apply plain_modify|]. intros _. by apply answer_request_returns.
Qed.

(** Any state of the exchange. *)
Definition total {A} (m : M (exchange W) A) : Prop := returns (λ _, True) m (λ _ _, True).

Lemma process_request_total s a close : server_ok s → total (process_request s a close).
Proof.
  intros Hs x _. unfold process_request, mbind at 1, M_bind at 1, get_state at 1.
  destruct (getline 2048 (input x)) as [[[] strm] reader]; [|by do 2 eexists].
  destruct (parse_request_line _ _) as [parsed r].
  destruct (if parsed then _ else _) as [[ok strm'] hs].
  unfold released, mbind, M_bind, modify.
  set (y := x <| req := _ |> <| input := _ |> <| res := _ |>).
  destruct (handle_request_returns s a close ok Hs y) as (b & z & Hz & _); [done|].
  rewrite Hz. by do 2 eexists.
Qed.

Lemma connection_total s a count ret arrivals :
  server_ok s → total (process_server_socket_core s a count ret arrivals).
Proof.
  intros Hs. revert ret arrivals. induction count as [|count IH]; intros ret arrivals.
  - by apply returns_ret.
  - destruct arrivals as [|strm arrivals]; [by apply returns_ret|]. cbn [process_server_socket_core].
    eapply returns_bind; [by apply (returns_modify _ _ (λ _ _, True))|]. intros [].
    eapply returns_bind; [by apply process_request_total|]. intros [b closed].
    destruct (_ || _); [by apply returns_ret|apply IH].
Qed.

End Server.
