(* ===== verification/HttplibSocket.v ===== *)
(** * The sockets and mapped files of httplib

    The calls of the operating system a connected socket is used with, the
    [SocketStream] over it and its read buffer, [BufferStream], the wait of a
    kept connection, and [mmap]; the branches for POSIX. [os] holds what the
    operating system will answer. *)

From S2P Require Import Prelude Text HttplibText HttplibUrl HttplibStream.

(** ** System calls *)

(** What [poll] meets: the descriptor is ready after so many milliseconds, or
    the call fails, with [EBADF] or another error. *)
Inductive poll_answer := ReadyIn (msec : Z) | PollFails (bad_descriptor : bool).

(** A connected socket. [incoming] is what [recv] will give; [accepts] is how
    much each [send] takes ([None]: it fails; everything behind the last);
    [interrupts] says whether a call is interrupted ([EINTR]; not behind the
    last); the polls find the socket ready at once behind the last answer;
    [steps] are the microseconds between readings of the clock; [listening] are
    the readings of the server's socket (closed behind the last). *)
Record os := Os {
  incoming : stream;
  accepts : list (option nat);
  outgoing : string;
  interrupts : list bool;
  read_polls : list poll_answer;
  write_polls : list poll_answer;
  time : Z;
  steps : list Z;
  listening : list bool
}.

#[export] Instance os_eta : Eta os := λ s,
  Os (incoming s) (accepts s) (outgoing s) (interrupts s) (read_polls s) (write_polls s) (time s) (steps s)
    (listening s).

(** A call that is interrupted has done nothing; it is made again. *)
Fixpoint skip_interrupts (l : list bool) : list bool :=
  match l with true :: l => skip_interrupts l | _ => tail l end.

Definition handle_EINTR {A} (fn : M os A) : M os A :=
  modify (λ s, s <| interrupts ::= skip_interrupts |>);; fn.

(** The result of [poll] for one descriptor, and whether [errno] is [EBADF]. *)
Definition poll_result (timeout : Z) (answer : poll_answer) : Z * bool :=
  match answer with
  | ReadyIn msec => (if decide (timeout < 0 ∨ msec <= timeout) then 1 else 0, false)
  | PollFails bad_descriptor => (-1, bad_descriptor)
  end.

Definition poll_wrapper (reading : bool) (timeout : Z) : M os (Z * bool) := λ s,
  let polls := if reading then read_polls s else write_polls s in
  (Ret (poll_result timeout (default (ReadyIn 0) (head polls))),
   if reading then s <| read_polls ::= tail |> else s <| write_polls ::= tail |>).

Definition select_impl (reading : bool) (sec usec : Z) : M os (Z * bool) :=
  let timeout := wrap32 (sec * 1000 + Z.quot usec 1000) in
  handle_EINTR (poll_wrapper reading timeout).

Definition select_read (sec usec : Z) : M os Z := r ← select_impl true sec usec; mret r.1.
Definition select_write (sec usec : Z) : M os Z := r ← select_impl false sec usec; mret r.1.

(** [None] for a negative result, the empty string for the end. *)
Definition recv (size : nat) : M os (option string) := λ s,
  let '(r, strm) := read size (incoming s) in (Ret r, s <| incoming := strm |>).

Definition read_socket (size : nat) : M os (option string) := handle_EINTR (recv size).

(** With [MSG_PEEK]. *)
Definition peek_socket (size : nat) : M os (option string) :=
  handle_EINTR (λ s, (Ret (read size (incoming s)).1, s)).

Definition send (d : string) : M os (option nat) := λ s,
  match accepts s with
  | None :: l => (Ret None, s <| accepts := l |>)
  | Some n :: l =>
      (Ret (Some (n `min` String.length d)%nat), s <| accepts := l |> <| outgoing ::= λ o, o +:+ prefix_of n d |>)
  | [] => (Ret (Some (String.length d)), s <| outgoing ::= λ o, o +:+ d |>)
  end.

Definition send_socket (d : string) : M os (option nat) := handle_EINTR (send d).

Definition is_socket_alive : M os bool :=
  '(val, bad_descriptor) ← select_impl true 0 0;
  if decide (val = 0) then mret true
  else if bool_decide (val < 0) && bad_descriptor then mret false
  else
    r ← peek_socket 1;
    mret (match r with Some (String _ _) => true | _ => false end).

Definition now : M os Z := λ s,
  let t := time s + default 0 (head (steps s)) in (Ret t, s <| time := t |> <| steps ::= tail |>).

(** ** Time-outs *)

(** Milliseconds of the time-out, cut by what is left of the longest time a
    request may take. *)
Definition calc_actual_timeout (max_timeout_msec duration_msec timeout_sec timeout_usec : Z) : Z * Z :=
  let timeout_msec := timeout_sec * 1000 + Z.quot timeout_usec 1000 in
  let actual_timeout_msec := Z.min (max_timeout_msec - duration_msec) timeout_msec in
  let actual_timeout_msec := if decide (actual_timeout_msec < 0) then 0 else actual_timeout_msec in
  (Z.quot actual_timeout_msec 1000, Z.rem actual_timeout_msec 1000 * 1000).

(** ** SocketStream *)

Module SocketStream.

(** The buffer holds the bytes of the last [recv] into it. *)
Record t := Strm {
  sock_ : os;
  read_timeout_ : Z * Z;
  write_timeout_ : Z * Z;
  max_timeout_msec_ : Z;
  start_time_ : Z;
  read_buff_ : string;
  read_buff_off_ : nat;
  read_buff_content_size_ : nat
}.

#[export] Instance t_eta : Eta t := λ s,
  Strm (sock_ s) (read_timeout_ s) (write_timeout_ s) (max_timeout_msec_ s) (start_time_ s) (read_buff_ s)
    (read_buff_off_ s) (read_buff_content_size_ s).

Definition read_buff_size_ : nat := 4096.

Definition ctor (sock : os) (read_timeout write_timeout : Z * Z) (max_timeout_msec start_time : Z) : t :=
  Strm sock read_timeout write_timeout max_timeout_msec start_time "" 0 0.

Definition on_sock {A} (m : M os A) : M t A := λ s,
  let '(r, sock) := m (sock_ s) in (r, s <| sock_ := sock |>).

Definition is_readable (s : t) : bool := bool_decide (read_buff_off_ s < read_buff_content_size_ s)%nat.

(** Milliseconds since the start. *)
Definition duration : M t Z :=
  s ← get_state;
  t ← on_sock now;
  mret (Z.quot (t - start_time_ s) 1000).

Definition wait_readable : M t bool :=
  s ← get_state;
  '(sec, usec) ← (if decide (max_timeout_msec_ s <= 0) then mret (read_timeout_ s)
                  else
                    d ← duration;
                    mret (calc_actual_timeout (max_timeout_msec_ s) d (read_timeout_ s).1 (read_timeout_ s).2));
  val ← on_sock (select_read sec usec);
  mret (bool_decide (0 < val)).

Definition wait_writable : M t bool :=
  s ← get_state;
  val ← on_sock (select_write (write_timeout_ s).1 (write_timeout_ s).2);
  if decide (0 < val) then on_sock is_socket_alive else mret false.

(** No more than [ssize_t] can count. *)
Definition ssize (size : nat) : nat := Z.to_nat (Z.of_nat size `min` (2^63 - 1)).

Definition read (size : nat) : M t (option string) :=
  let size := ssize size in
  s ← get_state;
  if is_readable s then
    let remaining_size := (read_buff_content_size_ s - read_buff_off_ s)%nat in
    let n := if decide (size <= remaining_size)%nat then size else remaining_size in
    modify (λ s, s <| read_buff_off_ ::= Nat.add n |>);;
    mret (Some (substr (read_buff_off_ s) n (read_buff_ s)))
  else
    ready ← wait_readable;
    if negb ready then mret None
    else
      modify (λ s, s <| read_buff_off_ := 0%nat |> <| read_buff_content_size_ := 0%nat |>);;
      if decide (size < read_buff_size_)%nat then
        r ← on_sock (read_socket read_buff_size_);
        match r with
        | None => mret None
        | Some d =>
            modify (λ s, s <| read_buff_ := d |>);;
            (if decide (String.length d <= size)%nat then mret tt
             else modify (λ s, s <| read_buff_off_ := size |> <| read_buff_content_size_ := String.length d |>));;
            mret (Some (prefix_of size d))
        end
      else on_sock (read_socket size).

(** The number of bytes taken; [None] for -1. *)
Definition write (d : string) : M t (option nat) :=
  ready ← wait_writable;
  if negb ready then mret None else on_sock (send_socket d).

(** [write_data] on a [SocketStream]. *)
Fixpoint write_data (fuel : nat) (d : string) : M t bool :=
  if decide (d = "") then mret true
  else
    match fuel with
    | O => mret false
    | S fuel =>
        n ← write d;
        match n with None => mret false | Some n => write_data fuel (suffix_from n d) end
    end.

(** Every [send] that takes nothing is an answer of its own. *)
Definition write_all (d : string) : M t bool := λ s,
  write_data (S (length (accepts (sock_ s)))) d s.

End SocketStream.

(** ** BufferStream *)

Module BufferStream.

Record t := Strm { buffer : string; position : nat }.
#[export] Instance t_eta : Eta t := λ s, Strm (buffer s) (position s).

Definition empty : t := Strm "" 0.

Definition read (size : nat) : M t string := λ s,
  let d := substr (position s) size (buffer s) in (Ret d, s <| position ::= Nat.add (String.length d) |>).

Definition write (d : string) : M t nat := λ s,
  (Ret (String.length d), s <| buffer ::= λ b, b +:+ d |>).

Definition get_buffer (s : t) : string := buffer s.

End BufferStream.

(** ** The wait of a kept connection *)

Definition CPPHTTPLIB_KEEPALIVE_TIMEOUT_CHECK_INTERVAL_USECOND : Z := 10000.

Definition server_listens : M os bool := λ s, (Ret (default false (head (listening s))), s <| listening ::= tail |>).

Fixpoint keep_alive_loop (fuel : nat) (start timeout : Z) : M os bool :=
  match fuel with
  | O => mret false
  | S fuel =>
      open ← server_listens;
      if negb open then mret false
      else
        val ← select_read 0 CPPHTTPLIB_KEEPALIVE_TIMEOUT_CHECK_INTERVAL_USECOND;
        if decide (val < 0) then mret false
        else if decide (val = 0) then
          t ← now;
          if decide (timeout < t - start) then mret false else keep_alive_loop fuel start timeout
        else mret true
  end.

(** A round for every reading of the server's socket, and one more. *)
Definition keep_alive (keep_alive_timeout_sec : Z) : M os bool :=
  val ← select_read 0 CPPHTTPLIB_KEEPALIVE_TIMEOUT_CHECK_INTERVAL_USECOND;
  if decide (0 < val) then mret true
  else
    t ← now;
    s ← get_state;
    keep_alive_loop (S (length (listening s))) (t - CPPHTTPLIB_KEEPALIVE_TIMEOUT_CHECK_INTERVAL_USECOND)
      (keep_alive_timeout_sec * 1000000).

(** ** Mapped files *)

Module mmap.

Inductive address := nullptr | MAP_FAILED | Mapped (content : string).

(** What the system calls answer for a path: no descriptor, or the size of
    [fstat] and what is mapped. *)
Record file := File { st_size : option Z; mapping : address }.

Record t := Mapping { size_ : Z; addr_ : address; fd_ : bool (* open *); is_open_empty_file : bool }.
#[export] Instance t_eta : Eta t := λ m, Mapping (size_ m) (addr_ m) (fd_ m) (is_open_empty_file m).

Definition closed : t := Mapping 0 nullptr false false.

Definition close (m : t) : t := m <| addr_ := nullptr |> <| fd_ := false |> <| size_ := 0 |>.

Definition open (path : option file) (m : t) : bool * t :=
  let m := close m in
  match path with
  | None => (false, m)
  | Some f =>
      let m := m <| fd_ := true |> in
      match st_size f with
      | None => (false, close m)
      | Some size =>
          let m := m <| size_ := size |> <| addr_ := mapping f |> in
          match mapping f with
          | MAP_FAILED =>
              if decide (size = 0) then (false, close m <| is_open_empty_file := true |>) else (true, m)
          | _ => (true, m)
          end
      end
  end.

Definition is_open (m : t) : bool :=
  is_open_empty_file m || match addr_ m with nullptr => false | _ => true end.

Definition size (m : t) : Z := size_ m.

(** Reading what is not mapped is undefined. *)
Definition data (m : t) : outcome string :=
  if is_open_empty_file m then Ret "" else match addr_ m with Mapped content => Ret content | _ => UB end.

(** A mapping that fails for a file that is not empty goes unnoticed. *)
Example failed_mapping_is_open :
  let '(ok, m) := open (Some (File (Some 5) MAP_FAILED)) closed in ok = true ∧ is_open m = true ∧ data m = UB.
Proof. done. Qed.

(** An empty file cannot be closed. *)
Example empty_file_stays_open :
  let m := (open (Some (File (Some 0) MAP_FAILED)) closed).2 in
  is_open m = true ∧ is_open (close m) = true ∧ is_open (open None m).2 = true.
Proof. done. Qed.

End mmap.
