(* ===== verification/HttplibSocketProps.v ===== *)
(** * What a SocketStream delivers and sends

    The rest of the library takes a connection as a [stream] to read and as a
    [wire] to write. A [SocketStream], with its buffer, its waits and the
    interruptions of its calls, is no more than that to any program. *)

From S2P Require Import Prelude Text TextFacts HttplibText HttplibUrl HttplibStream HttplibStreamProps.
From S2P Require Import HttplibTermination HttplibRangeProps HttplibContent HttplibContentProps HttplibSocket.
Import SocketStream.

(** ** Programs that read

    [next] is what a program asks for, given what it has read, until it stops. *)

Section Programs.
Context {S : Type} (rd : nat -> M S (option string)).

(** The chunks, and the result that ended the reading, if one did. *)
Fixpoint reads (next : list string -> option nat) (fuel : nat) (got : list string) (s : S)
    : list string * option (option string) * S :=
  match fuel, next got with
  | Datatypes.S fuel, Some size =>
      match rd size s with
      | (Ret (Some (String c d)), s) => reads next fuel (got ++ [String c d]) s
      | (Ret r, s) => (got, Some r, s)
      | (_, s) => (got, None, s)
      end
  | _, _ => (got, None, s)
  end.

End Programs.

Definition stream_read (size : nat) : M stream (option string) := λ s,
  let '(r, s) := HttplibStream.read size s in (Ret r, s).

(** ** One read of a SocketStream *)

Definition buffered (s : t) : string :=
  if is_readable s then suffix_from (read_buff_off_ s) (read_buff_ s) else "".

(** What will still be delivered. *)
Definition unread (s : t) : string := buffered s +:+ remaining (incoming (sock_ s)).

Definition buffer_ok (s : t) : Prop :=
  read_buff_content_size_ s = 0%nat ∨ read_buff_content_size_ s = String.length (read_buff_ s).

(** ** Waiting *)

(** A computation that returns, and changes only what [R] lets change. *)
Definition does {S A} (R : S -> S -> Prop) (m : M S A) : Prop := ∀ s, ∃ a s', m s = (Ret a, s') ∧ R s s'.

Section Does.
Context {S : Type} (R : S -> S -> Prop) `{!PreOrder R}.

Lemma does_ret {A} (a : A) : does R (mret a).
Proof using Type*. intros s. exists a, s. by split. Qed.

Lemma does_get : does R get_state.
Proof using Type*. intros s. exists s, s. by split. Qed.

Lemma does_bind {A B} (m : M S A) (f : A -> M S B) : does R m → (∀ a, does R (f a)) → does R (m ≫= f).
Proof using Type*.
  intros Hm Hf s. destruct (Hm s) as (a & s1 & H1 & W1). destruct (Hf a s1) as (b & s2 & H2 & W2).
  exists b, s2. unfold mbind, M_bind. rewrite H1. split; [done|by etrans].
Qed.

Lemma does_modify f : (∀ s, R s (f s)) → does R (modify f).
Proof using Type*. intros Hf s. by exists tt, (f s). Qed.

End Does.

(** Calls that neither receive nor send. *)
Definition idle (s s' : os) : Prop :=
  incoming s' = incoming s ∧ outgoing s' = outgoing s ∧ accepts s' = accepts s.

#[export] Instance idle_preorder : PreOrder idle.
Proof. split; [intros s; by split_and!|]. intros x y z (?&?&?) (?&?&?). split_and!; congruence. Qed.

Lemma idle_select reading sec usec : does idle (select_impl reading sec usec).
Proof.
  intros s. unfold select_impl, handle_EINTR, poll_wrapper, mbind, M_bind, modify.
  do 2 eexists. split; [reflexivity|]. by destruct reading.
Qed.

Create HintDb does.
#[local] Hint Resolve idle_select : does.

Ltac does :=
  repeat first [solve [eauto with does] | case_decide | case_match
               | apply does_bind; [apply _| |intros ?] | apply does_ret; apply _ | apply does_get; apply _].

Lemma idle_read sec usec : does idle (select_read sec usec).
Proof. unfold select_read. does. Qed.

Lemma idle_write sec usec : does idle (select_write sec usec).
Proof. unfold select_write. does. Qed.

Lemma idle_now : does idle now.
Proof. intros s. do 2 eexists. by split. Qed.

Lemma idle_peek size : does idle (peek_socket size).
Proof. intros s. unfold peek_socket, handle_EINTR, mbind, M_bind, modify. do 2 eexists. by split. Qed.

#[local] Hint Resolve idle_peek : does.

Lemma idle_alive : does idle is_socket_alive.
Proof. unfold is_socket_alive. does. Qed.

(** Waiting changes neither the buffer nor what is to come. *)
Definition waits (s s' : t) : Prop :=
  read_buff_ s' = read_buff_ s ∧ read_buff_off_ s' = read_buff_off_ s
  ∧ read_buff_content_size_ s' = read_buff_content_size_ s ∧ idle (sock_ s) (sock_ s').

#[export] Instance waits_preorder : PreOrder waits.
Proof.
  split; [intros s; by split_and!|]. intros x y z (?&?&?&?) (?&?&?&?). split_and!; [congruence..|by etrans].
Qed.

Lemma does_on_sock {A} (m : M os A) : does idle m → does waits (on_sock m).
Proof.
  intros Hm s. destruct (Hm (sock_ s)) as (a & s' & H & Hi). unfold on_sock. rewrite H.
  do 2 eexists. split; [done|]. by split_and!.
Qed.

#[local] Hint Resolve idle_read idle_write idle_now idle_alive does_on_sock : does.

Lemma wait_readable_waits : does waits wait_readable.
Proof. unfold wait_readable, duration. does. Qed.

Lemma wait_writable_waits : does waits wait_writable.
Proof. unfold wait_writable. does. Qed.

(** ** One read and one write *)

Lemma on_sock_ret {A} (m : M os A) s : on_sock m s = ((m (sock_ s)).1, s <| sock_ := (m (sock_ s)).2 |>).
Proof. unfold on_sock. by destruct (m (sock_ s)). Qed.


Lemma handle_EINTR_run {A} (fn : M os A) s : handle_EINTR fn s = fn (s <| interrupts ::= skip_interrupts |>).
Proof. done. Qed.

Lemma suffix_from_add k n s : suffix_from (k + n) s = suffix_from k (suffix_from n s).
Proof.
  revert s. induction n as [|n IH]; intros s; [by rewrite Nat.add_0_r|]. rewrite Nat.add_succ_r.
  destruct s as [|c s]; cbn; [by destruct k|apply IH].
Qed.

Lemma suffix_from_end n s : (String.length s <= n)%nat → suffix_from n s = "".
Proof. revert n. induction s as [|c s IH]; intros [|n] H; cbn in *; [done|done|lia|apply IH; lia]. Qed.

Lemma prefix_of_all n s : (String.length s <= n)%nat → prefix_of n s = s.
Proof. intros H. rewrite <- (prefix_suffix n s) at 2. by rewrite suffix_from_end, string_app_nil_r. Qed.

(** A buffer that is used up holds nothing. *)
Lemma buffered_from b n k : k = String.length b → (n <= k)%nat →
  (if bool_decide (n < k)%nat then suffix_from n b else "") = suffix_from n b.
Proof. intros -> Hn. case_bool_decide; [done|]. by rewrite suffix_from_end by lia. Qed.

(** What [recv] gives of what arrives. *)
Lemma read_gives size strm r strm' : (0 < size)%nat → HttplibStream.read size strm = (r, strm') →
  match r with
  | Some d => remaining strm = d +:+ remaining strm' ∧ (String.length d <= size)%nat ∧ (d = "" → remaining strm = "")
  | None => remaining strm' = remaining strm
  end.
Proof.
  intros Hs Hr. destruct (decide (remaining strm = "")) as [He|Hne].
  - pose proof (read_left _ _ _ _ Hr) as Hl. cbv beta in Hl. rewrite He in Hl. cbn in Hl.
    assert (Hn : remaining strm' = "") by (destruct (remaining strm'); [done|cbn in Hl; lia]).
    destruct r as [[|c d]|]; cbn in Hl; [|lia|by rewrite He]. rewrite Hn, He. cbn. split_and!; [done|lia|done].
  - destruct (read_some size strm Hs Hne) as (c & buf & s1 & Heq & Hrem & Hl & _).
    rewrite Hr in Heq. injection Heq as -> ->. by split_and!.
Qed.

Lemma unread_unbuffered s : read_buff_content_size_ s = 0%nat → unread s = remaining (incoming (sock_ s)).
Proof. intros H. unfold unread, buffered, is_readable. rewrite H. by rewrite bool_decide_eq_false_2 by lia. Qed.

Lemma unread_buffered s : (read_buff_off_ s < read_buff_content_size_ s)%nat →
  unread s = suffix_from (read_buff_off_ s) (read_buff_ s) +:+ remaining (incoming (sock_ s)).
Proof. intros H. unfold unread, buffered, is_readable. by rewrite bool_decide_eq_true_2. Qed.

Lemma received_next size s : (0 < size)%nat →
  ∃ r sock', on_sock (read_socket size) s = (Ret r, s <| sock_ := sock' |>)
    ∧ match r with
      | Some d =>
          remaining (incoming (sock_ s)) = d +:+ remaining (incoming sock') ∧ (String.length d <= size)%nat
          ∧ (d = "" → remaining (incoming (sock_ s)) = "")
      | None => remaining (incoming sock') = remaining (incoming (sock_ s))
      end.
Proof.
  intros Hs. rewrite on_sock_ret. unfold read_socket. rewrite handle_EINTR_run. unfold recv. cbn [incoming update_field].
  destruct (HttplibStream.read size (incoming (sock_ s))) as [r strm] eqn:Hr.
  pose proof (read_gives _ _ _ _ Hs Hr) as Hg. do 2 eexists. split; [reflexivity|]. by destruct r.
Qed.

(** What a read gives is the next of what is unread; the empty string only at
    the end. *)
Definition reads_next (size : nat) (r : option string) (s s' : t) : Prop :=
  buffer_ok s' ∧
  match r with
  | Some d => unread s = d +:+ unread s' ∧ (String.length d <= size)%nat ∧ (d = "" → unread s = "")
  | None => unread s' = unread s
  end.

Lemma read_next (size : nat) s : (0 < size)%nat → buffer_ok s →
  ∃ r s', SocketStream.read size s = (Ret r, s') ∧ reads_next size r s s'.
Proof.
  intros Hsize Hok. unfold SocketStream.read. set (n := ssize size).
  assert (Hn : (0 < n <= size)%nat) by (subst n; unfold ssize; lia). clearbody n.
  unfold mbind at 1, M_bind at 1, get_state at 1. destruct (is_readable s) eqn:Hread.
  - set (k := if decide (n <= _)%nat then _ else _).
    unfold is_readable in Hread. apply bool_decide_eq_true in Hread. destruct Hok as [Hc|Hc]; [lia|].
    assert (Hk : (0 < k <= n ∧ read_buff_off_ s + k <= String.length (read_buff_ s))%nat)
      by (subst k; case_decide; lia).
    do 2 eexists. split; [reflexivity|]. split; [by right|]. unfold unread, buffered, is_readable. cbn -[Nat.add].
    rewrite bool_decide_eq_true_2 by done. unfold substr. split_and!.
    + rewrite (buffered_from _ (k + read_buff_off_ s)), suffix_from_add by lia.
      by rewrite <- string_app_assoc, prefix_suffix.
    + pose proof (prefix_of_le k (suffix_from (read_buff_off_ s) (read_buff_ s))). lia.
    + intros He. apply (f_equal String.length) in He. rewrite prefix_of_length in He; [cbn in He; lia|].
      rewrite suffix_from_len. lia.
  - assert (Hu : unread s = remaining (incoming (sock_ s))) by (unfold unread, buffered; by rewrite Hread).
    destruct (wait_readable_waits s) as (b & s1 & Hw & Hbuf & Hoff & Hcont & Hin & _ & _).
    unfold mbind at 1, M_bind at 1. rewrite Hw. destruct b; cbn [negb].
    2:{ exists None, s1. split; [done|]. split; [unfold buffer_ok; by rewrite Hbuf, Hcont|].
        unfold unread, buffered, is_readable. by rewrite Hbuf, Hoff, Hcont, Hin. }
    unfold mbind, M_bind, modify. set (s2 := (s1 <| read_buff_off_ := _ |>) <| read_buff_content_size_ := _ |>).
    assert (H2 : remaining (incoming (sock_ s2)) = unread s) by (rewrite Hu; cbn; by rewrite Hin).
    assert (H0 : read_buff_content_size_ s2 = 0%nat) by done. clearbody s2. case_decide as Hsmall.
    + destruct (received_next read_buff_size_ s2) as (r & sock' & Hr & Hg); [unfold read_buff_size_; lia|].
      rewrite Hr. rewrite H2 in Hg. destruct r as [d|]; [|do 2 eexists; split; [reflexivity|]].
      * destruct Hg as (Hg & _ & Hend). case_decide as Hfit; do 2 eexists; (split; [reflexivity|]).
        -- split; [by left|]. rewrite (unread_unbuffered (_ <| read_buff_ := d |>)), prefix_of_all by done. split_and!; [exact Hg|lia|exact Hend].
        -- split; [by right|]. rewrite (unread_buffered (_ <| read_buff_content_size_ := _ |>)) by (cbn; lia). cbn.
           rewrite <- string_app_assoc, prefix_suffix. split; [exact Hg|].
           split; [pose proof (prefix_of_le n d); lia|]. intros He. apply (f_equal String.length) in He.
           rewrite prefix_of_length in He by lia. cbn in He. lia.
      * split; [by left|]. rewrite (unread_unbuffered (_ <| sock_ := sock' |>)) by done. exact Hg.
    + destruct (received_next n s2) as (r & sock' & Hr & Hg); [lia|]. rewrite Hr. rewrite H2 in Hg.
      do 2 eexists. split; [reflexivity|]. split; [by left|]. rewrite (unread_unbuffered (_ <| sock_ := sock' |>)) by done.
      destruct r as [d|]; [|exact Hg]. destruct Hg as (Hg & Hl & Hend). split_and!; [done|lia|done].
Qed.

(** ** Programs on a SocketStream *)

Lemma reads_after_empty next fuel got ss b :
  (reads stream_read next fuel got (Stream ("" :: ss) b)).1 = (reads stream_read next fuel got (Stream ss b)).1.
Proof. destruct fuel as [|fuel]; [done|]. cbn [reads]. by destruct (next got). Qed.

(** A chunk that fits is read whole. *)
Lemma stream_reads_chunk size c d ss b : (String.length (String c d) <= size)%nat →
  stream_read size (Stream (String c d :: ss) b) = (Ret (Some (String c d)), Stream ("" :: ss) b).
Proof.
  intros Hl. unfold stream_read, HttplibStream.read. cbn [segments read_segments fails].
  by rewrite prefix_of_all, suffix_from_end by done.
Qed.

Lemma reads_stream next fuel got s :
  (∀ l n, next l = Some n → (0 < n)%nat) → buffer_ok s →
  let '(chunks, result, s') := reads SocketStream.read next fuel got s in
  (∃ ss b, (reads stream_read next fuel got (Stream ss b)).1 = (chunks, result))
  ∧ ∃ more, chunks = got ++ more ∧ unread s = join_segments more +:+ unread s'
      ∧ (result = Some (Some "") → unread s' = "").
Proof.
  intros Hnext. revert got s. induction fuel as [|fuel IH]; intros got s Hok.
  - cbn. split; [by exists [], false|]. exists []. by rewrite app_nil_r.
  - cbn [reads]. destruct (next got) as [n|] eqn:Hn.
    2:{ split; [by exists [], false|]. exists []. by rewrite app_nil_r. }
    destruct (read_next n s (Hnext _ _ Hn) Hok) as (r & s1 & -> & Hok1 & Hr). destruct r as [[|c d]|].
    + split; [exists [], false; done|]. exists []. rewrite app_nil_r. destruct Hr as (Hu & _ & He).
      split_and!; [done|exact Hu|]. intros _. rewrite He in Hu by done. by destruct (unread s1).
    + specialize (IH (got ++ [String c d]) s1 Hok1). destruct Hr as (Hu & Hl & _).
      destruct (reads SocketStream.read next fuel _ s1) as [[chunks result] s2].
      destruct IH as [(ss & b & Hss) (more & -> & Hm & Hend)]. split.
      * exists (String c d :: ss), b. rewrite stream_reads_chunk by done. by rewrite reads_after_empty.
      * exists (String c d :: more). rewrite <- app_assoc. split_and!; [done| |exact Hend].
        cbn [join_segments]. by rewrite Hu, Hm, string_app_assoc.
    + split; [exists [], true; done|]. exists []. rewrite app_nil_r. by split_and!.
Qed.

(** C35 (refinement): a [SocketStream] is a [stream] to any program. Whatever a
    program reads from it, in pieces of whatever sizes and depending on what
    it has read, there is a [stream] from which it reads the same, down to the
    end or the error it meets: so what is proved of the programs for every
    [stream] holds on a socket, whatever its buffer, its waits, interruptions
    and time-outs do. No byte is lost, doubled or reordered: what is read and
    what is left unread are what was to come; and the end is reported only
    when everything has been read. *)
Theorem socket_reads_as_stream sock read_timeout write_timeout max_timeout start next fuel :
  (∀ l n, next l = Some n → (0 < n)%nat) →
  let s := SocketStream.ctor sock read_timeout write_timeout max_timeout start in
  let '(chunks, result, s') := reads SocketStream.read next fuel [] s in
  (∃ strm, (reads stream_read next fuel [] strm).1 = (chunks, result))
  ∧ remaining (incoming sock) = join_segments chunks +:+ unread s'
  ∧ (result = Some (Some "") → unread s' = "").
Proof.
  intros Hnext s. pose proof (reads_stream next fuel [] s Hnext (or_introl eq_refl)) as Hr.
  destruct (reads SocketStream.read next fuel [] s) as [[chunks result] s'].
  destruct Hr as [(ss & b & Hss) (more & -> & Hm & Hend)]. split; [by exists (Stream ss b)|]. by split.
Qed.

(** Bytes in two arrivals behind an interruption, with a time-out of a second
    that the third wait exceeds: a line and what was sent with it are read, one
    byte at a time. *)
Definition example_socket : os :=
  Os (Stream ["GET / HTTP/1.1"; "more"] false) [] "" [true; false; true] [ReadyIn 10; ReadyIn 900; ReadyIn 1001] []
    0 [] [].

Definition byte_by_byte (got : list string) : option nat := Some 1%nat.

Lemma socket_reads_as_stream_witness :
  let s := SocketStream.ctor example_socket (1, 0) (1, 0) 0 0 in
  let '(chunks, result, s') := reads SocketStream.read byte_by_byte 100 [] s in
  join_segments chunks = "GET / HTTP/1.1more" ∧ result = Some None
  ∧ (∃ strm, (reads stream_read byte_by_byte 100 [] strm).1 = (chunks, result))
  ∧ remaining (incoming example_socket) = join_segments chunks +:+ unread s'.
Proof.
  pose proof (socket_reads_as_stream example_socket (1, 0) (1, 0) 0 0 byte_by_byte 100 ltac:(intros l n [= <-]; lia)) as H.
  cbv zeta in H |- *. set (run := reads SocketStream.read byte_by_byte 100 [] _) in *.
  assert (Hrun : (join_segments run.1.1, run.1.2) = ("GET / HTTP/1.1more", Some None)) by (vm_compute; reflexivity).
  destruct run as [[chunks result] s']. injection Hrun as Hc Hr. destruct H as (Hs & Hu & _). by split_and!.
Defined.

(** The next request's stream starts with an empty buffer: the bytes the old
    one has received and not delivered are gone. *)
Example next_stream_forgets :
  let s := SocketStream.ctor example_socket (1, 0) (1, 0) 0 0 in
  let '(r, s1) := SocketStream.read 4 s in
  let s2 := SocketStream.ctor (sock_ s1) (1, 0) (1, 0) 0 0 in
  r = Ret (Some "GET ") ∧ unread s1 = "/ HTTP/1.1more" ∧ unread s2 = "more".
Proof. vm_compute. done. Qed.

(** ** Writing *)

Lemma prefix_of_add k n s : prefix_of (k + n) s = prefix_of k s +:+ prefix_of n (suffix_from k s).
Proof.
  revert s. induction k as [|k IH]; intros s; [done|]. destruct s as [|c s]; [by destruct n|].
  cbn [Nat.add prefix_of suffix_from]. by rewrite IH.
Qed.

(** One write: nothing and -1, or the first bytes, for an answer of [send]. *)
Lemma write_some d s : ∃ r s', SocketStream.write d s = (Ret r, s') ∧
  match r with
  | None => outgoing (sock_ s') = outgoing (sock_ s)
  | Some n =>
      outgoing (sock_ s') = outgoing (sock_ s) +:+ prefix_of n d ∧ (n <= String.length d)%nat
      ∧ (accepts (sock_ s) = [] ∧ n = String.length d ∧ accepts (sock_ s') = []
         ∨ (length (accepts (sock_ s')) < length (accepts (sock_ s)))%nat)
  end.
Proof.
  destruct (wait_writable_waits s) as (b & s1 & Hw & _ & _ & _ & _ & Hout & Hacc).
  unfold SocketStream.write, mbind, M_bind. rewrite Hw. destruct b; cbn [negb]; [|by exists None, s1].
  rewrite <- Hout, <- Hacc, on_sock_ret. unfold send_socket. rewrite handle_EINTR_run. unfold send. cbn [accepts update_field].
  destruct (accepts (sock_ s1)) as [|[k|] l]; do 2 eexists; (split; [reflexivity|]); cbn.
  - rewrite prefix_of_all by lia. split_and!; [done|lia|by left].
  - split_and!; [|lia|right; lia]. f_equal. destruct (decide (k <= String.length d)%nat).
    + by rewrite Nat.min_l.
    + rewrite Nat.min_r by lia. rewrite !prefix_of_all by lia. done.
  - done.
Qed.

Lemma write_data_prefix fuel d s : (length (accepts (sock_ s)) < fuel)%nat →
  ∃ ok n s', write_data fuel d s = (Ret ok, s') ∧ outgoing (sock_ s') = outgoing (sock_ s) +:+ prefix_of n d
    ∧ (n <= String.length d)%nat ∧ (ok = true ↔ n = String.length d).
Proof.
  revert d s. induction fuel as [|fuel IH]; intros d s Hf; [lia|]. cbn [write_data].
  case_decide as Hd.
  { subst d. exists true, 0%nat, s. cbn. by rewrite string_app_nil_r. }
  destruct (write_some d s) as (r & s1 & Hw & Hr). unfold mbind, M_bind. rewrite Hw.
  assert (Hpos : (0 < String.length d)%nat) by (destruct d; [done|cbn; lia]).
  destruct r as [k|].
  2:{ exists false, 0%nat, s1. cbn. rewrite string_app_nil_r. split_and!; [done|done|lia|split; [done|lia]]. }
  destruct Hr as (Hout & Hk & Hcase).
  assert (Hrec : ∃ ok n s', write_data fuel (suffix_from k d) s1 = (Ret ok, s')
    ∧ outgoing (sock_ s') = outgoing (sock_ s1) +:+ prefix_of n (suffix_from k d)
    ∧ (n <= String.length (suffix_from k d))%nat ∧ (ok = true ↔ n = String.length (suffix_from k d))).
  { destruct Hcase as [(Hn & -> & Hn')|Hlt]; [|apply IH; lia].
    rewrite suffix_from_end by done. exists true, 0%nat, s1. cbn. rewrite string_app_nil_r.
    split; [by destruct fuel|done]. }
  destruct Hrec as (ok & n & s' & Hrun & Hout' & Hn & Hok). exists ok, (k + n)%nat, s'. split; [exact Hrun|].
  rewrite suffix_from_len in Hn, Hok. split_and!; [|lia|rewrite Hok; lia].
  by rewrite Hout', Hout, string_app_assoc, prefix_of_add.
Qed.

(** [write_data] on a socket is [write_data] on a [wire] that takes as much: all
    of the data, or what the socket took before it failed. *)
Theorem socket_writes_as_wire {W} d s st wr (w : W) :
  ∃ room, let '(r, x) := HttplibContent.write_data d (Wire (outgoing (sock_ s)) room st wr w) in
    (write_all d s).1 = r ∧ outgoing (sock_ (write_all d s).2) = sent x.
Proof.
  destruct (write_data_prefix (S (length (accepts (sock_ s)))) d s) as (ok & n & s' & Hrun & Hout & Hn & Hok); [lia|].
  exists (Some n). unfold HttplibContent.write_data, write_all. rewrite Hrun. cbn. split; [|done].
  f_equal. destruct ok; [rewrite bool_decide_eq_true_2; [done|]|rewrite bool_decide_eq_false_2; [done|]].
  - by rewrite (proj1 Hok).
  - intros Hle. assert (n = String.length d) as He by lia. by apply Hok in He.
Qed.

(** ** Time-outs *)

(** No wait is longer than the time-out, nor than what is left of the longest
    time of the request; the microseconds are less than a second. *)
Lemma actual_timeout_bounds max_msec passed sec usec : 0 <= sec → 0 <= usec →
  let '(s, u) := calc_actual_timeout max_msec passed sec usec in
  0 <= s ∧ 0 <= u < 1000000 ∧ s * 1000 + u / 1000 = Z.max 0 (Z.min (max_msec - passed) (sec * 1000 + usec / 1000)).
Proof.
  intros Hs Hu. unfold calc_actual_timeout. rewrite (Z.quot_div_nonneg usec) by lia.
  set (m := Z.min _ _). assert (0 <= usec / 1000) by (apply Z.div_pos; lia). case_decide.
  - rewrite Z.max_l by lia. change (Z.quot 0 1000) with 0. change (Z.rem 0 1000 * 1000) with 0.
    change (0 / 1000) with 0. lia.
  - rewrite Z.max_r by lia. rewrite Z.quot_div_nonneg, Z.rem_mod_nonneg by lia.
    rewrite Z.div_mul by lia. pose proof (Z.mod_pos_bound m 1000). pose proof (Z.div_mod m 1000).
    assert (0 <= m / 1000) by (apply Z.div_pos; lia). lia.
Qed.
