(* ===== verification/HttplibConnect.v ===== *)
(** * How httplib makes its sockets

    [create_socket], which both sides use, and what the client and the server
    do with every address it tries; the branches for Linux. The addresses a
    name has, and what becomes of a socket for each of them, are the
    environment. *)

From S2P Require Import Prelude Text HttplibText HttplibUrl HttplibStream HttplibMultipart.
From S2P Require Import HttplibContent HttplibMessage HttplibServer HttplibSocket.

(** ** The environment *)

Definition AF_UNIX : Z := 1.
Definition AF_INET : Z := 2.
Definition AF_INET6 : Z := 10.
Definition AI_NUMERICHOST : Z := 4.

(** [connect]: at once, with an error other than [EINPROGRESS], or later: the
    poll that waits for it, the events it returns and the error of the socket. *)
Inductive connection :=
  | Connects
  | Refused
  | InProgress (answer : poll_answer) (writable_or_readable : bool) (getsockopt_ok : bool) (so_error : Z).

(** An address, and what the calls on a socket for it give. *)
Record addrinfo := Addr {
  ai_family : Z;
  socket_ok : bool;
  connect : connection;
  bind_ok : bool;
  listen_ok : bool
}.

(** An address of an interface: its printed form when there is one, with the
    NUL characters up to the length of the buffer. *)
Record ifaddr := IfAddr {
  ifa_name : string;
  ifa_family : Z;
  inet_ntop : option string;
  is_linklocal : bool;
  s6_addr_head : Z
}.

(** The resolver, the interfaces, and whether [bind] to an address of this
    host succeeds. *)
Record network := Network {
  getaddrinfo : option string -> string -> Z -> Z -> option (list addrinfo);
  unix_socket : string -> addrinfo;
  interfaces : list ifaddr;
  local_binds : string -> option (list bool)
}.

(** ** The descriptors *)

Inductive socket_option := TCP_NODELAY | IPV6_V6ONLY | SO_RCVTIMEO | SO_SNDTIMEO | SO_REUSEPORT.

Record fds := Fds {
  next : nat;
  opened : list nat;
  nonblocking : list nat;
  options : list (nat * socket_option * (Z * Z));
  error : Error
}.

#[export] Instance fds_eta : Eta fds := λ f, Fds (next f) (opened f) (nonblocking f) (options f) (error f).

Definition socket : M fds nat := λ f, (Ret (next f), f <| next ::= S |> <| opened ::= cons (next f) |>).

Definition close_socket (sock : nat) : M fds unit :=
  modify (λ f, f <| opened ::= filter (λ s, s ≠ sock) |> <| nonblocking ::= filter (λ s, s ≠ sock) |>).

Definition set_nonblocking (sock : nat) (on : bool) : M fds unit :=
  modify (λ f, f <| nonblocking ::= (if on then cons sock else filter (λ s, s ≠ sock)) |>).

Definition set_socket_opt (sock : nat) (opt : socket_option) (optval : Z) : M fds unit :=
  modify (λ f, f <| options ::= cons (sock, opt, (optval, 0)) |>).

Definition set_socket_opt_time (sock : nat) (opt : socket_option) (sec usec : Z) : M fds unit :=
  modify (λ f, f <| options ::= cons (sock, opt, (sec, usec)) |>).

Definition set_error (e : Error) : M fds unit := modify (λ f, f <| error := e |>).

Definition default_socket_options (sock : nat) : M fds unit := set_socket_opt sock SO_REUSEPORT 1.

(** ** create_socket *)

Definition unescape_abstract_namespace_unix_domain (s : string) : string :=
  match s with
  | String "@" (String d s') => String "000" (String d s')
  | _ => s
  end.

(** [sizeof(sockaddr_un::sun_path)] *)
Definition sun_path_size : nat := 108.

(** A callback that binds or connects a socket; the second answer is [quit]. *)
Definition BindOrConnect : Type := nat -> addrinfo -> M fds (bool * bool).
Definition SocketOptions : Type := nat -> M fds unit.

Definition call_options (socket_options : option SocketOptions) (sock : nat) : M fds unit :=
  match socket_options with Some f => f sock | None => mret tt end.

Section Create.
Context (tcp_nodelay ipv6_v6only : bool) (socket_options : option SocketOptions) (bind_or_connect : BindOrConnect).

(** The addresses in their order. *)
Fixpoint try_addresses (l : list addrinfo) : M fds (option nat) :=
  match l with
  | [] => mret None
  | rp :: l =>
      if negb (socket_ok rp) then try_addresses l
      else
        sock ← socket;
        (if tcp_nodelay then set_socket_opt sock TCP_NODELAY 1 else mret tt);;
        (if decide (ai_family rp = AF_INET6)
         then set_socket_opt sock IPV6_V6ONLY (if ipv6_v6only then 1 else 0) else mret tt);;
        call_options socket_options sock;;
        '(ok, quit) ← bind_or_connect sock rp;
        if (ok : bool) then mret (Some sock)
        else
          close_socket sock;;
          if (quit : bool) then mret None else try_addresses l
  end.

Definition create_socket (net : network) (host ip : string) (port address_family socket_flags : Z)
    : M fds (option nat) :=
  let '(node, family, flags) :=
    if decide (ip ≠ "") then (Some ip, AF_UNSPEC, AI_NUMERICHOST)
    else (if decide (host = "") then None else Some host, address_family, socket_flags) in
  if decide (family = AF_UNIX) then
    if decide (sun_path_size < String.length host)%nat then mret None
    else
      let addr := unix_socket net (unescape_abstract_namespace_unix_domain host) in
      if negb (socket_ok addr) then mret None
      else
        sock ← socket;
        call_options socket_options sock;;
        '(ok, _) ← bind_or_connect sock addr;
        if (ok : bool) then mret (Some sock) else close_socket sock;; mret None
  else
    match getaddrinfo net node (to_string port) family flags with
    | None => mret None
    | Some addresses => try_addresses addresses
    end.

End Create.

(** ** The client's sockets *)

Definition bind_ip_address (net : network) (host : string) : bool :=
  match local_binds net (c_str host) with None => false | Some l => existsb id l end.

Fixpoint if2ip_from (candidate : string) (address_family : Z) (ifn : string) (l : list ifaddr) : string :=
  match l with
  | [] => candidate
  | ifa :: l =>
      let continue := if2ip_from candidate address_family ifn l in
      if decide (ifn = ifa_name ifa ∧ (address_family = AF_UNSPEC ∨ ifa_family ifa = address_family)) then
        if decide (ifa_family ifa = AF_INET) then
          match inet_ntop ifa with Some buf => buf | None => continue end
        else if decide (ifa_family ifa = AF_INET6) then
          if is_linklocal ifa then continue
          else
            match inet_ntop ifa with
            | Some buf =>
                if decide (s6_addr_head ifa = 0xfc ∨ s6_addr_head ifa = 0xfd)
                then if2ip_from buf address_family ifn l else buf
            | None => continue
            end
        else continue
      else continue
  end.

Definition if2ip (net : network) (address_family : Z) (ifn : string) : string :=
  if2ip_from "" address_family ifn (interfaces net).

(** The result of the poll for a connection in progress. *)
Definition wait_until_socket_is_ready (sec usec : Z) (answer : poll_answer) (events getsockopt_ok : bool)
    (so_error : Z) : Error :=
  let poll_res := (poll_result (wrap32 (sec * 1000 + Z.quot usec 1000)) answer).1 in
  if decide (poll_res = 0) then ConnectionTimeout
  else if bool_decide (0 < poll_res) && events then
    if getsockopt_ok && bool_decide (so_error = 0) then Success else Connection
  else Connection.

Definition connect_socket (net : network) (intf : string) (address_family : Z)
    (connection_timeout read_timeout write_timeout : Z * Z) : BindOrConnect := λ sock ai,
  let ip_from_if := if2ip net address_family intf in
  let ip_from_if := if decide (ip_from_if = "") then intf else ip_from_if in
  if bool_decide (intf ≠ "") && negb (bind_ip_address net ip_from_if)
  then set_error BindIPAddress;; mret (false, false)
  else
    set_nonblocking sock true;;
    let connected :=
      set_nonblocking sock false;;
      set_socket_opt_time sock SO_RCVTIMEO read_timeout.1 read_timeout.2;;
      set_socket_opt_time sock SO_SNDTIMEO write_timeout.1 write_timeout.2;;
      set_error Success;; mret (true, false) in
    match connect ai with
    | Connects => connected
    | Refused => set_error Connection;; mret (false, false)
    | InProgress answer events getsockopt_ok so_error =>
        let e := wait_until_socket_is_ready connection_timeout.1 connection_timeout.2 answer events
                   getsockopt_ok so_error in
        set_error e;;
        if decide (e = Success) then connected else mret (false, bool_decide (e = ConnectionTimeout))
    end.

Definition create_client_socket (net : network) (host ip : string) (port address_family : Z)
    (tcp_nodelay ipv6_v6only : bool) (socket_options : option SocketOptions)
    (connection_timeout read_timeout write_timeout : Z * Z) (intf : string) : M fds (option nat) :=
  sock ← create_socket tcp_nodelay ipv6_v6only socket_options
           (connect_socket net intf address_family connection_timeout read_timeout write_timeout)
           net host ip port address_family 0;
  match sock with
  | Some _ => set_error Success
  | None => modify (λ f, f <| error ::= λ e, if decide (e = Success) then Connection else e |>)
  end;;
  mret sock.

(** ** The server's socket *)

Definition bind_and_listen : BindOrConnect := λ _ ai, mret (bind_ok ai && listen_ok ai, false).

Definition create_server_socket (net : network) (host : string) (port address_family socket_flags : Z)
    (tcp_nodelay ipv6_v6only : bool) (socket_options : option SocketOptions) : M fds (option nat) :=
  create_socket tcp_nodelay ipv6_v6only socket_options bind_and_listen net host "" port address_family socket_flags.
