(* ===== verification/HttplibConnectProps.v ===== *)
(** * The sockets httplib makes are accounted for

    Whatever the resolver and the network answer, a socket that is not returned
    is closed, and the client learns why there is none. *)

From S2P Require Import Prelude Text HttplibText HttplibUrl HttplibStream HttplibMultipart.
From S2P Require Import HttplibContent HttplibMessage HttplibServer HttplibSocket HttplibConnect.

(** ** No descriptor is lost *)

(** The descriptors are those that have been made and not closed. *)
Definition fds_ok (f : fds) : Prop := Forall (λ s, (s < next f)%nat) (opened f).

(** What a callback may do to a socket it is given. *)
Definition callback_ok (m : M fds unit) : Prop :=
  ∀ f, ∃ f', m f = (Ret tt, f') ∧ next f' = next f ∧ opened f' = opened f ∧ error f' = error f.

(** Nothing but the socket that is returned is left open. *)
Record accounted (r : option nat) (f f' : fds) : Prop := Accounted {
  accounted_ok : fds_ok f';
  accounted_opened : opened f' = match r with Some sock => sock :: opened f | None => opened f end;
  accounted_next : (next f <= next f')%nat;
  accounted_fresh : match r with Some sock => (next f <= sock)%nat | None => True end
}.

Section Accounts.
Context (tcp_nodelay ipv6_v6only : bool) (socket_options : option SocketOptions) (bc : BindOrConnect).
Context (connected : nat -> fds -> Prop) (failed : Error -> Prop).
Context (Hoptions : ∀ sock, callback_ok (call_options socket_options sock)).
Context (Hbc : ∀ sock ai f, ∃ ok quit f', bc sock ai f = (Ret (ok, quit), f')
  ∧ next f' = next f ∧ opened f' = opened f
  ∧ (if ok : bool then connected sock f' else error f' = error f ∨ failed (error f'))).
#[local] Set Default Proof Using "Type*".

Lemma opened_fresh f : fds_ok f → filter (λ s, s ≠ next f) (next f :: opened f) = opened f.
Proof.
  intros Hf. rewrite filter_cons_False by naive_solver. apply list_filter_all.
  intros s Hs. unfold fds_ok in Hf. rewrite Forall_forall in Hf. specialize (Hf _ Hs). lia.
Qed.

(** What one address comes to. *)
Definition outcome_of (r : option nat) (f f' : fds) : Prop :=
  accounted r f f' ∧ match r with Some sock => connected sock f' | None => error f' = error f ∨ failed (error f') end.

(** A socket for one address. *)
Lemma attempted ai f f1 :
  fds_ok f → next f1 = S (next f) → opened f1 = next f :: opened f → error f1 = error f →
  ∃ ok quit f2, bc (next f) ai f1 = (Ret (ok, quit), f2)
    ∧ outcome_of (if ok : bool then Some (next f) else None) f (if ok then f2 else (close_socket (next f) f2).2).
Proof.
  intros Hf Hn1 Ho1 He1. destruct (Hbc (next f) ai f1) as (ok & quit & f2 & H2 & Hn2 & Ho2 & Hcase).
  exists ok, quit, f2. split; [done|]. rewrite Ho1 in Ho2. rewrite Hn1 in Hn2.
  assert (Hok2 : Forall (λ s, (s < next f2)%nat) (opened f)) by (rewrite Hn2; eapply Forall_impl; [exact Hf|cbn; lia]).
  destruct ok; split.
  - constructor; [|done|lia|lia]. unfold fds_ok. rewrite Ho2. constructor; [lia|done].
  - exact Hcase.
  - constructor; [unfold fds_ok; cbn; by rewrite Ho2, opened_fresh|cbn; by rewrite Ho2, opened_fresh|cbn; lia|done].
  - rewrite He1 in Hcase. exact Hcase.
Qed.

Lemma nothing_tried f : fds_ok f → outcome_of None f f.
Proof. intros Hf. split; [by constructor|by left]. Qed.

(** After an attempt that has left nothing open. *)
Lemma outcome_after r f f1 f' : outcome_of None f f1 → outcome_of r f1 f' → outcome_of r f f'.
Proof.
  intros [[H1 O1 N1 _] E1] [[H2 O2 N2 F2] E2]. split; [constructor; [done| |lia|]|].
  - destruct r; by rewrite O2, O1.
  - destruct r; [lia|done].
  - destruct r; [done|]. destruct E2 as [E2|E2]; [rewrite E2|by right]. exact E1.
Qed.

Lemma run_settings {A} (a b c : M fds unit) (k : M fds A) f f1 :
  (a;; b;; c) f = (Ret tt, f1) → (a;; b;; c;; k) f = k f1.
Proof.
  unfold mbind, M_bind. destruct (a f) as [[[]|e|] f2]; [|done..]. destruct (b f2) as [[[]|e|] f3]; [|done..].
  by intros ->.
Qed.

Lemma try_addresses_accounts l f : fds_ok f →
  ∃ r f', try_addresses tcp_nodelay ipv6_v6only socket_options bc l f = (Ret r, f') ∧ outcome_of r f f'.
Proof.
  revert f. induction l as [|ai l IH]; intros f Hf; cbn [try_addresses].
  { exists None, f. split; [done|by apply nothing_tried]. }
  destruct (negb _); [by apply IH|].
  set (f0 := f <| next ::= S |> <| opened ::= cons (next f) |>).
  assert (Hopt : ∃ f1, ((if tcp_nodelay then set_socket_opt (next f) TCP_NODELAY 1 else mret tt);;
      (if decide (ai_family ai = AF_INET6) then set_socket_opt (next f) IPV6_V6ONLY (if ipv6_v6only then 1 else 0)
       else mret tt);; call_options socket_options (next f)) f0 = (Ret tt, f1)
    ∧ next f1 = S (next f) ∧ opened f1 = next f :: opened f ∧ error f1 = error f).
  { unfold mbind, M_bind. destruct tcp_nodelay, (decide (ai_family ai = AF_INET6)); cbn;
      match goal with |- context [call_options socket_options (next f) ?g] =>
        destruct (Hoptions (next f) g) as (f1 & -> & Hn & Ho & He) end; by exists f1. }
  destruct Hopt as (f1 & Hrun & Hn1 & Ho1 & He1).
  destruct (attempted ai f f1 Hf Hn1 Ho1 He1) as (ok & quit & f2 & H2 & Hout).
  assert (Hstep : ∀ k : nat -> M fds (option nat), (socket ≫= λ sock,
      (if tcp_nodelay then set_socket_opt sock TCP_NODELAY 1 else mret tt);;
      (if decide (ai_family ai = AF_INET6) then set_socket_opt sock IPV6_V6ONLY (if ipv6_v6only then 1 else 0)
       else mret tt);; call_options socket_options sock;; k sock) f = k (next f) f1).
  { intros k. by apply (run_settings _ _ _ (k (next f)) f0 f1). }
  rewrite Hstep. unfold mbind at 1, M_bind at 1. rewrite H2. destruct ok; [by exists (Some (next f)), f2|].
  unfold mbind, M_bind. change (close_socket (next f) f2) with (@Ret unit tt, (close_socket (next f) f2).2).
  destruct quit; [by exists None, (close_socket (next f) f2).2|].
  destruct (IH (close_socket (next f) f2).2) as (r & f' & Hr & Hout'); [apply Hout|].
  exists r, f'. split; [exact Hr|]. by eapply outcome_after.
Qed.

Lemma create_socket_accounts net host ip port family flags f : fds_ok f →
  ∃ r f', create_socket tcp_nodelay ipv6_v6only socket_options bc net host ip port family flags f = (Ret r, f')
    ∧ outcome_of r f f'.
Proof.
  intros Hf. unfold create_socket. destruct (if decide (ip ≠ "") then _ else _) as [[node fam] fl].
  assert (Hnone : ∃ r f', mret (M := M fds) (@None nat) f = (Ret r, f') ∧ outcome_of r f f')
    by (exists None, f; split; [done|by apply nothing_tried]).
  case_decide.
  2:{ destruct (getaddrinfo _ _ _ _ _); [by apply try_addresses_accounts|exact Hnone]. }
  case_decide; [exact Hnone|]. destruct (negb _); [exact Hnone|].
  set (addr := unix_socket net _). set (f0 := f <| next ::= S |> <| opened ::= cons (next f) |>).
  destruct (Hoptions (next f) f0) as (f1 & H1 & Hn1 & Ho1 & He1).
  destruct (attempted addr f f1 Hf Hn1 Ho1 He1) as (ok & quit & f2 & H2 & Hout).
  unfold mbind, M_bind. change (socket f) with (Ret (next f), f0). cbv iota. rewrite H1, H2.
  destruct ok; do 2 eexists; (split; [reflexivity|exact Hout]).
Qed.

End Accounts.

(** ** The client *)

Definition client_failure (e : Error) : Prop := e ∈ [Connection; ConnectionTimeout; BindIPAddress].

Definition blocking (sock : nat) (f : fds) : Prop := sock ∉ nonblocking f ∧ error f = Success.

Lemma not_filtered (sock : nat) (l : list nat) : sock ∉ filter (λ s, s ≠ sock) l.
Proof. rewrite list_elem_of_filter. naive_solver. Qed.

Lemma ready_error sec usec answer events ok so_error :
  let e := wait_until_socket_is_ready sec usec answer events ok so_error in e = Success ∨ client_failure e.
Proof.
  unfold wait_until_socket_is_ready, client_failure. cbv zeta.
  repeat match goal with |- context [if ?b then _ else _] => destruct b end; (by left) || (right; set_solver).
Qed.

Lemma connect_socket_ok net intf family tc tr tw sock ai f :
  ∃ ok quit f', connect_socket net intf family tc tr tw sock ai f = (Ret (ok, quit), f')
    ∧ next f' = next f ∧ opened f' = opened f
    ∧ (if ok : bool then blocking sock f' else error f' = error f ∨ client_failure (error f')).
Proof.
  unfold connect_socket. destruct (_ && _).
  { do 3 eexists. split; [reflexivity|]. cbn. split_and!; [done..|right; unfold client_failure; set_solver]. }
  destruct (connect ai) as [| |answer events ok so_error].
  - do 3 eexists. split; [reflexivity|]. split_and!; [done..|]. split; [apply not_filtered|done].
  - do 3 eexists. split; [reflexivity|]. cbn. split_and!; [done..|right; unfold client_failure; set_solver].
  - destruct (ready_error tc.1 tc.2 answer events ok so_error) as [He|He].
    + rewrite He. do 3 eexists. split; [reflexivity|]. split_and!; [done..|]. split; [apply not_filtered|done].
    + rewrite decide_False by (intros H; rewrite H in He; unfold client_failure in He; set_solver).
      do 3 eexists. split; [reflexivity|]. cbn. split_and!; [done..|by right].
Qed.

(** C36 (safety): [create_client_socket] accounts for every descriptor. Whatever
    addresses the resolver gives, and whatever [socket], [bind], [connect] and
    [poll] answer for each of them: the sockets of the addresses that failed
    have been closed, so that only the socket that is returned is open in
    addition, and it is a blocking one; [error] is [Success] exactly if there
    is one, and otherwise one of the three errors the client's [send] expects. *)
Theorem client_socket_accounted net host ip port family tcp_nodelay ipv6_v6only socket_options tc tr tw intf f :
  (∀ sock, callback_ok (call_options socket_options sock)) → fds_ok f → error f = Success →
  ∃ r f', create_client_socket net host ip port family tcp_nodelay ipv6_v6only socket_options tc tr tw intf f
          = (Ret r, f')
    ∧ opened f' = match r with Some sock => sock :: opened f | None => opened f end
    ∧ match r with
      | Some sock => error f' = Success ∧ sock ∉ nonblocking f' ∧ sock ∉ opened f
      | None => client_failure (error f')
      end.
Proof.
  intros Hoptions Hf He. unfold create_client_socket.
  destruct (create_socket_accounts tcp_nodelay ipv6_v6only socket_options
    (connect_socket net intf family tc tr tw) blocking client_failure Hoptions
    (connect_socket_ok net intf family tc tr tw) net host ip port family 0 f Hf) as (r & f1 & Hr & [[Hok Ho _ Hfresh] Hcase]).
  unfold mbind, M_bind. rewrite Hr. destruct r as [sock|]; do 2 eexists; (split; [reflexivity|]); (split; [exact Ho|]).
  - split_and!; [done|apply Hcase|]. intros Hin.
    unfold fds_ok in Hf. rewrite Forall_forall in Hf. specialize (Hf _ Hin). lia.
  - cbn. destruct (decide (error f1 = Success)) as [H|H]; [unfold client_failure; set_solver|].
    destruct Hcase as [H'|H']; [congruence|done].
Qed.

(** ** The server *)

Lemma bind_and_listen_ok sock ai f :
  ∃ ok quit f', bind_and_listen sock ai f = (Ret (ok, quit), f')
    ∧ next f' = next f ∧ opened f' = opened f ∧ (if ok : bool then True else error f' = error f ∨ False).
Proof. do 3 eexists. split; [reflexivity|]. split_and!; [done..|]. destruct (_ && _); [done|by left]. Qed.

(** The same of the server's socket. *)
Theorem server_socket_accounted net host port family flags tcp_nodelay ipv6_v6only socket_options f :
  (∀ sock, callback_ok (call_options socket_options sock)) → fds_ok f →
  ∃ r f', create_server_socket net host port family flags tcp_nodelay ipv6_v6only socket_options f = (Ret r, f')
    ∧ opened f' = match r with Some sock => sock :: opened f | None => opened f end.
Proof.
  intros Hoptions Hf.
  destruct (create_socket_accounts tcp_nodelay ipv6_v6only socket_options bind_and_listen (λ _ _, True) (λ _, False)
    Hoptions bind_and_listen_ok net host "" port family flags f Hf) as (r & f1 & Hr & [[_ Ho _ _] _]).
  by exists r, f1.
Qed.

(** Two addresses: the connection to the first is refused after a while, the
    second one connects. *)
Definition example_addresses_of_localhost : list addrinfo :=
  [Addr AF_INET6 true (InProgress (ReadyIn 5) true true 111) true true; Addr AF_INET true Connects true true].

Definition example_resolver : network :=
  Network (λ _ _ _ _, Some example_addresses_of_localhost) (λ _, Addr AF_UNIX true Refused false false) [] (λ _, None).

Definition example_fds : fds := Fds 3 [2; 1; 0]%nat [] [] Success.

Lemma client_socket_accounted_witness :
  ∃ r f', create_client_socket example_resolver "localhost" "" 9001 AF_UNSPEC true false None (300, 0) (300, 0) (5, 0) ""
            example_fds = (Ret r, f')
    ∧ opened f' = match r with Some sock => sock :: opened example_fds | None => opened example_fds end
    ∧ r = Some 4%nat.
Proof.
  destruct (client_socket_accounted example_resolver "localhost" "" 9001 AF_UNSPEC true false None (300, 0) (300, 0)
    (5, 0) "" example_fds) as (r & f' & Hr & Ho & _).
  - intros sock f. exists f. by split_and!.
  - repeat constructor.
  - reflexivity.
  - exists r, f'. split; [exact Hr|]. split; [exact Ho|]. apply (f_equal fst) in Hr. vm_compute in Hr. by injection Hr as <-.
Defined.
