(* ===== verification/HttplibClient.v ===== *)
(** * The client of httplib

    [ClientImpl] without TLS and compression: its requests, results and
    settings, the environment it works in, and the two patterns that take URLs
    apart. What it does with a request is in HttplibClientSend.v, the methods
    that make one in HttplibClientMethods.v.

    The environment of a client is [net]: the sockets it will get, in order,
    each with what the peer will send to every request ([arrivals]), what it
    takes, and whether it is still alive when it is used again. A callback and
    a content provider work on the world [W]. One thread uses the client;
    [stops] are the requests during which another one calls [stop()]. *)

From S2P Require Import Prelude Text HttplibText Regex HttplibUrl HttplibStream HttplibMultipart.
From S2P Require Import HttplibContent HttplibMessage HttplibServer.

(** ** Authentication headers *)

Definition auth_key (is_proxy : bool) : string :=
  if is_proxy then "Proxy-Authorization" else "Authorization".

Definition make_basic_authentication_header (username password : string) (is_proxy : bool) : string * string :=
  (auth_key is_proxy, "Basic " +:+ base64_encode (username +:+ ":" +:+ password)).

Definition make_bearer_token_authentication_header (token : string) (is_proxy : bool) : string * string :=
  (auth_key is_proxy, "Bearer " +:+ token).

Definition get_bearer_token_auth (req : Request) : outcome string :=
  if has_header (headers req) "Authorization" then
    let value := request_header "Authorization" req in
    if decide (String.length value < 7)%nat
    then Throw (Exn OutOfRange "basic_string::substr") else Ret (suffix_from 7 value)
  else Ret "".

(** ** Patterns for URLs

    The two expressions are matched by continuations, as the backtracking
    matcher of libstdc++ does: an optional part is tried first. *)

(** The characters [p], as many as the rest of the match allows. *)
Fixpoint greedy {A} (p : ascii -> bool) (k : string -> option A) (s : string) : option A :=
  match s with
  | String c s' => if p c then match greedy p k s' with Some r => Some r | None => k s end else k s
  | EmptyString => k s
  end.

(** ... as a group: the continuation gets what was matched. *)
Definition group {A} (p : ascii -> bool) (k : string -> string -> option A) (s : string) : option A :=
  greedy p (λ rest, k (prefix_of (String.length s - String.length rest) s) rest) s.

Definition group_plus {A} (p : ascii -> bool) (k : string -> string -> option A) (s : string) : option A :=
  match s with
  | String c _ => if p c then group p (λ m rest, if decide (m = "") then None else k m rest) s else None
  | EmptyString => None
  end.

Definition text {A} (t : string) (k : string -> option A) (s : string) : option A :=
  if starts_with t s then k (suffix_from (String.length t) s) else None.

Definition or_else {A} (m k : option A) : option A := match m with Some r => Some r | None => k end.

Definition is_host_bracket_char (c : ascii) : bool :=
  isdigit c || (97 <=? code c) && (code c <=? 102) || (65 <=? code c) && (code c <=? 70)
  || bool_decide (c = ":"%char).

Definition not_in (cs : string) (c : ascii) : bool := negb (one_of cs c).

(** [(?:\[([a-fA-F\d:]+)\]|([^:/?#]+))(?::(\d+))?]: the host, of either form,
    and the port. *)
Definition match_port {A} (k : string -> string -> option A) (s : string) : option A :=
  or_else (text ":" (group_plus isdigit k) s) (k "" s).

Definition match_authority {A} (k : string -> string -> string -> option A) (s : string) : option A :=
  or_else (text "[" (group_plus is_host_bracket_char (λ host, text "]" (match_port (k host)))) s)
    (group_plus (not_in ":/?#") (λ host, match_port (k host)) s).

(** The target of a redirect. *)
Record location_parts := Location {
  next_scheme : string;
  next_host : string;
  port_str : string;
  next_path : string;
  next_query : string
}.

(** The fragment, which has no line terminator, up to the end. *)
Definition match_fragment {A} (r : A) (s : string) : option A :=
  or_else (text "#" (greedy (atom_matches AnyChar) (λ s, if decide (s = "") then Some r else None)) s)
    (if decide (s = "") then Some r else None).

Definition match_location (s : string) : option location_parts :=
  let rest scheme host port :=
    group (not_in "?#") (λ path s,
      or_else (text "?" (group (not_in "#") (λ query, match_fragment (Location scheme host port path ("?" +:+ query)))) s)
        (match_fragment (Location scheme host port path "") s)) in
  let authority scheme s :=
    or_else (text "//" (match_authority (rest scheme)) s) (rest scheme "" "" s) in
  or_else (text "https:" (authority "https") s)
    (or_else (text "http:" (authority "http") s) (authority "" s)).

(** The argument of [Client(scheme_host_port)]: scheme, host and port. *)
Definition islower (c : ascii) : bool := (97 <=? code c) && (code c <=? 122).

Definition match_scheme_host_port (s : string) : option (string * string * string) :=
  let authority scheme :=
    match_authority (λ host port s, if decide (s = "") then Some (scheme, host, port) else None) in
  or_else (group_plus islower (λ scheme, text "://" (authority scheme)) s) (authority "" s).

Example match_location_absolute :
  match_location "https://[::1]:8443/a/b?c=d#e" = Some (Location "https" "::1" "8443" "/a/b" "?c=d").
Proof. reflexivity. Qed.

Example match_location_relative : match_location "b?c" = Some (Location "" "" "" "b" "?c").
Proof. reflexivity. Qed.

Example match_host_port : match_scheme_host_port "http://localhost:9001" = Some ("http", "localhost", "9001").
Proof. reflexivity. Qed.

Module ClientImpl.

Section Client.
Context {W : Type} {platform : Platform W}.

(** ** Requests and responses *)

(** The state a [mutable] closure keeps: the item of a form that is being
    written, and where it started. *)
Definition multipart_state : Type := nat * Z.

(** The response of a client, with what only a client sets. *)
Record ClientResponse := CRes {
  version : string;
  reason : string;
  location : string;
  response : Response W
}.

#[export] Instance ClientResponse_eta : Eta ClientResponse := λ r,
  CRes (version r) (reason r) (location r) (response r).

Definition res_default : ClientResponse := CRes "" "" "" response_default.

Definition ResponseHandler : Type := ClientResponse -> M W bool.

Definition CPPHTTPLIB_REDIRECT_MAX_COUNT : nat := 20.

(** The request of a client: the fields of the server's and those only a
    client uses. A copy of a provider has a state of its own, so the state is a
    part of the request. [start_time_] is left out with the time-outs. *)
Record ClientRequest := CReq {
  request : Request;
  response_handler : option ResponseHandler;
  content_receiver : option (ContentReceiverWithProgress W);
  progress : option (Progress W);
  redirect_count_ : nat;
  content_length_ : Z;
  content_provider_ : option (ContentProvider (multipart_state * W));
  provider_state_ : multipart_state;
  is_chunked_content_provider_ : bool
}.

#[export] Instance ClientRequest_eta : Eta ClientRequest := λ r,
  CReq (request r) (response_handler r) (content_receiver r) (progress r) (redirect_count_ r)
    (content_length_ r) (content_provider_ r) (provider_state_ r) (is_chunked_content_provider_ r).

Definition req_default : ClientRequest :=
  CReq request_default None None None CPPHTTPLIB_REDIRECT_MAX_COUNT 0 None (O, 0) false.

(** [Result]. *)
Record Result := MkResult {
  res_ : option ClientResponse;
  err_ : Error;
  request_headers_ : Headers
}.

Definition has_request_header (key : string) (r : Result) : bool := has_header (request_headers_ r) key.

Definition get_request_header_value (key def : string) (id : nat) (r : Result) : string :=
  get_header_value (request_headers_ r) key def id.

Definition get_request_header_value_u64 (key : string) (def : Z) (id : nat) (r : Result) : Z :=
  (get_header_value_u64 (request_headers_ r) key def id).1.

Definition get_request_header_value_count (key : string) (r : Result) : nat :=
  get_header_value_count (request_headers_ r) key.

Definition set_req_header (key val : string) (r : ClientRequest) : ClientRequest :=
  r <| request ::= λ q, q <| headers ::= set_header key val |> |>.

(** [req.headers.insert(header)] *)
Definition insert_header (kv : string * string) (r : ClientRequest) : ClientRequest :=
  r <| request ::= λ q, q <| headers ::= emplace_header kv.1 kv.2 |> |>.

Definition req_has_header (key : string) (r : ClientRequest) : bool := has_header (headers (request r)) key.

(** ** The network *)

(** A connected socket: the peer it was asked for, what each stream made on it
    will deliver, what has been sent on it, the bytes it still takes when it
    breaks, and the answers of [wait_writable()] and of [is_socket_alive] to
    come ([false] behind the last). *)
Record conn := Conn {
  arrivals : list stream;
  sent_ : string;
  room_ : option nat;
  writable_ : list bool;
  alive_ : list bool
}.

#[export] Instance conn_eta : Eta conn := λ c,
  Conn (arrivals c) (sent_ c) (room_ c) (writable_ c) (alive_ c).

(** [connects] are the results of the [create_client_socket] calls to come (no
    connection behind the last), [asked] are the host, the address and the port
    of the calls made, [closed] the sockets that have been closed, [opened] the
    number of those that have been opened, and [stops] whether another thread
    calls [stop()] during the requests to come. *)
Record net := Net {
  connects : list (conn + Error);
  asked : list (string * string * Z);
  opened : nat;
  closed : list conn;
  stops : list bool;
  world_ : W
}.

#[export] Instance net_eta : Eta net := λ n,
  Net (connects n) (asked n) (opened n) (closed n) (stops n) (world_ n).

(** ** The client *)

(** What [copy_settings] copies, and [connection_timeout_usec_]. *)
Record settings := Settings {
  client_cert_path_ : string;
  client_key_path_ : string;
  connection_timeout_sec_ : Z;
  connection_timeout_usec_ : Z;
  read_timeout_ : Z * Z;
  write_timeout_ : Z * Z;
  max_timeout_msec_ : Z;
  basic_auth_username_ : string;
  basic_auth_password_ : string;
  bearer_token_auth_token_ : string;
  keep_alive_ : bool;
  follow_location_ : bool;
  url_encode_ : bool;
  address_family_ : Z;
  tcp_nodelay_ : bool;
  ipv6_v6only_ : bool;
  socket_options_ : option (Z -> W -> W);
  compress_ : bool;
  decompress_ : bool;
  interface_ : string;
  proxy_host_ : string;
  proxy_port_ : Z;
  proxy_basic_auth_username_ : string;
  proxy_basic_auth_password_ : string;
  proxy_bearer_token_auth_token_ : string;
  logger_ : option (ClientRequest -> ClientResponse -> M W unit)
}.

#[export] Instance settings_eta : Eta settings := λ s,
  Settings (client_cert_path_ s) (client_key_path_ s) (connection_timeout_sec_ s)
    (connection_timeout_usec_ s) (read_timeout_ s) (write_timeout_ s) (max_timeout_msec_ s)
    (basic_auth_username_ s) (basic_auth_password_ s) (bearer_token_auth_token_ s) (keep_alive_ s)
    (follow_location_ s) (url_encode_ s) (address_family_ s) (tcp_nodelay_ s) (ipv6_v6only_ s)
    (socket_options_ s) (compress_ s) (decompress_ s) (interface_ s) (proxy_host_ s) (proxy_port_ s)
    (proxy_basic_auth_username_ s) (proxy_basic_auth_password_ s) (proxy_bearer_token_auth_token_ s)
    (logger_ s).

Definition settings_default (cert key : string) : settings :=
  Settings cert key 300 0 (300, 0) (5, 0) 0 "" "" "" false false true AF_UNSPEC false false None
    false true "" "" (-1) "" "" "" None.

Record t := Client {
  host_ : string;
  port_ : Z;
  host_and_port_ : string;
  socket_ : option conn;
  socket_requests_in_flight_ : nat;
  socket_should_be_closed_when_request_is_done_ : bool;
  addr_map_ : gmap string string;
  default_headers_ : Headers;
  header_writer_ : option (Headers -> Z * string);
  conf : settings
}.

#[export] Instance t_eta : Eta t := λ c,
  Client (host_ c) (port_ c) (host_and_port_ c) (socket_ c) (socket_requests_in_flight_ c)
    (socket_should_be_closed_when_request_is_done_ c) (addr_map_ c) (default_headers_ c)
    (header_writer_ c) (conf c).

(** A NUL in front marks an abstract Unix socket. *)
Definition escape_abstract_namespace_unix_domain (s : string) : string :=
  match s with
  | String c (String d s') => if decide (code c = 0) then String "@" (String d s') else s
  | _ => s
  end.

Definition adjust_host_string (host : string) : string :=
  match find ":" host with Some _ => "[" +:+ host +:+ "]" | None => host end.

Definition ctor (host : string) (port : Z) (client_cert_path client_key_path : string) : t :=
  let host := escape_abstract_namespace_unix_domain host in
  Client host port (adjust_host_string host +:+ ":" +:+ to_string port) None O false ∅ [] None
    (settings_default client_cert_path client_key_path).

(** Everything but the microseconds of the connection time-out. *)
Definition copy_settings (rhs c : t) : t :=
  c <| conf := (conf rhs) <| connection_timeout_usec_ := connection_timeout_usec_ (conf c) |> |>.

(** [Client(scheme_host_port)], without TLS. *)
Definition universal (scheme_host_port client_cert_path client_key_path : string) : outcome t :=
  match match_scheme_host_port scheme_host_port with
  | Some (scheme, host, port_str) =>
      if decide (scheme ≠ "" ∧ scheme ≠ "http")
      then Throw (Exn InvalidArgument ("'" +:+ scheme +:+ "' scheme is not supported."))
      else
        port ← (if decide (port_str = "") then Ret 80 else p ← stoi port_str; Ret p.1);
        Ret (ctor host port client_cert_path client_key_path)
  | None => Ret (ctor scheme_host_port 80 client_cert_path client_key_path)
  end.

(** ** Settings *)

Definition set_connection_timeout (sec usec : Z) (c : t) : t :=
  c <| conf ::= λ s, s <| connection_timeout_sec_ := sec |> <| connection_timeout_usec_ := usec |> |>.

Definition set_read_timeout (sec usec : Z) (c : t) : t :=
  c <| conf ::= λ s, s <| read_timeout_ := (sec, usec) |> |>.

Definition set_write_timeout (sec usec : Z) (c : t) : t :=
  c <| conf ::= λ s, s <| write_timeout_ := (sec, usec) |> |>.

Definition set_max_timeout (msec : Z) (c : t) : t :=
  c <| conf ::= λ s, s <| max_timeout_msec_ := msec |> |>.

Definition set_basic_auth (username password : string) (c : t) : t :=
  c <| conf ::= λ s, s <| basic_auth_username_ := username |> <| basic_auth_password_ := password |> |>.

Definition set_bearer_token_auth (token : string) (c : t) : t :=
  c <| conf ::= λ s, s <| bearer_token_auth_token_ := token |> |>.

Definition set_keep_alive (on : bool) (c : t) : t := c <| conf ::= λ s, s <| keep_alive_ := on |> |>.

Definition set_follow_location (on : bool) (c : t) : t :=
  c <| conf ::= λ s, s <| follow_location_ := on |> |>.

Definition set_url_encode (on : bool) (c : t) : t := c <| conf ::= λ s, s <| url_encode_ := on |> |>.

Definition set_address_family (family : Z) (c : t) : t :=
  c <| conf ::= λ s, s <| address_family_ := family |> |>.

Definition set_tcp_nodelay (on : bool) (c : t) : t := c <| conf ::= λ s, s <| tcp_nodelay_ := on |> |>.

Definition set_ipv6_v6only (on : bool) (c : t) : t := c <| conf ::= λ s, s <| ipv6_v6only_ := on |> |>.

Definition set_socket_options (socket_options : Z -> W -> W) (c : t) : t :=
  c <| conf ::= λ s, s <| socket_options_ := Some socket_options |> |>.

Definition set_compress (on : bool) (c : t) : t := c <| conf ::= λ s, s <| compress_ := on |> |>.

Definition set_decompress (on : bool) (c : t) : t := c <| conf ::= λ s, s <| decompress_ := on |> |>.

Definition set_interface (intf : string) (c : t) : t := c <| conf ::= λ s, s <| interface_ := intf |> |>.

Definition set_proxy (host : string) (port : Z) (c : t) : t :=
  c <| conf ::= λ s, s <| proxy_host_ := host |> <| proxy_port_ := port |> |>.

Definition set_proxy_basic_auth (username password : string) (c : t) : t :=
  c <| conf ::= λ s, s <| proxy_basic_auth_username_ := username |> <| proxy_basic_auth_password_ := password |> |>.

Definition set_proxy_bearer_token_auth (token : string) (c : t) : t :=
  c <| conf ::= λ s, s <| proxy_bearer_token_auth_token_ := token |> |>.

Definition set_logger (logger : ClientRequest -> ClientResponse -> M W unit) (c : t) : t :=
  c <| conf ::= λ s, s <| logger_ := Some logger |> |>.

Definition set_hostname_addr_map (addr_map : gmap string string) (c : t) : t := c <| addr_map_ := addr_map |>.

Definition set_default_headers (headers : Headers) (c : t) : t := c <| default_headers_ := headers |>.

Definition set_header_writer (writer : Headers -> Z * string) (c : t) : t :=
  c <| header_writer_ := Some writer |>.

End Client.

Arguments ClientResponse : clear implicits.
Arguments ClientRequest : clear implicits.
Arguments Result : clear implicits.
Arguments net : clear implicits.
Arguments settings : clear implicits.
Arguments t : clear implicits.

End ClientImpl.
