(* ===== verification/HttplibClientSend.v ===== *)
(** * What the client of httplib does with a request

    The socket, the request as it is written, the response as it is read,
    redirects, and [send]. [call] is the state of one request, which the
    computations in [X] change; a redirect makes a new request and a new
    response in it, and on another host a new client. *)

From S2P Require Import Prelude Text HttplibText HttplibUrl HttplibStream HttplibMultipart.
From S2P Require Import HttplibContent HttplibMessage HttplibServer HttplibClient.
Import ClientImpl.

Section Sending.
Context {W : Type} {platform : Platform W}.

(** The client, the request, the response and the error of one call of
    [send], the stream on the socket, and the environment. *)
Record call := Call {
  cli : t W;
  req : ClientRequest W;
  res : ClientResponse W;
  error : Error;
  strm : stream;
  world : net W
}.

#[export] Instance call_eta : Eta call := λ x,
  Call (cli x) (req x) (res x) (error x) (strm x) (world x).

Abbreviation X := (M call).

Definition set_error (e : Error) : X unit := modify (λ x, x <| error := e |>).

(** A callback. *)
Definition on_world {A} (m : M W A) : X A := λ x,
  let '(r, w) := m (world_ (world x)) in (r, x <| world ::= λ n, n <| world_ := w |> |>).

(** What is written to the socket. [is_shutting_down] is always false for a
    client: there is an answer for every answer of [wait_writable()], which end
    the loops. *)
Definition on_conn {A} (m : M (wire (multipart_state * W)) A) : X A := λ x,
  match socket_ (cli x) with
  | None => (UB, x)
  | Some c =>
      let start := Wire (sent_ c) (room_ c) (replicate (S (length (writable_ c))) false) (writable_ c)
                     (provider_state_ (req x), world_ (world x)) in
      let '(r, w) := m start in
      (r, x <| cli ::= λ c', c' <| socket_ := Some (c <| sent_ := sent w |> <| room_ := room w |>
                                                     <| writable_ := writable w |>) |> |>
            <| req ::= λ r, r <| provider_state_ := (HttplibContent.world w).1 |> |>
            <| world ::= λ n, n <| world_ := (HttplibContent.world w).2 |> |>)
  end.

(** ** The socket *)

(** [shutdown_socket] changes nothing that is modelled; [close_socket]. *)
Definition close_socket : X unit := modify (λ x,
  match socket_ (cli x) with
  | None => x
  | Some c => x <| cli ::= λ c', c' <| socket_ := None |> |> <| world ::= λ n, n <| closed ::= cons c |> |>
  end).

(** [stop()] of another thread. *)
Definition stop : X unit :=
  x ← get_state;
  if decide (0 < socket_requests_in_flight_ (cli x))%nat
  then modify (λ x, x <| cli ::= λ c, c <| socket_should_be_closed_when_request_is_done_ := true |> |>)
  else close_socket.

(** It comes before the answer to this request is read, or not. *)
Definition interrupted : X unit :=
  x ← get_state;
  match stops (world x) with
  | [] => mret tt
  | b :: bs => modify (λ x, x <| world ::= λ n, n <| stops := bs |> |>);; if (b : bool) then stop else mret tt
  end.

(** Host, address and port of [create_client_socket]. *)
Definition endpoint (c : t W) : string * string * Z :=
  if decide (proxy_host_ (conf c) ≠ "" ∧ proxy_port_ (conf c) ≠ -1)
  then (proxy_host_ (conf c), "", proxy_port_ (conf c))
  else (host_ c, default "" (addr_map_ c !! host_ c), port_ c).

(** The errors [create_client_socket] reports are three. *)
Definition create_and_connect_socket : X bool :=
  x ← get_state;
  modify (λ x, x <| world ::= λ n, n <| connects ::= tail |> <| asked ::= cons (endpoint (cli x)) |> |>);;
  match connects (world x) with
  | inl c :: _ =>
      modify (λ x, x <| cli ::= λ c', c' <| socket_ := Some c |> |> <| error := Success |>
                     <| world ::= λ n, n <| opened ::= S |> |>);;
      mret true
  | inr e :: _ =>
      set_error (if decide (e ∈ [BindIPAddress; ConnectionTimeout]) then e else Connection);; mret false
  | [] => set_error Connection;; mret false
  end.

(** The answer of [is_socket_alive] for an open socket. *)
Definition is_alive : X bool :=
  x ← get_state;
  match socket_ (cli x) with
  | None => mret false
  | Some c =>
      modify (λ x, x <| cli ::= λ c', c' <| socket_ := Some (c <| alive_ ::= tail |>) |> |>);;
      if default false (head (alive_ c)) then mret true else close_socket;; mret false
  end.

(** A new [SocketStream] on the socket. *)
Definition make_stream : X unit := modify (λ x,
  match socket_ (cli x) with
  | None => x
  | Some c =>
      x <| strm := default (Stream [] false) (head (arrivals c)) |>
        <| cli ::= λ c', c' <| socket_ := Some (c <| arrivals ::= tail |>) |> |>
  end).

(** ** Writing a request *)

Definition CPPHTTPLIB_VERSION : string := "0.20.0".

Definition add_if_absent (key val : string) (r : ClientRequest W) : ClientRequest W :=
  if req_has_header key r then r else set_req_header key val r.

(** [Content-Length] and [Content-Type]. *)
Definition content_headers (r : ClientRequest W) : ClientRequest W :=
  if decide (body (request r) = "") then
    if bool_decide (is_Some (content_provider_ r)) then
      if is_chunked_content_provider_ r then r
      else add_if_absent "Content-Length" (to_string (content_length_ r)) r
    else if decide (method (request r) ∈ ["POST"; "PUT"; "PATCH"])
    then set_req_header "Content-Length" "0" r else r
  else
    add_if_absent "Content-Length" (to_string (Z.of_nat (String.length (body (request r)))))
      (add_if_absent "Content-Type" "text/plain" r).

Definition insert_if_absent (wanted : bool) (kv : string * string) (r : ClientRequest W) : ClientRequest W :=
  if wanted && negb (req_has_header kv.1 r) then insert_header kv r else r.

Definition given (s : string) : bool := negb (bool_decide (s = "")).

Definition auth_headers (s : settings W) (r : ClientRequest W) : ClientRequest W :=
  let basic := make_basic_authentication_header in
  let r := insert_if_absent (given (basic_auth_password_ s) || given (basic_auth_username_ s))
             (basic (basic_auth_username_ s) (basic_auth_password_ s) false) r in
  let r := insert_if_absent (given (proxy_basic_auth_username_ s) && given (proxy_basic_auth_password_ s))
             (basic (proxy_basic_auth_username_ s) (proxy_basic_auth_password_ s) true) r in
  let r := insert_if_absent (given (bearer_token_auth_token_ s))
             (make_bearer_token_authentication_header (bearer_token_auth_token_ s) false) r in
  insert_if_absent (given (proxy_bearer_token_auth_token_ s))
    (make_bearer_token_authentication_header (proxy_bearer_token_auth_token_ s) true) r.

(** The additional headers of [write_request]. *)
Definition prepared (c : t W) (close_connection : bool) (r : ClientRequest W) : ClientRequest W :=
  let r := if close_connection then add_if_absent "Connection" "close" r else r in
  let r := add_if_absent "Host" (if decide (port_ c = 80) then host_ c else host_and_port_ c) r in
  let r := add_if_absent "Accept" "*/*" r in
  let r :=
    match content_receiver r with
    | Some _ => r
    | None => add_if_absent "User-Agent" ("cpp-httplib/" +:+ CPPHTTPLIB_VERSION)
                (add_if_absent "Accept-Encoding" "" r)
    end in
  auth_headers (conf c) (content_headers r).

(** The request line and the headers. *)
Definition request_head (c : t W) (r : ClientRequest W) : string :=
  let q := request r in
  let path_with_query :=
    if decide (params q = []) then path q else append_query_params (path q) (params q) in
  let target := if url_encode_ (conf c) then encode_url path_with_query else path_with_query in
  write_request_line (method q) target
  +:+ match header_writer_ c with
      | Some writer => (writer (headers q)).2
      | None => write_headers (order (headers q))
      end.

(** An empty provider is called for a length that is not zero. *)
Definition provider_of (r : ClientRequest W) : ContentProvider (multipart_state * W) :=
  default (λ _ _ w, Return (Throw bad_function_call) w) (content_provider_ r).

Definition write_content_with_provider : X bool :=
  x ← get_state;
  let r := req x in
  e ← on_conn (if is_chunked_content_provider_ r then write_content_chunked_error (provider_of r)
               else write_content_error (provider_of r) 0 (content_length_ r));
  set_error e;; mret (bool_decide (e = Success)).

(** [write_data] or [Error::Write]. *)
Definition write_or_error (d : string) : X bool :=
  ok ← on_conn (write_data d);
  if (ok : bool) then mret true else set_error Write;; mret false.

Definition write_request (close_connection : bool) : X bool :=
  modify (λ x, x <| req ::= prepared (cli x) close_connection |>);;
  x ← get_state;
  ok ← write_or_error (request_head (cli x) (req x));
  if negb ok then mret false
  else if decide (body (request (req x)) = "") then write_content_with_provider
  else write_or_error (body (request (req x))).

(** ** Reading a response *)

(** The expression of the response line, matched against a C string: version,
    status and reason. *)
Definition match_response_line (line : string) : option (string * Z * string) :=
  let line := c_str line in
  let version := prefix_of 8 line in
  let digits := substr 9 3 line in
  let rest := suffix_from 12 line in
  if bool_decide (version ∈ ["HTTP/1.0"; "HTTP/1.1"])
     && bool_decide (String.get 8 line = Some " "%char)
     && bool_decide (String.length digits = 3%nat) && all_of isdigit digits && ends_with crlf rest
  then
    let status := (scan_digits digits 0).1.1 in
    match prefix_of (String.length rest - 2) rest with
    | EmptyString => Some (version, status, "")
    | String " " reason =>
        if all_of (Regex.atom_matches Regex.AnyChar) reason then Some (version, status, reason) else None
    | _ => None
    end
  else None.

Definition with_line (m : string * Z * string) (r : ClientResponse W) : ClientResponse W :=
  let '(v, code, why) := m in
  r <| ClientImpl.version := v |> <| reason := why |> <| response ::= λ r, r <| status := code |> |>.

(** An interim response is skipped: its line, one more, and the next. *)
Definition skip_continue_round (rec : stream -> ClientResponse W -> bool * stream * ClientResponse W)
    (s : stream) (r : ClientResponse W) : bool * stream * ClientResponse W :=
  if decide (status (response r) ≠ 100) then (true, s, r)
  else
    match getline 2048 s with
    | (false, s, _) => (false, s, r)
    | (true, s, _) =>
        match getline 2048 s with
        | (false, s, _) => (false, s, r)
        | (true, s, line) =>
            match match_response_line (line_ptr line) with
            | None => (false, s, r)
            | Some m => rec s (with_line m r)
            end
        end
    end.

Fixpoint skip_continue (fuel : nat) (s : stream) (r : ClientResponse W) : bool * stream * ClientResponse W :=
  match fuel with
  | O => (false, s, r)
  | S fuel => skip_continue_round (skip_continue fuel) s r
  end.

Definition read_response_line : X bool :=
  x ← get_state;
  match getline 2048 (strm x) with
  | (false, s, _) => modify (λ x, x <| strm := s |>);; mret false
  | (true, s, line) =>
      match match_response_line (line_ptr line) with
      | None => modify (λ x, x <| strm := s |>);; mret (bool_decide (method (request (req x)) = "CONNECT"))
      | Some m =>
          let '(ok, s, r) := skip_continue (stream_fuel s) s (with_line m (res x)) in
          modify (λ x, x <| strm := s |> <| res := r |>);; mret ok
      end
  end.

Definition read_response_headers : X bool :=
  x ← get_state;
  let '(ok, s, hs) := read_headers (strm x) (res_headers (response (res x))) in
  modify (λ x, x <| strm := s |> <| res ::= λ r, r <| response ::= λ r, r <| res_headers := hs |> |> |>);;
  mret ok.

(** The test of [process_request]: a response whose body nobody gets. *)
Definition will_redirect (c : t W) (code : Z) : bool :=
  bool_decide (300 < code < 400) && negb (bool_decide (code = 304)) && follow_location_ (conf c).

(** A callback that may cancel the request. *)
Definition or_canceled (m : M W bool) : X bool :=
  ok ← on_world m;
  if (ok : bool) then mret true else set_error Canceled;; mret false.

(** The receiver and the progress callback [read_content] gets. *)
Definition out (redirect : bool) : ContentReceiverWithProgress call := λ buf off len,
  x ← get_state;
  match content_receiver (req x) with
  | Some receiver => if redirect then mret true else or_canceled (receiver buf off len)
  | None =>
      modify (λ x, x <| res ::= λ r, r <| response ::= λ r, r <| res_body ::= λ b, b +:+ buf |> |> |>);;
      mret true
  end.

Definition on_progress (redirect : bool) : Progress call := λ current total,
  x ← get_state;
  match progress (req x) with
  | Some progress => if redirect then mret true else or_canceled (progress current total)
  | None => mret true
  end.

(** [std::string::max_size()] of libstdc++, half of the largest difference of
    two pointers. *)
Definition max_size : Z := 2^62 - 1.

Definition too_large (x : call) : bool :=
  let hs := res_headers (response (res x)) in
  has_header hs "Content-Length" && negb (bool_decide (is_Some (content_receiver (req x))))
  && bool_decide (max_size < (get_header_value_u64 hs "Content-Length" 0 0).1).

(** [read_content] on the response: it reads from the stream of the call. *)
Definition read_content_of (redirect : bool) : X bool := λ x,
  let '(r, x, hs, s, _) :=
    read_content_into (out redirect) (Some (on_progress redirect)) (decompress_ (conf (cli x))) (2^64 - 1)
      (res_headers (response (res x))) (strm x) x in
  (r, x <| strm := s |> <| res ::= λ r, r <| response ::= λ r, r <| res_headers := hs |> |> |>).

Definition read_body : X bool :=
  x ← get_state;
  let code := status (response (res x)) in
  let redirect := will_redirect (cli x) code in
  ok ← match response_handler (req x) with
       | Some handler => if redirect then mret true else or_canceled (handler (res x))
       | None => mret true
       end;
  if negb ok then mret false
  else
    x ← get_state;
    if too_large x then set_error Read;; mret false
    else if decide (code = 304) then mret true
    else
      ok ← read_content_of redirect;
      if (ok : bool) then mret true
      else
        modify (λ x, x <| error ::= λ e, if decide (e = Canceled) then e else Read |>);; mret false.

Definition log : X unit :=
  x ← get_state;
  match logger_ (conf (cli x)) with Some logger => on_world (logger (req x) (res x)) | None => mret tt end.

Definition process_request (close_connection : bool) : X bool :=
  ok ← write_request close_connection;
  if negb ok then mret false
  else
    interrupted;;
    ok ← read_response_line;
    ok ← (if (ok : bool) then read_response_headers else mret false);
    if negb ok then set_error Read;; mret false
    else
      x ← get_state;
      ok ← (if bool_decide (status (response (res x)) = 204)
               || bool_decide (method (request (req x)) ∈ ["HEAD"; "CONNECT"])
            then mret true else read_body);
      if negb ok then mret false else log;; mret true.

(** ** Requests and redirects *)

(** [Connection: close], or the other version. *)
Definition peer_closes (r : ClientResponse W) : bool :=
  bool_decide (get_header_value (res_headers (response r)) "Connection" "" 0 = "close")
  || (bool_decide (ClientImpl.version r = "HTTP/1.0")
      && negb (bool_decide (reason r = "Connection established"))).

(** A plain proxy gets the whole URL; an exception leaves the request alone. *)
Definition process_by_proxy (close_connection : bool) : X bool := λ x,
  if decide (proxy_host_ (conf (cli x)) ≠ "" ∧ proxy_port_ (conf (cli x)) ≠ -1) then
    let old := req x in
    let target := "http://" +:+ host_and_port_ (cli x) +:+ path (request old) in
    match process_request close_connection (x <| req ::= λ r, r <| request ::= λ q, q <| path := target |> |> |>) with
    | (Ret b, x) => (Ret b, x <| req ::= λ r, r <| request ::= λ q, q <| path := path (request old) |> |> |>)
    | (failure, x) => (failure, x <| req := old |>)
    end
  else process_request close_connection x.

(** [req_save] is what the redirect starts from. *)
Definition handle_request (redirect : X bool) (close_connection : bool) : X bool :=
  x ← get_state;
  if decide (path (request (req x)) = "") then set_error Connection;; mret false
  else
    let req_save := req x in
    ok ← process_by_proxy close_connection;
    if negb ok then mret false
    else
      x ← get_state;
      (if peer_closes (res x) then close_socket else mret tt);;
      if bool_decide (300 < status (response (res x)) < 400) && follow_location_ (conf (cli x))
      then modify (λ x, x <| req := req_save |>);; redirect
      else mret true.

(** The header of [req] that a default header of the same name leaves alone. *)
Definition add_default_headers (defaults : Headers) (r : ClientRequest W) : ClientRequest W :=
  foldl (λ r kv, insert_if_absent true kv r) r defaults.

(** The end of [send_], by a return or by an exception. *)
Definition leave (close_connection : bool) (ret : bool) : X unit :=
  modify (λ x, x <| cli ::= λ c, c <| socket_requests_in_flight_ ::= pred |> |>);;
  x ← get_state;
  if socket_should_be_closed_when_request_is_done_ (cli x) || close_connection || negb ret
  then close_socket else mret tt.

Definition finally (m : X bool) (f : bool -> X unit) : X bool := λ x,
  match m x with
  | (Ret b, x) => (f b;; mret b) x
  | (Throw e, x) => (f false;; throw e) x
  | (UB, x) => (UB, x)
  end.

(** The socket is alive, or a new one is. *)
Definition connected : X bool :=
  modify (λ x, x <| cli ::= λ c, c <| socket_should_be_closed_when_request_is_done_ := false |> |>);;
  alive ← is_alive;
  if (alive : bool) then mret true else create_and_connect_socket.

(** One request on the socket. *)
Definition process_socket (redirect : X bool) : X bool :=
  modify (λ x, x <| cli ::= λ c, c <| socket_requests_in_flight_ ::= S |> |>
                 <| req ::= add_default_headers (order (default_headers_ (cli x))) |>);;
  x ← get_state;
  let close_connection := negb (keep_alive_ (conf (cli x))) in
  finally
    (make_stream;;
     ok ← handle_request redirect close_connection;
     (if (ok : bool) then mret tt
      else modify (λ x, x <| error ::= λ e, if decide (e = Success) then Unknown else e |>));;
     mret ok)
    (leave close_connection).

Definition send_with (redirect : X bool) : X bool :=
  ok ← connected;
  if negb ok then mret false else process_socket redirect.

(** [send], around [send_]. *)
Definition send_again (send_ : X bool) : X bool :=
  ret ← send_;
  x ← get_state;
  if decide (error x = SSLPeerCouldBeClosed_) then if (ret : bool) then lift UB else send_ else mret ret.

(** [detail::redirect]: the new request is sent by [send], with a response of its own. *)
Definition redirected_request (code : Z) (path' : string) (r : ClientRequest W) : ClientRequest W :=
  let r := r <| request ::= λ q, q <| path := path' |> |> <| redirect_count_ ::= pred |> in
  if decide (code = 303 ∧ method (request r) ∉ ["GET"; "HEAD"])
  then r <| request ::= λ q, q <| method := "GET" |> <| body := "" |> <| headers := [] |> |> else r.

Definition redirect_by (send : X bool) (path' location' : string) : X bool := λ x,
  let start := x <| req := redirected_request (status (response (res x))) path' (req x) |>
                 <| res := res_default |> in
  match send start with
  | (Ret true, x) =>
      (Ret true, x <| res ::= λ r, if decide (location r = "") then r <| location := location' |> else r |>)
  | (r, x') => (r, x' <| req := req x |> <| res := res x |>)
  end.

(** A client for another host, and its destructor. *)
Definition with_client (c : t W) (m : X bool) : X bool := λ x,
  let '(r, x') := m (x <| cli := copy_settings (cli x) c |>) in
  let '(_, x') := close_socket x' in
  (r, x' <| cli := cli x |>).

(** [send]: of this client or a new one; [None] when no redirect is left. *)
Definition redirect (send : option (X bool)) : X bool :=
  x ← get_state;
  match send with
  | None => set_error ExceedRedirectCount;; mret false
  | Some send =>
      let location := get_header_value (res_headers (response (res x))) "location" "" 0 in
      match (if decide (location = "") then None else match_location location) with
      | None => mret false
      | Some m =>
          port ← (if decide (port_str m = "")
                  then mret (if decide (next_scheme m = "") then port_ (cli x)
                             else if decide (next_scheme m = "https") then 443 else 80)
                  else lift (p ← stoi (port_str m); Ret p.1));
          let scheme := if decide (next_scheme m = "") then "http" else next_scheme m in
          let host := if decide (next_host m = "") then host_ (cli x) else next_host m in
          let path := if decide (next_path m = "") then "/" else next_path m in
          let go := redirect_by send (decode_url path true +:+ next_query m) location in
          if decide (scheme = "http" ∧ host = host_ (cli x) ∧ port = port_ (cli x)) then go
          else if decide (scheme = "https") then mret false
          else with_client (ctor host port "" "") go
      end
  end.

(** [send_] with the redirects that are left to it. *)
Fixpoint send_n (redirects : nat) : X bool :=
  send_with (redirect (match redirects with
                       | O => None
                       | S redirects => Some (send_again (send_n redirects))
                       end)).

Definition send_ : X bool := λ x, send_n (redirect_count_ (req x)) x.
Definition send : X bool := send_again send_.

End Sending.

Arguments call : clear implicits.
