(* ===== verification/HttplibClientMethods.v ===== *)
(** * The methods of a client of httplib

    What [Get], [Head], [Post], [Put], [Patch], [Delete] and [Options] send. An
    overload with fewer arguments passes an empty header table, an empty body
    or no callback to the one with all of them, which is the definition here.
    A form with content providers is sent by a closure with a state. *)

From S2P Require Import Prelude Text HttplibText HttplibUrl HttplibStream HttplibMultipart.
From S2P Require Import HttplibContent HttplibMessage HttplibServer HttplibClient HttplibClientSend.
Import ClientImpl.

Module ClientMethods.

Section Methods.
Context {W : Type} {platform : Platform W}.

Abbreviation Y := (M (t W * net W)).

(** A computation of HttplibClientSend on a request of its own. *)
Definition run {A} (m : M (call W) A) (r : ClientRequest W) : Y (A * call W) := λ '(c, n),
  let '(a, x) := m (Call c r res_default Success (Stream [] false) n) in
  (a ← a; Ret (a, x), (cli x, world x)).

Definition result_of (ret : bool) (x : call W) : Result W :=
  MkResult (if ret then Some (res x) else None) (error x) (headers (request (req x))).

(** [send_(Request &&)], and [send(const Request &)]. *)
Definition send_request (r : ClientRequest W) : Y (Result W) :=
  '(ret, x) ← run send r; mret (result_of ret x).

Definition new_request (method path : string) (headers : Headers) : ClientRequest W :=
  req_default <| request := request_default <| HttplibMessage.method := method |>
                              <| HttplibMessage.path := path |> <| HttplibMessage.headers := headers |> |>.

(** ** GET and HEAD *)

Definition Get (path : string) (headers : Headers) (progress : option (Progress W)) : Y (Result W) :=
  send_request ((new_request "GET" path headers) <| ClientImpl.progress := progress |>).

Definition ContentReceiver : Type := string -> M W bool.

Definition GetReceiver (path : string) (headers : Headers) (response_handler : option ResponseHandler)
    (receiver : ContentReceiver) (progress : option (Progress W)) : Y (Result W) :=
  send_request ((new_request "GET" path headers) <| ClientImpl.response_handler := response_handler |>
                  <| content_receiver := Some (λ data _ _, receiver data) |>
                  <| ClientImpl.progress := progress |>).

Definition GetParams (path : string) (params : Params) (headers : Headers) (progress : option (Progress W))
    : Y (Result W) :=
  if decide (params = []) then Get path headers None
  else Get (append_query_params path params) headers progress.

Definition GetParamsReceiver (path : string) (params : Params) (headers : Headers)
    (response_handler : option ResponseHandler) (receiver : ContentReceiver) (progress : option (Progress W))
    : Y (Result W) :=
  let path := if decide (params = []) then path else append_query_params path params in
  GetReceiver path headers response_handler receiver progress.

Definition Head (path : string) (headers : Headers) : Y (Result W) :=
  send_request (new_request "HEAD" path headers).

(** ** Content *)

(** A provider without a state of its own. *)
Fixpoint stateless_feed (s : multipart_state) (f : feed W) : feed (multipart_state * W) :=
  match f with
  | Return r w => Return r (s, w)
  | SinkWrite d k => SinkWrite d (λ b, stateless_feed s (k b))
  | SinkIsWritable k => SinkIsWritable (λ b, stateless_feed s (k b))
  | SinkDone k => SinkDone (stateless_feed s k)
  | SinkDoneWithTrailer trailer k => SinkDoneWithTrailer trailer (stateless_feed s k)
  end.

Definition stateless (provider : ContentProvider W) : ContentProvider (multipart_state * W) :=
  λ offset length sw, stateless_feed sw.1 (provider offset length sw.2).

Definition stateless' (provider : ContentProviderWithoutLength W)
    : ContentProviderWithoutLength (multipart_state * W) :=
  λ offset sw, stateless_feed sw.1 (provider offset sw.2).

(** The content of a request: text, a provider with a length, or one without. *)
Inductive content :=
  | Text (body : string)
  | Sized (length : Z) (provider : ContentProvider (multipart_state * W))
  | Unsized (provider : ContentProviderWithoutLength (multipart_state * W)).

Definition add_content (c : content) (r : ClientRequest W) : ClientRequest W :=
  match c with
  | Text text => r <| request ::= λ q, q <| body := text |> |>
  | Sized length provider =>
      r <| ClientImpl.content_length_ := length |> <| ClientImpl.content_provider_ := Some provider |>
        <| ClientImpl.is_chunked_content_provider_ := false |>
  | Unsized provider =>
      set_req_header "Transfer-Encoding" "chunked"
        (r <| ClientImpl.content_length_ := 0 |>
           <| ClientImpl.content_provider_ := Some (ContentProviderAdapter provider) |>
           <| ClientImpl.is_chunked_content_provider_ := true |>)
  end.

Definition add_content_type (content_type : string) (r : ClientRequest W) : ClientRequest W :=
  if decide (content_type = "") then r else set_req_header "Content-Type" content_type r.

(** The two [send_with_content_provider]. *)
Definition send_with_content_provider (method path : string) (headers : Headers) (c : content)
    (content_type : string) (progress : option (Progress W)) : Y (Result W) :=
  let r := (new_request method path headers) <| ClientImpl.progress := progress |> in
  send_request (add_content c (add_content_type content_type r)).

(** ** Forms *)

Record MultipartFormDataProvider := FormDataProvider {
  item_name : string;
  item_provider : ContentProviderWithoutLength W;
  item_filename : string;
  item_content_type : string
}.

(** The provider of an item has a sink that can only write and be done:
    [has_data] is what [done] clears, [k] goes on behind the result. *)
Fixpoint item_feed (s : multipart_state) (w : W) (has_data : bool) (f : feed W)
    (k : bool -> outcome bool -> W -> feed (multipart_state * W)) : feed (multipart_state * W) :=
  match f with
  | Return r w => k has_data r w
  | SinkWrite d g => SinkWrite d (λ b, item_feed s w has_data (g b) k)
  | SinkDone g => item_feed s w false g k
  | SinkIsWritable _ | SinkDoneWithTrailer _ _ => Return (Throw bad_function_call) (s, w)
  end.

(** The content of item [cur_item], which started at [cur_start], and its end. *)
Definition item_content (item : MultipartFormDataProvider) (offset : Z) (cur_item : nat) (cur_start : Z) (w : W)
    : feed (multipart_state * W) :=
  item_feed (cur_item, cur_start) w true (item_provider item (offset - cur_start) w) (λ has_data r w,
    match r with
    | Ret true =>
        if has_data then Return (Ret true) ((cur_item, cur_start), w)
        else SinkWrite serialize_multipart_formdata_item_end (λ _, Return (Ret true) ((S cur_item, 0), w))
    | failure => Return failure ((cur_item, cur_start), w)
    end).

Definition get_multipart_content_provider (boundary : string) (items : list MultipartFormData)
    (provider_items : list MultipartFormDataProvider) : ContentProviderWithoutLength (multipart_state * W) :=
  λ offset '((cur_item, cur_start), w),
  if bool_decide (offset = 0) && negb (bool_decide (length items = O))
  then SinkWrite (serialize_multipart_formdata items boundary false) (λ _, Return (Ret true) ((cur_item, cur_start), w))
  else
    match provider_items !! cur_item with
    | Some item =>
        if decide (cur_start = 0) then
          let begin := serialize_multipart_formdata_item_begin
                         (FormData (item_name item) "" (item_filename item) (item_content_type item)) boundary in
          let offset := offset + Z.of_nat (String.length begin) in
          SinkWrite begin (λ _, item_content item offset cur_item offset w)
        else item_content item offset cur_item cur_start w
    | None =>
        SinkWrite (serialize_multipart_formdata_finish boundary)
          (λ _, SinkDone (Return (Ret true) ((cur_item, cur_start), w)))
    end.

Definition form_type : string := "application/x-www-form-urlencoded".

Definition send_params (method path : string) (headers : Headers) (params : Params)
    (progress : option (Progress W)) : Y (Result W) :=
  send_with_content_provider method path headers (Text (params_to_query_str params)) form_type progress.

Definition send_items_as (method path : string) (headers : Headers) (items : list MultipartFormData)
    (boundary : string) : Y (Result W) :=
  send_with_content_provider method path headers (Text (serialize_multipart_formdata items boundary true))
    (serialize_multipart_formdata_get_content_type boundary) None.

Definition send_items (method path : string) (headers : Headers) (items : list MultipartFormData)
    : Y (Result W) :=
  send_items_as method path headers items random_boundary.

(** With a boundary of the caller. *)
Definition send_items_with (method path : string) (headers : Headers) (items : list MultipartFormData)
    (boundary : string) : Y (Result W) :=
  if is_multipart_boundary_chars_valid boundary then send_items_as method path headers items boundary
  else mret (MkResult None UnsupportedMultipartBoundaryChars []).

Definition send_provider_items (method path : string) (headers : Headers) (items : list MultipartFormData)
    (provider_items : list MultipartFormDataProvider) : Y (Result W) :=
  send_with_content_provider method path headers
    (Unsized (get_multipart_content_provider random_boundary items provider_items))
    (serialize_multipart_formdata_get_content_type random_boundary) None.

(** ** POST, PUT and PATCH *)

Definition Post (path : string) (headers : Headers) (body content_type : string)
    (progress : option (Progress W)) : Y (Result W) :=
  send_with_content_provider "POST" path headers (Text body) content_type progress.

Definition PostProvider (path : string) (headers : Headers) (content_length : Z) (provider : ContentProvider W)
    (content_type : string) : Y (Result W) :=
  send_with_content_provider "POST" path headers (Sized content_length (stateless provider)) content_type None.

Definition PostUnsized (path : string) (headers : Headers) (provider : ContentProviderWithoutLength W)
    (content_type : string) : Y (Result W) :=
  send_with_content_provider "POST" path headers (Unsized (stateless' provider)) content_type None.

Definition PostParams : string -> Headers -> Params -> option (Progress W) -> Y (Result W) := send_params "POST".
Definition PostItems : string -> Headers -> list MultipartFormData -> Y (Result W) := send_items "POST".
Definition PostItemsWith : string -> Headers -> list MultipartFormData -> string -> Y (Result W) :=
  send_items_with "POST".
Definition PostProviderItems : string -> Headers -> list MultipartFormData -> list MultipartFormDataProvider ->
    Y (Result W) := send_provider_items "POST".

Definition Put (path : string) (headers : Headers) (body content_type : string)
    (progress : option (Progress W)) : Y (Result W) :=
  send_with_content_provider "PUT" path headers (Text body) content_type progress.

Definition PutProvider (path : string) (headers : Headers) (content_length : Z) (provider : ContentProvider W)
    (content_type : string) : Y (Result W) :=
  send_with_content_provider "PUT" path headers (Sized content_length (stateless provider)) content_type None.

Definition PutUnsized (path : string) (headers : Headers) (provider : ContentProviderWithoutLength W)
    (content_type : string) : Y (Result W) :=
  send_with_content_provider "PUT" path headers (Unsized (stateless' provider)) content_type None.

Definition PutParams : string -> Headers -> Params -> option (Progress W) -> Y (Result W) := send_params "PUT".
Definition PutItems : string -> Headers -> list MultipartFormData -> Y (Result W) := send_items "PUT".
Definition PutItemsWith : string -> Headers -> list MultipartFormData -> string -> Y (Result W) :=
  send_items_with "PUT".
Definition PutProviderItems : string -> Headers -> list MultipartFormData -> list MultipartFormDataProvider ->
    Y (Result W) := send_provider_items "PUT".

Definition Patch (path : string) (headers : Headers) (body content_type : string)
    (progress : option (Progress W)) : Y (Result W) :=
  send_with_content_provider "PATCH" path headers (Text body) content_type progress.

Definition PatchProvider (path : string) (headers : Headers) (content_length : Z) (provider : ContentProvider W)
    (content_type : string) : Y (Result W) :=
  send_with_content_provider "PATCH" path headers (Sized content_length (stateless provider)) content_type None.

Definition PatchUnsized (path : string) (headers : Headers) (provider : ContentProviderWithoutLength W)
    (content_type : string) : Y (Result W) :=
  send_with_content_provider "PATCH" path headers (Unsized (stateless' provider)) content_type None.

(** ** DELETE and OPTIONS *)

Definition Delete (path : string) (headers : Headers) (body content_type : string)
    (progress : option (Progress W)) : Y (Result W) :=
  let r := (new_request "DELETE" path headers) <| ClientImpl.progress := progress |> in
  send_request (add_content (Text body) (add_content_type content_type r)).

Definition Options (path : string) (headers : Headers) : Y (Result W) :=
  send_request (new_request "OPTIONS" path headers).

(** ** The client itself *)

Definition stop_client : Y unit := '(_, _) ← run stop req_default; mret tt.

(** [~ClientImpl()], when no request is in flight. *)
Definition destroy : Y unit := '(_, _) ← run close_socket req_default; mret tt.

Definition is_socket_open (c : t W) : bool := bool_decide (is_Some (socket_ c)).

End Methods.

End ClientMethods.
