(* ===== verification/HttplibClientSafety.v ===== *)
(** * A request of httplib's client has no undefined behaviour

    If the callbacks of a request and the logger have none. Whatever the peers
    send: the socket is open whenever something is written to it, and the code
    that could send again behind a response is not reached. *)

From S2P Require Import Prelude Text HttplibText HttplibUrl HttplibStream HttplibMultipart.
From S2P Require Import HttplibContent HttplibMessage HttplibServer HttplibServerProps HttplibSafety.
From S2P Require Import HttplibClient HttplibClientSend.
Import ClientImpl.

(** ** Computations that keep an invariant, however they end *)

Definition holds {S A} (I : S -> Prop) (m : M S A) : Prop := no_ub I m (λ _, I) I.

Create HintDb holds.

(** Whatever the state is. *)
Abbreviation never_ub := (holds (λ _, True)).

Section Holds.
Context {S : Type} (I : S -> Prop).

Lemma holds_ret {A} (a : A) : holds I (mret a).
Proof. by intros s Hs. Qed.

Lemma holds_throw {A} e : holds I (throw (A := A) e).
Proof. by intros s Hs. Qed.

Lemma holds_bind {A B} (m : M S A) (k : A -> M S B) : holds I m → (∀ a, holds I (k a)) → holds I (m ≫= k).
Proof. intros Hm Hk. by eapply no_ub_bind. Qed.

(** What is read has the invariant. *)
Lemma no_ub_read {B} (k : S -> M S B) Q E : (∀ s, I s → no_ub I (k s) Q E) → no_ub I (get_state ≫= k) Q E.
Proof. intros Hk s Hs. by apply (Hk s Hs s). Qed.

Lemma holds_read {B} (k : S -> M S B) : (∀ s, I s → holds I (k s)) → holds I (get_state ≫= k).
Proof. apply no_ub_read. Qed.

Lemma holds_modify f : (∀ s, I s → I (f s)) → holds I (modify f).
Proof. intros Hf s Hs. by apply Hf. Qed.

Lemma holds_lift {A} (o : outcome A) : o ≠ UB → holds I (lift o).
Proof. intros Ho s Hs. unfold lift. by destruct o. Qed.

End Holds.

Section Locals.
Context {S W : Type}.

Lemma never_global {A} (m : M W A) : never_ub m → never_ub (global (S := S) m).
Proof. intros Hm [s w] _. specialize (Hm w I). unfold global. cbn [fst snd]. by destruct (m w) as [[a|e|] w']. Qed.

Lemma never_get_local : never_ub (get_local (S := S) (W := W)).
Proof. done. Qed.

Lemma never_update_local (f : S -> S) : never_ub (update_local (W := W) f).
Proof. done. Qed.

End Locals.

#[export] Hint Resolve holds_ret holds_throw never_get_local never_update_local never_global : holds.

(** Walks through code whose leaves are hints. *)
Ltac holds :=
  repeat first
    [ progress intros
    | match goal with
      | |- holds _ (get_state ≫= _) => apply holds_read
      | |- holds _ (_ ≫= _) => apply holds_bind
      | |- holds _ (modify _) => apply holds_modify
      | |- holds _ (match ?x with _ => _ end) => destruct x
      end
    | progress auto 3 with holds
    | solve [trivial] ].

(** ** The loops that call a provider *)

Fixpoint feed_ok {W} (f : feed W) : Prop :=
  match f with
  | HttplibContent.Return r _ => r ≠ UB
  | SinkWrite _ k | SinkIsWritable k => ∀ b, feed_ok (k b)
  | SinkDone k | SinkDoneWithTrailer _ k => feed_ok k
  end.

Definition provider_ok {W} (provider : ContentProvider W) : Prop := ∀ offset length w, feed_ok (provider offset length w).

Section Providers.
Context {W : Type}.

Lemma write_data_never (d : string) : never_ub (write_data (W := W) d).
Proof. intros w _. unfold write_data. by destruct (room w). Qed.

Lemma is_shutting_down_never : never_ub (is_shutting_down (W := W)).
Proof. intros w _. unfold is_shutting_down. by destruct (stopping w). Qed.

Lemma wait_writable_never : never_ub (wait_writable (W := W)).
Proof. intros w _. unfold wait_writable. by destruct (writable w). Qed.

#[local] Hint Resolve write_data_never is_shutting_down_never wait_writable_never : holds.

Lemma write_or_fail_never d : never_ub (write_or_fail (W := W) d).
Proof. unfold write_or_fail. holds. Qed.

#[local] Hint Resolve write_or_fail_never : holds.

Lemma get_ok_never : never_ub (get_ok (W := W)).
Proof. unfold get_ok. holds. Qed.

#[local] Hint Resolve get_ok_never : holds.

Lemma write_trailer_never trailer : never_ub (write_trailer (W := W) trailer).
Proof. induction trailer as [|[k v] trailer IH]; cbn [write_trailer]; holds. Qed.

#[local] Hint Resolve write_trailer_never : holds.

Record sink_ok (sink : @DataSink (locals * wire W)) : Prop := {
  write_ok : ∀ d, never_ub (write sink d);
  is_writable_ok : never_ub (is_writable sink);
  done_ok : never_ub (HttplibContent.done sink);
  done_with_trailer_ok : ∀ trailer, never_ub (done_with_trailer sink trailer)
}.

Lemma length_sink_ok : sink_ok length_sink.
Proof. split; cbn; holds. Qed.

Lemma chunked_sink_ok : sink_ok chunked_sink.
Proof. split; cbn; unfold finish_chunks; holds. Qed.

Lemma run_feed_never sink (f : feed W) : sink_ok sink → feed_ok f → never_ub (run_feed sink f).
Proof.
  intros Hs. induction f as [r w|d k IH|k IH|k IH|trailer k IH]; cbn [run_feed feed_ok]; intros Hf;
    apply holds_bind; try (by intros; apply IH); try (by apply Hs).
  - done.
  - intros _. by apply holds_lift.
Qed.

Lemma provide_never sink provider again want fuel :
  sink_ok sink → provider_ok provider → never_ub (provide (W := W) sink provider again want fuel).
Proof.
  intros Hs Hp. assert (Hc : never_ub (call_provider (W := W) sink provider want)).
  { intros s _. unfold call_provider. by apply run_feed_never. }
  induction fuel as [|fuel IH]; cbn [provide]; holds.
Qed.

Lemma run_loop_never loop s : (∀ n, never_ub (loop n)) → never_ub (run_loop (W := W) loop s).
Proof.
  intros Hl w _. specialize (Hl (Datatypes.S (length (stopping w))) (s, w) I). unfold run_loop.
  by destruct (loop _ _) as [[e|x|] [p w']].
Qed.

(** What [write_request] calls them for. *)
Lemma write_content_never (provider : ContentProvider W) chunked length :
  provider_ok provider →
  never_ub (if chunked : bool then write_content_chunked_error provider else write_content_error provider 0 length).
Proof.
  intros Hp. destruct chunked; apply run_loop_never; intros n; apply provide_never; try done;
    [apply chunked_sink_ok|apply length_sink_ok].
Qed.

(** They end in one of three ways. *)
Lemma provide_errors (sink : @DataSink (locals * wire W)) provider again want fuel s e s' :
  provide sink provider again want fuel s = (Ret e, s') → e ∈ [Success; Write; Canceled].
Proof.
  revert s. induction fuel as [|fuel IH]; intros s; cbn [provide]; unfold mbind, M_bind at 1; cbn [get_local];
    destruct (negb _); try (intros [= <- _]; by repeat constructor).
  unfold mbind, M_bind, mret, M_ret.
  destruct (global is_shutting_down s) as [[[]|x|] s1]; try discriminate; [intros [= <- _]; by repeat constructor|].
  destruct (global wait_writable s1) as [[[]|x|] s2]; cbn [negb]; try discriminate; [|intros [= <- _]; by repeat constructor].
  destruct (call_provider _ _ _ s2) as [[[]|x|] s3]; cbn [negb]; try discriminate; [|intros [= <- _]; by repeat constructor].
  destruct (get_ok s3) as [[[]|x|] s4]; cbn [negb]; try discriminate; [apply IH|intros [= <- _]; by repeat constructor].
Qed.

Lemma write_content_errors (provider : ContentProvider W) chunked length w e w' :
  (if chunked : bool then write_content_chunked_error provider else write_content_error provider 0 length) w
  = (Ret e, w') → e ≠ SSLPeerCouldBeClosed_.
Proof.
  destruct chunked; unfold write_content_chunked_error, write_content_error, run_loop;
    destruct (provide _ _ _ _ _ _) as [r [p w1]] eqn:Hp; intros [= -> _];
    apply provide_errors in Hp; intros ->; set_solver.
Qed.

End Providers.

(** ** Callbacks *)

Section Sending.
Context {W : Type} {platform : Platform W}.
Implicit Types (r : ClientRequest W) (x : call W).

(** A request whose callbacks have no undefined behaviour. *)
Record request_ok (r : ClientRequest W) : Prop := {
  handler_never : ∀ h, response_handler r = Some h → ∀ res, never_ub (h res);
  receiver_never : ∀ out, content_receiver r = Some out → ∀ buf offset length, never_ub (out buf offset length);
  progress_never : ∀ p, progress r = Some p → ∀ current total, never_ub (p current total);
  feeds_ok : ∀ provider, content_provider_ r = Some provider → provider_ok provider
}.

(** The callbacks of a request, which nothing changes. *)
Definition callbacks (r : ClientRequest W) :=
  (response_handler r, content_receiver r, progress r, content_provider_ r).

Lemma request_ok_same r r' : callbacks r' = callbacks r → request_ok r → request_ok r'.
Proof. intros [= Hh Ho Hp Hc] []. by constructor; rewrite ?Hh, ?Ho, ?Hp, ?Hc. Qed.

Lemma callbacks_add key val r : callbacks (add_if_absent key val r) = callbacks r.
Proof. unfold add_if_absent. by destruct (req_has_header _ _). Qed.

Lemma callbacks_insert wanted kv r : callbacks (insert_if_absent wanted kv r) = callbacks r.
Proof. unfold insert_if_absent. by destruct (_ && _). Qed.

Lemma callbacks_content r : callbacks (content_headers r) = callbacks r.
Proof.
  unfold content_headers. case_decide; [|by rewrite !callbacks_add].
  case_bool_decide; [destruct (is_chunked_content_provider_ r); [done|apply callbacks_add]|by case_decide].
Qed.

Lemma callbacks_prepared c close r : callbacks (prepared c close r) = callbacks r.
Proof.
  unfold prepared, auth_headers. rewrite !callbacks_insert, callbacks_content.
  destruct (content_receiver _), close; by rewrite !callbacks_add.
Qed.

Lemma callbacks_defaults hs r : callbacks (add_default_headers hs r) = callbacks r.
Proof.
  revert r. induction hs as [|kv hs IH]; intros r; [done|].
  unfold add_default_headers in *. cbn [foldl]. by rewrite IH, callbacks_insert.
Qed.

Lemma callbacks_redirected code path r : callbacks (redirected_request code path r) = callbacks r.
Proof. unfold redirected_request. by case_decide. Qed.

(** A call with callbacks that are well behaved. *)
Record calm (x : call W) : Prop := Calm {
  calm_request : request_ok (req x);
  calm_logger : ∀ l, logger_ (conf (cli x)) = Some l → ∀ q res, never_ub (l q res);
  calm_error : error x ≠ SSLPeerCouldBeClosed_
}.

Lemma calm_same x x' :
  callbacks (req x') = callbacks (req x) → logger_ (conf (cli x')) = logger_ (conf (cli x)) →
  (error x ≠ SSLPeerCouldBeClosed_ → error x' ≠ SSLPeerCouldBeClosed_) → calm x → calm x'.
Proof. intros Hr Hl He []. constructor; [by eapply request_ok_same|by rewrite Hl|by apply He]. Qed.

(** The request of another call. *)
Lemma calm_restored x y z :
  calm x → calm y → req z = req x → conf (cli z) = conf (cli y) → error z = error y → calm z.
Proof. intros [Hr _ _] [_ Hl He] Hq Hc Hz. by constructor; rewrite ?Hq, ?Hc, ?Hz. Qed.

(** Its socket is open. *)
Definition attached (x : call W) : Prop := calm x ∧ is_Some (socket_ (cli x)).

(** ** Writing *)

Lemma set_error_holds e : e ≠ SSLPeerCouldBeClosed_ → holds calm (set_error (W := W) e).
Proof. intros He. apply holds_modify. intros x. by apply calm_same. Qed.

Lemma set_error_attached e : e ≠ SSLPeerCouldBeClosed_ → holds attached (set_error (W := W) e).
Proof. intros He. apply holds_modify. intros x [Hx Hs]. split; [by apply (calm_same x)|done]. Qed.

Lemma on_world_holds {A} (m : M W A) : never_ub m → holds calm (on_world m).
Proof.
  intros Hm x Hx. specialize (Hm (world_ (world x)) I). unfold on_world.
  destruct (m _) as [[a|e|] w]; [| |done]; by apply (calm_same x).
Qed.

Lemma on_conn_attached {A} (m : M (wire (multipart_state * W)) A) : never_ub m → holds attached (on_conn m).
Proof.
  intros Hm x [Hx [c Hs]]. unfold on_conn. rewrite Hs.
  set (w := Wire _ _ _ _ _). specialize (Hm w I). destruct (m w) as [[a|e|] w']; [| |done];
    (split; [by apply (calm_same x)|by eexists]).
Qed.

Lemma provider_of_ok r : request_ok r → provider_ok (provider_of r).
Proof.
  intros Hr. unfold provider_of. destruct (content_provider_ r) as [p|] eqn:Hp; [by apply (feeds_ok r)|].
  by intros offset length w.
Qed.

Lemma provided_attached : holds attached (write_content_with_provider (W := W)).
Proof.
  unfold write_content_with_provider. apply holds_read. intros x [Hx _].
  set (m := if is_chunked_content_provider_ (req x) then _ else _).
  assert (Hm : never_ub m) by by apply write_content_never, provider_of_ok, Hx.
  apply (no_ub_bind _ (λ e y, attached y ∧ e ≠ SSLPeerCouldBeClosed_)).
  - intros y Hy. pose proof (on_conn_attached m Hm y Hy) as Ha. destruct (on_conn m y) as [[e|e|] z] eqn:Hc; [|done..].
    split; [done|]. unfold on_conn in Hc. destruct (socket_ (cli y)) as [c|]; [|done].
    destruct (m _) as [o w] eqn:Hr. injection Hc as -> _. by eapply write_content_errors.
  - intros e y [Hy He]. by apply (set_error_attached e He y).
Qed.

Lemma write_data_attached d : holds attached (on_conn (W := W) (write_data d)).
Proof. apply on_conn_attached, write_data_never. Qed.

#[local] Hint Extern 2 (_ ≠ SSLPeerCouldBeClosed_) => discriminate : holds.
#[local] Hint Resolve set_error_holds set_error_attached on_world_holds provided_attached write_data_attached : holds.

Lemma write_request_attached close : holds attached (write_request (W := W) close).
Proof.
  unfold write_request, write_or_error. apply holds_bind.
  - apply holds_modify. intros x [Hx Hs]. split; [|done]. apply (calm_same x); [|done..]. apply callbacks_prepared.
  - holds.
Qed.

(** ** Reading *)

(** Updates that leave the callbacks, the logger and the error alone. *)
Ltac same := match goal with H : calm ?x |- calm _ => solve [by apply (calm_same x)] end.

Lemma or_canceled_holds m : never_ub m → holds calm (or_canceled (W := W) m).
Proof. intros Hm. unfold or_canceled. holds. Qed.

#[local] Hint Resolve or_canceled_holds : holds.

Lemma out_holds redirect buf off len : holds calm (out (W := W) redirect buf off len).
Proof.
  unfold out. apply holds_read. intros x Hx. destruct (content_receiver _) as [f|] eqn:Hf.
  - holds. apply or_canceled_holds. by eapply receiver_never; [apply Hx|].
  - holds. same.
Qed.

Lemma on_progress_holds redirect current total : holds calm (on_progress (W := W) redirect current total).
Proof.
  unfold on_progress. apply holds_read. intros x Hx. destruct (progress _) as [f|] eqn:Hf; [|holds].
  holds. apply or_canceled_holds. by eapply progress_never; [apply Hx|].
Qed.

(** The results a callback may have. *)
Lemma holds_good (m : M (call W) bool) x : holds calm m → calm x → callback_good (λ o, o ≠ UB) calm (m x).
Proof. intros Hm Hx. specialize (Hm x Hx). unfold callback_good. by destruct (m x) as [[b|e|] y]. Qed.

Lemma read_content_of_holds redirect : holds calm (read_content_of (W := W) redirect).
Proof.
  intros x Hx. unfold read_content_of.
  pose proof (read_content_into_good (λ o, o ≠ UB) calm (out redirect) (Some (on_progress redirect)) ltac:(done)
    (λ buf off len a, holds_good _ a (out_holds redirect buf off len))
    (λ current total a, holds_good _ a (on_progress_holds redirect current total))
    (decompress_ (conf (cli x))) (2^64 - 1) (res_headers (response (res x))) (strm x) x Hx) as Hr.
  destruct (read_content_into _ _ _ _ _ _ _) as [[[[r x'] hs] s] code]. destruct Hr as [Hr Hx'].
  destruct r; [by apply (calm_same x')..|done].
Qed.

Lemma read_body_holds : holds calm (read_body (W := W)).
Proof.
  unfold read_body. apply holds_read. intros x Hx. apply holds_bind.
  - destruct (response_handler _) as [h|] eqn:Hh; [|holds]. holds.
    apply or_canceled_holds. by eapply handler_never; [apply Hx|].
  - pose proof read_content_of_holds. holds. apply (calm_same s0); [done..| |done]. intros He. cbn. by case_decide.
Qed.

Lemma close_socket_holds : holds calm (close_socket (W := W)).
Proof. unfold close_socket. holds. destruct (socket_ _); [same|done]. Qed.

Lemma interrupted_holds : holds calm (interrupted (W := W)).
Proof. pose proof close_socket_holds. unfold interrupted, stop. holds; same. Qed.

#[local] Hint Resolve interrupted_holds close_socket_holds read_body_holds : holds.

(** A socket is needed only for what is written. *)
Lemma attached_calm {A} (m : M (call W) A) : holds attached m → no_ub attached m (λ _, calm) calm.
Proof. intros Hm x Hx. specialize (Hm x Hx). destruct (m x) as [[a|e|] y]; [| |done]; apply Hm. Qed.

Lemma log_holds : holds calm (log (W := W)).
Proof.
  unfold log. apply holds_read. intros x Hx. destruct (ClientImpl.logger_ _) as [l|] eqn:Hl; [|holds].
  apply on_world_holds. by eapply calm_logger.
Qed.

Lemma process_request_calm close : no_ub attached (process_request (W := W) close) (λ _, calm) calm.
Proof.
  unfold process_request. eapply no_ub_bind; [by apply attached_calm, write_request_attached|].
  intros ok. match goal with |- no_ub _ ?m _ _ => change (holds calm m) end.
  pose proof log_holds. unfold read_response_line, read_response_headers. holds; same.
Qed.

(** ** One request on the socket *)

Lemma process_by_proxy_calm close : no_ub attached (process_by_proxy (W := W) close) (λ _, calm) calm.
Proof.
  intros x [Hx Hs]. unfold process_by_proxy. case_decide; [|by apply process_request_calm].
  set (y := x <| req ::= _ |>). assert (Hy : attached y) by by split; [same|].
  pose proof (process_request_calm close y Hy) as Hz.
  destruct (process_request close y) as [[b|e|] z]; [same| |done].
  by apply (calm_restored x z).
Qed.

Lemma handle_request_calm redirect close :
  holds calm redirect → no_ub attached (handle_request (W := W) redirect close) (λ _, calm) calm.
Proof.
  intros Hr. unfold handle_request. apply no_ub_read. intros x [Hx _]. case_decide.
  { apply attached_calm. holds. }
  eapply no_ub_bind; [apply process_by_proxy_calm|]. intros ok.
  match goal with |- no_ub _ ?m _ _ => change (holds calm m) end.
  holds. by apply (calm_restored x s0).
Qed.

(** One more request in flight. *)
Definition entered (x : call W) : call W :=
  x <| cli ::= λ c, c <| socket_requests_in_flight_ ::= S |> |>
    <| req ::= add_default_headers (order (default_headers_ (cli x))) |>.

(** Inside the socket's stream. *)
Definition served (redirect : M (call W) bool) (close_connection : bool) : M (call W) bool :=
  make_stream;;
  ok ← handle_request redirect close_connection;
  (if (ok : bool) then mret tt
   else modify (λ x, x <| error ::= λ e, if decide (e = Success) then Unknown else e |>));;
  mret ok.

Lemma process_socket_served redirect (x : call W) :
  process_socket redirect x =
  finally (served redirect (negb (keep_alive_ (conf (cli x))))) (leave (negb (keep_alive_ (conf (cli x))))) (entered x).
Proof. done. Qed.

Lemma served_calm redirect close : holds calm redirect → no_ub attached (served redirect close) (λ _, calm) calm.
Proof.
  intros Hr. unfold served. eapply (no_ub_bind _ (λ _, attached)).
  - intros x [Hx [c Hs]]. unfold make_stream, modify. rewrite Hs. split; [same|by eexists].
  - intros _. eapply no_ub_bind; [by apply handle_request_calm|]. intros ok.
    match goal with |- no_ub _ ?m _ _ => change (holds calm m) end.
    holds. apply (calm_same s); [done..| |done]. intros He. cbn. by case_decide.
Qed.

Lemma finally_calm (m : M (call W) bool) f :
  no_ub attached m (λ _, calm) calm → (∀ b, holds calm (f b)) → no_ub attached (finally m f) (λ _, calm) calm.
Proof.
  intros Hm Hf x Hx. specialize (Hm x Hx). unfold finally. destruct (m x) as [[b|e|] y]; [| |done].
  - pose proof (Hf b). by apply (holds_bind calm (f b) (λ _, mret b)); [..|intros; apply holds_ret|].
  - pose proof (Hf false). by apply (holds_bind calm (f false) (λ _, throw e)); [..|intros; apply holds_throw|].
Qed.

Lemma leave_holds close ret : holds calm (leave (W := W) close ret).
Proof. unfold leave. holds; same. Qed.

Lemma process_socket_calm redirect : holds calm redirect → no_ub attached (process_socket (W := W) redirect) (λ _, calm) calm.
Proof.
  intros Hr x [Hx Hs]. rewrite process_socket_served.
  apply (finally_calm _ _ (served_calm redirect _ Hr) (leave_holds _)). split; [|done].
  apply (calm_same x); [|done..]. apply callbacks_defaults.
Qed.

Lemma connected_attached : no_ub calm (connected (W := W)) (λ b x, calm x ∧ (b = true → is_Some (socket_ (cli x)))) calm.
Proof.
  intros x Hx. unfold connected, is_alive, create_and_connect_socket, close_socket, set_error, mbind, M_bind, modify, mret, M_ret.
  cbn. destruct (socket_ (cli x)) as [c|] eqn:Hs; cbn.
  all: try destruct (default false _); cbn; try (split; [same|by eexists]).
  all: destruct (connects _) as [|[c'|e] cs]; cbn; split; try done; try (by eexists); try same.
  all: apply (calm_same x); [done..| |done]; intros _; cbn; case_decide as He; [set_solver|done].
Qed.

Lemma send_with_holds redirect : holds calm redirect → holds calm (send_with (W := W) redirect).
Proof.
  intros Hr x Hx. unfold send_with, mbind, M_bind. pose proof (connected_attached x Hx) as Hy.
  destruct (connected x) as [[[]|e|] y]; cbn [negb]; try done; destruct Hy as [Hy Hs]; [|done].
  by apply (process_socket_calm redirect Hr y); split; [|apply Hs].
Qed.

(** ** Redirects *)

Lemma redirect_by_holds send path location : holds calm send → holds calm (redirect_by (W := W) send path location).
Proof.
  intros Hs x Hx. unfold redirect_by. set (y := (x <| req := _ |>) <| res := _ |>).
  assert (Hy : calm y) by (apply (calm_same x); [apply callbacks_redirected|done..]).
  specialize (Hs y Hy). destruct (send y) as [[[]|e|] z]; [same| | |done]; by apply (calm_restored x z).
Qed.

Lemma with_client_holds c m : holds calm m → holds calm (with_client (W := W) c m).
Proof.
  intros Hm x Hx. unfold with_client. set (y := x <| cli := _ |>). assert (Hy : calm y) by same.
  specialize (Hm y Hy). destruct (m y) as [r z].
  assert (Hc : r ≠ UB → calm (close_socket z).2).
  { intros Hr. assert (Hz : calm z) by by destruct r.
    pose proof (close_socket_holds z Hz) as Hc. by destruct (close_socket z) as [[a|e|] w]. }
  destruct (close_socket z) as [u w]. cbn in Hc.
  assert (Hw : r ≠ UB → calm (w <| cli := cli x |>)).
  { intros Hr. destruct (Hc Hr) as [Hq _ He], Hx as [_ Hl _]. by constructor. }
  destruct r; [by apply Hw..|done].
Qed.

Lemma redirect_holds send :
  (∀ s, send = Some s → holds calm s) → holds calm (redirect (W := W) send).
Proof.
  intros Hs. unfold redirect. destruct send as [send|]; [|holds]. specialize (Hs _ eq_refl).
  apply holds_read. intros x _. cbv zeta. destruct (if decide _ then _ else _) as [m|]; [|holds].
  apply holds_bind.
  - case_decide; [holds|]. apply holds_lift. unfold stoi.
    destruct (scan_sign _) as [[sign n1] s2], (scan_digits s2 0) as [[v n2] rest]. by repeat case_decide.
  - intros port. pose proof redirect_by_holds. pose proof with_client_holds. holds.
Qed.

Lemma send_again_holds send : holds calm send → holds calm (send_again (W := W) send).
Proof.
  intros Hs. unfold send_again. apply holds_bind; [done|]. intros ret x Hx. unfold mbind, M_bind. cbn [get_state].
  rewrite decide_False by apply Hx. done.
Qed.

Lemma send_n_holds n : holds calm (send_n (W := W) n).
Proof.
  induction n as [|n IH]; apply send_with_holds, redirect_holds; intros s [= <-]. by apply send_again_holds.
Qed.

(** Nothing a request does is undefined. *)
Lemma send_defined (x : call W) : calm x → (send x).1 ≠ UB.
Proof.
  intros Hx. assert (Hs : holds calm (send (W := W))).
  { apply send_again_holds. intros y Hy. by apply (send_n_holds (redirect_count_ (req y)) y). }
  specialize (Hs x Hx). by destruct (send x) as [[b|e|] y].
Qed.

End Sending.
