(* ===== verification/HttplibClientReads.v ===== *)
(** * What a client of httplib writes and reads

    The bytes of a GET request and the response that comes back, for a client
    with the default settings that keeps its connection. *)

From S2P Require Import Prelude Text TextFacts HttplibText HttplibUrl HttplibStream HttplibStreamProps.
From S2P Require Import HttplibMultipart HttplibTermination HttplibContent HttplibContentProps HttplibMessage.
From S2P Require Import HttplibServer HttplibClient HttplibClientSend HttplibClientMethods.
Import ClientImpl.

(** ** The response line *)

Definition response_line (code : Z) : string := "HTTP/1.1 " +:+ to_string code +:+ " " +:+ status_message code.

(** All the codes there are. *)
Lemma response_line_read code : 100 <= code < 1000 →
  match_response_line (response_line code +:+ crlf) = Some ("HTTP/1.1", code, status_message code)
  ∧ all_of line_char (response_line code) = true.
Proof.
  intros Hc.
  assert (Hall : forallb (λ code, bool_decide (match_response_line (response_line code +:+ crlf)
      = Some ("HTTP/1.1", code, status_message code)) && all_of line_char (response_line code)) (seqZ 100 900) = true)
    by (vm_compute; reflexivity).
  rewrite forallb_forall in Hall. specialize (Hall code).
  rewrite <- list_elem_of_In, elem_of_seqZ in Hall. specialize (Hall ltac:(lia)).
  by apply andb_prop in Hall as [H%bool_decide_eq_true H2].
Qed.

Lemma write_response_line_eq code : write_response_line code = response_line code +:+ crlf.
Proof. unfold write_response_line, response_line. by rewrite !string_app_assoc. Qed.

(** An interim response takes two lines at least, so the fuel is enough. *)
Lemma skip_continue_rounds {W} rec k f strm (r : ClientResponse W) :
  (left strm < k)%nat → (left strm < f)%nat →
  rounds k skip_continue_round rec strm r = skip_continue f strm r.
Proof.
  revert f strm r. induction k as [|k IH]; intros [|f] strm r H1 H2; [lia..|].
  cbn [rounds skip_continue]. unfold skip_continue_round at 1 3. case_decide; [done|]. by_rounds IH.
Qed.

(** ** Numbers *)

Lemma length_header_read n : 0 <= n < 2^64 →
  is_numeric (to_string n) = true ∧ ((scan_digits (to_string n) 0).1.1 `min` (2^64 - 1)) = n.
Proof.
  intros Hn. destruct (to_string_nonneg n) as (Hd & Hv & Hne); [lia|].
  pose proof (scan_digits_app (to_string n) "" 0 Hd I) as Hs. rewrite string_app_nil_r in Hs. rewrite Hs. cbn.
  split; [by destruct (to_string n)|]. unfold digits_value in *. lia.
Qed.

(** ** Reading a response *)

(** The fields of a response with a body of known length. *)
Record readable (code : Z) (hs : Headers) (text : string) : Prop := Readable {
  readable_code : 100 < code < 1000 ∧ code ≠ 204 ∧ code ≠ 304;
  readable_fields : Forall sendable hs;
  readable_plain : decoded <$> hs = hs;
  readable_length : header_values "Content-Length" hs = [to_string (Z.of_nat (String.length text))];
  readable_coding : header_values "Transfer-Encoding" hs = [] ∧ header_values "Content-Encoding" hs = [];
  readable_size : Z.of_nat (String.length text) <= max_size
}.

Definition response_bytes (code : Z) (hs : Headers) (text : string) : string :=
  write_response_line code +:+ write_headers hs +:+ text.

Lemma header_values_reverse n hs : header_values n (reverse hs) = reverse (header_values n hs).
Proof.
  unfold header_values. rewrite <- fmap_reverse. f_equal.
  apply (filter_reverse (λ kv : string * string, case_equal kv.1 n = true)).
Qed.

Section Receiving.
Context {W : Type}.

Definition received (code : Z) (hs : Headers) (text : string) : ClientResponse W :=
  CRes "HTTP/1.1" (status_message code) "" (HttplibMessage.plain_response code hs text).

Lemma read_line_received code rest (x : call W) :
  100 < code < 1000 → res x = res_default → remaining (strm x) = response_line code +:+ crlf +:+ rest →
  ∃ s, read_response_line x = (Ret true, x <| strm := s |> <| res := received code [] "" |>) ∧ remaining s = rest.
Proof.
  intros Hc Hres Hs. destruct (response_line_read code) as [Hm Hl]; [lia|].
  destruct (getline_line 2048 _ _ _ Hs Hl) as (s & r & Hg & Hr & Hrest & _). exists s. split; [|done].
  unfold read_response_line, mbind, M_bind, get_state. rewrite Hg, Hr, Hm, Hres.
  assert (Hskip : skip_continue (stream_fuel s) s (with_line ("HTTP/1.1", code, status_message code) res_default)
                  = (true, s, received code [] "")).
  { unfold stream_fuel. cbn [skip_continue]. unfold skip_continue_round. rewrite decide_True by (cbn; lia). done. }
  by rewrite Hskip.
Qed.

Lemma read_headers_received code hs rest (x : call W) :
  Forall sendable hs → decoded <$> hs = hs → res x = received code [] "" →
  remaining (strm x) = write_headers hs +:+ rest →
  ∃ s, read_response_headers x = (Ret true, x <| strm := s |> <| res := received code (reverse hs) "" |>)
    ∧ remaining s = rest.
Proof.
  intros Hhs Hd Hres Hs. destruct (read_headers_sent hs rest _ Hhs Hs) as (s & Hr & Hrest & _).
  exists s. split; [|done]. unfold read_response_headers, mbind, M_bind, get_state. rewrite Hres.
  change (res_headers (response (received code [] ""))) with (@nil (string * string)). rewrite Hr, Hd.
  unfold modify, mret, M_ret. destruct x. cbn in Hres. by subst.
Qed.

(** Nobody but the response gets the body. *)
Definition unwatched (x : call W) : Prop := content_receiver (req x) = None ∧ progress (req x) = None.

Definition append_body (s : string) (x : call W) : call W :=
  x <| res ::= λ r, r <| response ::= λ r, r <| res_body ::= λ b, b +:+ s |> |> |>.

Lemma append_body_app s t x : append_body t (append_body s x) = append_body (s +:+ t) x.
Proof. unfold append_body. destruct x as [? ? [? ? ? []] ? ? ?]. cbn. by rewrite string_app_assoc. Qed.

Lemma append_body_nil x : append_body "" x = x.
Proof. unfold append_body. destruct x as [? ? [? ? ? []] ? ? ?]. cbn. by rewrite string_app_nil_r. Qed.

Lemma absent_value n hs : header_values n hs = [] → get_header_value (reverse hs) n "" 0 = "".
Proof. intros Hn. unfold get_header_value. by rewrite header_values_reverse, Hn. Qed.

Lemma length_read hs n def : 0 <= n < 2^64 → header_values "Content-Length" hs = [to_string n] →
  get_header_value_u64 (reverse hs) "Content-Length" def 0 = (n, false).
Proof.
  intros Hn Hlen. destruct (length_header_read n Hn) as [Hnum Hval].
  unfold get_header_value_u64. rewrite header_values_reverse, Hlen. cbn [reverse rev_append lookup list_lookup].
  rewrite Hnum. revert Hval. destruct (scan_digits _ 0) as [[v k] l]. cbn. by intros ->.
Qed.

Lemma read_content_received redirect code hs text rest (x : call W) :
  readable code hs text → unwatched x → res x = received code (reverse hs) "" →
  remaining (strm x) = text +:+ rest →
  ∃ s, read_content_of redirect x = (Ret true, x <| strm := s |> <| res := received code (reverse hs) text |>)
    ∧ remaining s = rest.
Proof.
  intros [_ _ _ Hlen [Hte Hce] Hsize] Hu Hres Hs. set (n := Z.of_nat (String.length text)) in *.
  assert (Hn : 0 <= n < 2^64) by (unfold max_size in Hsize; lia).
  assert (Hout : ∀ s off len (a : call W), unwatched a → out redirect s off len a = (Ret true, append_body s a)).
  { intros s o l a [Ha _]. unfold out, mbind, M_bind, get_state. by rewrite Ha. }
  assert (Hprog : ∀ r len (a : call W), unwatched a → report (Some (on_progress redirect)) r len a = (Ret true, a)).
  { intros r l a [_ Ha]. unfold report, on_progress, mbind, M_bind, get_state. by rewrite Ha. }
  destruct (content_reads (out redirect) append_body unwatched Hout ltac:(by intros s a) append_body_nil
    ltac:(intros; apply append_body_app) _ (stream_fuel (strm x)) n 0 (strm x) x text rest Hprog Hu Hs)
    as (s & Hr & Hrest & _); [lia|unfold stream_fuel; lia|].
  unfold read_content_of, read_content_into. rewrite Hres.
  cbn [received response HttplibMessage.plain_response res_headers].
  rewrite (absent_value "Content-Encoding"), andb_false_r by done. unfold is_chunked_transfer_encoding.
  rewrite (absent_value "Transfer-Encoding") by done. change (case_equal "" "chunked") with false. cbv iota.
  unfold has_header. rewrite header_values_reverse, Hlen, (length_read hs n _ Hn Hlen).
  rewrite decide_False by lia. case_decide as Hpos.
  - unfold read_content_with_length. rewrite Hr. exists s. split; [|done]. f_equal.
    unfold append_body. destruct x. cbn in Hres. by subst.
  - destruct text as [|c text]; [|cbn in n; lia]. exists (strm x). split; [|done].
    destruct x. cbn in Hres. by subst.
Qed.

Lemma read_body_received code hs text rest (x : call W) :
  readable code hs text → unwatched x → response_handler (req x) = None → res x = received code (reverse hs) "" →
  remaining (strm x) = text +:+ rest →
  ∃ s, read_body x = (Ret true, x <| strm := s |> <| res := received code (reverse hs) text |>)
    ∧ remaining s = rest.
Proof.
  intros Hread Hu Hh Hres Hs. pose proof Hread as [Hc _ _ Hlen _ Hsize]. set (n := Z.of_nat (String.length text)) in *.
  destruct (read_content_received (will_redirect (cli x) code) _ _ _ _ _ Hread Hu Hres Hs) as (s & Hr & Hrest).
  exists s. split; [|done]. unfold read_body, mbind at 1, M_bind at 1, get_state at 1. rewrite Hh, Hres.
  cbn [received response plain_response status].
  unfold mbind, M_bind, mret, M_ret, get_state. cbn [negb]. unfold too_large. rewrite Hres.
  cbn [received response plain_response res_headers]. rewrite (length_read _ n) by (done || unfold max_size in Hsize; lia).
  rewrite (bool_decide_eq_false_2 (max_size < _)) by (cbn; lia). rewrite andb_false_r, decide_False by tauto.
  by rewrite Hr.
Qed.

End Receiving.

(** ** A GET request *)

Section Getting.
Context {W : Type} {platform : Platform W}.

(** A client with the default settings that keeps its connection. *)
Definition kept (host : string) (port : Z) : t W := set_keep_alive true (ctor host port "" "").

Definition host_value (c : t W) : string := if decide (port_ c = 80) then host_ c else host_and_port_ c.

Definition request_fields (c : t W) : Headers :=
  [("User-Agent", "cpp-httplib/0.20.0"); ("Accept-Encoding", ""); ("Accept", "*/*"); ("Host", host_value c)].

Definition get_text (path : string) (fields : Headers) : string :=
  "GET " +:+ encode_url path +:+ " HTTP/1.1" +:+ crlf +:+ write_headers (order fields).

Lemma prepared_get (c : t W) path :
  conf c = conf (kept "" 0) → is_field_value (host_value c) = true →
  prepared c false (ClientMethods.new_request "GET" path []) = ClientMethods.new_request "GET" path (request_fields c).
Proof.
  intros Hc Hh. unfold prepared, request_fields. fold (host_value c). generalize dependent (host_value c). intros h Hh.
  assert (Hset : add_if_absent "Host" h (ClientMethods.new_request (W := W) "GET" path [])
                 = ClientMethods.new_request "GET" path [("Host", h)]).
  { unfold add_if_absent, set_req_header, set_header. cbn -[is_field_value]. by rewrite Hh. }
  cbv zeta. rewrite Hset, Hc. reflexivity.
Qed.

Lemma get_head (c : t W) path fields :
  conf c = conf (kept "" 0) → header_writer_ c = None →
  request_head c (ClientMethods.new_request "GET" path fields) = get_text path fields.
Proof.
  intros Hc Hw. unfold request_head, get_text, write_request_line. rewrite Hc, Hw. cbn -[String.append].
  by rewrite !string_app_assoc.
Qed.

(** Bytes that are written, and a body without content. *)
Lemma write_or_error_open (x : call W) d sock :
  socket_ (cli x) = Some sock → room_ sock = None →
  write_or_error d x
  = (Ret true, x <| cli ::= λ c, c <| socket_ := Some (sock <| sent_ ::= λ s, s +:+ d |>) |> |>).
Proof.
  destruct sock as [arr sent rm wr al]. intros Hs Hr. cbn in Hr. subst rm.
  unfold write_or_error, mbind, M_bind, on_conn. rewrite Hs. cbn. destruct x as [[] [] ? ? ? []]. cbn in *. by subst.
Qed.

Lemma write_no_content (x : call W) sock :
  socket_ (cli x) = Some sock → room_ sock = None →
  is_chunked_content_provider_ (req x) = false → ClientImpl.content_length_ (req x) = 0 →
  write_content_with_provider x = (Ret true, x <| error := Success |>).
Proof.
  destruct sock as [arr sent rm wr al]. intros Hs Hr Hch Hlen. cbn in Hr. subst rm.
  unfold write_content_with_provider, mbind, M_bind, get_state, on_conn. rewrite Hs, Hch, Hlen. cbn.
  destruct x as [[] [] ? ? ? []]. cbn in *. by subst.
Qed.

(** A call of [Get] on an open socket, and what [write_request] makes of it. *)
Record getting (x : call W) (path : string) (sock : conn) : Prop := Getting {
  getting_req : req x = ClientMethods.new_request "GET" path [];
  getting_conf : conf (cli x) = conf (kept "" 0);
  getting_writer : header_writer_ (cli x) = None;
  getting_host : is_field_value (host_value (cli x)) = true;
  getting_socket : socket_ (cli x) = Some sock;
  getting_room : room_ sock = None
}.

Definition asked_for (path : string) (sock : conn) (x : call W) : call W :=
  x <| req := ClientMethods.new_request "GET" path (request_fields (cli x)) |>
    <| cli ::= λ c, c <| socket_ := Some (sock <| sent_ ::= λ s, s +:+ get_text path (request_fields (cli x)) |>) |> |>
    <| error := Success |>.

Lemma write_get (x : call W) path sock : getting x path sock → write_request false x = (Ret true, asked_for path sock x).
Proof.
  intros [Hreq Hconf Hw Hh Hs Hr]. unfold write_request, mbind, M_bind, modify, get_state.
  set (y := x <| req := ClientMethods.new_request "GET" path (request_fields (cli x)) |>).
  assert (Hy : x <| req ::= prepared (cli x) false |> = y).
  { subst y. destruct x as [c q r e s n]. cbn in Hreq, Hconf, Hh |- *. subst q. cbn. by rewrite prepared_get. }
  rewrite Hy. change (cli y) with (cli x). change (req y) with (ClientMethods.new_request (W := W) "GET" path (request_fields (cli x))).
  rewrite get_head, (write_or_error_open y _ sock) by done. cbn [negb].
  rewrite decide_True by done.
  rewrite (write_no_content _ (sock <| sent_ ::= λ s, s +:+ get_text path (request_fields (cli x)) |>)) by done.
  done.
Qed.

(** The answer is read. *)
Definition answered (s : stream) (code : Z) (hs : Headers) (text : string) (x : call W) : call W :=
  x <| strm := s |> <| res := received code (reverse hs) text |>.

Lemma process_get (x : call W) path sock code hs text rest :
  getting x path sock → readable code hs text → res x = res_default → stops (world x) = [] →
  remaining (strm x) = response_bytes code hs text +:+ rest →
  ∃ s, process_request false x = (Ret true, answered s code hs text (asked_for path sock x)) ∧ remaining s = rest.
Proof.
  intros Hg Hread Hres Hstop Hs. pose proof Hread as [Hc Hhs Hd _ _ _].
  unfold response_bytes in Hs. rewrite write_response_line_eq, !string_app_assoc in Hs.
  set (y := asked_for path sock x).
  destruct (read_line_received code _ y (proj1 Hc) Hres Hs) as (s1 & Hr1 & Hs1).
  set (y1 := (y <| strm := s1 |>) <| res := _ |>) in Hr1.
  destruct (read_headers_received code hs _ y1 Hhs Hd eq_refl Hs1) as (s2 & Hr2 & Hs2).
  set (y2 := (y1 <| strm := s2 |>) <| res := _ |>) in Hr2.
  destruct (read_body_received code hs text rest y2 Hread (conj eq_refl eq_refl) eq_refl eq_refl Hs2) as (s3 & Hr3 & Hs3).
  exists s3. split; [|done]. unfold process_request, mbind, M_bind. rewrite (write_get _ _ _ Hg). cbn [negb].
  fold y. assert (Hi : interrupted y = (Ret tt, y)).
  { unfold interrupted, mbind, M_bind, get_state. change (stops (world y)) with (stops (world x)). by rewrite Hstop. }
  rewrite Hi, Hr1, Hr2. cbn [negb]. unfold get_state.
  change (status (response (res y2))) with code. change (method (request (req y2))) with "GET".
  rewrite bool_decide_eq_false_2 by tauto. change (false || bool_decide ("GET" ∈ ["HEAD"; "CONNECT"])) with false.
  cbv iota. rewrite Hr3. cbn [negb]. unfold log, mbind, M_bind, get_state.
  set (y3 := (y2 <| strm := s3 |>) <| res := _ |>). change (conf (cli y3)) with (conf (cli x)).
  rewrite (getting_conf _ _ _ Hg). done.
Qed.

Lemma handle_get redirect (x : call W) path sock code hs text rest :
  getting x path sock → readable code hs text → res x = res_default → stops (world x) = [] → path ≠ "" →
  header_values "Connection" hs = [] → remaining (strm x) = response_bytes code hs text +:+ rest →
  ∃ s, handle_request redirect false x = (Ret true, answered s code hs text (asked_for path sock x))
    ∧ remaining s = rest.
Proof.
  intros Hg Hread Hres Hstop Hp Hconn Hs.
  destruct (process_get _ _ _ _ _ _ _ Hg Hread Hres Hstop Hs) as (s & Hr & Hrest). exists s. split; [|done].
  pose proof (getting_conf _ _ _ Hg) as Hconf. unfold handle_request, mbind, M_bind, get_state.
  rewrite (getting_req _ _ _ Hg). rewrite decide_False by done.
  unfold process_by_proxy. rewrite Hconf. rewrite decide_False by (by intros [[] _]).
  rewrite Hr. cbn [negb]. set (y := answered s code hs text (asked_for path sock x)).
  assert (Hcl : peer_closes (res y) = false).
  { unfold peer_closes. change (res_headers (response (res y))) with (reverse hs).
    by rewrite (absent_value "Connection"). }
  rewrite Hcl. unfold mret, M_ret. change (conf (cli y)) with (conf (cli x)). rewrite Hconf.
  change (follow_location_ (conf (kept "" 0))) with false. by rewrite andb_false_r.
Qed.

(** The client with a socket to a server, and the network without it. *)
Definition on_socket (sock : conn) (c : t W) : t W := c <| socket_ := Some sock |>.
Definition after_connect (c : t W) (n : net W) : net W :=
  n <| connects ::= tail |> <| asked ::= cons (endpoint c) |> <| opened ::= S |>.

(** What a socket with [resp] to come has sent and will receive after it. *)
Definition exchanged (bytes : string) (sock : conn) : conn :=
  sock <| arrivals ::= tail |> <| sent_ ::= λ s, s +:+ bytes |>.

Lemma send_get host port path code hs text rest resp sock (n : net W) :
  let c := kept host port in
  is_field_value (host_value c) = true → path ≠ "" → order [] = [] →
  readable code hs text → header_values "Connection" hs = [] →
  head (connects n) = Some (inl sock) → head (arrivals sock) = Some resp → room_ sock = None → stops n = [] →
  remaining resp = response_bytes code hs text +:+ rest →
  ∃ s, send (Call c (ClientMethods.new_request "GET" path []) res_default Success (Stream [] false) n)
  = (Ret true,
     Call (on_socket (exchanged (get_text path (request_fields c)) sock) c)
       (ClientMethods.new_request "GET" path (request_fields c)) (received code (reverse hs) text) Success s
       (after_connect c n)).
Proof.
  intros c Hh Hp Ho Hread Hconn Hn Ha Hroom Hstop Hs.
  set (x := Call c _ _ _ _ _).
  destruct sock as [arr sent rm wr al]. destruct arr as [|resp' arr]; [done|]. cbn in Ha, Hroom. injection Ha as ->. subst rm.
  destruct n as [cs ask op cl st w]. destruct cs as [|c0 cs]; [done|]. cbn in Hn, Hstop. injection Hn as ->. subst st.
  set (sock := Conn arr sent None wr al).
  set (y := Call (on_socket sock c <| socket_requests_in_flight_ := 1%nat |>)
              (ClientMethods.new_request "GET" path []) res_default Success resp
              (Net cs (endpoint c :: ask) (S op) cl [] w)).
  assert (Hg : getting y path sock) by by constructor.
  unfold send, send_again, mbind, M_bind, send_.
  change (redirect_count_ (req x)) with 20%nat. cbn [send_n].
  set (redirect := redirect _). clearbody redirect.
  destruct (handle_get redirect y path sock code hs text rest Hg Hread) as (s & Hr & _); [done..|].
  exists s.
  set (z := Call (on_socket (Conn (resp :: arr) sent None wr al) c) (ClientMethods.new_request "GET" path [])
              res_default Success (Stream [] false) (Net cs (endpoint c :: ask) (S op) cl [] w)).
  assert (Hsend : send_with redirect x = process_socket redirect z) by done.
  assert (Hz : process_socket redirect z
    = finally (make_stream;; ok ← handle_request redirect false;
               (if (ok : bool) then mret tt
                else modify (λ x, x <| error ::= λ e, if decide (e = Success) then Unknown else e |>));;
               mret ok) (leave false) (z <| cli ::= λ c, c <| socket_requests_in_flight_ ::= S |> |>)).
  { unfold process_socket, mbind, M_bind at 1, modify at 1. change (default_headers_ (cli z)) with (@nil (string * string)).
    by rewrite Ho. }
  rewrite Hsend, Hz. unfold finally, mbind, M_bind at 1.
  change (make_stream _) with (@Ret unit tt, y). unfold M_bind at 1. rewrite Hr. done.
Qed.

(** [Get] is [send] on a request of its own. *)
Lemma get_of_send path (c : t W) (n : net W) :
  ClientMethods.Get path [] None (c, n) =
  let '(ret, x) := send (Call c (ClientMethods.new_request "GET" path []) res_default Success (Stream [] false) n) in
  (ret ← ret; Ret (ClientMethods.result_of ret x), (cli x, world x)).
Proof.
  unfold ClientMethods.Get, ClientMethods.send_request, ClientMethods.run, mbind, M_bind.
  change ((ClientMethods.new_request "GET" path []) <| progress := None |>) with (ClientMethods.new_request (W := W) "GET" path []).
  by destruct (send _) as [[r|e|] x].
Qed.

(** C34 (roundtrip): [Get] of a client that keeps its connection gives what the
    server has printed. It connects once and sends the request line with the
    encoded path and the client's four fields; from the bytes
    [write_response_line] and [write_headers] make, with any code that has a
    body and any fields but those that code the body or end the connection, in
    whatever segments they come and whatever follows them, the result has the
    code, its message, the fields and the body, no error, and the socket is
    kept. *)
Theorem get_receives_response host port path code hs text rest resp sock (n : net W) :
  is_field_value (host_value (kept host port)) = true → path ≠ "" → order [] = [] →
  readable code hs text → header_values "Connection" hs = [] →
  head (connects n) = Some (inl sock) → head (arrivals sock) = Some resp → room_ sock = None → stops n = [] →
  remaining resp = response_bytes code hs text +:+ rest →
  let c := kept host port in
  ClientMethods.Get path [] None (c, n)
  = (Ret (MkResult (Some (received code (reverse hs) text)) Success (request_fields c)),
     (on_socket (exchanged (get_text path (request_fields c)) sock) c, after_connect c n)).
Proof.
  intros Hh Hp Ho Hread Hconn Hn Ha Hroom Hstop Hs c.
  destruct (send_get host port path code hs text rest resp sock n Hh Hp Ho Hread Hconn Hn Ha Hroom Hstop Hs) as (s & Hsend).
  rewrite get_of_send. fold c in Hsend. by rewrite Hsend.
Qed.

End Getting.

(** A response in two segments, with the start of another behind it. *)
Definition plain_network : Platform unit :=
  {| order h := h; random_boundary := "b"; file_stat _ _ := None; mmap _ _ := None |}.

Definition example_response : string :=
  response_bytes 404 [("Content-Type", "text/plain"); ("Content-Length", "9")] "Not Found".
Definition example_resp : stream :=
  Stream [prefix_of 30 example_response; suffix_from 30 example_response +:+ "HTTP/1.1 "] false.
Definition example_sock : conn := Conn [example_resp] "" None [] [].
Definition example_net : net unit := Net [inl example_sock] [] O [] [] tt.

Lemma get_receives_response_witness :
  let c := kept "localhost" 9001 in
  ClientMethods.Get (platform := plain_network) "/a b" [] None (c, example_net)
  = (Ret (MkResult (Some (received 404 [("Content-Length", "9"); ("Content-Type", "text/plain")] "Not Found"))
            Success (request_fields c)),
     (on_socket (Conn [] ("GET /a%20b HTTP/1.1" +:+ crlf +:+ "User-Agent: cpp-httplib/0.20.0" +:+ crlf
                          +:+ "Accept-Encoding: " +:+ crlf +:+ "Accept: */*" +:+ crlf
                          +:+ "Host: localhost:9001" +:+ crlf +:+ crlf) None [] []) c,
      Net [] [("localhost", "", 9001)] 1 [] [] tt)).
Proof.
  apply (get_receives_response (platform := plain_network) "localhost" 9001 "/a b" 404
           [("Content-Type", "text/plain"); ("Content-Length", "9")] "Not Found" "HTTP/1.1 " example_resp example_sock example_net).
  - reflexivity.
  - discriminate.
  - reflexivity.
  - constructor; [lia| |reflexivity|reflexivity|split; reflexivity|done].
    repeat (constructor; [repeat split; apply (bool_decide_unpack _); vm_compute; exact I|]). constructor.
  - reflexivity.
  - reflexivity.
  - reflexivity.
  - reflexivity.
  - reflexivity.
  - vm_compute. reflexivity.
Defined.
