(* ===== verification/HttplibClientProps.v ===== *)
(** * What a client of httplib does with its sockets

    Every socket a client opens it closes or keeps, it asks for one more than
    it has redirects, and a request leaves it as it found it. *)

From S2P Require Import Prelude Text HttplibText HttplibUrl HttplibStream HttplibMultipart.
From S2P Require Import HttplibContent HttplibMessage HttplibServer HttplibServerProps HttplibSafety.
From S2P Require Import HttplibClient HttplibClientSend HttplibClientMethods HttplibClientSafety.
Import ClientImpl.

(** ** What one step of a request changes *)

Section Hops.
Context {W : Type} {platform : Platform W}.

Definition open_sockets (x : call W) : nat := match socket_ (cli x) with Some _ => 1 | None => 0 end.

(** No socket is lost or closed twice, at most [k] are asked for, and the
    settings and the number of requests in flight are as before. *)
Record hops (k : nat) (x x' : call W) : Prop := Hops {
  hops_sockets : (opened (world x') + length (closed (world x)) + open_sockets x
                  = opened (world x) + length (closed (world x')) + open_sockets x')%nat;
  hops_asked : (length (asked (world x')) <= length (asked (world x)) + k)%nat;
  hops_conf : conf (cli x') = conf (cli x);
  hops_in_flight : socket_requests_in_flight_ (cli x') = socket_requests_in_flight_ (cli x);
  hops_error : error x ≠ SSLPeerCouldBeClosed_ → error x' ≠ SSLPeerCouldBeClosed_
}.

Lemma hops_trans j k x y z : hops j x y → hops k y z → hops (j + k) x z.
Proof. intros [] []. constructor; [lia|lia|congruence|congruence|auto]. Qed.

#[export] Instance hops_preorder : PreOrder (hops 0).
Proof. split; [intros x; constructor; [lia|lia|auto..]|]. intros x y z. apply (hops_trans 0 0). Qed.

Lemma hops_le j k x y : (j <= k)%nat → hops j x y → hops k x y.
Proof. intros Hjk []. constructor; [done|lia|done..]. Qed.

(** Steps that do not touch the client's socket and the environment. *)
Lemma hops_same x x' :
  socket_ (cli x') = socket_ (cli x) → conf (cli x') = conf (cli x) →
  socket_requests_in_flight_ (cli x') = socket_requests_in_flight_ (cli x) → opened (world x') = opened (world x) → closed (world x') = closed (world x) →
  asked (world x') = asked (world x) → (error x ≠ SSLPeerCouldBeClosed_ → error x' ≠ SSLPeerCouldBeClosed_) →
  hops 0 x x'.
Proof.
  intros Hs Hc Hf Ho Hcl Ha He. constructor; unfold open_sockets; rewrite ?Hs, ?Ho, ?Hcl, ?Ha; [lia|lia|done..].
Qed.

Lemma modify_hops f : (∀ x, hops 0 x (f x)) → keeps (hops 0) (modify f).
Proof. intros Hf x. apply Hf. Qed.

Lemma set_error_hops e : e ≠ SSLPeerCouldBeClosed_ → keeps (hops 0) (set_error (W := W) e).
Proof. intros He. apply modify_hops. intros x. by apply hops_same. Qed.

Lemma on_world_hops {A} (m : M W A) : keeps (hops 0) (on_world m).
Proof. intros x. unfold on_world. destruct (m _) as [r w]. by apply hops_same. Qed.

Lemma on_conn_hops {A} (m : M (wire (multipart_state * W)) A) : keeps (hops 0) (on_conn m).
Proof.
  intros x. unfold on_conn. destruct (socket_ (cli x)) as [c|] eqn:Hs; [|reflexivity].
  destruct (m _) as [r w]. constructor; unfold open_sockets; cbn; rewrite ?Hs; [lia|lia|done..].
Qed.

Lemma close_socket_hops : keeps (hops 0) (close_socket (W := W)).
Proof.
  intros x. unfold close_socket, modify. cbn. destruct (socket_ (cli x)) as [c|] eqn:Hs; [|reflexivity].
  constructor; unfold open_sockets; cbn; rewrite ?Hs; [lia|lia|done..].
Qed.

Lemma close_socket_closed (x : call W) : socket_ (cli (close_socket x).2) = None.
Proof. unfold close_socket, modify. cbn. by destruct (socket_ (cli x)) eqn:Hs. Qed.

Lemma or_canceled_hops m : keeps (hops 0) (or_canceled (W := W) m).
Proof.
  unfold or_canceled. keeps; [apply on_world_hops|by apply set_error_hops].
Qed.

End Hops.

#[export] Hint Resolve set_error_hops on_world_hops on_conn_hops close_socket_hops or_canceled_hops : keeps.
#[export] Hint Extern 2 (_ ≠ SSLPeerCouldBeClosed_) => discriminate : keeps.

(** ** One exchange on the socket *)

Section Exchange.
Context {W : Type} {platform : Platform W}.

(** Updates of the request, the response and the stream. *)
Ltac same := intros; by apply hops_same.

Lemma out_hops redirect buf off len : keeps (hops 0) (out (W := W) redirect buf off len).
Proof. unfold out. keeps. same. Qed.

Lemma on_progress_hops redirect r len : keeps (hops 0) (on_progress (W := W) redirect r len).
Proof. unfold on_progress. keeps. Qed.

Lemma read_content_of_hops redirect : keeps (hops 0) (read_content_of (W := W) redirect).
Proof.
  intros x. unfold read_content_of.
  assert (Hg : ∀ (m : M (call W) bool) y, keeps (hops 0) m → hops 0 x y → callback_good (λ _, True) (hops 0 x) (m y)).
  { intros m y Hm Hy. split; [done|]. etrans; [exact Hy|apply Hm]. }
  pose proof (read_content_into_good (λ _, True) (hops 0 x) (out redirect) (Some (on_progress redirect)) (λ _, I)
    (λ buf off len y, Hg _ y (out_hops redirect buf off len)) (λ r len y, Hg _ y (on_progress_hops redirect r len))
    (decompress_ (conf (cli x))) (2^64 - 1) (res_headers (response (res x))) (strm x) x ltac:(done)) as Hk.
  destruct (read_content_into _ _ _ _ _ _ _) as [[[[r x'] hs] s] code]. destruct Hk as [_ Hk].
  etrans; [exact Hk|by apply hops_same].
Qed.

Lemma read_body_hops : keeps (hops 0) (read_body (W := W)).
Proof.
  unfold read_body. keeps; [apply read_content_of_hops|].
  apply hops_same; [done..|]. cbn. by case_decide.
Qed.

Lemma write_content_with_provider_hops : keeps (hops 0) (write_content_with_provider (W := W)).
Proof.
  intros x. unfold write_content_with_provider, mbind, M_bind at 1. cbn [get_state].
  set (m := if is_chunked_content_provider_ (req x) then _ else _).
  pose proof (on_conn_hops m x) as Hk. unfold mbind, M_bind. destruct (on_conn m x) as [[e|e|] x1] eqn:Hm; [|done..].
  etrans; [exact Hk|]. apply hops_same; [done..|]. intros _. cbn.
  unfold on_conn in Hm. destruct (socket_ (cli x)) as [c|]; [|done].
  destruct (m _) as [r w] eqn:Hr. injection Hm as -> _. by eapply write_content_errors.
Qed.

#[local] Hint Resolve write_content_with_provider_hops : keeps.

Lemma write_request_hops close : keeps (hops 0) (write_request (W := W) close).
Proof.
  unfold write_request, write_or_error. keeps. same.
Qed.

Lemma interrupted_hops : keeps (hops 0) (interrupted (W := W)).
Proof.
  unfold interrupted, stop. keeps; same.
Qed.

#[local] Hint Resolve write_request_hops interrupted_hops read_body_hops : keeps.

Lemma process_request_hops close : keeps (hops 0) (process_request (W := W) close).
Proof.
  unfold process_request, read_response_line, read_response_headers, log.
  keeps; same.
Qed.

End Exchange.

(** ** A request with its redirects

    [ends k m]: unless its behaviour is undefined, [m] makes [k] hops at most. *)

Section Sending.
Context {W : Type} {platform : Platform W}.

Definition ends {A} (k : nat) (m : M (call W) A) : Prop :=
  ∀ x, error x ≠ SSLPeerCouldBeClosed_ → (m x).1 ≠ UB → hops k x (m x).2.

Lemma keeps_ends {A} (m : M (call W) A) : keeps (hops 0) m → ends 0 m.
Proof. intros Hk x _ _. apply Hk. Qed.

Lemma ends_le {A} j k (m : M (call W) A) : (j <= k)%nat → ends j m → ends k m.
Proof. intros Hjk Hm x He Hu. apply (hops_le j); auto. Qed.

Lemma ends_bind {A B} j k (m : M (call W) A) (f : A → M (call W) B) :
  ends j m → (∀ a, ends k (f a)) → ends (j + k) (m ≫= f).
Proof.
  intros Hm Hf x He. specialize (Hm x He). unfold mbind, M_bind.
  destruct (m x) as [[a|e|] x1]; cbn in Hm |- *; intros Hu; [|apply (hops_le j); [lia|by apply Hm]|done].
  specialize (Hm ltac:(done)). apply (hops_trans j k x x1); [done|]. apply Hf; [|done]. by apply Hm.
Qed.

Lemma ends_after {A B} k (m : M (call W) A) (f : A → M (call W) B) :
  keeps (hops 0) m → (∀ a, ends k (f a)) → ends k (m ≫= f).
Proof. intros Hm. apply (ends_bind 0 k). by apply keeps_ends. Qed.

Lemma ends_ret {A} k (a : A) : ends k (mret a).
Proof. intros x _ _. by apply (hops_le 0); [lia|]. Qed.

Lemma ends_decide {A} P `{Decision P} k (m m' : M (call W) A) :
  ends k m → ends k m' → ends k (if decide P then m else m').
Proof. by case_decide. Qed.

Lemma process_by_proxy_hops close : keeps (hops 0) (process_by_proxy (W := W) close).
Proof.
  intros x. unfold process_by_proxy. case_decide; [|apply process_request_hops].
  set (y := x <| req ::= _ |>). pose proof (process_request_hops close y) as Hk.
  assert (Hy : hops 0 x y) by by apply hops_same.
  destruct (process_request close y) as [[b|e|] z]; cbn in Hk |- *; etrans; [exact Hy| |exact Hy| |exact Hy|];
    (etrans; [exact Hk|by apply hops_same]).
Qed.

Lemma handle_request_ends redirect close k :
  ends k redirect → ends k (handle_request (W := W) redirect close).
Proof.
  intros Hr. unfold handle_request. apply ends_after; [apply keeps_get_state; apply _|]. intros x.
  case_decide; [apply ends_after; [by apply set_error_hops|intros _; apply ends_ret]|].
  apply ends_after; [apply process_by_proxy_hops|]. intros []; cbn [negb]; [|apply ends_ret].
  apply ends_after; [apply keeps_get_state; apply _|]. intros y.
  apply ends_after; [keeps|]. intros _. destruct (_ && _); [|apply ends_ret].
  apply ends_after; [apply modify_hops; intros z; by apply hops_same|]. by intros _.
Qed.

Lemma is_alive_hops : keeps (hops 0) (is_alive (W := W)).
Proof.
  unfold is_alive. intros x. unfold mbind, M_bind at 1. cbn [get_state].
  destruct (socket_ (cli x)) as [c|] eqn:Hs; [|reflexivity]. revert x Hs.
  assert (Hk : ∀ x : call W, socket_ (cli x) = Some c →
    hops 0 x (x <| cli ::= λ c', c' <| socket_ := Some (c <| alive_ ::= tail |>) |> |>)).
  { intros x Hs. constructor; unfold open_sockets; cbn; rewrite ?Hs; [lia|lia|done..]. }
  intros x Hs. unfold mbind, M_bind, modify. etrans; [by apply Hk|].
  destruct (default false _); [reflexivity|]. set (y := x <| cli ::= _ |>).
  pose proof (close_socket_hops y) as Hc. by destruct (close_socket y) as [[u|e|] z].
Qed.

Lemma create_and_connect_ends (x : call W) : socket_ (cli x) = None →
  hops 1 x (create_and_connect_socket (W := W) x).2.
Proof.
  intros Hs. unfold create_and_connect_socket, mbind, M_bind, modify, mret, M_ret, set_error. cbn [get_state].
  destruct (connects (world x)) as [|[c|e] cs]; constructor; unfold open_sockets; cbn; rewrite ?Hs;
    try lia; try done. intros _. case_decide as He; [|done]. set_solver.
Qed.

Lemma is_alive_closes (x : call W) : (is_alive x).1 ≠ Ret true → socket_ (cli (is_alive x).2) = None.
Proof.
  unfold is_alive, mbind, M_bind, modify, close_socket. cbn [get_state].
  destruct (socket_ (cli x)) as [c|] eqn:Hs; [|done]. cbn. by destruct (default false _).
Qed.

Lemma connected_ends (x : call W) :
  hops 1 x (connected x).2 ∧ ((connected x).1 ≠ Ret true → socket_ (cli (connected x).2) = None).
Proof.
  unfold connected, mbind, M_bind at 1 3 5. cbn [modify].
  set (y := x <| cli ::= _ |>). assert (Hy : hops 0 x y) by by apply hops_same.
  pose proof (is_alive_hops y) as Ha. pose proof (is_alive_closes y) as Hc. unfold mbind, M_bind.
  destruct (is_alive y) as [[[]|e|] z]; cbn in Ha, Hc |- *.
  - split; [|done]. apply (hops_le 0); [lia|by etrans].
  - specialize (Hc ltac:(done)). pose proof (create_and_connect_ends z Hc) as Hz. split.
    + apply (hops_trans 0 1 x z); [by etrans|done].
    + unfold create_and_connect_socket, mbind, M_bind, modify, mret, M_ret, set_error. cbn [get_state].
      by destruct (connects (world z)) as [|[c|e] cs].
  - split; [apply (hops_le 0); [lia|by etrans]|by auto].
  - split; [apply (hops_le 0); [lia|by etrans]|by auto].
Qed.

(** The way out closes the socket unless it is to be kept. *)
Lemma leave_ends close ret (x z : call W) k :
  hops k (entered x) z → hops k x (leave close ret z).2
  ∧ (close = true ∨ ret = false → socket_ (cli (leave close ret z).2) = None)
  ∧ (leave close ret z).1 = Ret tt.
Proof.
  intros [Hso Has Hco Hin Her]. cbn in Hin. unfold leave, mbind, M_bind, modify. cbn [get_state].
  set (y := z <| cli ::= _ |>).
  assert (Hy : hops k x y).
  { constructor; [exact Hso|exact Has|exact Hco| |exact Her]. cbn. by rewrite Hin. }
  destruct (_ || _ || _) eqn:Hb.
  - split_and!; [|intros _; apply close_socket_closed|done].
    rewrite <- (Nat.add_0_r k). eapply hops_trans; [exact Hy|apply close_socket_hops].
  - split_and!; [done| |done]. intros [-> | ->]; rewrite ?orb_true_r in Hb; done.
Qed.

Lemma served_ends redirect close k : ends k redirect → ends k (served redirect close).
Proof.
  intros Hr. apply ends_after.
  - apply modify_hops. intros z. destruct (socket_ (cli z)) eqn:Hs; [|done].
    constructor; unfold open_sockets; cbn; rewrite ?Hs; [lia|lia|done..].
  - intros _. rewrite <- (Nat.add_0_r k). apply ends_bind; [by apply handle_request_ends|].
    intros ok. apply ends_after; [|intros _; apply ends_ret]. destruct ok; [by apply keeps_ret; apply _|].
    apply modify_hops. intros z. apply hops_same; [done..|]. cbn. by case_decide.
Qed.

Lemma process_socket_ends redirect k (x : call W) :
  ends k redirect → error x ≠ SSLPeerCouldBeClosed_ → (process_socket redirect x).1 ≠ UB →
  hops k x (process_socket redirect x).2
  ∧ (keep_alive_ (conf (cli x)) = false ∨ (process_socket redirect x).1 ≠ Ret true →
     socket_ (cli (process_socket redirect x).2) = None).
Proof.
  intros Hr He. rewrite process_socket_served. set (close := negb (keep_alive_ (conf (cli x)))). pose proof (served_ends redirect close k Hr (entered x) He) as Hm.
  unfold finally, mbind, M_bind. destruct (served redirect close (entered x)) as [[b|e|] z]; cbn in Hm; [| |done].
  - destruct (leave_ends close b x z k (Hm ltac:(done))) as (Hh & Hs & Hl).
    destruct (leave close b z) as [r w]. cbn in Hl, Hh, Hs |- *. subst r. intros _. split; [exact Hh|].
    intros Hc. apply Hs. subst close. destruct Hc as [-> | Hb]; [by left|right]. by destruct b.
  - destruct (leave_ends close false x z k (Hm ltac:(done))) as (Hh & Hs & Hl).
    destruct (leave close false z) as [r w]. cbn in Hl, Hh, Hs |- *. subst r. intros _. split; [exact Hh|].
    intros _. apply Hs. by right.
Qed.

Lemma send_with_ends redirect k (x : call W) :
  ends k redirect → error x ≠ SSLPeerCouldBeClosed_ → (send_with redirect x).1 ≠ UB →
  hops (S k) x (send_with redirect x).2
  ∧ (keep_alive_ (conf (cli x)) = false ∨ (send_with redirect x).1 ≠ Ret true →
     socket_ (cli (send_with redirect x).2) = None).
Proof.
  intros Hr He. destruct (connected_ends x) as [Hh Hs]. unfold send_with, mbind, M_bind.
  destruct (connected x) as [[[]|e|] y]; cbn in Hh, Hs |- *; intros Hu; [| | |done].
  - destruct (process_socket_ends redirect k y Hr) as [Hk Hn]; [by apply Hh|done|].
    split; [by apply (hops_trans 1 k x y)|]. by rewrite (hops_conf _ _ _ Hh) in Hn.
  - split; [apply (hops_le 1); [lia|done]|]. intros _. by apply Hs.
  - split; [apply (hops_le 1); [lia|done]|]. intros _. by apply Hs.
Qed.

(** ** Redirects *)

Lemma redirect_by_ends send k path location : ends k send → ends k (redirect_by (W := W) send path location).
Proof.
  intros Hs x He. unfold redirect_by. set (y := (x <| req := _ |>) <| res := _ |>).
  specialize (Hs y He). destruct (send y) as [[[]|e|] z]; cbn in Hs |- *; intros Hu; try done;
    specialize (Hs ltac:(done)); destruct Hs; by constructor.
Qed.

Lemma with_client_ends host port m k : ends k m → ends k (with_client (W := W) (ctor host port "" "") m).
Proof.
  intros Hm x He. unfold with_client. set (y := x <| cli := _ |>). specialize (Hm y He).
  destruct (m y) as [r z]. cbn in Hm. pose proof (close_socket_hops z) as Hc.
  pose proof (close_socket_closed z) as Hn.
  destruct (close_socket z) as [u w]. cbn in Hc, Hn |- *. intros Hu. specialize (Hm Hu).
  destruct Hm as [Hso Has _ _ Her], Hc as [Hso' Has' _ _ Her']. unfold open_sockets in Hso, Hso' at 2.
  rewrite Hn in Hso'. cbn in Hso. constructor; unfold open_sockets; cbn; [|cbn in Has; lia|done|done|auto].
  destruct (socket_ (cli x)); unfold open_sockets in Hso'; destruct (socket_ (cli z)); cbn in *; lia.
Qed.

Lemma redirect_ends send k :
  (∀ s, send = Some s → ends k s) → ends k (redirect (W := W) send).
Proof.
  intros Hs. unfold redirect. apply ends_after; [by apply keeps_get_state; apply _|]. intros x.
  destruct send as [send|]; [|apply ends_after; [by apply set_error_hops|intros _; apply ends_ret]].
  specialize (Hs _ eq_refl). destruct (if decide _ then _ else _) as [m|]; [|apply ends_ret].
  apply ends_after; [keeps|]. intros port. cbv zeta.
  repeat (apply ends_decide; [by apply redirect_by_ends || apply ends_ret|]).
  by apply with_client_ends, redirect_by_ends.
Qed.

Lemma send_again_ends send k : ends k send → ends k (send_again (W := W) send).
Proof.
  intros Hs x He. specialize (Hs x He). unfold send_again, mbind, M_bind. cbn [get_state].
  destruct (send x) as [[b|e|] y]; cbn in Hs |- *; [|done..]. specialize (Hs ltac:(done)).
  rewrite decide_False by by apply Hs. done.
Qed.

Lemma send_n_ends n : ends (S n) (send_n (W := W) n).
Proof.
  induction n as [|n IH]; intros x He Hu; apply send_with_ends; try done; apply redirect_ends; intros s [= <-].
  by apply send_again_ends.
Qed.

(** C33 (safety): a client loses no socket. Whatever the network, the peers and the
    callbacks do, exceptions included, and however often the request is
    redirected, to this host or to others: as many sockets have been closed
    as have been opened, but for the one the client still has; none is kept
    when the connection is not to be kept alive or the request has failed; no
    request is left in flight; and at most one connection is asked for per
    redirect, and one more. The behaviour is defined if that of the callbacks
    and of the logger is. *)
Theorem client_keeps_its_sockets (x : call W) :
  error x ≠ SSLPeerCouldBeClosed_ →
  let x' := (send x).2 in
  (calm x → (send x).1 ≠ UB)
  ∧ ((send x).1 ≠ UB →
     (opened (world x') + length (closed (world x)) + open_sockets x
      = opened (world x) + length (closed (world x')) + open_sockets x')%nat
     ∧ (keep_alive_ (conf (cli x)) = false ∨ (send x).1 ≠ Ret true → socket_ (cli x') = None)
     ∧ socket_requests_in_flight_ (cli x') = socket_requests_in_flight_ (cli x)
     ∧ (length (asked (world x')) <= length (asked (world x)) + S (redirect_count_ (req x)))%nat).
Proof.
  intros He. split; [apply send_defined|]. set (n := redirect_count_ (req x)).
  assert (Hr : ∀ m, ends m (redirect (W := W) (match m with
    | O => None | S m => Some (send_again (send_n m)) end))).
  { intros m. apply redirect_ends. destruct m; intros s [= <-]. apply send_again_ends, send_n_ends. }
  assert (Hn : (send_n n x).1 ≠ UB → hops (S n) x (send_n n x).2
    ∧ (keep_alive_ (conf (cli x)) = false ∨ (send_n n x).1 ≠ Ret true → socket_ (cli (send_n n x).2) = None)).
  { intros Hu. specialize (Hr n). destruct n; by apply send_with_ends. }
  assert (Hs : send x = send_n n x ∨ (send x).1 = UB ∧ (send_n n x).1 = UB).
  { unfold send, send_again, mbind, M_bind. cbn [get_state]. change (send_ x) with (send_n n x).
    destruct (send_n n x) as [[b|e|] y] eqn:Hy; [left|by left|by right].
    destruct Hn as [Hh _]; [done|]. cbn in Hh. by rewrite decide_False by by apply Hh. }
  destruct Hs as [->|[-> _]]; [|done]. intros Hu. destruct (Hn Hu) as [[Hso Has Hco Hin Her] Hnone].
  cbv zeta. by split_and!.
Qed.

End Sending.

(** ** Requests of one client

    [peer answers] is a socket whose streams deliver [answers]. *)

Definition example_network : Platform unit :=
  {| order h := h; random_boundary := "b"; file_stat _ _ := None; mmap _ _ := None |}.
#[local] Existing Instance example_network.

Definition lines (l : list string) : string := foldr (λ s t, s +:+ crlf +:+ t) crlf l.
Definition peer (answers : list string) : conn :=
  Conn (map (λ a, Stream [a] false) answers) "" None (replicate 20 true) [true; true].
Definition example_client : t unit := set_follow_location true (ctor "a" 80 "" "").
Definition networked (peers : list conn) : net unit := Net (map inl peers) [] O [] [] tt.
Definition get_call (c : t unit) (peers : list conn) : call unit :=
  Call c (ClientMethods.new_request "GET" "/" []) res_default Success (Stream [] false) (networked peers).

Definition moved (location : string) : string :=
  lines ["HTTP/1.1 302 Found"; "Location: " +:+ location; "Content-Length: 0"].
Definition ok_response : string := lines ["HTTP/1.1 200 OK"; "Content-Length: 2"] +:+ "ok".

(** To another path of the host on the same socket, and to another host: two
    sockets, which are closed. *)
Lemma client_keeps_its_sockets_witness :
  let x := get_call example_client [peer [moved "/x"; moved "http://b:81/"]; peer [ok_response]] in
  let x' := (send x).2 in
  (send x).1 = Ret true ∧ res_body (response (res x')) = "ok"
  ∧ asked (world x') = [("b", "", 81); ("a", "", 80)] ∧ opened (world x') = 2%nat
  ∧ length (closed (world x')) = 2%nat ∧ socket_ (cli x') = None.
Proof.
  intros x x'.
  destruct (client_keeps_its_sockets x) as [Hdefined Hkept]; [discriminate|].
  destruct Hkept as (Hopen & Hnone & _ & Hasked).
  - apply Hdefined. split; [by split|done|discriminate].
  - do 5 (split; [vm_compute; reflexivity|]). apply Hnone. left. vm_compute. reflexivity.
Defined.

(** A response that says nothing has changed is taken for a redirect. *)
Example not_modified_fails :
  let x := get_call example_client [peer [lines ["HTTP/1.1 304 Not Modified"]]] in
  (send x).1 = Ret false ∧ error (send x).2 = Unknown.
Proof. vm_compute. done. Qed.

(** A port that is no [int] ends the call by an exception. *)
Example redirect_port_throws :
  (send (get_call example_client [peer [moved "http://a:99999999999/"]])).1 = Throw (Exn OutOfRange "stoi").
Proof. vm_compute. done. Qed.

(** The redirect of a POST whose content is chunked is a GET with the chunks and
    without the header that says so. *)
Example see_other_resends_content :
  let provider : ContentProviderWithoutLength unit := λ _ w, SinkWrite "hi" (λ _, SinkDone (Return (Ret true) w)) in
  let net := networked [peer [lines ["HTTP/1.1 303 See Other"; "Location: /done"; "Connection: close"]]; peer [ok_response]] in
  let '(_, (_, n)) := ClientMethods.PostUnsized "/form" [] provider "text/plain" (example_client, net) in
  head (map sent_ (closed n)) =
  Some (lines ["GET /done HTTP/1.1"; "User-Agent: cpp-httplib/0.20.0"; "Accept-Encoding: "; "Accept: */*";
               "Host: a"; "Connection: close"] +:+ lines ["2"; "hi"; "0"]).
Proof. vm_compute. done. Qed.

(** The client of a redirect to another host waits for whole seconds. *)
Example redirects_forget_microseconds c rhs :
  connection_timeout_usec_ (conf (copy_settings (set_connection_timeout 0 500000 rhs) c))
  = connection_timeout_usec_ (conf c)
  ∧ connection_timeout_sec_ (conf (copy_settings (W := unit) (set_connection_timeout 0 500000 rhs) c)) = 0.
Proof. done. Qed.

(** With an empty table of parameters nobody is told of the progress. *)
Example params_drop_progress path headers progress :
  ClientMethods.GetParams (W := unit) path [] headers (Some progress) = ClientMethods.Get path headers None.
Proof. done. Qed.
