(* ===== verification/HttplibThreadPoolProps.v ===== *)
(** * What the thread pool promises

    In any interleaving of submissions, notifications (spurious ones included),
    workers and shutdown. *)

From S2P Require Import Prelude HttplibThreadPool.
Import ThreadPool.

(** ** Replacing one worker *)

Lemma sum_map_insert {A} (f : A -> nat) (l : list A) i x y :
  l !! i = Some x → (sum_list (f <$> <[i := y]> l) + f x = sum_list (f <$> l) + f y)%nat.
Proof.
  revert i. induction l as [|z l IH]; intros [|i]; [done|done|intros [= ->]; cbn; lia|].
  intros Hi. specialize (IH i Hi).
  change (f z + sum_list (f <$> <[i := y]> l) + f x = f z + sum_list (f <$> l) + f y)%nat. lia.
Qed.

Lemma bind_insert {A B} (f : A -> list B) (l : list A) i x y :
  l !! i = Some x → f x ++ (<[i := y]> l ≫= f) ≡ₚ f y ++ (l ≫= f).
Proof.
  revert i. induction l as [|z l IH]; intros [|i]; cbn; [done|done|intros [= ->]|intros Hi%IH].
  - by rewrite !(assoc_L (++)), (comm (++) (f x)).
  - by rewrite (Permutation_app_swap_app (f x)), Hi, (Permutation_app_swap_app (f z)).
Qed.

Section Pool.
Context {Job : Type}.
Implicit Types (p : t Job) (e : event Job) (n i : nat) (w : worker Job).

Lemma total_insert f p i w w' :
  threads_ p !! i = Some w →
  (total f (p <| threads_ ::= <[i := w']> |>) + f w = total f p + f w')%nat.
Proof. apply sum_map_insert. Qed.

Lemma running_insert p i w w' :
  threads_ p !! i = Some w →
  busy_with w ++ running (p <| threads_ ::= <[i := w']> |>) ≡ₚ busy_with w' ++ running p.
Proof. apply bind_insert. Qed.

Lemma asleep_existsb p : existsb is_asleep (threads_ p) = false → asleep p = 0%nat.
Proof.
  unfold asleep, total. induction (threads_ p) as [|w l IH]; [done|]. cbn.
  intros [-> Hl]%orb_false_iff. by apply IH.
Qed.

Lemma wake_asleep (l : list (worker Job)) :
  sum_list ((λ w, if is_asleep w then 1 else 0)%nat <$> (wake <$> l)) = 0%nat.
Proof. induction l as [|[] l IH]; cbn; done. Qed.

Lemma wake_busy (l : list (worker Job)) : (wake <$> l) ≫= busy_with = l ≫= busy_with.
Proof. induction l as [|[] l IH]; cbn; congruence. Qed.

(** ** The invariant *)

Record inv (mqr : Z) n p : Prop := {
  in_threads : length (threads_ p) = n;
  in_room : max_queued_requests_ p = mqr;
  in_bound : mqr > 0 → Z.of_nat (length (jobs_ p)) <= mqr;
  in_order : accepted p = taken p ++ jobs_ p;
  in_taken : taken p ≡ₚ finished p ++ running p;
  in_wake : asleep p = 0%nat ∨ (length (jobs_ p) <= notifying p + awake p)%nat;
  in_shutdown : shutdown_ p = true → alarm p = true ∨ asleep p = 0%nat;
  in_loop : shutdown_ p = false → alarm p = false ∧ Exited ∉ threads_ p
}.

Lemma replicate_busy n : replicate n (@Awake Job) ≫= busy_with = [].
Proof. induction n as [|n IH]; [done|exact IH]. Qed.

Lemma ctor_inv mqr n : inv mqr n (ctor n mqr).
Proof.
  assert (Ha : asleep (ctor (Job := Job) n mqr) = 0%nat).
  { apply asleep_existsb. cbn. by induction n. }
  split; cbn; try done.
  - by rewrite length_replicate.
  - lia.
  - unfold running. cbn [ThreadPool.threads_ ctor]. by rewrite replicate_busy.
  - by left.
  - intros _. split; [done|]. by intros Hin%elem_of_replicate_inv.
Qed.

Lemma enqueue_inv mqr n fn p : inv mqr n p → inv mqr n (enqueue fn p).2.
Proof.
  intros [H1 H2 H3 H4 H5 H6 H7 H8]. unfold enqueue. case_decide as Hfull; [by split|]. split; cbn; try done.
  - intros Hm. rewrite length_app. cbn. specialize (H3 Hm). rewrite H2 in Hfull. lia.
  - by rewrite H4, (assoc_L (++)).
  - destruct H6 as [H6|H6]; [by left|right]. rewrite length_app. cbn. change (awake _) with (awake p). lia.
Qed.

(** The counts of the workers, after one of them has moved. *)
Ltac moved p i Hi w' :=
  let Ha := fresh "Hasleep" in let Hb := fresh "Hawake" in let Hr := fresh "Hrunning" in
  pose proof (total_insert (λ w, if is_asleep w then 1 else 0)%nat p i _ w' Hi) as Ha;
  pose proof (total_insert (λ w, if is_awake w then 1 else 0)%nat p i _ w' Hi) as Hb;
  pose proof (running_insert p i _ w' Hi) as Hr;
  fold (asleep p) in Ha; fold (awake p) in Hb;
  fold (asleep (p <| threads_ ::= <[i := w']> |>)) in Ha;
  fold (awake (p <| threads_ ::= <[i := w']> |>)) in Hb;
  cbn [is_asleep is_awake busy_with app] in Ha, Hb, Hr.

Lemma exited_before i w (l : list (worker Job)) : w ≠ Exited → Exited ∈ <[i := w]> l → Exited ∈ l.
Proof.
  intros Hw [j Hj]%list_elem_of_lookup. apply list_lookup_insert_Some in Hj as [(_ & -> & _)|[_ Hj]]; [done|].
  by apply (list_elem_of_lookup_2 _ j).
Qed.

Lemma exited_insert i w (l : list (worker Job)) : w ≠ Exited → Exited ∉ l → Exited ∉ <[i := w]> l.
Proof. intros Hw Hl Hin. by eapply Hl, exited_before. Qed.

(** A sleeper wakes up, with or without a notification. *)
Lemma awakes_inv mqr n p i k :
  inv mqr n p → threads_ p !! i = Some Asleep → (notifying p <= S k)%nat →
  inv mqr n (p <| notifying := k |> <| threads_ ::= <[i := Awake]> |>).
Proof.
  intros [H1 H2 H3 H4 H5 H6 H7 H8] Hi Hk. moved p i Hi (@Awake Job). split; cbn; try done.
  - by rewrite length_insert.
  - etrans; [exact H5|]. apply Permutation_app_head. symmetry. exact Hrunning.
  - change (asleep _) with (asleep (p <| threads_ ::= <[i := Awake]> |>)).
    change (awake _) with (awake (p <| threads_ ::= <[i := Awake]> |>)). lia.
  - intros Hs. destruct (H7 Hs) as [|Ha]; [by left|right].
    change (asleep _) with (asleep (p <| threads_ ::= <[i := Awake]> |>)). lia.
  - intros Hs. destruct (H8 Hs) as [? Hl]. split; [done|]. by apply exited_insert.
Qed.

Lemma notify_one_inv mqr n i p p' : inv mqr n p → notify_one i p = Some p' → inv mqr n p'.
Proof.
  intros Hinv. unfold notify_one. destruct (notifying p) as [|k] eqn:Hk; [done|].
  destruct (existsb is_asleep _) eqn:Hs.
  - cbn. destruct (threads_ p !! i) as [[]|] eqn:Hi; try done. intros [= <-]. apply awakes_inv; [done..|lia].
  - intros [= <-]. apply (asleep_existsb p) in Hs. destruct Hinv as [H1 H2 H3 H4 H5 H6 H7 H8].
    split; cbn; try done. by left.
Qed.

Lemma work_inv mqr n i p p' : inv mqr n p → work i p = Some p' → inv mqr n p'.
Proof.
  intros [H1 H2 H3 H4 H5 H6 H7 H8]. unfold work.
  destruct (threads_ p !! i) as [[| |fn|]|] eqn:Hi; try done.
  destruct (jobs_ p) as [|fn jobs] eqn:Hj.
  - intros [= <-]. destruct (shutdown_ p) eqn:Hs.
    + moved p i Hi (@Exited Job). split; cbn; rewrite ?Hj; try done.
      * by rewrite length_insert.
      * etrans; [exact H5|]. apply Permutation_app_head. symmetry. exact Hrunning.
      * right. cbn [length]. lia.
      * intros _. destruct (H7 eq_refl) as [|Ha]; [by left|right].
        change (asleep _) with (asleep (p <| threads_ ::= <[i := Exited]> |>)). lia.
    + moved p i Hi (@Asleep Job). split; cbn; rewrite ?Hj, ?Hs; try done.
      * by rewrite length_insert.
      * etrans; [exact H5|]. apply Permutation_app_head. symmetry. exact Hrunning.
      * right. cbn [length]. lia.
      * intros _. destruct (H8 eq_refl) as [? Hl]. split; [done|]. by apply exited_insert.
  - intros [= <-]. moved p i Hi (Busy fn). split; cbn; try done.
    + by rewrite length_insert.
    + intros Hm. specialize (H3 Hm). cbn [length] in H3. lia.
    + by rewrite <- (assoc_L (++)).
    + etrans; [by apply Permutation_app_tail, H5|]. rewrite <- (assoc_L (++)).
      apply Permutation_app_head. etrans; [apply Permutation_app_comm|]. symmetry. exact Hrunning.
    + change (asleep _) with (asleep (p <| threads_ ::= <[i := Busy fn]> |>)).
      change (awake _) with (awake (p <| threads_ ::= <[i := Busy fn]> |>)). cbn [length] in H6. lia.
    + intros Hs. destruct (H7 Hs) as [|Ha]; [by left|right].
      change (asleep _) with (asleep (p <| threads_ ::= <[i := Busy fn]> |>)). lia.
    + intros Hs. destruct (H8 Hs) as [? Hl]. split; [done|]. by apply exited_insert.
Qed.

Lemma finish_inv mqr n i p p' : inv mqr n p → finish i p = Some p' → inv mqr n p'.
Proof.
  intros [H1 H2 H3 H4 H5 H6 H7 H8]. unfold finish.
  destruct (threads_ p !! i) as [[| |fn|]|] eqn:Hi; try done. intros [= <-].
  moved p i Hi (@Awake Job). split; cbn; try done.
  - by rewrite length_insert.
  - etrans; [exact H5|]. rewrite <- (assoc_L (++)). apply Permutation_app_head. symmetry. exact Hrunning.
  - change (asleep _) with (asleep (p <| threads_ ::= <[i := Awake]> |>)).
    change (awake _) with (awake (p <| threads_ ::= <[i := Awake]> |>)). lia.
  - intros Hs. destruct (H7 Hs) as [|Ha]; [by left|right].
    change (asleep _) with (asleep (p <| threads_ ::= <[i := Awake]> |>)). lia.
  - intros Hs. destruct (H8 Hs) as [? Hl]. split; [done|]. by apply exited_insert.
Qed.

Lemma notify_all_inv mqr n p p' : inv mqr n p → notify_all p = Some p' → inv mqr n p'.
Proof.
  intros [H1 H2 H3 H4 H5 H6 H7 H8]. unfold notify_all. destruct (alarm p) eqn:Hal; [|done]. intros [= <-].
  assert (Ha : asleep (p <| alarm := false |> <| threads_ ::= fmap wake |>) = 0%nat) by apply wake_asleep.
  split; cbn; try done.
  - by rewrite length_fmap.
  - unfold running. cbn. by rewrite wake_busy.
  - by left.
  - by right.
  - intros Hs. by destruct (H8 Hs) as [[=] _].
Qed.

Lemma shutdown_inv mqr n p : inv mqr n p → inv mqr n (shutdown p).
Proof. intros [H1 H2 H3 H4 H5 H6 H7 H8]. split; cbn; try done. by left. Qed.

Lemma pool_step_inv mqr n e p p' : inv mqr n p → step e p = Some p' → inv mqr n p'.
Proof.
  intros Hinv. destruct e as [fn|i| | |i|i|i]; cbn [step].
  - intros [= <-]. by apply enqueue_inv.
  - by apply notify_one_inv.
  - intros [= <-]. by apply shutdown_inv.
  - by apply notify_all_inv.
  - by apply work_inv.
  - by apply finish_inv.
  - unfold spurious. destruct (threads_ p !! i) as [[]|] eqn:Hi; try done. intros [= <-].
    pose proof (awakes_inv mqr n p i (notifying p) Hinv Hi ltac:(lia)) as Hp. by destruct p.
Qed.

Lemma run_inv mqr n es p p' : inv mqr n p → run es p = Some p' → inv mqr n p'.
Proof.
  revert p. induction es as [|e es IH]; intros p Hinv; cbn; [by intros [= <-]|].
  intros (p1 & Hs & Hr)%bind_Some. eapply IH; [|exact Hr]. by eapply pool_step_inv.
Qed.

Lemma start_inv mqr n es p : run es (ctor n mqr) = Some p → inv mqr n p.
Proof. apply run_inv, ctor_inv. Qed.

(** ** After [shutdown()] *)

(** The steps of the pool itself. *)
Definition own (e : event Job) : bool :=
  match e with Enqueue _ | Shutdown => false | _ => true end.

(** Those that are sure to come: a wake-up that nobody has asked for is not. *)
Definition due (e : event Job) : bool :=
  match e with Enqueue _ | Shutdown | Spurious _ => false | _ => true end.

Lemma wake_effort (l : list (worker Job)) :
  (sum_list (effort <$> (wake <$> l)) <= sum_list (effort <$> l))%nat.
Proof. induction l as [|[] l IH]; cbn in *; lia. Qed.

(** A worker that has ended has seen an empty queue. *)
Definition drained p : Prop := shutdown_ p = true ∧ (Exited ∈ threads_ p → jobs_ p = []).

(** The effort of the pool, after one worker has moved. *)
Ltac spent p i Hi w' :=
  let Ht := fresh "Hspent" in
  pose proof (total_insert effort p i _ w' Hi) as Ht; cbn [effort] in Ht; unfold total in Ht |- *; cbn in Ht |- *.

Lemma own_step_left e p p' :
  shutdown_ p = true → own e = true → step e p = Some p' → (left p' < left p)%nat.
Proof.
  intros Hs Hown. destruct e as [fn|i| | |i|i|i]; cbn [step own] in *; try done.
  - unfold notify_one, left. destruct (notifying p) as [|k]; [done|].
    destruct (existsb is_asleep _) eqn:He; cbn [threads_]; [|intros [= <-]; unfold total; cbn; lia].
    destruct (threads_ _ !! i) as [[]|] eqn:Hi; try done. intros [= <-]. cbn in Hi.
    spent p i Hi (@Awake Job). lia.
  - unfold notify_all, left. destruct (alarm p); [|done]. intros [= <-]. cbn. unfold total. cbn.
    pose proof (wake_effort (threads_ p)). lia.
  - unfold work, left. destruct (threads_ p !! i) as [[| |fn|]|] eqn:Hi; try done. rewrite Hs.
    destruct (jobs_ p) as [|fn jobs] eqn:Hj; intros [= <-].
    + spent p i Hi (@Exited Job). rewrite Hj. cbn [length]. lia.
    + spent p i Hi (Busy fn). lia.
  - unfold finish, left. destruct (threads_ p !! i) as [[| |fn|]|] eqn:Hi; try done. intros [= <-].
    spent p i Hi (@Awake Job). lia.
  - unfold spurious, left. destruct (threads_ p !! i) as [[]|] eqn:Hi; try done. intros [= <-].
    spent p i Hi (@Awake Job). lia.
Qed.

Lemma own_step_drained e p p' :
  drained p → own e = true → step e p = Some p' → drained p' ∧ accepted p' = accepted p.
Proof.
  intros [Hs Hd] Hown. unfold drained.
  assert (Hmove : ∀ i w, w ≠ Exited → Exited ∈ <[i := w]> (threads_ p) → jobs_ p = []).
  { intros i w Hw Hin. by eapply Hd, exited_before. }
  destruct e as [fn|i| | |i|i|i]; cbn [step own] in *; try done.
  - unfold notify_one. destruct (notifying p) as [|k]; [done|].
    destruct (existsb is_asleep _); [|by intros [= <-]]. cbn.
    destruct (threads_ p !! i) as [[]|] eqn:Hi; try done. intros [= <-]. cbn.
    split; [split; [done|by apply Hmove]|done].
  - unfold notify_all. destruct (alarm p); [|done]. intros [= <-]. cbn. split; [|done]. split; [done|].
    intros Hin. apply Hd. by apply list_elem_of_fmap in Hin as ([] & [=] & ?).
  - unfold work. destruct (threads_ p !! i) as [[| |fn|]|] eqn:Hi; try done. rewrite Hs.
    destruct (jobs_ p) as [|fn jobs] eqn:Hj; intros [= <-]; cbn; [by rewrite Hj|].
    split; [|done]. split; [done|]. intros Hin. specialize (Hmove i (Busy fn)). naive_solver.
  - unfold finish. destruct (threads_ p !! i) as [[| |fn|]|] eqn:Hi; try done. intros [= <-]. cbn.
    split; [split; [done|by apply Hmove]|done].
  - unfold spurious. destruct (threads_ p !! i) as [[]|] eqn:Hi; try done. intros [= <-]. cbn.
    split; [split; [done|by apply Hmove]|done].
Qed.

(** The workers have ended: all jobs have run. *)
Lemma joined_done mqr n p :
  inv mqr n p → (0 < n)%nat → drained p → joined p → jobs_ p = [] ∧ finished p ≡ₚ accepted p.
Proof.
  intros Hinv Hn [Hs Hd] Hj.
  assert (Hr : running p = []).
  { unfold running. unfold joined in Hj. clear -Hj. induction Hj as [|w l -> Hl IH]; [done|exact IH]. }
  assert (Hq : jobs_ p = []).
  { apply Hd. pose proof (in_threads _ _ _ Hinv) as Hlen. destruct Hj as [|w l -> _]; [cbn in Hlen; lia|by left]. }
  split; [done|]. rewrite (in_order _ _ _ Hinv), Hq, app_nil_r.
  rewrite (in_taken _ _ _ Hinv), Hr, app_nil_r. done.
Qed.

(** When no step is sure to come, the workers have ended: none sleeps, for
    [notify_all] has woken them. *)
Lemma stuck_joined mqr n p :
  inv mqr n p → drained p → (∀ e, due e = true → step e p = None) → joined p.
Proof.
  intros Hinv [Hs _] Hstuck.
  assert (Hal : alarm p = false).
  { specialize (Hstuck NotifyAll eq_refl). cbn [step] in Hstuck. unfold notify_all in Hstuck.
    by destruct (alarm p). }
  destruct (in_shutdown _ _ _ Hinv Hs) as [Ha|Ha]; [congruence|].
  apply Forall_lookup. intros i w Hi. destruct w as [| |fn|]; [| | |done].
  - specialize (Hstuck (Work i) eq_refl). cbn [step] in Hstuck. unfold work in Hstuck.
    rewrite Hi in Hstuck. by destruct (jobs_ p).
  - moved p i Hi (@Awake Job). lia.
  - specialize (Hstuck (Finish i) eq_refl). cbn [step] in Hstuck. unfold finish in Hstuck.
    by rewrite Hi in Hstuck.
Qed.

Lemma own_run mqr n es p p' :
  inv mqr n p → drained p → Forall (λ e, own e = true) es → run es p = Some p' →
  inv mqr n p' ∧ drained p' ∧ accepted p' = accepted p ∧ (length es + left p' <= left p)%nat.
Proof.
  intros Hinv Hd Hes. revert p Hinv Hd. induction Hes as [|e es He Hes IH]; intros p Hinv Hd; cbn [run].
  - intros [= <-]. cbn. split_and!; auto.
  - intros (p1 & Hs & Hr)%bind_Some. pose proof (pool_step_inv mqr n e p p1 Hinv Hs) as Hinv1.
    destruct (own_step_drained e p p1 Hd He Hs) as [Hd1 Ha1].
    pose proof (own_step_left e p p1 (proj1 Hd) He Hs).
    destruct (IH p1 Hinv1 Hd1 Hr) as (Hinv' & Hd' & Ha' & Hl'). split; [done|]. split; [done|].
    split; [congruence|]. cbn [length]. lia.
Qed.

Lemma shutdown_drained mqr n p : inv mqr n p → shutdown_ p = false → drained (shutdown p).
Proof. intros Hinv Hs. split; [done|]. intros Hin. by destruct (in_loop _ _ _ Hinv Hs) as [_ []]. Qed.

(** ** Properties *)

(** (safety): at any time the accepted jobs, in the order of their
    submission, are those that workers have taken and then those still queued;
    the jobs taken are those that have returned and those that run: each
    accepted job is run once. With a limit, the queue never exceeds it. *)
Theorem pool_runs_jobs_in_order mqr n es p (Hrun : run es (ctor n mqr) = Some p) :
  accepted p = taken p ++ jobs_ p ∧ taken p ≡ₚ finished p ++ running p
  ∧ (mqr > 0 → Z.of_nat (length (jobs_ p)) <= mqr).
Proof. by destruct (start_inv mqr n es p Hrun). Qed.

(** C20 (liveness): no wake-up is lost: at any time no worker sleeps, or there is
    for each queued job a worker that is awake or a notification on its way,
    whatever spurious wake-ups there are and whichever sleeper is notified. *)
Theorem pool_loses_no_wakeup mqr n es p (Hrun : run es (ctor n mqr) = Some p) :
  asleep p = 0%nat ∨ (length (jobs_ p) <= notifying p + awake p)%nat.
Proof. by destruct (start_inv mqr n es p Hrun). Qed.

(** C21 (termination): after [shutdown()], with no further submissions, the pool
    makes a bounded number of steps, and when none is left to make every worker
    has ended, so that the joins return, and every accepted job has returned.
    No spurious wake-up is needed for it: a worker that sleeps when the other
    steps are over would sleep for ever, and none does. *)
Theorem pool_shutdown_drains mqr n es p es' p' (Hn : (0 < n)%nat)
    (Hrun : run es (ctor n mqr) = Some p) (Hopen : shutdown_ p = false)
    (Hown : Forall (λ e, own e = true) es') (Hrun' : run es' (shutdown p) = Some p') :
  (length es' <= left (shutdown p))%nat
  ∧ ((∀ e, due e = true → step e p' = None) →
     joined p' ∧ jobs_ p' = [] ∧ finished p' ≡ₚ accepted p).
Proof.
  pose proof (start_inv mqr n es p Hrun) as Hinv.
  destruct (own_run mqr n es' (shutdown p) p' (shutdown_inv _ _ _ Hinv)
    (shutdown_drained mqr n p Hinv Hopen) Hown Hrun') as (Hinv' & Hd' & Ha & Hl).
  split; [lia|]. intros Hstuck. rewrite <- (Ha : accepted p' = accepted p).
  pose proof (stuck_joined mqr n p' Hinv' Hd' Hstuck) as Hj. split; [done|]. by apply (joined_done mqr n).
Qed.

End Pool.

(** ** Witnesses

    Two workers; the first sleeps when a job is submitted, and is notified
    after the second has taken the job; then the pool is shut down. *)

Definition pool_events : list (event nat) :=
  [Work 0; Enqueue 7%nat; Work 1; NotifyOne 0; Enqueue 8%nat].

Definition pool_state : t nat := default (ctor 2 0) (run pool_events (ctor 2 0)).

Lemma pool_run : run pool_events (ctor 2 0) = Some pool_state.
Proof. vm_compute. reflexivity. Qed.

Lemma pool_runs_jobs_in_order_witness :
  taken pool_state = [7%nat] ∧ accepted pool_state = taken pool_state ++ [8%nat].
Proof. split; [vm_compute; reflexivity|]. exact (proj1 (pool_runs_jobs_in_order 0 2 pool_events pool_state pool_run)). Defined.

Lemma pool_loses_no_wakeup_witness : (length (jobs_ pool_state) <= notifying pool_state + awake pool_state)%nat
  ∨ asleep pool_state = 0%nat.
Proof. destruct (pool_loses_no_wakeup 0 2 pool_events pool_state pool_run); [by right|by left]. Defined.

Definition pool_ending : list (event nat) :=
  [Finish 1; Work 1; NotifyOne 0; Finish 1; NotifyAll; Work 0; Work 1].

Definition pool_end : t nat := default (ctor 2 0) (run pool_ending (shutdown pool_state)).

Lemma pool_end_run : run pool_ending (shutdown pool_state) = Some pool_end.
Proof. vm_compute. reflexivity. Qed.

Lemma pool_shutdown_drains_witness : finished pool_end ≡ₚ [7%nat; 8%nat] ∧ (7 <= left (shutdown pool_state))%nat.
Proof.
  destruct (pool_shutdown_drains 0 2 pool_events pool_state pool_ending pool_end ltac:(lia) pool_run eq_refl
    ltac:(repeat constructor) pool_end_run) as [Hlen Hdone].
  split; [|exact Hlen]. apply Hdone. intros e. by destruct e as [?|?| | |[|[|?]]|[|[|?]]|[|[|?]]].
Defined.
