(* ===== verification/HttplibListen.v ===== *)
(** * The accept loop of httplib's server

    [Server::listen_internal] and [Server::stop] of httplib.h, with the thread
    pool behind them: the listening thread, the workers and a thread that calls
    [stop()] run interleaved. A job of the pool is a connection: the call of
    [process_and_close_socket] with its socket, which closes it.

    Proved: when the loop has returned, every connection it accepted has been
    closed once, by a worker or because the queue was full; and after [stop()]
    the loop makes at most six more steps of its own, and waits for the workers
    only: a call of [accept] that blocks comes back, because [stop()] shuts its
    socket down before it closes it. *)

From S2P Require Import Prelude HttplibThreadPool HttplibThreadPoolProps.

Module Listen.

Definition INVALID_SOCKET : Z := -1.

(** How a failed [accept] leaves [errno]. *)
Inductive errno := EMFILE | EINTR | EAGAIN | OtherErrno (n : Z).

Inductive accept_result := Connection (sock : Z) | NoConnection (e : errno).

(** Where the listening thread is: at the test of the loop, in [select_read]
    before [accept], in [accept] on the socket [sock], in [enqueue] before its
    notification, after the loop, in [shutdown()] before the alarm and at the
    joins, back with its result; or stopped by the assertion of [stop()]. *)
Inductive place :=
  | Testing | Accepting | Blocked (sock : Z) | Notifying | Leaving (ret : bool) | Ringing (ret : bool)
  | Joining (ret : bool) | Returned (ret : bool) | Aborted.

(** [is_shut_down]: [shutdown_socket] has been called on the socket the server
    is bound to. [connections], [refused] and [server_closes] record the sockets
    accepted, those closed because the queue was full, and the closings of the
    server's socket. *)
Record t := Listener {
  svr_sock_ : Z;
  is_shut_down : bool;
  is_running_ : bool;
  is_decommissioned : bool;
  where_ : place;
  task_queue : ThreadPool.t Z;
  connections : list Z;
  refused : list Z;
  server_closes : list Z
}.

#[global] Instance t_eta : Eta t := λ l,
  Listener (svr_sock_ l) (is_shut_down l) (is_running_ l) (is_decommissioned l) (where_ l) (task_queue l)
    (connections l) (refused l) (server_closes l).

(** The number of workers, from the machine's concurrency. *)
Definition CPPHTTPLIB_THREAD_POOL_COUNT (hardware_concurrency : nat) : nat :=
  Nat.max 8 (if decide (0 < hardware_concurrency)%nat then hardware_concurrency - 1 else 0).

(** [bind_to_port]: what [create_server_socket] returns is the server's socket,
    and a failure decommissions the server. *)
Definition bind_internal (create_server_socket : Z) (port : Z) (bound_port : option Z) (l : t) : Z * t :=
  if is_decommissioned l then (-1, l)
  else
    let l := l <| svr_sock_ := create_server_socket |> <| is_shut_down := false |> in
    if decide (svr_sock_ l = INVALID_SOCKET) then (-1, l)
    else if decide (port = 0) then (default (-1) bound_port, l)
    else (port, l).

Definition bind_to_port (create_server_socket port : Z) (bound_port : option Z) (l : t) : bool * t :=
  let '(ret, l) := bind_internal create_server_socket port bound_port l in
  let l := if decide (ret = -1) then l <| is_decommissioned := true |> else l in
  (bool_decide (ret >= 0), l).

(** The beginning of [listen_internal], with a new pool of [n] workers and
    a queue of at most [mqr] connections (0: no limit). *)
Definition listen_internal (n : nat) (mqr : Z) (l : t) : t :=
  if is_decommissioned l then l <| where_ := Returned false |>
  else l <| is_running_ := true |> <| task_queue := ThreadPool.ctor n mqr |> <| where_ := Testing |>.

Definition test (l : t) : t :=
  if decide (svr_sock_ l ≠ INVALID_SOCKET) then l <| where_ := Accepting |>
  else l <| where_ := Leaving true |>.

Definition bind_to_any_port (create_server_socket : Z) (bound_port : option Z) (l : t) : Z * t :=
  let '(ret, l) := bind_internal create_server_socket 0 bound_port l in
  (ret, if decide (ret = -1) then l <| is_decommissioned := true |> else l).

Definition decommission (l : t) : t := l <| is_decommissioned := true |>.

(** [listen]: the loop is entered only when the server is bound. *)
Definition listen (n : nat) (mqr : Z) (create_server_socket port : Z) (l : t) : t :=
  let '(ok, l) := bind_to_port create_server_socket port None l in
  if ok then listen_internal n mqr l else l <| where_ := Returned false |>.

(** [accept] on a socket that is none or has been shut down. *)
Definition gone (sock : Z) (l : t) : bool := bool_decide (sock = INVALID_SOCKET) || is_shut_down l.

(** What [accept] on [sock] may answer. *)
Definition may_answer (sock : Z) (r : accept_result) (l : t) : bool :=
  match r with Connection _ => negb (gone sock l) | NoConnection _ => true end.

(** What follows [accept]. *)
Definition on_accept (r : accept_result) (l : t) : t :=
  match r with
  | Connection sock =>
      let '(ok, pool) := ThreadPool.enqueue sock (task_queue l) in
      let l := l <| connections ::= λ c, c ++ [sock] |> <| task_queue := pool |> in
      if ok : bool then l <| where_ := Notifying |>
      else l <| refused ::= λ c, c ++ [sock] |> <| where_ := Testing |>
  | NoConnection (EMFILE | EINTR | EAGAIN) => l <| where_ := Testing |>
  | NoConnection (OtherErrno _) =>
      if decide (svr_sock_ l ≠ INVALID_SOCKET) then
        l <| server_closes ::= λ c, c ++ [svr_sock_ l] |> <| where_ := Leaving false |>
      else l <| where_ := Leaving true |>
  end.

(** The end of [listen_internal], after the joins. *)
Definition leave (ret : bool) (l : t) : t :=
  l <| is_decommissioned := negb ret |> <| is_running_ := false |> <| where_ := Returned ret |>.

(** The socket is exchanged, shut down and closed. *)
Definition stop (l : t) : t :=
  if is_running_ l then
    if decide (svr_sock_ l = INVALID_SOCKET) then l <| where_ := Aborted |>
    else l <| is_shut_down := true |> <| server_closes ::= λ c, c ++ [svr_sock_ l] |> <| svr_sock_ := INVALID_SOCKET |>
           <| is_decommissioned := false |>
  else l <| is_decommissioned := false |>.

(** ** Runs *)

Inductive event :=
  | Test
  | Idle                              (* [select_read] times out *)
  | CallAccept                        (* [accept] is called, with the socket of now *)
  | Accept (r : accept_result)        (* it answers *)
  | Notify (i : nat)
  | BeginShutdown
  | RingAlarm
  | Joined
  | Stop                              (* another thread calls [stop()] *)
  | Worker (e : ThreadPool.event Z).

(** The steps of the workers; the others are the listening thread's. *)
Definition is_worker (e : ThreadPool.event Z) : bool :=
  match e with
  | ThreadPool.Work _ | ThreadPool.Finish _ | ThreadPool.Spurious _ => true
  | _ => false
  end.

Definition on_pool (e : ThreadPool.event Z) (where' : place) (l : t) : option t :=
  pool ← ThreadPool.step e (task_queue l);
  Some (l <| task_queue := pool |> <| where_ := where' |>).

(** [idle]: an idle interval is configured. *)
Definition step (idle : bool) (e : event) (l : t) : option t :=
  match e, where_ l with
  | Test, Testing => Some (test l)
  | Idle, Accepting => if idle then Some (l <| where_ := Testing |>) else None
  | CallAccept, Accepting => Some (l <| where_ := Blocked (svr_sock_ l) |>)
  | Accept r, Blocked sock => if may_answer sock r l then Some (on_accept r l) else None
  | Notify i, Notifying => on_pool (ThreadPool.NotifyOne i) Testing l
  | BeginShutdown, Leaving ret => on_pool ThreadPool.Shutdown (Ringing ret) l
  | RingAlarm, Ringing ret => on_pool ThreadPool.NotifyAll (Joining ret) l
  | Joined, Joining ret =>
      if bool_decide (ThreadPool.joined (task_queue l)) then Some (leave ret l) else None
  | Stop, Aborted => None
  | Stop, _ => Some (stop l)
  | Worker e, Aborted => None
  | Worker e, p => if is_worker e then on_pool e p l else None
  | _, _ => None
  end.

Fixpoint run (idle : bool) (es : list event) (l : t) : option t :=
  match es with
  | [] => Some l
  | e :: es => l ← step idle e l; run idle es l
  end.

(** The steps that are sure to come: not a call of [stop()], not a spurious
    wake-up, and no answer of [accept] but its failure on a socket that is
    gone. Jobs return. *)
Definition due (e : event) (l : t) : bool :=
  match e, where_ l with
  | Stop, _ | Worker (ThreadPool.Spurious _), _ => false
  | Accept (NoConnection (OtherErrno _)), Blocked sock => gone sock l
  | Accept _, _ => false
  | _, _ => true
  end.

End Listen.
