(* ===== verification/HttplibListenProps.v ===== *)
(** * What the accept loop promises

    No connection is leaked, whatever [accept] returns and whenever [stop()] is
    called; and a stopped loop ends. *)

From S2P Require Import Prelude HttplibThreadPool HttplibThreadPoolProps HttplibListen.
Import Listen.

Implicit Types (l : t) (p : ThreadPool.t Z).

(** What each place of the listening thread means for the pool. *)
Definition place_ok (where' : place) p : Prop :=
  match where' with
  | Testing | Accepting | Blocked _ | Leaving _ => ThreadPool.shutdown_ p = false ∧ ThreadPool.notifying p = 0%nat
  | Notifying => ThreadPool.shutdown_ p = false ∧ ThreadPool.notifying p = 1%nat
  | Ringing _ => drained p ∧ ThreadPool.alarm p = true ∧ ThreadPool.notifying p = 0%nat
  | Joining _ => drained p ∧ ThreadPool.alarm p = false ∧ ThreadPool.notifying p = 0%nat
  | Returned _ => drained p ∧ ThreadPool.joined p
  | Aborted => True
  end.

Record listen_inv (mqr : Z) (n : nat) l : Prop := {
  li_pool : HttplibThreadPoolProps.inv mqr n (task_queue l);
  li_connections : connections l ≡ₚ refused l ++ ThreadPool.accepted (task_queue l);
  li_place : place_ok (where_ l) (task_queue l)
}.

Lemma listen_start mqr n l :
  is_decommissioned l = false → connections l = [] → refused l = [] →
  listen_inv mqr n (listen_internal n mqr l).
Proof.
  intros Hd Hc Hr. unfold listen_internal. rewrite Hd. split; cbn; [apply ctor_inv|by rewrite Hc, Hr|done].
Qed.

(** A step of the pool that accepts nothing. *)
Lemma on_pool_inv mqr n e where' l p :
  listen_inv mqr n l → ThreadPool.step e (task_queue l) = Some p →
  ThreadPool.accepted p = ThreadPool.accepted (task_queue l) → place_ok where' p →
  listen_inv mqr n (l <| task_queue := p |> <| where_ := where' |>).
Proof.
  intros [Hp Hc Hw] Hs Ha Hw'. split; cbn; [by eapply pool_step_inv|by rewrite Ha|done].
Qed.

Lemma worker_step p p' e :
  is_worker e = true → ThreadPool.step e p = Some p' →
  ThreadPool.accepted p' = ThreadPool.accepted p ∧ ThreadPool.shutdown_ p' = ThreadPool.shutdown_ p
  ∧ ThreadPool.alarm p' = ThreadPool.alarm p ∧ ThreadPool.notifying p' = ThreadPool.notifying p.
Proof.
  intros He. destruct e as [| | | |i|i|i]; try done; cbn [ThreadPool.step];
    unfold ThreadPool.work, ThreadPool.finish, ThreadPool.spurious;
    destruct (ThreadPool.threads_ p !! i) as [[]|]; try done; [destruct (ThreadPool.jobs_ p)|..];
    intros [= <-]; done.
Qed.

Lemma joined_no_work p p' e :
  ThreadPool.joined p → is_worker e = true → ThreadPool.step e p = Some p' → False.
Proof.
  intros Hj He. assert (Hi : ∀ i w, ThreadPool.threads_ p !! i = Some w → w = ThreadPool.Exited).
  { intros i w Hw. exact (proj1 (Forall_lookup _ _) Hj i w Hw). }
  destruct e as [| | | |i|i|i]; try done; cbn [ThreadPool.step];
    unfold ThreadPool.work, ThreadPool.finish, ThreadPool.spurious;
    destruct (ThreadPool.threads_ p !! i) as [w|] eqn:Hw; try done; apply Hi in Hw; by subst.
Qed.

Lemma worker_place e where' p p' :
  is_worker e = true → ThreadPool.step e p = Some p' → place_ok where' p → place_ok where' p'.
Proof.
  intros He Hs. destruct (worker_step p p' e He Hs) as (_ & Hsh & Hal & Hno).
  assert (Hd : drained p → drained p').
  { intros Hd. apply (own_step_drained e p p'); [done|by destruct e|done]. }
  unfold place_ok. rewrite Hsh, Hal, Hno. destruct where'; try tauto.
  intros [_ Hj]. by destruct (joined_no_work p p' e Hj He Hs).
Qed.

Lemma stop_inv mqr n l : listen_inv mqr n l → listen_inv mqr n (stop l).
Proof.
  intros [Hp Hc Hw]. unfold stop. destruct (is_running_ l); [case_decide|]; by split.
Qed.

Lemma accept_inv mqr n r l sock :
  listen_inv mqr n l → where_ l = Blocked sock → listen_inv mqr n (on_accept r l).
Proof.
  intros [Hp Hc Hw] Hat. rewrite Hat in Hw. destruct Hw as [Hs Hn].
  destruct r as [s|e]; cbn [on_accept].
  - pose proof (enqueue_inv mqr n s (task_queue l) Hp) as Hp'. unfold ThreadPool.enqueue in *.
    case_decide; cbn in Hp' |- *; (split; cbn; [done| |]).
    + rewrite Hc, <- !(assoc_L (++)). apply Permutation_app_head, Permutation_app_comm.
    + done.
    + by rewrite Hc, <- (assoc_L (++)).
    + by rewrite Hn.
  - destruct e; [by split..|]. case_decide; by split.
Qed.

Lemma listen_step_inv mqr n idle e l l' :
  listen_inv mqr n l → step idle e l = Some l' → listen_inv mqr n l'.
Proof.
  intros Hinv. pose proof Hinv as [Hp Hc Hw]. unfold step, on_pool.
  destruct e as [| | |r|i| | | | |e], (where_ l) eqn:Hat; try done; intros Hs.
  all: try (injection Hs as <-; by apply stop_inv).
  all: try (destruct (is_worker e) eqn:He; [|done]; apply bind_Some in Hs as (p & Hs & [= <-]);
    destruct (worker_step _ _ _ He Hs); apply (on_pool_inv mqr n e); [done..|by eapply worker_place]).
  - injection Hs as <-. unfold test. case_decide; by split.
  - destruct idle; simplify_eq. by split.
  - injection Hs as <-. by split.
  - destruct (may_answer _ _ _); [|done]. injection Hs as <-. by eapply accept_inv.
  - apply bind_Some in Hs as (p & Hs & [= <-]).
    assert (Hone : ThreadPool.accepted p = ThreadPool.accepted (task_queue l)
      ∧ ThreadPool.shutdown_ p = false ∧ ThreadPool.notifying p = 0%nat).
    { destruct Hw as [Hsh Hn]. revert Hs. cbn [ThreadPool.step]. unfold ThreadPool.notify_one. rewrite Hn.
      destruct (existsb _ _); [|by intros [= <-]]. cbn.
      destruct (ThreadPool.threads_ (task_queue l) !! i) as [[]|]; try done. by intros [= <-]. }
    destruct Hone as [Ha Hone]. by apply (on_pool_inv mqr n (ThreadPool.NotifyOne i)).
  - injection Hs as <-. destruct Hw as [Hsh Hn].
    apply (on_pool_inv mqr n ThreadPool.Shutdown); [done..|]. split; [|done].
    by apply (shutdown_drained mqr n).
  - apply bind_Some in Hs as (p & Hs & [= <-]). destruct Hw as (Hd & Hal & Hn).
    destruct (own_step_drained ThreadPool.NotifyAll _ _ Hd eq_refl Hs) as [Hd' Ha].
    apply (on_pool_inv mqr n ThreadPool.NotifyAll); [done..|]. split; [done|].
    revert Hs. cbn [ThreadPool.step]. unfold ThreadPool.notify_all. rewrite Hal. by intros [= <-].
  - case_bool_decide as Hj; [|done]. injection Hs as <-. destruct Hw as (Hd & _). by split.
Qed.

Lemma listen_run_inv mqr n idle es l l' :
  listen_inv mqr n l → run idle es l = Some l' → listen_inv mqr n l'.
Proof.
  revert l. induction es as [|e es IH]; intros l Hinv; cbn; [by intros [= <-]|].
  intros (l1 & Hs & Hr)%bind_Some. eapply IH; [|exact Hr]. by eapply listen_step_inv.
Qed.

(** ** The end of the loop *)

(** The steps the listening thread still has to make, at most, once the
    server's socket has been taken away. *)
Definition rank (where' : place) : nat :=
  match where' with
  | Accepting => 6 | Blocked _ | Notifying => 5 | Testing => 4 | Leaving _ => 3 | Ringing _ => 2 | Joining _ => 1
  | Returned _ | Aborted => 0
  end.

Definition is_listener (e : event) : bool :=
  match e with Stop | Worker _ => false | _ => true end.

Definition listener_steps (es : list event) : nat := length (filter is_listener es).

(** The server's socket has been taken away and shut down. *)
Definition stopped l : Prop := svr_sock_ l = INVALID_SOCKET ∧ is_shut_down l = true.

Lemma stopped_step idle e l l' :
  stopped l → e ≠ Stop → step idle e l = Some l' →
  stopped l' ∧ ((if is_listener e then 1 else 0) + rank (where_ l') <= rank (where_ l))%nat.
Proof.
  intros [Hsock Hshut] Hne. unfold step, on_pool, stopped.
  destruct e as [| | |r|i| | | | |e], (where_ l) as [| |sock| | | | | |] eqn:Hat; try done; intros Hs.
  all: try (destruct (is_worker e); [|done]; apply bind_Some in Hs as (p & Hs & [= <-]); cbn; split; [done|lia]).
  - injection Hs as <-. unfold test. rewrite decide_False by auto. cbn. split; [done|lia].
  - destruct idle; simplify_eq. cbn. split; [done|lia].
  - injection Hs as <-. cbn. split; [done|lia].
  - unfold may_answer, gone in Hs. rewrite Hshut, orb_true_r in Hs. destruct r as [s|[]]; [done|..];
      injection Hs as <-; cbn [on_accept]; [cbn; split; [done|lia]..|].
    rewrite decide_False by auto. cbn. split; [done|lia].
  - apply bind_Some in Hs as (p & Hs & [= <-]). cbn. split; [done|lia].
  - injection Hs as <-. cbn. split; [done|lia].
  - apply bind_Some in Hs as (p & Hs & [= <-]). cbn. split; [done|lia].
  - case_bool_decide; simplify_eq. cbn. split; [done|lia].
Qed.

Lemma stopped_run idle es l l' :
  stopped l → Forall (λ e, e ≠ Stop) es → run idle es l = Some l' →
  stopped l' ∧ (listener_steps es + rank (where_ l') <= rank (where_ l))%nat.
Proof.
  intros Hsock Hes. revert l Hsock. induction Hes as [|e es He Hes IH]; intros l Hsock; cbn [run].
  - by intros [= <-].
  - intros (l1 & Hs & Hr)%bind_Some. destruct (stopped_step idle e l l1 Hsock He Hs) as [Hsock1 Hrank].
    destruct (IH l1 Hsock1 Hr) as [Hend IHr]. split; [done|]. unfold listener_steps in *. rewrite filter_cons.
    case_decide; destruct (is_listener e); cbn in *; try done; lia.
Qed.

Lemma asleep_index p :
  existsb ThreadPool.is_asleep (ThreadPool.threads_ p) = true →
  ∃ i, ThreadPool.threads_ p !! i = Some ThreadPool.Asleep.
Proof.
  intros (w & Hin & Hw)%existsb_exists. apply list_elem_of_In, list_elem_of_lookup in Hin as [i Hi].
  exists i. by destruct w.
Qed.

(** When no step is sure to come, the thread has come back. *)
Lemma stuck_returned mqr n idle l :
  listen_inv mqr n l → stopped l → (∀ e, due e l = true → step idle e l = None) →
  (∃ ret, where_ l = Returned ret) ∨ where_ l = Aborted.
Proof.
  intros [Hp Hc Hw] [_ Hshut] Hstuck. unfold step, on_pool, due in Hstuck.
  destruct (where_ l) as [| |sock| |ret|ret|ret|ret|] eqn:Hat; [| | | | | | |by left; exists ret|by right]; exfalso.
  - by specialize (Hstuck Test ltac:(done)).
  - by specialize (Hstuck CallAccept ltac:(done)).
  - unfold gone in Hstuck. rewrite Hshut, orb_true_r in Hstuck.
    by specialize (Hstuck (Accept (NoConnection (OtherErrno 22))) ltac:(done)).
  - destruct Hw as [_ Hno]. destruct (existsb ThreadPool.is_asleep (ThreadPool.threads_ (task_queue l))) eqn:Hs.
    + destruct (asleep_index _ Hs) as [i Hi]. specialize (Hstuck (Notify i) ltac:(done)). cbn in Hstuck.
      unfold ThreadPool.notify_one in Hstuck. rewrite Hno in Hstuck. cbn in Hstuck. rewrite Hs in Hstuck. cbn in Hstuck. by rewrite Hi in Hstuck.
    + specialize (Hstuck (Notify 0) ltac:(done)). cbn in Hstuck. unfold ThreadPool.notify_one in Hstuck.
      rewrite Hno in Hstuck. cbn in Hstuck. by rewrite Hs in Hstuck.
  - by specialize (Hstuck BeginShutdown ltac:(done)).
  - destruct Hw as (_ & Hal & _). specialize (Hstuck RingAlarm ltac:(done)). cbn in Hstuck.
    unfold ThreadPool.notify_all in Hstuck. by rewrite Hal in Hstuck.
  - destruct Hw as (Hd & Hal & Hno).
    assert (Hj : ThreadPool.joined (task_queue l)).
    { apply (stuck_joined mqr n (task_queue l) Hp Hd). intros e He. destruct e as [|i| | |i|i|i]; try done.
      - cbn. unfold ThreadPool.notify_one. by rewrite Hno.
      - cbn. unfold ThreadPool.notify_all. by rewrite Hal.
      - specialize (Hstuck (Worker (ThreadPool.Work i)) ltac:(done)). cbn in Hstuck |- *.
        by destruct (ThreadPool.work i (task_queue l)).
      - specialize (Hstuck (Worker (ThreadPool.Finish i)) ltac:(done)). cbn in Hstuck |- *.
        by destruct (ThreadPool.finish i (task_queue l)). }
    specialize (Hstuck Joined ltac:(done)). cbn in Hstuck. by rewrite bool_decide_eq_true_2 in Hstuck.
Qed.

Lemma runs_not_aborted idle es l l' :
  Forall (λ e, e ≠ Stop) es → where_ l ≠ Aborted → run idle es l = Some l' → where_ l' ≠ Aborted.
Proof.
  intros Hes. revert l. induction Hes as [|e es He Hes IH]; intros l Hl; cbn [run]; [by intros [= <-]|].
  intros (l1 & Hs & Hr)%bind_Some. apply (IH l1); [|done]. clear IH Hr. revert Hs. unfold step, on_pool.
  destruct e as [| | |r|i| | | | |e], (where_ l) eqn:Hat; try done; intros Hs.
  all: try (destruct (is_worker e); [|done]; by apply bind_Some in Hs as (p & Hs & [= <-])).
  all: try by apply bind_Some in Hs as (p & Hs & [= <-]).
  - injection Hs as <-. unfold test. by case_decide.
  - destruct idle; by simplify_eq.
  - by injection Hs as <-.
  - destruct (may_answer _ _ _); [|done].
    injection Hs as <-. destruct r as [s|[]]; cbn [on_accept]; [|done..|by case_decide].
    by destruct (ThreadPool.enqueue _ _) as [[] p].
  - case_bool_decide; by simplify_eq.
Qed.

(** ** Properties *)

(** C18 (safety): when [listen_internal] has returned, whatever [accept] has
    returned and whenever [stop()] was called, every connection accepted has
    been closed once: by the worker that has served it, or because the queue
    was full. *)
Theorem listen_closes_connections mqr n idle l0 es l ret (Hn : (0 < n)%nat)
    (Hopen : is_decommissioned l0 = false) (Hconn : connections l0 = []) (Href : refused l0 = [])
    (Hrun : run idle es (listen_internal n mqr l0) = Some l) (Hret : where_ l = Returned ret) :
  connections l ≡ₚ refused l ++ ThreadPool.finished (task_queue l).
Proof.
  destruct (listen_run_inv mqr n idle es _ l (listen_start mqr n l0 Hopen Hconn Href) Hrun) as [Hp Hc Hw].
  rewrite Hret in Hw. destruct Hw as [Hd Hj]. rewrite Hc.
  by destruct (joined_done mqr n _ Hp Hn Hd Hj) as [_ ->].
Qed.

(** C19 (termination): after [stop()] on a server that listens, the listening
    thread makes at most six steps, and it is never stuck on the way: when no
    step is sure to come, neither of its own nor of a worker, it has returned.
    An [accept] that blocks fails, for its socket has been shut down, and the
    workers the joins wait for have been woken: neither a connection nor a
    spurious wake-up is needed. The jobs are taken to return. *)
Theorem stopped_listen_returns mqr n idle l0 es l es' l'
    (Hopen : is_decommissioned l0 = false) (Hconn : connections l0 = []) (Href : refused l0 = [])
    (Hrun : run idle es (listen_internal n mqr l0) = Some l)
    (Hlive : is_running_ l = true ∧ svr_sock_ l ≠ INVALID_SOCKET ∧ where_ l ≠ Aborted)
    (Honce : Forall (λ e, e ≠ Stop) es') (Hrun' : run idle es' (stop l) = Some l') :
  (listener_steps es' <= 6)%nat
  ∧ ((∀ e, due e l' = true → step idle e l' = None) → ∃ ret, where_ l' = Returned ret).
Proof.
  destruct Hlive as (Hr & Hs & Ha).
  pose proof (listen_run_inv mqr n idle es _ l (listen_start mqr n l0 Hopen Hconn Href) Hrun) as Hinv.
  pose proof (listen_run_inv mqr n idle es' _ l' (stop_inv _ _ _ Hinv) Hrun') as Hinv'.
  assert (Hstop : stopped (stop l) ∧ where_ (stop l) = where_ l).
  { unfold stopped, stop. rewrite Hr. by rewrite decide_False. }
  destruct Hstop as [Hsock Hat]. destruct (stopped_run idle es' _ l' Hsock Honce Hrun') as [Hend Hsteps]. split.
  - assert (Hrank : (rank (where_ (stop l)) <= 6)%nat) by (destruct (where_ (stop l)); cbn; lia). lia.
  - intros Hstuck. destruct (stuck_returned mqr n idle l' Hinv' Hend Hstuck) as [|Hab]; [done|].
    destruct (runs_not_aborted idle es' (stop l) l' Honce); [by rewrite Hat|done|done].
Qed.

(** (error): after an [accept] that fails for good the server's socket is closed
    but not forgotten: a [stop()] while the workers finish closes the same
    descriptor again, and another [stop()] then fails its assertion. *)
Lemma stop_after_failed_accept n mqr l0 e :
  is_decommissioned l0 = false → svr_sock_ l0 ≠ INVALID_SOCKET → server_closes l0 = [] →
  ∃ l, run false [Test; CallAccept; Accept (NoConnection (OtherErrno e)); BeginShutdown; RingAlarm; Stop]
         (listen_internal n mqr l0) = Some l
    ∧ server_closes l = [svr_sock_ l0; svr_sock_ l0] ∧ where_ (stop l) = Aborted.
Proof.
  intros Hd Hs Hc. unfold listen_internal. rewrite Hd. cbn. unfold test. cbn. rewrite decide_True by done. cbn.
  rewrite decide_True by done. eexists. split; [reflexivity|]. unfold stop. cbn. rewrite decide_False by done.
  cbn. by rewrite Hc.
Qed.

(** ** Witnesses

    One worker, a queue of one: two connections are accepted while the worker
    sleeps, the third is refused; then the server is stopped. *)

Definition idle_server : t := Listener 3 false false false (Returned true) (ThreadPool.ctor 0 0) [] [] [].

Definition listen_events : list event := [
  Worker (ThreadPool.Work 0);
  Test; CallAccept; Accept (Connection 4); Notify 0; Worker (ThreadPool.Work 0);
  Test; CallAccept; Accept (Connection 5); Notify 0;
  Test; CallAccept; Accept (NoConnection EINTR);
  Test; CallAccept; Accept (Connection 6);
  Test; CallAccept
].

Definition listening_server : t :=
  default idle_server (run false listen_events (listen_internal 1 1 idle_server)).

Lemma listening_run : run false listen_events (listen_internal 1 1 idle_server) = Some listening_server.
Proof. vm_compute. reflexivity. Qed.

Definition closing_events : list event := [
  Accept (NoConnection (OtherErrno 22)); BeginShutdown; RingAlarm;
  Worker (ThreadPool.Finish 0); Worker (ThreadPool.Work 0); Worker (ThreadPool.Finish 0);
  Worker (ThreadPool.Work 0); Joined
].

Definition closed_server : t := default idle_server (run false closing_events (stop listening_server)).

Lemma closing_run : run false closing_events (stop listening_server) = Some closed_server.
Proof. vm_compute. reflexivity. Qed.

Lemma closed_server_still e : due e closed_server = true → step false e closed_server = None.
Proof. by destruct e as [| | | |?| | | | |[?|?| | |[|[|?]]|[|[|?]]|?]]. Qed.

Lemma stopped_listen_returns_witness :
  (∃ ret, where_ closed_server = Returned ret) ∧ (listener_steps closing_events <= 6)%nat.
Proof.
  destruct (stopped_listen_returns 1 1 false idle_server listen_events listening_server closing_events
    closed_server eq_refl eq_refl eq_refl listening_run) as [Hsteps Hback].
  - vm_compute. split_and!; [done|intros [=]|intros [=]].
  - repeat (apply Forall_cons_2; [intros [=]|]). by apply Forall_nil_2.
  - exact closing_run.
  - split; [|exact Hsteps]. apply Hback, closed_server_still.
Defined.

Lemma listen_closes_connections_witness :
  connections closed_server = [4; 5; 6] ∧ refused closed_server = [6]
  ∧ [4; 5; 6] ≡ₚ [6] ++ ThreadPool.finished (task_queue closed_server).
Proof.
  split; [vm_compute; reflexivity|]. split; [vm_compute; reflexivity|].
  refine (listen_closes_connections 1 1 false idle_server (listen_events ++ [Stop] ++ closing_events)
    closed_server true ltac:(lia) eq_refl eq_refl eq_refl _ _); vm_compute; reflexivity.
Defined.
