(* ===== verification/BackendApi.v ===== *)
(** * The stand-in backend (src/BackendServers/BackendApi.cpp)

    The command line, the four routes of the server and [main]. The handlers
    write to the console, the list of lines of the two streams. *)

From S2P Require Import Prelude Text HttplibText Regex HttplibUrl HttplibStream HttplibMultipart.
From S2P Require Import HttplibContent HttplibMessage HttplibServer.

Module BackendApi.

Inductive line := Cout (s : string) | Cerr (s : string).
Definition console : Type := list line.

(** ** The command line *)

Definition invalid_argument_text (arg : string) : line :=
  Cerr ("Error: Invalid argument format: '" +:+ arg +:+ "'. Expected non-empty key=value format.").

(** [None]: [std::nullopt]. *)
Fixpoint parseArguments_from (args : list string) (argMap : gmap string string)
    : M console (option (gmap string string)) :=
  match args with
  | [] => mret (Some argMap)
  | arg :: args =>
      match Text.find "=" arg with
      | Some (S n) =>
          parseArguments_from args
            (<[prefix_of (S n) arg := suffix_from (S (S n)) arg]> argMap)
      | _ => modify (λ c, c ++ [invalid_argument_text arg]);; mret None
      end
  end.

Definition parseArguments (args : list string) : M console (option (gmap string string)) :=
  parseArguments_from args ∅.

Record config := Config { port : Z; defaultCompanyName : string; statusMessage : string }.

Definition default_port : Z := 9001.

(** The port, and the warning when the default replaces the one given. *)
Definition configured_port (args : gmap string string) : Z * console :=
  match args !! "port" with
  | None => (default_port, [])
  | Some text =>
      match stoi text with
      | Ret (port, _) =>
          if decide (port <= 0 ∨ 65535 < port) then
            (default_port, [Cerr ("Warning: Invalid port number '" +:+ text
              +:+ "'. Using default port 9001.")])
          else (port, [])
      | Throw e =>
          match exn_type e with
          | OutOfRange =>
              (default_port, [Cerr ("Warning: Port number '" +:+ text
                +:+ "' out of range. Using default port 9001.")])
          | _ =>
              (default_port, [Cerr ("Warning: Invalid port number format '" +:+ text
                +:+ "'. Using default port 9001.")])
          end
      | UB => (default_port, [])
      end
  end.

Definition configuration (args : gmap string string) : M console config :=
  let '(port, warning) := configured_port args in
  modify (λ c, c ++ warning);;
  mret (Config port
    (default "DefaultCompany Inc." (args !! "company_name"))
    (default "Server is running (Default)" (args !! "status_message"))).

(** ** The routes *)

Definition say (s : string) : M (Response console * console) unit := global (modify (λ c, c ++ [Cout s])).

Definition handle_status (statusMessage : string) : Handler console := λ _,
  say "Received request for /status";;
  update_local (set_content statusMessage "text/plain").

Definition handle_company (defaultCompanyName : string) : Handler console := λ _,
  say "Received request for /company";;
  update_local (set_content defaultCompanyName "text/plain").

(** The raw literals of the source, an apostrophe for each quote. *)
Definition json (s : string) : string :=
  map_string (λ c, if bool_decide (c = "'"%char) then "034"%char else c) s.

(** The response for a company: its body, content type and status. *)
Definition company_json (company_id : string) : string * string * Z :=
  if decide (company_id = "12345") then
    (json "{'cn': 'ABCDE', 'created_on' :'1786-06-30T06:23:14Z'}", "application/x-company-v1", 200)
  else if decide (company_id = "123456") then
    (json "{'cn': 'ABCDEF', 'created_on' :'1786-06-30T06:23:14Z', 'closed_on' :'2002-06-30T06:23:14Z'}",
     "application/x-company-v1", 200)
  else if decide (company_id = "1234567") then
    (json "{'cn': 'ABCDEFG', 'created_on' :'2020-06-30T06:23:14Z', 'closed_on' :'2050-06-30T06:23:14Z'}",
     "application/x-company-v1", 200)
  else if decide (company_id = "2345") then
    (json "{'company_name': 'BCDE', 'tin' :'1786-06-30T06:23:14Z'}", "application/x-company-v2", 200)
  else if decide (company_id = "23456") then
    (json "{'company_name': 'BCDEF', 'tin' :'1786-06-30T06:23:14Z', 'dissolved_on' :'2002-06-30T06:23:14Z'}",
     "application/x-company-v2", 200)
  else if decide (company_id = "234567") then
    (json "{'company_name': 'BCDEFG', 'tin' :'1786-06-30T06:23:14Z', 'dissolved_on' :'1786-08-30T06:23:14Z'}",
     "application/x-company-v2", 200)
  else (json "{'status': 'not_found'}", "application/json", 404).

Definition handle_companies : Handler console := λ req,
  let company_id := default "" (matches req !! 1%nat) in
  say ("Received request for /companies/" +:+ company_id);;
  let '(json_response, content_type, code) := company_json company_id in
  update_local (set_content json_response content_type);;
  update_local (λ r, r <| status := code |>).

Definition handle_other : Handler console := λ req,
  say ("Received unhandled GET request for " +:+ path req);;
  update_local (λ r, r <| status := 404 |>);;
  update_local (set_content "Not Found" "text/plain").

Definition server (c : config) : outcome (Server console) :=
  s ← Get "/status" (handle_status (statusMessage c)) server_default;
  s ← Get "/company" (handle_company (defaultCompanyName c)) s;
  s ← Get "/companies/([^/]+)" handle_companies s;
  Get ".*" handle_other s.

(** ** main *)

(** [listen] of the server: what happens until it returns, and its result. *)
Section Main.
Context (listen : Server console -> string -> Z -> M console bool).

Definition argument_lines (args : gmap string string) : console :=
  (λ kv, Cout ("  " +:+ kv.1 +:+ ": " +:+ kv.2)) <$> map_entries args.

Definition main (args : list string) : M console Z :=
  parsed ← parseArguments args;
  match parsed with
  | None =>
      modify (λ c, c ++ [Cerr "Failed to parse command-line arguments. Exiting."]);; mret 1
  | Some startupArguments =>
      modify (λ c, c ++ Cout "Startup Arguments:" :: argument_lines startupArguments);;
      c ← configuration startupArguments;
      srv ← lift (server c);
      modify (λ l, l ++ [Cout ("Starting server on 0.0.0.0:" +:+ to_string (port c) +:+ "...")]);;
      ok ← listen srv "0.0.0.0" (port c);
      if (ok : bool) then modify (λ l, l ++ [Cout "Server stopped."]);; mret 0
      else
        modify (λ l, l ++ [Cerr ("Failed to start server on port " +:+ to_string (port c) +:+ ".")]);;
        mret 1
  end.

End Main.

End BackendApi.
