(* ===== verification/BackendApiProps.v ===== *)
(** * The stand-in backend answers its requests

    From the bytes of a GET request on the connection, in whatever segments
    they arrive, to the bytes of the response. *)

From S2P Require Import Prelude Text TextFacts HttplibText HttplibTextProps Regex RegexProps.
From S2P Require Import HttplibUrl HttplibStream HttplibStreamProps HttplibMultipart HttplibContent.
From S2P Require Import HttplibMessage HttplibServer HttplibSafety BackendApi.
Import BackendApi.

(** ** The command line *)

(** (bounds): whatever the port argument, the server is started on a port
    between 1 and 65535, the default with a warning when the argument is none. *)
Theorem configured_port_valid args :
  1 <= (configured_port args).1 <= 65535
  ∧ ((configured_port args).2 ≠ [] → (configured_port args).1 = default_port).
Proof.
  unfold configured_port, default_port. destruct (args !! "port") as [text|]; [|cbn; lia].
  destruct (stoi text) as [[p n]|e|]; [|by destruct (exn_type e); cbn; lia|cbn; lia].
  case_decide; cbn; [lia|]. split; [lia|done].
Qed.

(** ** What the routes answer *)

(** The company a path asks for. *)
Definition company_of (path : string) : option string :=
  let id := suffix_from (String.length "/companies/") path in
  if starts_with "/companies/" path && negb (bool_decide (id = "")) && all_of (atom_matches (NotIn "/")) id
  then Some id else None.

(** The line on the console, and the body, the content type and the status. *)
Definition answer (c : config) (path : string) : line * (string * string * Z) :=
  if decide (path = "/status") then
    (Cout "Received request for /status", (statusMessage c, "text/plain", 200))
  else if decide (path = "/company") then
    (Cout "Received request for /company", (defaultCompanyName c, "text/plain", 200))
  else
    match company_of path with
    | Some id => (Cout ("Received request for /companies/" +:+ id), company_json id)
    | None => (Cout ("Received unhandled GET request for " +:+ path), ("Not Found", "text/plain", 404))
    end.

Definition companies_regex : regex := literal "/companies/" ++ [GroupStart; Piece (NotIn "/") Plus; GroupEnd].

Definition routes (c : config) : Handlers console :=
  [(RegexMatcher (literal "/status"), handle_status (statusMessage c));
   (RegexMatcher (literal "/company"), handle_company (defaultCompanyName c));
   (RegexMatcher companies_regex, handle_companies);
   (RegexMatcher [Piece AnyChar Star], handle_other)].

(** The server of [server c]. *)
Definition srv (c : config) : Server console := server_default <| get_handlers_ := routes c |>.

Lemma server_routes c : server c = Ret (srv c).
Proof. reflexivity. Qed.

(** The request as a regular expression leaves it. *)
Definition matched (m : option (list string)) (r : Request) : Request :=
  r <| path_params := [] |> <| matches := default [] m |>.

Lemma dispatch_regex re (h : Handler console) hs (x : exchange console) :
  dispatch_request ((RegexMatcher re, h) :: hs) x =
  let m := regex_match re (path (req x)) in
  let x' := x <| req ::= matched m |> in
  match m with
  | Some _ => (call_handler h;; mret true) x'
  | None => dispatch_request hs x'
  end.
Proof.
  unfold dispatch_request. cbn [dispatch]. unfold mbind, M_bind, get_state, modify. cbn [match_request].
  by destruct (regex_match re (path (req x))).
Qed.

(** A visible path: neither blanks nor line terminators, and none of the
    characters the request line gives a meaning. *)
Definition path_char (c : ascii) : bool := is_vchar c && negb (one_of "?#%" c).

Lemma path_char_any : ∀ c, path_char c = true → atom_matches AnyChar c = true.
Proof. by_classes. Qed.

(** The response a handler leaves. *)
Definition handled (a : string * string * Z) (r : Response console) : Prop :=
  let '(text, content_type, code) := a in
  ∃ st, r = plain_response st [("Content-Type", content_type)] text
    ∧ (st = code ∨ st = -1 ∧ code = 200).

Lemma company_json_type id : is_field_value (company_json id).1.2 = true.
Proof. unfold company_json. by repeat case_decide. Qed.

(** The world of the exchange. *)
Abbreviation lines x := (world (out x)).

Definition say_line (l : line) (x : exchange console) : exchange console :=
  x <| out ::= λ o, o <| world ::= λ w, w ++ [l] |> |>.

Lemma call_companies p id (x : exchange console) :
  matches (req x) = [p; id] → res x = response_default →
  call_handler handle_companies x =
    (Ret tt, say_line (Cout ("Received request for /companies/" +:+ id)) x
               <| res := plain_response (company_json id).2 [("Content-Type", (company_json id).1.2)]
                           (company_json id).1.1 |>).
Proof.
  pose proof (company_json_type id) as Ht. destruct x as [r ? ? [? ? ? ? ?]]. intros Hm Hr. cbn in *. subst.
  unfold call_handler, handle_companies, say_line. cbn. rewrite Hm. cbn.
  destruct (company_json id) as [[text ty] code]. cbn in *. unfold set_content, set_header. cbn.
  by rewrite Ht.
Qed.

#[local] Arguments dispatch_request : simpl never.
#[local] Arguments regex_match : simpl never.
#[local] Arguments literal : simpl never.
#[local] Arguments companies_regex : simpl never.

(** What the rest of a request does not change. *)
Definition same_request (x x' : exchange console) : Prop :=
  method (req x') = method (req x) ∧ headers (req x') = headers (req x)
  ∧ ranges (req x') = ranges (req x) ∧ sent (out x') = sent (out x) ∧ room (out x') = room (out x)
  ∧ input x' = input x.

Lemma dispatch_routes c (x : exchange console) :
  all_of path_char (path (req x)) = true → res x = response_default →
  ∃ x', dispatch_request (routes c) x = (Ret true, x')
    ∧ handled (answer c (path (req x))).2 (res x')
    ∧ lines x' = lines x ++ [(answer c (path (req x))).1]
    ∧ same_request x x'.
Proof.
  destruct x as [r rs inp [snt rm st wr w]]. cbn [req res out world]. intros Hp ->.
  unfold routes, answer. rewrite dispatch_regex. cbn. rewrite literal_match.
  set (p := path r) in *.
  destruct (decide (p = "/status")) as [Hs|Hs].
  { eexists. split; [reflexivity|]. unfold same_request. cbn. split; [|tauto]. eexists. split; [reflexivity|auto]. }
  rewrite dispatch_regex. cbn. rewrite literal_match. fold p.
  destruct (decide (p = "/company")) as [Hc|Hc].
  { eexists. split; [reflexivity|]. unfold same_request. cbn. split; [|tauto]. eexists. split; [reflexivity|auto]. }
  rewrite dispatch_regex. cbn. unfold companies_regex. rewrite prefix_group_match. fold p. cbv zeta.
  unfold company_of. set (id := suffix_from (String.length "/companies/") p).
  destruct (starts_with "/companies/" p && _ && _).
  - eexists. split; [unfold mbind, M_bind; rewrite (call_companies p id) by done; reflexivity|].
    unfold handled, same_request. cbn -[id]. destruct (company_json id) as [[text ty] code]. cbn.
    split; [|tauto]. eexists. split; [reflexivity|auto].
  - rewrite dispatch_regex. cbn. rewrite any_match. fold p.
    rewrite (all_of_impl path_char _ p path_char_any Hp).
    eexists. split; [reflexivity|]. unfold same_request. cbn. split; [|tauto]. eexists. split; [reflexivity|auto].
Qed.

(** ** The request line *)

Lemma path_char_not_nul : ∀ c, path_char c = true → negb (bool_decide (code c = 0)) = true.
Proof. by_classes. Qed.
Lemma path_char_not_space : ∀ c, path_char c = true → negb (bool_decide (c = " "%char)) = true.
Proof. by_classes. Qed.
Lemma path_char_not_blank : ∀ c, path_char c = true → negb (is_space_or_tab c) = true.
Proof. by_classes. Qed.
Lemma path_char_not_hash : ∀ c, path_char c = true → negb (bool_decide (c = "#"%char)) = true.
Proof. by_classes. Qed.
Lemma path_char_not_question : ∀ c, path_char c = true → negb (bool_decide (c = "?"%char)) = true.
Proof. by_classes. Qed.
Lemma path_char_not_percent : ∀ c, path_char c = true → negb (bool_decide (c = "%"%char)) = true.
Proof. by_classes. Qed.
Lemma path_char_line : ∀ c, path_char c = true → line_char c = true.
Proof. by_classes. Qed.

Definition get_line (path : string) : string := "GET " +:+ path +:+ " HTTP/1.1".

(** The request of a GET of a visible path. *)
Definition get_request (p : string) : Request :=
  request_default <| method := "GET" |> <| target := p |> <| version := "HTTP/1.1" |> <| path := p |>.

Lemma get_line_words p :
  all_of path_char p = true → p ≠ "" → (String.length p <= CPPHTTPLIB_REQUEST_URI_MAX_LENGTH)%nat →
  split (get_line p) " " = ["GET"; p; "HTTP/1.1"].
Proof.
  intros Hp Hne Hlen. assert (Hmax : Z.of_nat CPPHTTPLIB_REQUEST_URI_MAX_LENGTH = 8192) by reflexivity.
  rewrite split_stripped_fields by (unfold get_line; rewrite !string_length_app; cbn [String.length]; lia).
  unfold stripped_fields, get_line.
  change ("GET " +:+ p +:+ " HTTP/1.1") with ("GET" +:+ String " " (p +:+ String " " "HTTP/1.1")).
  rewrite fields_delimiter by done.
  rewrite fields_delimiter by (revert Hp; apply all_of_impl, path_char_not_space).
  change (fields " " "HTTP/1.1") with ["HTTP/1.1"].
  rewrite filter_strip, filter_strip, (strip_plain p) by (revert Hp; apply all_of_impl, path_char_not_blank).
  by rewrite (decide_False (P := p = "")).
Qed.

Lemma find_absent c s : all_of (λ x, negb (bool_decide (x = c))) s = true → find c s = None.
Proof.
  induction s as [|x s IH]; cbn; [done|]. intros [Hx%negb_true_iff%bool_decide_eq_false Hs]%andb_prop.
  by rewrite decide_False, IH.
Qed.

Lemma parse_get_line p :
  all_of path_char p = true → p ≠ "" → (String.length p <= CPPHTTPLIB_REQUEST_URI_MAX_LENGTH)%nat →
  parse_request_line (get_line p +:+ crlf) request_default = (true, get_request p).
Proof.
  intros Hp Hne Hlen. unfold parse_request_line.
  assert (Hc : c_str (get_line p +:+ crlf) = get_line p +:+ crlf).
  { apply take_while_all. unfold get_line. rewrite !all_of_app.
    by rewrite (all_of_impl _ _ p path_char_not_nul Hp). }
  rewrite Hc, ends_with_app. cbn [negb]. rewrite string_length_app. cbn [String.length crlf].
  replace (String.length (get_line p) + 2 - 2)%nat with (String.length (get_line p)) by lia.
  change (String "013" (String "010" "")) with crlf.
  rewrite prefix_of_app, get_line_words by done. cbn -[divide take_while].
  rewrite (take_while_all _ p (all_of_impl _ _ p path_char_not_hash Hp)). unfold divide.
  rewrite (find_absent "?" p) by (revert Hp; apply all_of_impl, path_char_not_question).
  rewrite decode_url_plain by (revert Hp; apply all_of_impl, path_char_not_percent).
  reflexivity.
Qed.

(** ** Header tables *)

(** The fields that change how a request is handled. *)
Definition special_fields : list string :=
  ["Connection"; "Range"; "Expect"; "Content-Length"; "Transfer-Encoding"].

Definition quiet (hs : Headers) : Prop :=
  Forall (λ kv, Forall (λ n, case_equal kv.1 n = false) special_fields) hs.

Lemma header_values_set n k v hs :
  case_equal k n = false → header_values n (set_header k v hs) = header_values n hs.
Proof.
  intros Hk. unfold set_header, emplace_header. destruct (_ && _); [|done].
  rewrite header_values_cons. cbn [fst snd]. by rewrite Hk.
Qed.

Lemma quiet_decoded hs n :
  quiet hs → n ∈ special_fields → Forall (λ kv, case_equal kv.1 n = false) (reverse (decoded <$> hs)).
Proof.
  intros Hq Hn. apply Forall_reverse, Forall_fmap. eapply Forall_impl; [exact Hq|].
  intros kv Hkv. cbn. by eapply (proj1 (Forall_forall _ _)) in Hn; [|exact Hkv].
Qed.

(** No special field in the request as it reaches the routes. *)
Definition plain_request (r : Request) : Prop := ∀ n, n ∈ special_fields → header_values n (headers r) = [].

Lemma plain_addresses a hs r :
  quiet hs → plain_request (set_addresses a (r <| headers := reverse (decoded <$> hs) |>)).
Proof.
  intros Hq n Hn. unfold set_addresses. cbn [headers].
  pose proof (quiet_decoded hs n Hq Hn) as Habs. apply header_values_absent in Habs. rewrite <- Habs.
  unfold special_fields in Hn. rewrite !elem_of_cons in Hn. cbn -[header_values set_header to_string].
  destruct_or! Hn; subst; [..|by apply elem_of_nil in Hn]; by rewrite !header_values_set.
Qed.

Lemma plain_header n r : plain_request r → n ∈ special_fields →
  has_header (headers r) n = false ∧ request_header n r = "" ∧ get_header_value (headers r) n "" 0 = "".
Proof.
  intros Hr Hn. unfold has_header, request_header, get_header_value. rewrite (Hr n Hn). done.
Qed.

Lemma plain_no_content r : plain_request r → method r = "GET" → expect_content r = false.
Proof.
  intros Hr Hm. unfold expect_content, is_chunked_transfer_encoding.
  destruct (plain_header "Content-Length" r Hr) as (-> & _); [by repeat constructor|].
  destruct (plain_header "Transfer-Encoding" r Hr) as (_ & _ & ->); [by repeat constructor|].
  rewrite Hm. reflexivity.
Qed.

(** ** The response *)

Lemma vchars_field_value s : all_of is_field_vchar s = true → is_field_value s = true.
Proof.
  assert (Hrest : ∀ s, all_of is_field_vchar s = true → s ≠ "" → field_rest s = true).
  { clear. induction s as [|c s IH]; [done|]. cbn [all_of]. intros [Hc Hs]%andb_prop _.
    destruct s as [|d s]; [done|]. cbn [field_rest]. cbn [field_rest] in IH.
    rewrite Hc, orb_true_r. by apply IH. }
  destruct s as [|c [|d [|e s]]]; [done|cbn; by rewrite andb_true_r|cbn; by rewrite andb_true_r|].
  cbn [all_of]. intros [Hc Hs]%andb_prop. unfold is_field_value, is_field_content. rewrite Hc.
  by apply Hrest.
Qed.

Lemma digit_vchar : ∀ c, isdigit c = true → is_field_vchar c = true.
Proof. by_classes. Qed.

Lemma number_field_value z : 0 <= z → is_field_value (to_string z) = true.
Proof.
  intros Hz. apply vchars_field_value. destruct (to_string_nonneg z Hz) as (Hd & _). revert Hd.
  apply all_of_impl, digit_vchar.
Qed.

(** The header fields of an answer, in the order they were set, newest first. *)
Definition answer_headers (close : bool) (text content_type : string) : Headers :=
  let connection := if close then ("Connection", "close") else ("Keep-Alive", "timeout=5, max=100") in
  if decide (text = "") then [("Content-Length", "0"); connection; ("Content-Type", content_type)]
  else [connection; ("Content-Length", to_string (Z.of_nat (String.length text))); ("Content-Type", content_type)].

Section Platform.
Context {platform : Platform console}.

Lemma apply_no_ranges r code content_type text :
  ranges r = [] →
  let rs := plain_response code [("Content-Type", content_type)] text in
  apply_ranges r rs =
  Ret ("", "", if decide (text = "") then rs
               else set_content_length (Z.of_nat (String.length text)) rs).
Proof.
  intros Hr. cbv zeta. unfold apply_ranges, byteranges_header. rewrite Hr. cbn [length andb].
  change (bool_decide (1 < 0)%nat) with false. cbn [andb]. cbn [res_body plain_response].
  destruct (decide (text = "")) as [Ht|Ht].
  - reflexivity.
  - unfold apply_ranges_to_body. rewrite Hr. by case_decide.
Qed.

Lemma answer_response c r close text content_type code :
  method r = "GET" → plain_request r →
  let rs := plain_response code [("Content-Type", content_type)] text in
  additional_headers (srv c) close r
    (if decide (text = "") then rs else set_content_length (Z.of_nat (String.length text)) rs)
  = plain_response code (answer_headers close text content_type) text.
Proof.
  intros Hm Hr. cbv zeta.
  destruct (plain_header "Connection" r Hr) as (_ & Hconn & _); [by repeat constructor|].
  unfold additional_headers, more_headers, answer_headers. rewrite Hconn, Hm. change (bool_decide ("" = "close")) with false.
  rewrite orb_false_r. destruct (decide (text = "")) as [->|Ht]; [by destruct close|].
  pose proof (number_field_value (Z.of_nat (String.length text)) ltac:(lia)) as Hn.
  unfold set_content_length. set (n := to_string _) in *. clearbody n.
  assert (Hset : response_set_header "Content-Length" n
                   (plain_response (W := console) code [("Content-Type", content_type)] text)
                 = plain_response code [("Content-Length", n); ("Content-Type", content_type)] text).
  { unfold response_set_header, set_header, plain_response. cbn [update_field]. by rewrite Hn. }
  rewrite Hset. destruct text as [|ch text]; [done|]. by destruct close.
Qed.

Lemma write_answer c close text content_type code (x : exchange console) :
  method (req x) = "GET" → plain_request (req x) → ranges (req x) = [] → room (out x) = None →
  code ≠ -1 → res x = plain_response code [("Content-Type", content_type)] text →
  ∃ x', write_response_with_content (srv c) close x = (Ret true, x')
    ∧ sent (out x') = sent (out x) +:+ write_response_line code
                  +:+ write_headers (order (answer_headers close text content_type)) +:+ text
    ∧ lines x' = lines x ∧ input x' = input x
    ∧ content_provider_resource_releaser_ (res x') = None.
Proof.
  destruct x as [r rs inp [snt rm st wr w]]. cbn [req res out room sent world input]. intros Hm Hr Hrng -> Hc ->.
  unfold write_response_with_content, write_response_core, mbind, M_bind, get_state, lift, modify, on_wire.
  cbn [req res status plain_response]. rewrite decide_False by done.
  replace (if decide (400 <= code) then handled_by (error_handler_ (srv c)) else mret false)
    with (mret (M := M (exchange console)) false) by by case_decide.
  change (call_if_set (post_routing_handler_ (srv c))) with (mret (M := M (exchange console)) tt).
  change (log_response (srv c)) with (mret (M := M (exchange console)) tt).
  unfold mret, M_ret. cbn [orb req res]. rewrite apply_no_ranges by done.
  cbn [req res update_field]. rewrite answer_response by done.
  cbn -[write_response_line write_headers String.append to_string].
  case_decide as Hlen.
  { assert (String.length (write_headers (order (answer_headers close text content_type))) = 0%nat) as Hz by lia.
    destruct (order _) as [|[k v] hs]; [done|]. cbn [write_headers] in Hz. rewrite string_length_app in Hz.
    cbn in Hz. rewrite string_length_app in Hz. lia. }
  unfold write_body, get_state, mbind, M_bind, on_wire. cbn -[write_response_line write_headers String.append].
  rewrite Hm. change (bool_decide ("GET" = "HEAD")) with false.
  case_bool_decide as Ht.
  - subst text. eexists. split; [reflexivity|].
    cbn -[write_response_line write_headers String.append]. by rewrite string_app_nil_r.
  - eexists. split; [reflexivity|]. cbn -[write_response_line write_headers String.append].
    by rewrite !string_app_assoc.
Qed.

(** ** A request from end to end *)

Lemma routed_get c (x : exchange console) :
  all_of path_char (path (req x)) = true → res x = response_default →
  method (req x) = "GET" → plain_request (req x) →
  ∃ x', routed_or_500 (srv c) x = (Ret true, x')
    ∧ handled (answer c (path (req x))).2 (res x')
    ∧ lines x' = lines x ++ [(answer c (path (req x))).1]
    ∧ same_request x x'.
Proof.
  intros Hp Hres Hm Hr. destruct (dispatch_routes c x Hp Hres) as (x' & Hd & Hrest). exists x'.
  split; [|exact Hrest]. unfold routed_or_500, try_catch, routing, route_content, dispatch_regular.
  change (handled_by (pre_routing_handler_ (srv c))) with (mret (M := M (exchange console)) false).
  unfold handle_file_request. change (base_dirs_ (srv c)) with (@nil MountPointEntry).
  cbn [file_request]. unfold mbind, M_bind, get_state, mret, M_ret. rewrite Hm.
  change (bool_decide ("GET" = "GET")) with true. cbn [orb].
  rewrite plain_no_content by done. unfold handlers_for. rewrite Hm, decide_True by tauto.
  change (get_handlers_ (srv c)) with (routes c). by rewrite Hd.
Qed.

Lemma answer_code c p : (answer c p).2.2 ≠ -1.
Proof.
  unfold answer, company_json. case_decide; [done|]. case_decide; [done|].
  destruct (company_of p); [|done]. by repeat case_decide.
Qed.

(** What a handler has left is written. *)
Lemma write_handled c close text content_type code (x : exchange console) :
  method (req x) = "GET" → plain_request (req x) → ranges (req x) = [] → room (out x) = None →
  code ≠ -1 → handled (text, content_type, code) (res x) →
  ∃ x', write_routed (srv c) close x = (Ret true, x')
    ∧ sent (out x') = sent (out x) +:+ write_response_line code
                  +:+ write_headers (order (answer_headers close text content_type)) +:+ text
    ∧ lines x' = lines x ∧ input x' = input x
    ∧ content_provider_resource_releaser_ (res x') = None.
Proof.
  intros Hm Hr Hrng Hroom Hcode (st & Hres & Hst).
  set (z := x <| res := plain_response code [("Content-Type", content_type)] text |>
              <| req ::= λ r, r <| ranges := [] |> |>).
  assert (Hz : ranges (req z) = [] ∧ method (req z) = "GET" ∧ plain_request (req z)) by done.
  destruct (write_answer c close text content_type code z) as (x' & Hx' & Hrest); [tauto..|done|done|done|].
  exists x'. split; [|exact Hrest]. rewrite <- Hx'. destruct x as [r rs inp o]. cbn in Hrng, Hres. subst rs.
  unfold write_routed, write_ranged, mbind, M_bind, get_state. cbn [res req status plain_response].
  assert (Hset : (if decide (st = -1) then set_status (if decide (ranges r = []) then 200 else 206)
                  else mret tt) (Exchange r (plain_response st [("Content-Type", content_type)] text) inp o)
    = (Ret tt, Exchange r (plain_response code [("Content-Type", content_type)] text) inp o)).
  { rewrite Hrng. destruct Hst as [->|[-> ->]]; [|reflexivity].
    by rewrite (decide_False (P := code = -1)). }
  rewrite Hset. cbn [file_content_path_ plain_response]. rewrite decide_True by done.
  cbn [res req status plain_response]. rewrite Hrng.
  unfold range_error. rewrite decide_False by (by intros [? _]). reflexivity.
Qed.

Lemma answer_plain_request c close closed (x : exchange console) :
  all_of path_char (path (req x)) = true → res x = response_default →
  method (req x) = "GET" → plain_request (req x) → room (out x) = None →
  let '(line, (text, content_type, code)) := answer c (path (req x)) in
  ∃ x', answer_request (srv c) close closed x = (Ret (true, closed), x')
    ∧ sent (out x') = sent (out x) +:+ write_response_line code
                  +:+ write_headers (order (answer_headers close text content_type)) +:+ text
    ∧ lines x' = lines x ++ [line] ∧ input x' = input x
    ∧ content_provider_resource_releaser_ (res x') = None.
Proof.
  intros Hp Hres Hm Hr Hroom. set (q := x <| req ::= λ r, r <| ranges := [] |> |>).
  destruct (routed_get c q) as (y & Hy & Hh & Hw & Hsm & Hsh & Hsr & Hss & Hsroom & Hsi); [done..|].
  change (path (req q)) with (path (req x)) in *.
  pose proof (answer_code c (path (req x))) as Hcode.
  destruct (answer c (path (req x))) as [line [[text content_type] code]]. cbn [fst snd] in *.
  destruct (write_handled c close text content_type code y) as (x' & Hx' & Hsent & Hworld & Hin & Hrel);
    [by rewrite Hsm|by intros n Hn; rewrite Hsh; apply Hr|by rewrite Hsr|by rewrite Hsroom|done..|].
  exists x'. split; [|split_and!; [by rewrite Hsent, Hss|by rewrite Hworld|by rewrite Hin|done]].
  destruct (plain_header "Range" (req x) Hr) as (Hrange & _); [by repeat constructor|].
  destruct (plain_header "Expect" (req x) Hr) as (_ & Hexpect & _); [by repeat constructor|].
  unfold answer_request, continue_100, mbind, M_bind, get_state. rewrite Hrange. unfold modify. cbv beta iota.
  fold q. change (request_header "Expect" (req q)) with (request_header "Expect" (req x)). rewrite Hexpect.
  change (bool_decide ("" = "100-continue")) with false. unfold mret, M_ret. cbn [negb].
  rewrite Hy, Hx'. done.
Qed.

End Platform.

(** The bytes of a GET request. *)
Definition get_bytes (path : string) (hs : Headers) : string :=
  get_line path +:+ crlf +:+ write_headers hs.

Lemma closes_plain hs p :
  quiet hs → closes_connection ((get_request p) <| headers := reverse (decoded <$> hs) |>) = false.
Proof.
  intros Hq. unfold closes_connection, request_header, get_header_value. cbn [headers update_field version].
  by rewrite header_values_absent by (apply quiet_decoded; [done|by repeat constructor]).
Qed.

Lemma get_answered {platform : Platform console} c path hs rest strm a (x : exchange console) :
  all_of path_char path = true → path ≠ "" →
  (String.length path <= CPPHTTPLIB_REQUEST_URI_MAX_LENGTH)%nat →
  Forall sendable hs → quiet hs →
  remaining strm = get_bytes path hs +:+ rest →
  input x = strm → room (out x) = None →
  let '(line, (text, content_type, code)) := answer c path in
  ∃ s x', server c = Ret s
    ∧ process_request s a false x = (Ret (true, false), x')
    ∧ sent (out x') = sent (out x) +:+ write_response_line code
                  +:+ write_headers (order (answer_headers false text content_type)) +:+ text
    ∧ world (out x') = world (out x) ++ [line]
    ∧ remaining (input x') = rest.
Proof.
  destruct x as [r0 rs0 inp o]. cbn [input out].
  intros Hp Hne Hlen Hhs Hq Hs -> Hroom.
  assert (Hline : all_of line_char (get_line path) = true).
  { unfold get_line. rewrite !all_of_app. by rewrite (all_of_impl _ _ path path_char_line Hp). }
  assert (Hs' : remaining strm = get_line path +:+ crlf +:+ (write_headers hs +:+ rest))
    by (rewrite Hs; unfold get_bytes; by rewrite !string_app_assoc).
  destruct (getline_line 2048 _ _ _ Hs' Hline) as (s1 & r & Hg & Hr & Hrest & _).
  destruct (read_headers_sent hs rest s1 Hhs Hrest) as (s2 & Hh & Hrest2 & _).
  set (hs' := reverse (decoded <$> hs)) in *.
  set (q := Exchange (set_addresses a ((get_request path) <| headers := hs' |>)) response_default s2 o).
  pose proof (answer_plain_request c false false q Hp eq_refl eq_refl (plain_addresses a hs _ Hq) Hroom) as Ha.
  change (HttplibMessage.path (req q)) with path in Ha.
  destruct (answer c path) as [line [[text content_type] code]].
  destruct Ha as (x' & Ha & Hsent & Hw & Hi & Hrel). exists (srv c).
  exists (x' <| out ::= λ o, o <| world ::= release (res x') |> |>). split; [apply server_routes|].
  unfold release. rewrite Hrel. split_and!; [|exact Hsent|exact Hw|change (remaining (input x') = rest); by rewrite Hi].
  unfold process_request, released, mbind, M_bind, get_state, modify. cbn [input]. rewrite Hg.
  rewrite Hr, parse_get_line by done. cbv beta iota. rewrite Hh.
  assert (Hrun : handle_request (srv c) a false true
    (Exchange ((get_request path) <| headers := hs' |>) response_default s2 o) = (Ret (true, false), x')).
  { unfold handle_request, mbind, M_bind, get_state, modify. cbn [negb].
    rewrite decide_False by (apply Nat.nlt_ge; exact Hlen). cbn [req].
    unfold hs'. rewrite closes_plain by done. exact Ha. }
  change ((Exchange r0 rs0 strm o) <| req := (get_request path) <| headers := hs' |> |> <| input := s2 |>
            <| res := response_default <| res_headers := default_headers_ (srv c) |> |>)
    with (Exchange ((get_request path) <| headers := hs' |>) response_default s2 o).
  rewrite Hrun. unfold release. by rewrite Hrel.
Qed.

(** C31 (functional): the server of BackendApi answers a GET request. The bytes
    of the request may arrive in any segments and with any header fields but
    the five that change how a request is handled; the response is the one
    [answer] gives for the path, with its length and type, the console gets
    one line, the connection stays open and what follows the request stays in
    the stream. *)
Theorem backend_answers {platform : Platform console} c path hs rest strm a (x : exchange console) :
  all_of path_char path = true → path ≠ "" →
  (String.length path <= CPPHTTPLIB_REQUEST_URI_MAX_LENGTH)%nat →
  Forall sendable hs → quiet hs →
  remaining strm = get_bytes path hs +:+ rest →
  input x = strm → room (out x) = None →
  let '(line, (text, content_type, code)) := answer c path in
  ∃ s x', server c = Ret s
    ∧ process_request s a false x = (Ret (true, false), x')
    ∧ sent (out x') = sent (out x) +:+ write_response_line code
                  +:+ write_headers (order (answer_headers false text content_type)) +:+ text
    ∧ world (out x') = world (out x) ++ [line]
    ∧ remaining (input x') = rest.
Proof. apply get_answered. Qed.

(** ** Any request *)

Lemma say_returns l (P : Response console → Prop) :
  returns (λ rw, P rw.1) (say l) (λ _ rw, P rw.1).
Proof. intros [r w] Hr. by do 2 eexists. Qed.

Lemma update_returns (f : Response console → Response console) P Q :
  (∀ r, P r → Q r) → (∀ r, Q r → Q (f r)) →
  returns (λ rw, P rw.1) (update_local (W := console) f) (λ _ rw, Q rw.1).
Proof. intros HP HQ [r w] Hr. do 2 eexists. split; [done|]. cbn in *. auto. Qed.

Lemma routes_plain c : routes_ok (routes c).
Proof.
  unfold routes_ok, routes.
  assert (Hset : ∀ s t r, body_only r → body_only (set_content (W := console) s t r)) by done.
  assert (Hst : ∀ n r, body_only r → body_only ((r : Response console) <| status := n |>)) by done.
  assert (Htwo : ∀ l (f g : Response console → Response console),
    (∀ r, body_only r → body_only (f r)) → (∀ r, body_only r → body_only (g r)) →
    no_ub (λ rw, body_only rw.1) (say l;; update_local f;; update_local g) (λ _ rw, body_only rw.1)
      (λ rw, body_only rw.1)).
  { intros l f g Hf Hg. apply no_ub_returns.
    eapply returns_bind; [apply say_returns|]. intros []. eapply returns_bind; [by apply update_returns|].
    intros []. by apply update_returns. }
  assert (Hone : ∀ l (f : Response console → Response console),
    (∀ r, body_only r → body_only (f r)) →
    no_ub (λ rw, body_only rw.1) (say l;; update_local f) (λ _ rw, body_only rw.1) (λ rw, body_only rw.1)).
  { intros l f Hf. apply no_ub_returns.
    eapply returns_bind; [apply say_returns|]. intros []. by apply update_returns. }
  apply Forall_cons_2; [|apply Forall_cons_2; [|apply Forall_cons_2; [|apply Forall_cons_2; [|apply Forall_nil_2]]]];
    intros q; cbn [snd].
  - by apply Hone, Hset.
  - by apply Hone, Hset.
  - unfold handle_companies. destruct (company_json _) as [[text ty] code]. by apply Htwo; [apply Hset|apply Hst].
  - by apply Htwo; [apply Hst|apply Hset].
Qed.

Lemma srv_ok c : server_ok (srv c).
Proof.
  split; try done.
  - intros m hs. unfold handlers_for. case_decide; [intros [= <-]; apply routes_plain|].
    repeat (case_decide; [intros [= <-]; constructor|]). done.
  - intros m. unfold reader_handlers_for. by repeat case_decide.
Qed.

(** C37 (safety): the server of BackendApi processes every connection to its end.
    Whatever bytes a client sends, in whatever segments, on however many
    requests, and wherever the connection breaks, no assertion of the library
    fails, no invalid iterator is used and no exception leaves the worker. *)
Theorem backend_survives {platform : Platform console} c a arrivals (x : exchange console) :
  ∃ s b x', server c = Ret s ∧ process_server_socket s a arrivals x = (Ret b, x').
Proof.
  exists (srv c). destruct (connection_total (srv c) a 100 false arrivals (srv_ok c) x I) as (b & x' & Hx & _).
  exists b, x'. split; [apply server_routes|exact Hx].
Qed.

(** A request for a company, in two segments. *)
Definition example_config : config := Config 9001 "DefaultCompany Inc." "up".
Definition example_fields : Headers := [("Host", "localhost:9001"); ("Accept", "*/*")].
Definition example_bytes : string := get_bytes "/companies/12345" example_fields.
Definition example_input : stream := Stream [prefix_of 7 example_bytes; suffix_from 7 example_bytes] false.
Definition example_exchange : exchange console :=
  (connection (Wire "" None [] [] [])) <| input := example_input |>.
Definition example_addresses : addresses := Addresses ("127.0.0.1", 40000) ("127.0.0.1", 9001).

(** No files. *)
Definition example_platform : Platform console :=
  {| order h := h; random_boundary := "b"; file_stat _ _ := None; mmap _ _ := None |}.

Lemma example_fields_sendable : Forall sendable example_fields.
Proof. repeat (constructor; [repeat split; apply (bool_decide_unpack _); vm_compute; exact I|]). constructor. Qed.

Lemma backend_answers_witness :
  ∃ s x', server example_config = Ret s
    ∧ process_request (platform := example_platform) s example_addresses false example_exchange
      = (Ret (true, false), x')
    ∧ sent (out x') = "" +:+ write_response_line 200
                +:+ write_headers [("Keep-Alive", "timeout=5, max=100"); ("Content-Length", "53");
                                   ("Content-Type", "application/x-company-v1")]
                +:+ json "{'cn': 'ABCDE', 'created_on' :'1786-06-30T06:23:14Z'}"
    ∧ world (out x') = [Cout "Received request for /companies/12345"]
    ∧ remaining (input x') = "".
Proof.
  apply (backend_answers (platform := example_platform) example_config "/companies/12345" example_fields ""
           example_input example_addresses example_exchange).
  - reflexivity.
  - discriminate.
  - apply (bool_decide_unpack _). vm_compute. exact I.
  - exact example_fields_sendable.
  - repeat constructor.
  - vm_compute. reflexivity.
  - reflexivity.
  - reflexivity.
Defined.
