(* ===== verification/BackendClientProps.v ===== *)
(** * A client of httplib and the stand-in backend

    The bytes a client sends for a path are a request the server of BackendApi
    answers, and the bytes of the answer are a response the client reads. *)

From S2P Require Import Prelude HttplibClient HttplibClientSend HttplibClientMethods HttplibClientReads.
Import ClientImpl.
From S2P Require Import Text TextFacts HttplibText HttplibUrl HttplibStream HttplibStreamProps.
From S2P Require Import HttplibContent HttplibMessage HttplibServer BackendApi BackendApiProps.
Import BackendApi.

(** ** Header tables in another order *)

Lemma header_values_perm n hs hs' : hs ≡ₚ hs' → header_values n hs ≡ₚ header_values n hs'.
Proof. intros H. unfold header_values. by rewrite H. Qed.

Lemma header_values_perm_short n hs hs' :
  hs ≡ₚ hs' → (length (header_values n hs') <= 1)%nat → header_values n hs = header_values n hs'.
Proof.
  intros H%(header_values_perm n). destruct (header_values n hs') as [|v [|w vs]]; cbn; intros Hl; [| |lia].
  - by apply Permutation_nil_r.
  - by apply Permutation_singleton_r.
Qed.

(** ** Decimal numbers are short *)

Lemma pretty_N_go_length k x s : (x < 10 ^ N.of_nat k)%N →
  (String.length (pretty_N_go x s) <= k + String.length s)%nat.
Proof.
  revert x s. induction k as [|k IH]; intros x s Hx.
  - assert (x = 0)%N as -> by (cbn in Hx; lia). by rewrite pretty_N_go_0.
  - assert (x = 0 ∨ 0 < x)%N as [->|Hp] by lia; [rewrite pretty_N_go_0; lia|].
    rewrite pretty_N_go_step by done. etrans; [apply IH|cbn; lia].
    apply N.Div0.div_lt_upper_bound. rewrite Nat2N.inj_succ, N.pow_succ_r' in Hx. lia.
Qed.

Lemma pretty_N_length (x : N) : (x < 10 ^ 19)%N → (String.length (pretty x) <= 19)%nat.
Proof.
  intros Hx. unfold pretty, pretty_N. case_decide; [cbn; lia|]. by apply (pretty_N_go_length 19).
Qed.

Lemma number_length z : 0 <= z <= max_size → (String.length (to_string z) <= 19)%nat.
Proof.
  intros [H0 Hz]. destruct z as [|p|p]; [cbn; lia| |lia]. apply (pretty_N_length (N.pos p)).
  unfold max_size in Hz. cbn. lia.
Qed.

Lemma digit_not_percent : ∀ c, isdigit c = true → negb (bool_decide (c = "%"%char)) = true.
Proof. by_classes. Qed.

(** ** What the client sends is a request for the backend *)

Section Client.
Context {W : Type} {platform : Platform W} (Horder : ∀ hs, order hs ≡ₚ hs).
#[local] Set Default Proof Using "Type*".

Lemma fields_sendable host port :
  let c := kept host port : t W in
  is_field_value (host_value c) = true → (String.length (host_value c) <= 1024)%nat →
  Forall sendable (order (request_fields c)) ∧ quiet (order (request_fields c)).
Proof.
  intros c Hh Hl. unfold quiet. rewrite !Horder. split.
  - repeat (constructor; [repeat split; apply (bool_decide_unpack _); vm_compute; exact I|]).
    constructor; [|constructor]. repeat split; [done|]. cbn [fst snd]. rewrite !string_length_app. cbn -[Nat.le]. 
    unfold CPPHTTPLIB_HEADER_MAX_LENGTH. lia.
  - repeat constructor.
Qed.

End Client.

(** ** What the backend answers is a response for the client *)

Definition readable_answer (a : string * string * Z) : Prop :=
  (100 < a.2 < 1000 ∧ a.2 ≠ 204 ∧ a.2 ≠ 304) ∧ sendable ("Content-Type", a.1.2)
  ∧ decoded ("Content-Type", a.1.2) = ("Content-Type", a.1.2) ∧ c_str a.1.2 = a.1.2.

Lemma answer_plain c path : readable_answer (answer c path).2.
Proof.
  assert (Hs : ∀ ct, ct ∈ ["text/plain"; "application/x-company-v1"; "application/x-company-v2"; "application/json"] →
    sendable ("Content-Type", ct) ∧ decoded ("Content-Type", ct) = ("Content-Type", ct) ∧ c_str ct = ct).
  { intros ct. rewrite !elem_of_cons, elem_of_nil.
    intros Hct. destruct_or! Hct; try done; subst;
      (split; [repeat split; apply (bool_decide_unpack _); vm_compute; exact I|done]). }
  assert (Hc : ∀ text ct code, ct ∈ ["text/plain"; "application/x-company-v1"; "application/x-company-v2"; "application/json"]
    → code ∈ [200; 404] → readable_answer (text, ct, code)).
  { intros text ct code (H1 & H2 & H3)%Hs Hcode. rewrite !elem_of_cons, elem_of_nil in Hcode. by destruct_or! Hcode; subst. }
  unfold answer, company_json. do 2 (case_decide; [apply Hc; set_solver|]).
  destruct (company_of path); [|apply Hc; set_solver]. repeat case_decide; apply Hc; set_solver.
Qed.

Lemma decoded_all hs : Forall (λ kv, decoded kv = kv) hs → decoded <$> hs = hs.
Proof. induction 1 as [|kv hs Hkv _ IH]; [done|]. by rewrite fmap_cons, Hkv, IH. Qed.

(** The fields the backend sends, in whatever order. *)
Lemma answer_readable {platform : Platform console} (Horder : ∀ hs, order hs ≡ₚ hs) text content_type code :
  readable_answer (text, content_type, code) → Z.of_nat (String.length text) <= max_size →
  let hs := order (answer_headers false text content_type) in
  readable code hs text ∧ header_values "Connection" hs = []
  ∧ header_values "Content-Type" hs = [content_type].
Proof.
  intros (Hc & Hct & Hd & _) Hl hs.
  set (n := to_string (Z.of_nat (String.length text))).
  assert (Hhs : hs ≡ₚ [("Content-Length", n); ("Keep-Alive", "timeout=5, max=100"); ("Content-Type", content_type)]).
  { subst hs n. rewrite Horder. unfold answer_headers. case_decide as Ht; [by subst|apply perm_swap]. }
  assert (Hn : sendable ("Content-Length", n)).
  { repeat split; cbn [fst snd]; [by apply number_field_value; lia|].
    rewrite string_length_app. pose proof (number_length (Z.of_nat (String.length text))).
    fold n in H. cbn. unfold CPPHTTPLIB_HEADER_MAX_LENGTH. lia. }
  assert (Hnd : decoded ("Content-Length", n) = ("Content-Length", n)).
  { unfold decoded. cbn [fst snd]. rewrite decode_url_plain; [done|].
    destruct (to_string_nonneg (Z.of_nat (String.length text))) as [Hdig _]; [lia|].
    revert Hdig. apply all_of_impl, digit_not_percent. }
  assert (Hv : ∀ name vs, header_values name [("Content-Length", n); ("Keep-Alive", "timeout=5, max=100");
      ("Content-Type", content_type)] = vs → (length vs <= 1)%nat → header_values name hs = vs).
  { intros name vs <- Hle. by apply header_values_perm_short. }
  split_and!; [constructor|apply Hv; [done|cbn; lia]|apply Hv; [done|cbn; lia]].
  - exact Hc.
  - rewrite Hhs. constructor; [exact Hn|]. constructor; [|by constructor].
    repeat split; apply (bool_decide_unpack _); vm_compute; exact I.
  - apply decoded_all. rewrite Hhs. by repeat constructor.
  - apply Hv; [done|cbn; lia].
  - split; (apply Hv; [done|cbn; lia]).
  - exact Hl.
Qed.

(** C32 (functional): a client of httplib gets from the stand-in backend what the
    handler of the path has set. The bytes a [Get] of a path without escapes
    sends are a request the server processes, and keeps the connection; and
    when the server's bytes come back, in whatever segments, the client's
    result has the status, the body and the content type of the handler, no
    error, and the client keeps its socket. Neither side depends on the order
    in which hash tables print their fields. *)
Theorem backend_serves_client {W} {client_platform : Platform W} {platform : Platform console}
    (c : config) path host port (a : addresses) :
  (∀ hs, order (Platform := client_platform) hs ≡ₚ hs) → (∀ hs, order (Platform := platform) hs ≡ₚ hs) →
  all_of path_char path = true → path ≠ "" → (String.length path <= CPPHTTPLIB_REQUEST_URI_MAX_LENGTH)%nat →
  encode_url path = path →
  is_field_value (host_value (W := W) (kept host port)) = true →
  (String.length (host_value (W := W) (kept host port)) <= 1024)%nat →
  let '(line, (text, content_type, code)) := answer c path in
  Z.of_nat (String.length text) <= max_size →
  ∃ s request answer_bytes, server c = Ret s
    ∧ (∀ x, remaining (input x) = request → room (out x) = None →
       ∃ x', process_request s a false x = (Ret (true, false), x')
         ∧ sent (out x') = sent (out x) +:+ answer_bytes ∧ world (out x') = world (out x) ++ [line]
         ∧ remaining (input x') = "")
    ∧ (∀ resp sock (n : net W), remaining resp = answer_bytes →
       head (connects n) = Some (inl sock) → head (arrivals sock) = Some resp → room_ sock = None → ClientImpl.stops n = [] →
       ∃ r hs c', ClientMethods.Get path [] None (kept host port, n)
           = (Ret (MkResult (Some r) Success hs), (c', after_connect (kept host port) n))
         ∧ status (response r) = code ∧ res_body (response r) = text
         ∧ get_header_value (res_headers (response r)) "Content-Type" "" 0 = content_type
         ∧ socket_ c' = Some (exchanged request sock)).
Proof.
  intros Hcl Hsv Hp Hne Hlen Henc Hh Hhl.
  pose proof (get_answered c path (order (Platform := client_platform) (request_fields (W := W) (kept host port))) "") as Hserve.
  pose proof (answer_plain c path) as Hplain.
  destruct (answer c path) as [line [[text content_type] code]]. cbn [snd] in Hplain. intros Hsize.
  destruct (fields_sendable Hcl host port Hh Hhl) as [Hsend Hquiet].
  destruct (answer_readable Hsv text content_type code Hplain Hsize) as (Hread & Hconn & Hct).
  exists (srv c), (get_text (platform := client_platform) path (request_fields (W := W) (kept host port))).
  exists (response_bytes code (order (answer_headers false text content_type)) text).
  split; [apply server_routes|]. split.
  - intros x Hx Hroom.
    destruct (Hserve (input x) a x Hp Hne Hlen Hsend Hquiet) as (s & x' & Hs & Hrun & Hrest); [|done|done|].
    + rewrite Hx, string_app_nil_r. unfold get_text, get_bytes, get_line. by rewrite Henc, !string_app_assoc.
    + rewrite server_routes in Hs. injection Hs as <-. by exists x'.
  - intros resp sock n Hresp Hn Ha Hroom Hstop.
    destruct (send_get host port path code (order (answer_headers false text content_type)) text "" resp sock n)
      as (s & Hget); [done|done| |done..|by rewrite Hresp, string_app_nil_r|].
    { by apply Permutation_nil_r, Hcl. }
    rewrite get_of_send, Hget.
    do 3 eexists. split; [reflexivity|]. split_and!; [done..| |done].
    change (get_header_value (reverse (order (answer_headers false text content_type))) "Content-Type" "" 0 = content_type).
    unfold get_header_value. rewrite header_values_reverse, Hct. apply Hplain.
Qed.

(** The example company, from localhost. *)
Lemma backend_serves_client_witness :
  ∃ s request answer_bytes, server example_config = Ret s
    ∧ (∀ x, remaining (input x) = request → room (out x) = None →
       ∃ x', process_request (platform := example_platform) s example_addresses false x = (Ret (true, false), x')
         ∧ sent (out x') = sent (out x) +:+ answer_bytes
         ∧ world (out x') = world (out x) ++ [Cout "Received request for /companies/12345"]
         ∧ remaining (input x') = "")
    ∧ (∀ resp sock (n : net unit), remaining resp = answer_bytes →
       head (connects n) = Some (inl sock) → head (arrivals sock) = Some resp → room_ sock = None →
       ClientImpl.stops n = [] →
       ∃ r hs c', ClientMethods.Get (platform := plain_network) "/companies/12345" [] None (kept "localhost" 9001, n)
           = (Ret (MkResult (Some r) Success hs), (c', after_connect (kept "localhost" 9001) n))
         ∧ status (response r) = 200
         ∧ res_body (response r) = json "{'cn': 'ABCDE', 'created_on' :'1786-06-30T06:23:14Z'}"
         ∧ get_header_value (res_headers (response r)) "Content-Type" "" 0 = "application/x-company-v1"
         ∧ socket_ c' = Some (exchanged request sock)).
Proof.
  apply (backend_serves_client (client_platform := plain_network) (platform := example_platform) example_config
           "/companies/12345" "localhost" 9001 example_addresses).
  - intros hs. reflexivity.
  - intros hs. reflexivity.
  - reflexivity.
  - discriminate.
  - apply (bool_decide_unpack _). vm_compute. exact I.
  - reflexivity.
  - reflexivity.
  - apply (bool_decide_unpack _). vm_compute. exact I.
  - vm_compute. discriminate.
Defined.
